(** * Cyberia 2000 networked physics: server tick, chunk streaming,
      input acknowledgment, vehicle occupancy, client reconciliation and
      remote smoothing.

    The JavaScript sources are embedded shallowly.  JavaScript numbers that
    carry physical quantities (positions, velocities, times) are idealised
    as real numbers; sequence numbers, tick counters and chunk coordinates
    are integers.  A JavaScript [Map] is an association list in insertion
    order, because the sources iterate over their maps and the order of
    iteration decides the order of the work queues.  Every object that the
    sources reach through a reference (a Rapier rigid body, a collider) is
    a handle into an explicit store.

    What lies outside the repository (the Rapier engine, [Math.random],
    the clock) and the procedural noise functions, which the managers
    use only as an oracle, are collected in one record of parameters,
    [Env]. *)

From Stdlib Require Import List String Ascii ZArith Reals Lra Lia Bool.
From Stdlib Require Import Zfloor DecimalString.
Import ListNotations.

Set Implicit Arguments.

Local Open Scope string_scope.
Local Open Scope list_scope.
Local Open Scope R_scope.

(* ================================================================== *)
(** * Part I. Definitions *)
(* ================================================================== *)

(** ** JavaScript primitives *)

Class EqDec (K : Type) := eq_dec : forall a b : K, {a = b} + {a <> b}.

#[export] Instance string_EqDec : EqDec string := string_dec.
#[export] Instance nat_EqDec : EqDec nat := Nat.eq_dec.
#[export] Instance Z_EqDec : EqDec Z := Z.eq_dec.
#[export] Instance prod_EqDec {A B} `{EqDec A} `{EqDec B} : EqDec (A * B).
Proof.
  intros [a b] [a' b'].
  destruct (eq_dec a a') as [->|Ha]; [|right; congruence].
  destruct (eq_dec b b') as [->|Hb]; [left; reflexivity|right; congruence].
Defined.

#[export] Instance option_EqDec {A} `{EqDec A} : EqDec (option A).
Proof.
  intros [a|] [b|]; try (right; discriminate); [|left; reflexivity].
  destruct (eq_dec a b) as [->|Hab]; [left; reflexivity|right; congruence].
Defined.

Definition eqb {K} `{EqDec K} (a b : K) : bool :=
  if eq_dec a b then true else false.

(** [a < b] and [a > b] on numbers, as the boolean the sources branch on. *)
Definition Rltb (a b : R) : bool := if Rlt_dec a b then true else false.
Definition Rgtb (a b : R) : bool := Rltb b a.
Definition Rleb (a b : R) : bool := if Rle_dec a b then true else false.

(** Decimal rendering of an integer inside a template string. *)
Definition string_of_Z (z : Z) : string := NilZero.string_of_int (Z.to_int z).

(** A [Map], in insertion order.  [set] on a present key replaces the
    value in place; on an absent key it appends. *)
Module JsMap.
Section Ops.
Context {K V : Type} `{EqDec K}.

Definition t := list (K * V).

Fixpoint get (k : K) (m : list (K * V)) : option V :=
  match m with
  | [] => None
  | (k', v) :: r => if eq_dec k k' then Some v else get k r
  end.

Definition has (k : K) (m : list (K * V)) : bool :=
  match get k m with Some _ => true | None => false end.

Fixpoint set (k : K) (v : V) (m : list (K * V)) : list (K * V) :=
  match m with
  | [] => [(k, v)]
  | (k', v') :: r =>
      if eq_dec k k' then (k, v) :: r else (k', v') :: set k v r
  end.

Fixpoint delete (k : K) (m : list (K * V)) : list (K * V) :=
  match m with
  | [] => []
  | (k', v') :: r => if eq_dec k k' then r else (k', v') :: delete k r
  end.

Definition keys (m : list (K * V)) : list K := map fst m.
Definition values (m : list (K * V)) : list V := map snd m.
Definition size (m : list (K * V)) : nat := List.length m.
End Ops.
End JsMap.

(** A [Set], in insertion order; also [Array.prototype.includes]. *)
Module JsSet.
Section Ops.
Context {K : Type} `{EqDec K}.

Fixpoint has (k : K) (s : list K) : bool :=
  match s with
  | [] => false
  | k' :: r => if eq_dec k k' then true else has k r
  end.

Definition add (k : K) (s : list K) : list K :=
  if has k s then s else s ++ [k].

Fixpoint delete (k : K) (s : list K) : list K :=
  match s with
  | [] => []
  | k' :: r => if eq_dec k k' then r else k' :: delete k r
  end.
End Ops.
End JsSet.

(** ** Vectors *)

Record Vec3 := mkVec3 { vx : R; vy : R; vz : R }.
Record Quat := mkQuat { qx : R; qy : R; qz : R; qw : R }.

Definition vec0 : Vec3 := mkVec3 0 0 0.
Definition quatId : Quat := mkQuat 0 0 0 1.

(** The methods of [THREE.Vector3] the client uses. *)
Module Vector3.
Definition distanceToSquared (a b : Vec3) : R :=
  (vx a - vx b) * (vx a - vx b) + (vy a - vy b) * (vy a - vy b)
  + (vz a - vz b) * (vz a - vz b).
Definition distanceTo (a b : Vec3) : R := sqrt (distanceToSquared a b).
(** [this.lerp(v, alpha)] *)
Definition lerp (this v : Vec3) (alpha : R) : Vec3 :=
  mkVec3 (vx this + (vx v - vx this) * alpha)
         (vy this + (vy v - vy this) * alpha)
         (vz this + (vz v - vz this) * alpha).
(** [this.lerpVectors(v1, v2, alpha)] *)
Definition lerpVectors (v1 v2 : Vec3) (alpha : R) : Vec3 :=
  mkVec3 (vx v1 + (vx v2 - vx v1) * alpha)
         (vy v1 + (vy v2 - vy v1) * alpha)
         (vz v1 + (vz v2 - vz v1) * alpha).
(** [this.addScaledVector(v, s)] *)
Definition addScaledVector (this v : Vec3) (s : R) : Vec3 :=
  mkVec3 (vx this + vx v * s) (vy this + vy v * s) (vz this + vz v * s).
Definition length (v : Vec3) : R :=
  sqrt (vx v * vx v + vy v * vy v + vz v * vz v).
End Vector3.

(** ** shared/config.js *)

Module CONFIG.
(** [CONFIG.world] *)
Definition chunkSize : R := 200.
Definition terrainResolution : Z := 32.
Definition renderResolution : Z := 64.
Definition serverChunkRadius : Z := 3.
Definition gravity : R := -30.

(** [CONFIG.physics.player] *)
Definition playerHeight : R := 17 / 10.
Definition playerRadius : R := 4 / 10.

(** [CONFIG.movement] *)
Definition walkSpeed : R := 5.
Definition runSpeed : R := 10.
Definition crouchSpeed : R := 25 / 10.
Definition jumpForce : R := 10.
Definition airControl : R := 3 / 10.
Definition maxStamina : R := 100.
Definition staminaDrainRate : R := 15.
Definition staminaRegenRate : R := 20.

(** [CONFIG.network] *)
Definition tickRate : Z := 30.
Definition inputBufferSize : nat := 64.
Definition snapshotBufferSize : nat := 32.

(** [CONFIG.physics.vehicle[vehicleType]]: the fields that place the
    body; an unknown type has no entry. *)
Record VehicleConfig := {
  sizeX : R; sizeY : R; sizeZ : R;   (* chassisSize, or bodySize *)
  wheelRadius : R;
  suspensionRestLength : R;
  hoverHeight : R
}.

Definition vehicle (vehicleType : string) : option VehicleConfig :=
  if eqb vehicleType "car" then
    Some {| sizeX := 2; sizeY := 8 / 10; sizeZ := 45 / 10;
            wheelRadius := 4 / 10; suspensionRestLength := 3 / 10;
            hoverHeight := 0 |}
  else if eqb vehicleType "truck" then
    Some {| sizeX := 25 / 10; sizeY := 12 / 10; sizeZ := 7;
            wheelRadius := 6 / 10; suspensionRestLength := 4 / 10;
            hoverHeight := 0 |}
  else if eqb vehicleType "motorcycle" then
    Some {| sizeX := 5 / 10; sizeY := 6 / 10; sizeZ := 2;
            wheelRadius := 35 / 100; suspensionRestLength := 2 / 10;
            hoverHeight := 0 |}
  else if eqb vehicleType "tank" then
    Some {| sizeX := 35 / 10; sizeY := 15 / 10; sizeZ := 75 / 10;
            wheelRadius := 0; suspensionRestLength := 0;
            hoverHeight := 0 |}
  else if eqb vehicleType "helicopter" then
    Some {| sizeX := 25 / 10; sizeY := 2; sizeZ := 8;
            wheelRadius := 0; suspensionRestLength := 0;
            hoverHeight := 0 |}
  else if eqb vehicleType "hovercraft" then
    Some {| sizeX := 3; sizeY := 1; sizeZ := 5;
            wheelRadius := 0; suspensionRestLength := 0;
            hoverHeight := 5 / 10 |}
  else None.
End CONFIG.

(** ** The Rapier engine, as far as the wrapper drives it

    A rigid body or a collider object held by the JavaScript code is a
    handle into the world's stores.  [createRigidBody] and
    [createCollider] always allocate a fresh handle; removing a rigid
    body removes the colliders attached to it. *)

Module RAPIER.
Record RigidBody := {
  translation : Vec3;
  rotation : Quat;
  linvel : Vec3;
  angvel : Vec3;
  enabled : bool;
  force : Vec3;      (* accumulated by addForce, consumed by step *)
  torque : Vec3
}.

Record Collider := {
  parent : option nat;     (* the rigid body it is attached to *)
  collisionGroups : Z
}.

Record World := {
  rigidBodies : list (nat * RigidBody);
  colliderSet : list (nat * Collider);
  nextHandle : nat
}.

Record RayHit := { toi : R; collider : nat; normal : option Vec3 }.

Definition newWorld : World :=
  {| rigidBodies := []; colliderSet := []; nextHandle := 0 |}.

(** [RigidBodyDesc.dynamic().setTranslation(..).setRotation(..)] *)
Definition dynamic (p : Vec3) (q : Quat) : RigidBody :=
  {| translation := p; rotation := q; linvel := vec0; angvel := vec0;
     enabled := true; force := vec0; torque := vec0 |}.

Definition createRigidBody (desc : RigidBody) (w : World) : nat * World :=
  (nextHandle w,
   {| rigidBodies := rigidBodies w ++ [(nextHandle w, desc)];
      colliderSet := colliderSet w;
      nextHandle := S (nextHandle w) |}).

Definition createCollider (desc : Collider) (w : World) : nat * World :=
  (nextHandle w,
   {| rigidBodies := rigidBodies w;
      colliderSet := colliderSet w ++ [(nextHandle w, desc)];
      nextHandle := S (nextHandle w) |}).

Definition attachedTo (h : nat) (c : nat * Collider) : bool :=
  match parent (snd c) with Some p => eqb p h | None => false end.

Definition removeRigidBody (h : nat) (w : World) : World :=
  {| rigidBodies := JsMap.delete h (rigidBodies w);
     colliderSet := filter (fun c => negb (attachedTo h c)) (colliderSet w);
     nextHandle := nextHandle w |}.

Definition removeCollider (c : nat) (w : World) : World :=
  {| rigidBodies := rigidBodies w;
     colliderSet := JsMap.delete c (colliderSet w);
     nextHandle := nextHandle w |}.

(** Writing through a body object: the body at handle [h] is replaced. *)
Definition updateBody (h : nat) (f : RigidBody -> RigidBody) (w : World)
  : World :=
  {| rigidBodies :=
       map (fun e => if eqb (fst e) h then (fst e, f (snd e)) else e)
           (rigidBodies w);
     colliderSet := colliderSet w;
     nextHandle := nextHandle w |}.

Definition setLinvel (v : Vec3) (b : RigidBody) : RigidBody :=
  {| translation := translation b; rotation := rotation b; linvel := v;
     angvel := angvel b; enabled := enabled b; force := force b;
     torque := torque b |}.

Definition setTranslation (p : Vec3) (b : RigidBody) : RigidBody :=
  {| translation := p; rotation := rotation b; linvel := linvel b;
     angvel := angvel b; enabled := enabled b; force := force b;
     torque := torque b |}.

Definition setEnabled (e : bool) (b : RigidBody) : RigidBody :=
  {| translation := translation b; rotation := rotation b;
     linvel := linvel b; angvel := angvel b; enabled := e;
     force := force b; torque := torque b |}.
End RAPIER.

(** ** Procedural content, as generated by shared/terrain-noise.js *)

Record BuildingDesc := {
  bd_x : R; bd_y : R; bd_z : R;
  bd_width : R; bd_height : R; bd_depth : R;
  bd_rotation : R
}.

(** ** What the embedding takes as given

    The noise functions are pure functions of the world seed; the ray
    cast and the integration step belong to the engine.  The step is
    given per body, so that stepping keeps the set of bodies, as the
    engine does.  The per-type vehicle force models are a function of
    the vehicle's own body and wheel states: in the source each of them
    reads and writes only the entity it is called for. *)

Record WheelState := {
  ws_position : Vec3;
  ws_steering : bool;
  ws_powered : bool;
  ws_suspensionLength : R;
  ws_suspensionVelocity : R;
  ws_groundContact : bool;
  ws_rotation : R;
  ws_steerAngle : R
}.

Record VehicleInput := {
  throttle : R; brake : R; steering : R; handbrake : bool;
  collective : R; pitch : R; roll : R; vi_yaw : R
}.

Record Env := {
  getTerrainHeight : R -> R -> R;
  getCityInfluence : R -> R -> R;
  getBiomeAt : R -> R -> string;
  generateChunkHeightmap : Z -> Z -> Z -> list R;
  getCityBuildings : Z -> Z -> list BuildingDesc;
  castRay : RAPIER.World -> Vec3 -> Vec3 -> R -> Z -> option RAPIER.RayHit;
  integrate : RAPIER.World -> nat -> RAPIER.RigidBody -> RAPIER.RigidBody;
  forceModel : string -> bool -> VehicleInput -> R -> RAPIER.World ->
               RAPIER.RigidBody * option (list WheelState) ->
               RAPIER.RigidBody * option (list WheelState)
}.

(** ** Calls that throw

    A method that reads a property of [undefined] or of [null], or that
    calls what is no function, throws a [TypeError].  [TypeError a] is
    such a call, with the state [a] that the object is left in when the
    exception leaves the method; [Ok a] is a call that returns. *)

Inductive Result (A : Type) :=
| Ok (a : A)
| TypeError (a : A).
Arguments Ok {A} a.
Arguments TypeError {A} a.

Definition bind {A} (r : Result A) (f : A -> Result A) : Result A :=
  match r with Ok a => f a | TypeError a => TypeError a end.

(** The state that a call leaves behind, whether it returned or threw. *)
Definition leftIn {A} (r : Result A) : A :=
  match r with Ok a | TypeError a => a end.

(** ** server/physics-world.js *)

Module PhysicsWorld.
Inductive EntityData :=
| PlayerData (ownerId : string) (grounded : bool) (groundNormal : Vec3)
| VehicleData (vehicleType : string) (ownerId : option string)
              (driverId : option string)
              (wheelStates : option (list WheelState))
| BuildingData (position : Vec3) (width height depth : R).

Record TerrainChunk := {
  tc_collider : nat;
  tc_heightmap : list R;
  tc_chunkX : Z;
  tc_chunkZ : Z
}.

Record t := {
  world : RAPIER.World;
  initialized : bool;
  bodies : list (string * nat);              (* entityId -> rigidBody *)
  colliders : list (string * list nat);      (* entityId -> collider[] *)
  entityData : list (string * EntityData);
  terrainChunks : list ((Z * Z) * TerrainChunk)
}.

Definition withWorld (w : RAPIER.World) (pw : t) : t :=
  {| world := w; initialized := initialized pw; bodies := bodies pw;
     colliders := colliders pw; entityData := entityData pw;
     terrainChunks := terrainChunks pw |}.
Definition withBodies (b : list (string * nat)) (pw : t) : t :=
  {| world := world pw; initialized := initialized pw; bodies := b;
     colliders := colliders pw; entityData := entityData pw;
     terrainChunks := terrainChunks pw |}.
Definition withColliders (c : list (string * list nat)) (pw : t) : t :=
  {| world := world pw; initialized := initialized pw; bodies := bodies pw;
     colliders := c; entityData := entityData pw;
     terrainChunks := terrainChunks pw |}.
Definition withEntityData (d : list (string * EntityData)) (pw : t) : t :=
  {| world := world pw; initialized := initialized pw; bodies := bodies pw;
     colliders := colliders pw; entityData := d;
     terrainChunks := terrainChunks pw |}.
Definition withTerrainChunks (c : list ((Z * Z) * TerrainChunk)) (pw : t)
  : t :=
  {| world := world pw; initialized := initialized pw; bodies := bodies pw;
     colliders := colliders pw; entityData := entityData pw;
     terrainChunks := c |}.

(** The state after [new PhysicsWorld()] and [init()]. *)
Definition init : t :=
  {| world := RAPIER.newWorld; initialized := true; bodies := [];
     colliders := []; entityData := []; terrainChunks := [] |}.

Module GROUPS.
Definition TERRAIN : Z := 1.
Definition PLAYER : Z := 2.
Definition VEHICLE : Z := 4.
Definition BUILDING : Z := 8.
End GROUPS.
Module MASKS.
Definition TERRAIN : Z := 65535.
Definition PLAYER : Z := 15.
Definition VEHICLE : Z := 15.
Definition BUILDING : Z := 31.
End MASKS.

(** [ToInt32]: the operands and the results of [<<] and [|] are signed
    32-bit integers, and what does not fit wraps around. *)
Definition toInt32 (z : Z) : Z :=
  ((z + 2 ^ 31) mod 2 ^ 32 - 2 ^ 31)%Z.

(** [(membership << 16) | filter]. *)
Definition makeCollisionGroups (membership filter : Z) : Z :=
  toInt32 (Z.lor (toInt32 (Z.shiftl (toInt32 membership) 16))
                 (toInt32 filter)).

(** The rigid body object stored for [entityId], with its state. *)
Definition body (pw : t) (entityId : string)
  : option (nat * RAPIER.RigidBody) :=
  match JsMap.get entityId (bodies pw) with
  | Some h =>
      match JsMap.get h (RAPIER.rigidBodies (world pw)) with
      | Some b => Some (h, b)
      | None => None
      end
  | None => None
  end.

Definition createPlayerBody (entityId : string) (position : Vec3)
           (ownerId : string) (pw : t) : nat * t :=
  let bodyDesc :=
    RAPIER.dynamic
      (mkVec3 (vx position) (vy position + CONFIG.playerHeight / 2)
              (vz position)) quatId in
  let '(b, w1) := RAPIER.createRigidBody bodyDesc (world pw) in
  let colliderDesc :=
    {| RAPIER.parent := Some b;
       RAPIER.collisionGroups :=
         makeCollisionGroups GROUPS.PLAYER MASKS.PLAYER |} in
  let '(c, w2) := RAPIER.createCollider colliderDesc w1 in
  (b,
   {| world := w2; initialized := initialized pw;
      bodies := JsMap.set entityId b (bodies pw);
      colliders := JsMap.set entityId [c] (colliders pw);
      entityData :=
        JsMap.set entityId (PlayerData ownerId false (mkVec3 0 1 0))
                  (entityData pw);
      terrainChunks := terrainChunks pw |}).

Definition isWheeled (vehicleType : string) : bool :=
  negb (eqb vehicleType "helicopter") && negb (eqb vehicleType "tank")
  && negb (eqb vehicleType "hovercraft").

Definition initWheelStates (vehicleType : string)
           (config : CONFIG.VehicleConfig) : list WheelState :=
  let sx := CONFIG.sizeX config in
  let sy := CONFIG.sizeY config in
  let sz := CONFIG.sizeZ config in
  let r := CONFIG.wheelRadius config in
  let moto := eqb vehicleType "motorcycle" in
  let wheelPositions :=
    if moto then
      [ mkVec3 0 (- sy / 2) (sz / 2 - r);
        mkVec3 0 (- sy / 2) (- sz / 2 + r) ]
    else
      [ mkVec3 (- sx / 2 + 1 / 10) (- sy / 2) (sz / 2 - r * (15 / 10));
        mkVec3 (sx / 2 - 1 / 10) (- sy / 2) (sz / 2 - r * (15 / 10));
        mkVec3 (- sx / 2 + 1 / 10) (- sy / 2) (- sz / 2 + r * (15 / 10));
        mkVec3 (sx / 2 - 1 / 10) (- sy / 2) (- sz / 2 + r * (15 / 10)) ] in
  map (fun ip : nat * Vec3 =>
         let (i, pos) := ip in
         {| ws_position := pos;
            ws_steering := Nat.ltb i (if moto then 1 else 2);
            ws_powered := moto || Nat.leb 2 i;
            ws_suspensionLength := CONFIG.suspensionRestLength config;
            ws_suspensionVelocity := 0;
            ws_groundContact := false;
            ws_rotation := 0;
            ws_steerAngle := 0 |})
      (combine (seq 0 (List.length wheelPositions)) wheelPositions).

(** [null] for an unknown vehicle type. *)
Definition createVehicleBody (entityId vehicleType : string)
           (position : Vec3) (rotation : Quat) (pw : t)
  : option nat * t :=
  match CONFIG.vehicle vehicleType with
  | None => (None, pw)
  | Some vehicleConfig =>
      let y :=
        if eqb vehicleType "helicopter" then
          vy position + CONFIG.sizeY vehicleConfig
        else if eqb vehicleType "tank" then
          vy position + CONFIG.sizeY vehicleConfig
        else if eqb vehicleType "hovercraft" then
          vy position + CONFIG.hoverHeight vehicleConfig
          + CONFIG.sizeY vehicleConfig / 2
        else
          vy position + CONFIG.wheelRadius vehicleConfig
          + CONFIG.suspensionRestLength vehicleConfig
          + CONFIG.sizeY vehicleConfig / 2 in
      let bodyDesc :=
        RAPIER.dynamic (mkVec3 (vx position) y (vz position)) rotation in
      let '(b, w1) := RAPIER.createRigidBody bodyDesc (world pw) in
      let colliderDesc :=
        {| RAPIER.parent := Some b;
           RAPIER.collisionGroups :=
             makeCollisionGroups GROUPS.VEHICLE MASKS.VEHICLE |} in
      let '(c, w2) := RAPIER.createCollider colliderDesc w1 in
      (Some b,
       {| world := w2; initialized := initialized pw;
          bodies := JsMap.set entityId b (bodies pw);
          colliders := JsMap.set entityId [c] (colliders pw);
          entityData :=
            JsMap.set entityId
              (VehicleData vehicleType None None
                 (if isWheeled vehicleType
                  then Some (initWheelStates vehicleType vehicleConfig)
                  else None))
              (entityData pw);
          terrainChunks := terrainChunks pw |})
  end.

Definition createTerrainChunk (chunkX chunkZ : Z) (heightmap : list R)
           (resolution : Z) (pw : t) : t :=
  let key := (chunkX, chunkZ) in
  if JsMap.has key (terrainChunks pw) then pw
  else
    let heightfieldDesc :=
      {| RAPIER.parent := None;
         RAPIER.collisionGroups :=
           makeCollisionGroups GROUPS.TERRAIN MASKS.TERRAIN |} in
    let '(c, w1) := RAPIER.createCollider heightfieldDesc (world pw) in
    {| world := w1; initialized := initialized pw; bodies := bodies pw;
       colliders := colliders pw; entityData := entityData pw;
       terrainChunks :=
         JsMap.set key
           {| tc_collider := c; tc_heightmap := heightmap;
              tc_chunkX := chunkX; tc_chunkZ := chunkZ |}
           (terrainChunks pw) |}.

Definition removeTerrainChunk (chunkX chunkZ : Z) (pw : t) : t :=
  let key := (chunkX, chunkZ) in
  match JsMap.get key (terrainChunks pw) with
  | Some chunk =>
      {| world := RAPIER.removeCollider (tc_collider chunk) (world pw);
         initialized := initialized pw; bodies := bodies pw;
         colliders := colliders pw; entityData := entityData pw;
         terrainChunks := JsMap.delete key (terrainChunks pw) |}
  | None => pw
  end.

Definition createBuildingCollider (entityId : string) (position : Vec3)
           (width height depth : R) (rotation : R) (pw : t) : nat * t :=
  let colliderDesc :=
    {| RAPIER.parent := None;
       RAPIER.collisionGroups :=
         makeCollisionGroups GROUPS.BUILDING MASKS.BUILDING |} in
  let '(c, w1) := RAPIER.createCollider colliderDesc (world pw) in
  (c,
   {| world := w1; initialized := initialized pw; bodies := bodies pw;
      colliders := JsMap.set entityId [c] (colliders pw);
      entityData :=
        JsMap.set entityId (BuildingData position width height depth)
                  (entityData pw);
      terrainChunks := terrainChunks pw |}).

Definition removeEntity (entityId : string) (pw : t) : t :=
  let b := JsMap.get entityId (bodies pw) in
  let pw1 :=
    match b with
    | Some h =>
        withBodies (JsMap.delete entityId (bodies pw))
          (withWorld (RAPIER.removeRigidBody h (world pw)) pw)
    | None => pw
    end in
  let pw2 :=
    match JsMap.get entityId (colliders pw1) with
    | Some cs =>
        let w :=
          match b with
          | Some _ => world pw1
          | None =>
              fold_left (fun w c => RAPIER.removeCollider c w) cs
                        (world pw1)
          end in
        withColliders (JsMap.delete entityId (colliders pw1))
                      (withWorld w pw1)
    | None => pw1
    end in
  withEntityData (JsMap.delete entityId (entityData pw2)) pw2.

Definition setVelocity (entityId : string) (velocity : Vec3) (pw : t) : t :=
  match JsMap.get entityId (bodies pw) with
  | None => pw
  | Some h =>
      withWorld (RAPIER.updateBody h (RAPIER.setLinvel velocity) (world pw))
                pw
  end.

Definition setPosition (entityId : string) (position : Vec3) (pw : t) : t :=
  match JsMap.get entityId (bodies pw) with
  | None => pw
  | Some h =>
      withWorld
        (RAPIER.updateBody h (RAPIER.setTranslation position) (world pw)) pw
  end.

Inductive TypeSpecific :=
| PlayerSpecific (grounded : bool) (groundNormal : Vec3)
| VehicleSpecific (vehicleType : string) (driverId : option string)
                  (wheelStates : option (list WheelState))
| NoSpecific.

Record EntityState := {
  es_entityId : string;
  es_type : string;
  es_position : Vec3;
  es_rotation : Quat;
  es_velocity : Vec3;
  es_angularVelocity : Vec3;
  es_specific : TypeSpecific
}.

Definition typeOf (data : EntityData) : string :=
  match data with
  | PlayerData _ _ _ => "player"
  | VehicleData _ _ _ _ => "vehicle"
  | BuildingData _ _ _ _ => "building"
  end.

Definition getTypeSpecificState (data : EntityData) : TypeSpecific :=
  match data with
  | PlayerData _ grounded groundNormal =>
      PlayerSpecific grounded groundNormal
  | VehicleData vehicleType _ driverId wheelStates =>
      VehicleSpecific vehicleType driverId wheelStates
  | BuildingData _ _ _ _ => NoSpecific
  end.

Definition getEntityState (entityId : string) (pw : t)
  : option EntityState :=
  match body pw entityId, JsMap.get entityId (entityData pw) with
  | Some (_, b), Some data =>
      Some {| es_entityId := entityId;
              es_type := typeOf data;
              es_position := RAPIER.translation b;
              es_rotation := RAPIER.rotation b;
              es_velocity := RAPIER.linvel b;
              es_angularVelocity := RAPIER.angvel b;
              es_specific := getTypeSpecificState data |}
  | _, _ => None
  end.

Record RaycastHit := {
  rh_point : Vec3;
  rh_normal : option Vec3;
  rh_distance : R;
  rh_entityId : option string
}.

Section WithEnv.
Variable env : Env.

(** [this.world.step()] moves every body of the engine.  The call that
    follows it, [this.world.contactsWith(null, ...)], asks the engine for
    the contacts of the collider [null] and throws: the method leaves
    through the exception, with the bodies already moved. *)
Definition step (deltaTime : R) (pw : t) : Result t :=
  if negb (initialized pw) then Ok pw
  else
    let w := world pw in
    TypeError
      (withWorld
         {| RAPIER.rigidBodies :=
              map (fun e => (fst e, integrate env w (fst e) (snd e)))
                  (RAPIER.rigidBodies w);
            RAPIER.colliderSet := RAPIER.colliderSet w;
            RAPIER.nextHandle := RAPIER.nextHandle w |} pw).

(** [{ hit: false }] is [None]. *)
Definition raycast (origin direction : Vec3) (maxDistance : R)
           (filterMask : Z) (pw : t) : option RaycastHit :=
  match castRay env (world pw) origin direction maxDistance filterMask
  with
  | Some hit =>
      let toi := RAPIER.toi hit in
      Some {| rh_point :=
                mkVec3 (vx origin + vx direction * toi)
                       (vy origin + vy direction * toi)
                       (vz origin + vz direction * toi);
              rh_normal := RAPIER.normal hit;
              rh_distance := toi;
              rh_entityId :=
                option_map fst
                  (find (fun e => JsSet.has (RAPIER.collider hit) (snd e))
                        (colliders pw)) |}
  | None => None
  end.

Definition updatePlayerGrounded (entityId : string) (pw : t) : t :=
  match body pw entityId, JsMap.get entityId (entityData pw) with
  | Some (_, b), Some (PlayerData ownerId _ groundNormal) =>
      let pos := RAPIER.translation b in
      let rayLength := CONFIG.playerHeight / 2 + 2 / 10 in
      let result :=
        raycast pos (mkVec3 0 (-1) 0) rayLength
                (Z.lor GROUPS.TERRAIN GROUPS.BUILDING) pw in
      let grounded :=
        match result with
        | Some r => Rltb (rh_distance r) (CONFIG.playerHeight / 2 + 1 / 10)
        | None => false
        end in
      let groundNormal' :=
        match result with
        | Some {| rh_normal := Some n |} => n
        | _ => groundNormal
        end in
      withEntityData
        (JsMap.set entityId (PlayerData ownerId grounded groundNormal')
                   (entityData pw)) pw
  | _, _ => pw
  end.
End WithEnv.
End PhysicsWorld.

(** ** server/terrain-physics.js: TerrainPhysicsManager

    A chunk key, the string [`${chunkX},${chunkZ}`] that the source
    splits again with [key.split(',').map(Number)], is the pair of
    integers itself.  The manager holds a reference to the physics
    world; its methods therefore transform the pair of both states. *)

(** [lo, lo+1, ..., hi], the values a [for (let d = lo; d <= hi; d++)]
    loop runs through. *)
Definition zrange (lo hi : Z) : list Z :=
  map (fun i => (lo + Z.of_nat i)%Z) (seq 0 (Z.to_nat (hi - lo + 1))).

Module TerrainPhysicsManager.
Definition Key := (Z * Z)%type.

Record ChunkData := {
  cd_chunkX : Z;
  cd_chunkZ : Z;
  cd_heightmap : list R;
  cd_buildings : list string
}.

Record t := {
  loadedChunks : list (Key * ChunkData);
  buildings : list (Key * list string);
  loadQueue : list Key;
  unloadQueue : list Key
}.

Definition maxChunksPerFrame : nat := 2.

Definition init : t :=
  {| loadedChunks := []; buildings := []; loadQueue := [];
     unloadQueue := [] |}.

Definition withLoadQueue (q : list Key) (tm : t) : t :=
  {| loadedChunks := loadedChunks tm; buildings := buildings tm;
     loadQueue := q; unloadQueue := unloadQueue tm |}.
Definition withUnloadQueue (q : list Key) (tm : t) : t :=
  {| loadedChunks := loadedChunks tm; buildings := buildings tm;
     loadQueue := loadQueue tm; unloadQueue := q |}.

(** An element of [playerPositions]. *)
Record PlayerPosition := { pp_entityId : string; pp_x : R; pp_z : R }.

Definition State := (t * PhysicsWorld.t)%type.

(** The neighbourhood of one centre chunk, in the order in which the
    nested loops over [dx] and [dz] add it. *)
Definition neighbourhood (radius : Z) (centre : Key) : list Key :=
  flat_map (fun dx =>
              map (fun dz => ((fst centre + dx)%Z, (snd centre + dz)%Z))
                  (zrange (- radius) radius))
           (zrange (- radius) radius).

Definition centreChunk (x z : R) : Key :=
  (Zfloor (x / CONFIG.chunkSize), Zfloor (z / CONFIG.chunkSize)).

(** The [requiredChunks] set built by the first loop of
    [updateForPlayers]. *)
Definition requiredChunks (playerPositions : list PlayerPosition)
  : list Key :=
  fold_left
    (fun required player =>
       fold_left (fun s key => JsSet.add key s)
                 (neighbourhood CONFIG.serverChunkRadius
                    (centreChunk (pp_x player) (pp_z player)))
                 required)
    playerPositions [].

Definition buildingId (chunkX chunkZ : Z) (i : nat) : string :=
  ("building_" ++ string_of_Z chunkX ++ "_" ++ string_of_Z chunkZ ++ "_"
     ++ string_of_Z (Z.of_nat i))%string.

Section WithEnv.
Variable env : Env.

Definition loadChunk (chunkX chunkZ : Z) (st : State) : State :=
  let (tm, pw) := st in
  let key := (chunkX, chunkZ) in
  if JsMap.has key (loadedChunks tm) then st
  else
    let heightmap :=
      generateChunkHeightmap env chunkX chunkZ CONFIG.terrainResolution in
    let pw1 :=
      PhysicsWorld.createTerrainChunk chunkX chunkZ heightmap
        CONFIG.terrainResolution pw in
    let blds := getCityBuildings env chunkX chunkZ in
    let '(buildingIds, pw2) :=
      fold_left
        (fun (acc : list string * PhysicsWorld.t)
             (ib : nat * BuildingDesc) =>
           let (ids, p) := acc in
           let (i, building) := ib in
           let entityId := buildingId chunkX chunkZ i in
           (ids ++ [entityId],
            snd (PhysicsWorld.createBuildingCollider entityId
                   (mkVec3 (bd_x building) (bd_y building)
                           (bd_z building))
                   (bd_width building) (bd_height building)
                   (bd_depth building) (bd_rotation building) p)))
        (combine (seq 0 (List.length blds)) blds) ([], pw1) in
    ({| loadedChunks :=
          JsMap.set key
            {| cd_chunkX := chunkX; cd_chunkZ := chunkZ;
               cd_heightmap := heightmap;
               cd_buildings := buildingIds |}
            (loadedChunks tm);
        buildings := JsMap.set key buildingIds (buildings tm);
        loadQueue := loadQueue tm;
        unloadQueue := unloadQueue tm |},
     pw2).

Definition unloadChunk (chunkX chunkZ : Z) (st : State) : State :=
  let (tm, pw) := st in
  let key := (chunkX, chunkZ) in
  match JsMap.get key (loadedChunks tm) with
  | None => st
  | Some _ =>
      let pw1 := PhysicsWorld.removeTerrainChunk chunkX chunkZ pw in
      let buildingIds :=
        match JsMap.get key (buildings tm) with
        | Some ids => ids
        | None => []
        end in
      let pw2 :=
        fold_left (fun p entityId => PhysicsWorld.removeEntity entityId p)
                  buildingIds pw1 in
      ({| loadedChunks := JsMap.delete key (loadedChunks tm);
          buildings := JsMap.delete key (buildings tm);
          loadQueue := loadQueue tm;
          unloadQueue := unloadQueue tm |},
       pw2)
  end.

(** The [while] loop of [processLoadQueue]: [queue] is what is left of
    [this.loadQueue], [loaded] the counter.  Nothing in the loop body
    reads the queue, so what is left of it is written back to the state
    when the loop exits. *)
Fixpoint processLoadQueue_loop (queue : list Key) (loaded : nat)
         (st : State) : State :=
  match queue with
  | [] => (withLoadQueue [] (fst st), snd st)
  | key :: rest =>
      if Nat.ltb loaded maxChunksPerFrame then
        if JsMap.has key (loadedChunks (fst st)) then
          processLoadQueue_loop rest loaded st
        else
          processLoadQueue_loop rest (S loaded)
            (loadChunk (fst key) (snd key) st)
      else (withLoadQueue queue (fst st), snd st)
  end.

Definition processLoadQueue (st : State) : State :=
  processLoadQueue_loop (loadQueue (fst st)) 0 st.

Fixpoint processUnloadQueue_loop (queue : list Key) (unloaded : nat)
         (st : State) : State :=
  match queue with
  | [] => (withUnloadQueue [] (fst st), snd st)
  | key :: rest =>
      if Nat.ltb unloaded maxChunksPerFrame then
        if JsMap.has key (loadedChunks (fst st)) then
          processUnloadQueue_loop rest (S unloaded)
            (unloadChunk (fst key) (snd key) st)
        else
          processUnloadQueue_loop rest unloaded st
      else (withUnloadQueue queue (fst st), snd st)
  end.

Definition processUnloadQueue (st : State) : State :=
  processUnloadQueue_loop (unloadQueue (fst st)) 0 st.

(** [updateForPlayers] after its first loop: the two queueing loops
    and the two drains, for a given [requiredChunks] set. *)
Definition updateForRequired (required : list Key) (st : State) : State :=
  let (tm, pw) := st in
  let lq :=
    fold_left
      (fun q key =>
         if negb (JsMap.has key (loadedChunks tm)) && negb (JsSet.has key q)
         then q ++ [key] else q)
      required (loadQueue tm) in
  let uq :=
    fold_left
      (fun q key =>
         if negb (JsSet.has key required) && negb (JsSet.has key q)
         then q ++ [key] else q)
      (JsMap.keys (loadedChunks tm)) (unloadQueue tm) in
  processUnloadQueue
    (processLoadQueue (withUnloadQueue uq (withLoadQueue lq tm), pw)).

Definition updateForPlayers (playerPositions : list PlayerPosition)
           (st : State) : State :=
  updateForRequired (requiredChunks playerPositions) st.

Definition forceLoadAroundPosition (x z : R) (radius : Z) (st : State)
  : State :=
  fold_left (fun s key => loadChunk (fst key) (snd key) s)
            (neighbourhood radius (centreChunk x z)) st.

Definition getHeightAt (x z : R) : R := getTerrainHeight env x z.
Definition getCityInfluenceAt (x z : R) : R := getCityInfluence env x z.

(** The sum of the four height differences around [(x, z)]. *)
Definition flatnessAt (x z : R) : R :=
  let y := getHeightAt x z in
  let sampleDist := 5 in
  Rabs (getHeightAt (x + sampleDist) z - y)
  + Rabs (getHeightAt (x - sampleDist) z - y)
  + Rabs (getHeightAt x (z + sampleDist) - y)
  + Rabs (getHeightAt x (z - sampleDist) - y).

(** [flatness < bestFlatness], where [bestFlatness] starts at
    [Infinity] ([None]). *)
Definition belowBest (flatness : R) (bestFlatness : option R) : bool :=
  match bestFlatness with
  | None => true
  | Some b => Rltb flatness b
  end.

(** The candidate of attempt [i]; [random n] is the value of the
    [n]-th call of [Math.random()]. *)
Definition candidate (random : nat -> R) (i : nat) : R * R :=
  ((random (2 * i)%nat - 1 / 2) * 5000,
   (random (2 * i + 1)%nat - 1 / 2) * 5000).

(** The [for] loop of [findSpawnPoint], from attempt [i] on, with
    [n] attempts left. *)
Fixpoint findSpawnPoint_loop (random : nat -> R) (n i : nat)
         (bestPoint : Vec3) (bestFlatness : option R) : Vec3 :=
  match n with
  | O => bestPoint
  | S n' =>
      let (x, z) := candidate random i in
      let y := getHeightAt x z in
      let cityInfluence := getCityInfluenceAt x z in
      if Rgtb cityInfluence (3 / 10) then mkVec3 x (y + 2) z
      else
        let flatness := flatnessAt x z in
        if belowBest flatness bestFlatness then
          findSpawnPoint_loop random n' (S i) (mkVec3 x (y + 2) z)
                              (Some flatness)
        else
          findSpawnPoint_loop random n' (S i) bestPoint bestFlatness
  end.

Definition attempts : nat := 50.

Definition findSpawnPoint (random : nat -> R) : Vec3 :=
  findSpawnPoint_loop random attempts 0 (mkVec3 0 0 0) None.

Record ClientChunkData := {
  ccd_chunkX : Z;
  ccd_chunkZ : Z;
  ccd_heightmap : list R;
  ccd_buildings : list BuildingDesc;
  ccd_biome : string
}.

Definition getChunkDataForClient (chunkX chunkZ : Z) (tm : t)
  : ClientChunkData :=
  let centre c := IZR c * CONFIG.chunkSize + CONFIG.chunkSize / 2 in
  match JsMap.get (chunkX, chunkZ) (loadedChunks tm) with
  | None =>
      {| ccd_chunkX := chunkX; ccd_chunkZ := chunkZ;
         ccd_heightmap :=
           generateChunkHeightmap env chunkX chunkZ
                                  CONFIG.renderResolution;
         ccd_buildings := getCityBuildings env chunkX chunkZ;
         ccd_biome := getBiomeAt env (centre chunkX) (centre chunkZ) |}
  | Some _ =>
      {| ccd_chunkX := chunkX; ccd_chunkZ := chunkZ;
         ccd_heightmap :=
           generateChunkHeightmap env chunkX chunkZ
                                  CONFIG.renderResolution;
         ccd_buildings := getCityBuildings env chunkX chunkZ;
         ccd_biome := getBiomeAt env (centre chunkX) (centre chunkZ) |}
  end.
End WithEnv.

Definition getLoadedChunks (tm : t) : list Key :=
  JsMap.keys (loadedChunks tm).

(** [clear]: the loop visits every key that is in [loadedChunks] when
    it starts; [unloadChunk] deletes the key being visited, which a
    [Map] iterator allows. *)
Definition clear (st : State) : State :=
  let (tm, pw) :=
    fold_left (fun s key => unloadChunk (fst key) (snd key) s)
              (JsMap.keys (loadedChunks (fst st))) st in
  (withUnloadQueue [] (withLoadQueue [] tm), pw).
End TerrainPhysicsManager.

(** ** server/vehicle-physics.js: VehiclePhysicsManager

    The [wheelStates] array of a vehicle record is the very array stored
    in the physics world's entity data; it is kept there only. *)

Module VehiclePhysicsManager.
Record Vehicle := {
  entityId : string;
  vehicleType : string;
  driverId : option string;
  engineRunning : bool;
  health : R;
  fuel : R
}.

Record t := {
  vehicles : list (string * Vehicle);
  vehicleInputs : list (string * VehicleInput)
}.

Definition State := (t * PhysicsWorld.t)%type.

Definition init : t := {| vehicles := []; vehicleInputs := [] |}.

Definition idleInput (handbrake : bool) : VehicleInput :=
  {| throttle := 0; brake := 0; steering := 0; handbrake := handbrake;
     collective := 0; pitch := 0; roll := 0; vi_yaw := 0 |}.

Definition yawToQuaternion (yaw : R) : Quat :=
  mkQuat 0 (sin (yaw / 2)) 0 (cos (yaw / 2)).

(** [entityId] is the fresh identifier the source builds from the clock
    and [Math.random]. *)
Definition spawnVehicle (entityId vehicleType : string) (position : Vec3)
           (rotation : R) (st : State) : option string * State :=
  let (vm, pw) := st in
  match PhysicsWorld.createVehicleBody entityId vehicleType position
          (yawToQuaternion rotation) pw with
  | (None, pw1) => (None, (vm, pw1))
  | (Some _, pw1) =>
      (Some entityId,
       ({| vehicles :=
             JsMap.set entityId
               {| entityId := entityId; vehicleType := vehicleType;
                  driverId := None; engineRunning := false;
                  health := 100; fuel := 100 |}
               (vehicles vm);
           vehicleInputs :=
             JsMap.set entityId (idleInput false) (vehicleInputs vm) |},
        pw1))
  end.

Definition removeVehicle (entityId : string) (st : State) : State :=
  let (vm, pw) := st in
  if JsMap.has entityId (vehicles vm) then
    ({| vehicles := JsMap.delete entityId (vehicles vm);
        vehicleInputs := JsMap.delete entityId (vehicleInputs vm) |},
     PhysicsWorld.removeEntity entityId pw)
  else st.

(** [entityData.driverId = d], when the entity has data. *)
Definition setEntityDriver (entityId : string) (d : option string)
           (pw : PhysicsWorld.t) : PhysicsWorld.t :=
  match JsMap.get entityId (PhysicsWorld.entityData pw) with
  | Some (PhysicsWorld.VehicleData ty owner _ ws) =>
      PhysicsWorld.withEntityData
        (JsMap.set entityId (PhysicsWorld.VehicleData ty owner d ws)
                   (PhysicsWorld.entityData pw)) pw
  | _ => pw
  end.

Definition enterVehicle (entityId playerId : string) (st : State)
  : bool * State :=
  let (vm, pw) := st in
  match JsMap.get entityId (vehicles vm) with
  | None => (false, st)
  | Some vehicle =>
      match driverId vehicle with
      | Some _ => (false, st)       (* already occupied *)
      | None =>
          (true,
           ({| vehicles :=
                 JsMap.set entityId
                   {| entityId := VehiclePhysicsManager.entityId vehicle;
                      vehicleType := vehicleType vehicle;
                      driverId := Some playerId;
                      engineRunning := true;
                      health := health vehicle;
                      fuel := fuel vehicle |}
                   (vehicles vm);
               vehicleInputs := vehicleInputs vm |},
            setEntityDriver entityId (Some playerId) pw))
      end
  end.

Definition exitVehicle (entityId playerId : string) (st : State)
  : bool * State :=
  let (vm, pw) := st in
  match JsMap.get entityId (vehicles vm) with
  | None => (false, st)
  | Some vehicle =>
      if eqb (driverId vehicle) (Some playerId) then
        (true,
         ({| vehicles :=
               JsMap.set entityId
                 {| entityId := VehiclePhysicsManager.entityId vehicle;
                    vehicleType := vehicleType vehicle;
                    driverId := None;
                    engineRunning := false;
                    health := health vehicle;
                    fuel := fuel vehicle |}
                 (vehicles vm);
             vehicleInputs :=
               JsMap.set entityId (idleInput true) (vehicleInputs vm) |},
          setEntityDriver entityId None pw))
      else (false, st)
  end.

(** The fields a [vehicle_input] message carries; the others keep
    their stored value under [{ ...old, ...input }]. *)
Record VehicleInputPatch := {
  p_throttle : option R; p_brake : option R; p_steering : option R;
  p_handbrake : option bool; p_collective : option R;
  p_pitch : option R; p_roll : option R; p_yaw : option R
}.

Definition orElse {A} (o : option A) (d : A) : A :=
  match o with Some a => a | None => d end.

Definition setVehicleInput (entityId : string) (input : VehicleInputPatch)
           (vm : t) : t :=
  if JsMap.has entityId (vehicles vm) then
    let old := orElse (JsMap.get entityId (vehicleInputs vm))
                      (idleInput false) in
    {| vehicles := vehicles vm;
       vehicleInputs :=
         JsMap.set entityId
           {| throttle := orElse (p_throttle input) (throttle old);
              brake := orElse (p_brake input) (brake old);
              steering := orElse (p_steering input) (steering old);
              handbrake := orElse (p_handbrake input) (handbrake old);
              collective := orElse (p_collective input) (collective old);
              pitch := orElse (p_pitch input) (pitch old);
              roll := orElse (p_roll input) (roll old);
              vi_yaw := orElse (p_yaw input) (vi_yaw old) |}
           (vehicleInputs vm) |}
  else vm.

Definition knownType (ty : string) : bool :=
  eqb ty "car" || eqb ty "truck" || eqb ty "motorcycle" || eqb ty "tank"
  || eqb ty "helicopter" || eqb ty "hovercraft".

Definition wheeledType (ty : string) : bool :=
  eqb ty "car" || eqb ty "truck" || eqb ty "motorcycle".

Section WithEnv.
Variable env : Env.

(** One case of the [switch] in [update]: the type's force model
    runs on the vehicle's body and wheel states and writes both back.
    The wheeled model returns at once without body, entity data or
    wheel states; the others without body. *)
Definition updateVehicle (entityId : string) (vehicle : Vehicle)
           (input : VehicleInput) (deltaTime : R) (pw : PhysicsWorld.t)
  : PhysicsWorld.t :=
  if negb (knownType (vehicleType vehicle)) then pw
  else
    match PhysicsWorld.body pw entityId with
    | None => pw
    | Some (h, b) =>
        let data := JsMap.get entityId (PhysicsWorld.entityData pw) in
        let ws :=
          match data with
          | Some (PhysicsWorld.VehicleData _ _ _ ws) => ws
          | _ => None
          end in
        if wheeledType (vehicleType vehicle)
           && match ws with None => true | Some _ => false end
        then pw
        else
          let (b', ws') :=
            forceModel env (vehicleType vehicle) (engineRunning vehicle)
                       input deltaTime (PhysicsWorld.world pw) (b, ws) in
          let pw1 :=
            PhysicsWorld.withWorld
              (RAPIER.updateBody h (fun _ => b') (PhysicsWorld.world pw))
              pw in
          match data with
          | Some (PhysicsWorld.VehicleData ty owner d _) =>
              PhysicsWorld.withEntityData
                (JsMap.set entityId
                   (PhysicsWorld.VehicleData ty owner d ws')
                   (PhysicsWorld.entityData pw1)) pw1
          | _ => pw1
          end
    end.

Definition update (deltaTime : R) (st : State) : State :=
  let (vm, pw) := st in
  (vm,
   fold_left
     (fun p (e : string * Vehicle) =>
        match JsMap.get (fst e) (vehicleInputs vm) with
        | None => p
        | Some input => updateVehicle (fst e) (snd e) input deltaTime p
        end)
     (vehicles vm) pw).
End WithEnv.

Record VehicleState := {
  vs_state : PhysicsWorld.EntityState;
  vs_vehicleType : string;
  vs_driverId : option string;
  vs_engineRunning : bool;
  vs_health : R;
  vs_fuel : R
}.

Definition getVehicleState (entityId : string) (st : State)
  : option VehicleState :=
  let (vm, pw) := st in
  match JsMap.get entityId (vehicles vm) with
  | None => None
  | Some vehicle =>
      match PhysicsWorld.getEntityState entityId pw with
      | None => None
      | Some state =>
          Some {| vs_state := state;
                  vs_vehicleType := vehicleType vehicle;
                  vs_driverId := driverId vehicle;
                  vs_engineRunning := engineRunning vehicle;
                  vs_health := health vehicle;
                  vs_fuel := fuel vehicle |}
      end
  end.

Definition getAllVehicleStates (st : State) : list VehicleState :=
  flat_map (fun entityId =>
              match getVehicleState entityId st with
              | Some s => [s]
              | None => []
              end)
           (JsMap.keys (vehicles (fst st))).

Record Nearest := {
  n_entityId : string;
  n_vehicleType : string;
  n_distance : R;
  n_occupied : bool
}.

Definition findNearestVehicle (position : Vec3) (maxDistance : R)
           (st : State) : option Nearest :=
  let (vm, pw) := st in
  fst
    (fold_left
       (fun (acc : option Nearest * R) (e : string * Vehicle) =>
          let (nearest, nearestDist) := acc in
          match PhysicsWorld.getEntityState (fst e) pw with
          | None => acc
          | Some state =>
              let dx := vx (PhysicsWorld.es_position state) - vx position in
              let dy := vy (PhysicsWorld.es_position state) - vy position in
              let dz := vz (PhysicsWorld.es_position state) - vz position in
              let dist := sqrt (dx * dx + dy * dy + dz * dz) in
              if Rltb dist nearestDist then
                (Some {| n_entityId := fst e;
                         n_vehicleType := vehicleType (snd e);
                         n_distance := dist;
                         n_occupied :=
                           match driverId (snd e) with
                           | Some _ => true
                           | None => false
                           end |},
                 dist)
              else acc
          end)
       (vehicles vm) (None, maxDistance)).

Definition getVehicleByDriver (playerId : string) (vm : t)
  : option string :=
  option_map fst
    (find (fun e : string * Vehicle =>
             eqb (driverId (snd e)) (Some playerId))
          (vehicles vm)).

(** The vector helpers at the end of the class.  [rotateVector] is the
    product [q * v * q^-1] written out, with [ix, iy, iz, iw] the
    components of [q * v]. *)
Definition rotateVector (v : Vec3) (q : Quat) : Vec3 :=
  let ix := qw q * vx v + qy q * vz v - qz q * vy v in
  let iy := qw q * vy v + qz q * vx v - qx q * vz v in
  let iz := qw q * vz v + qx q * vy v - qy q * vx v in
  let iw := - qx q * vx v - qy q * vy v - qz q * vz v in
  mkVec3 (ix * qw q + iw * - qx q + iy * - qz q - iz * - qy q)
         (iy * qw q + iw * - qy q + iz * - qx q - ix * - qz q)
         (iz * qw q + iw * - qz q + ix * - qy q - iy * - qx q).

Definition rotateVectorY (v : Vec3) (angle : R) : Vec3 :=
  mkVec3 (vx v * cos angle + vz v * sin angle)
         (vy v)
         (- vx v * sin angle + vz v * cos angle).

Definition addVectors (a b : Vec3) : Vec3 :=
  mkVec3 (vx a + vx b) (vy a + vy b) (vz a + vz b).

Definition subtractVectors (a b : Vec3) : Vec3 :=
  mkVec3 (vx a - vx b) (vy a - vy b) (vz a - vz b).

Definition scaleVector (v : Vec3) (s : R) : Vec3 :=
  mkVec3 (vx v * s) (vy v * s) (vz v * s).

Definition vectorLength (v : Vec3) : R :=
  sqrt (vx v * vx v + vy v * vy v + vz v * vz v).

Definition normalizeVector (v : Vec3) : Vec3 :=
  let len := vectorLength v in
  if Req_dec_T len 0 then mkVec3 0 0 0
  else mkVec3 (vx v / len) (vy v / len) (vz v / len).
End VehiclePhysicsManager.

(** ** server/player-physics.js: PlayerPhysicsManager *)

Module PlayerPhysicsManager.
(** The [input] object of a [player_input] message. *)
Record PlayerInput := {
  forward : R;
  right : R;
  jump : bool;
  run : bool;
  crouch : bool;
  yaw : R;
  seq : Z
}.

Definition Appearance := list (string * Z).

Record Player := {
  entityId : string;
  clientId : string;
  username : string;
  appearance : Appearance;
  health : R;
  stamina : R;
  isRunning : bool;
  isCrouching : bool;
  p_yaw : R;
  vehicleId : option string;
  lastInputSeq : Z
}.

Record HistoryEntry := {
  h_seq : Z;
  h_input : PlayerInput;
  h_timestamp : R
}.

Record t := {
  players : list (string * Player);
  playerInputs : list (string * PlayerInput);
  inputHistory : list (string * list HistoryEntry)
}.

Definition init : t :=
  {| players := []; playerInputs := []; inputHistory := [] |}.

Definition playerEntityId (clientId : string) : string :=
  ("player_" ++ clientId)%string.

Definition withYaw (y : R) (p : Player) : Player :=
  {| entityId := entityId p; clientId := clientId p;
     username := username p; appearance := appearance p;
     health := health p; stamina := stamina p; isRunning := isRunning p;
     isCrouching := isCrouching p; p_yaw := y; vehicleId := vehicleId p;
     lastInputSeq := lastInputSeq p |}.

Definition withVehicleId (v : option string) (p : Player) : Player :=
  {| entityId := entityId p; clientId := clientId p;
     username := username p; appearance := appearance p;
     health := health p; stamina := stamina p; isRunning := isRunning p;
     isCrouching := isCrouching p; p_yaw := p_yaw p; vehicleId := v;
     lastInputSeq := lastInputSeq p |}.

(** [while (history.length > n) history.shift()] *)
Fixpoint trim {A} (n : nat) (fuel : nat) (l : list A) : list A :=
  match fuel with
  | O => l
  | S fuel' =>
      if Nat.ltb n (List.length l) then trim n fuel' (tl l) else l
  end.

Definition keepLast {A} (n : nat) (l : list A) : list A :=
  trim n (List.length l) l.

(** [now] is the value of [Date.now()]. *)
Definition setPlayerInput (clientId : string) (input : PlayerInput)
           (now : R) (pm : t) : t :=
  let entityId := playerEntityId clientId in
  match JsMap.get entityId (players pm) with
  | None => pm
  | Some player =>
      match vehicleId player with
      | Some _ => pm                   (* don't process if in vehicle *)
      | None =>
          {| players :=
               JsMap.set entityId (withYaw (yaw input) player) (players pm);
             playerInputs := JsMap.set entityId input (playerInputs pm);
             inputHistory :=
               match JsMap.get entityId (inputHistory pm) with
               | Some history =>
                   JsMap.set entityId
                     (keepLast CONFIG.inputBufferSize
                        (history ++ [ {| h_seq := seq input;
                                         h_input := input;
                                         h_timestamp := now |} ]))
                     (inputHistory pm)
               | None => inputHistory pm
               end |}
      end
  end.

Definition approach (current target rate : R) : R :=
  if Rltb current target then Rmin (current + rate) target
  else if Rgtb current target then Rmax (current - rate) target
  else target.

Section WithEnv.
Variable env : Env.

Definition State :=
  (t * (TerrainPhysicsManager.t * PhysicsWorld.t))%type.

(** [position.y] is overwritten on the caller's object; the result
    carries the position as the caller sees it afterwards. *)
Definition spawnPlayer (clientId : string) (position : Vec3)
           (username : string) (appearance : Appearance) (st : State)
  : (string * Vec3) * State :=
  let '(pm, tst) := st in
  let entityId := playerEntityId clientId in
  let '(tm1, pw1) :=
    TerrainPhysicsManager.forceLoadAroundPosition env (vx position)
      (vz position) 1 tst in
  let groundHeight :=
    TerrainPhysicsManager.getHeightAt env (vx position) (vz position) in
  let position' :=
    mkVec3 (vx position)
           (Rmax (vy position)
                 (groundHeight + CONFIG.playerHeight / 2 + 1 / 10))
           (vz position) in
  let '(_, pw2) :=
    PhysicsWorld.createPlayerBody entityId position' clientId pw1 in
  ((entityId, position'),
   ({| players :=
         JsMap.set entityId
           {| entityId := entityId; clientId := clientId;
              username := username; appearance := appearance;
              health := 100; stamina := CONFIG.maxStamina;
              isRunning := false; isCrouching := false; p_yaw := 0;
              vehicleId := None; lastInputSeq := 0 |}
           (players pm);
       playerInputs :=
         JsMap.set entityId
           {| forward := 0; right := 0; jump := false; run := false;
              crouch := false; yaw := 0; seq := 0 |}
           (playerInputs pm);
       inputHistory := JsMap.set entityId [] (inputHistory pm) |},
    (tm1, pw2))).

Definition removePlayer (clientId : string) (pm : t)
           (pw : PhysicsWorld.t) : t * PhysicsWorld.t :=
  let entityId := playerEntityId clientId in
  if JsMap.has entityId (players pm) then
    ({| players := JsMap.delete entityId (players pm);
        playerInputs := JsMap.delete entityId (playerInputs pm);
        inputHistory := JsMap.delete entityId (inputHistory pm) |},
     PhysicsWorld.removeEntity entityId pw)
  else (pm, pw).

(** [entityData.grounded]; [undefined], so falsy, on data that is
    not a player's. *)
Definition groundedOf (entityId : string) (pw : PhysicsWorld.t) : bool :=
  match JsMap.get entityId (PhysicsWorld.entityData pw) with
  | Some (PhysicsWorld.PlayerData _ g _) => g
  | _ => false
  end.

Definition updatePlayerMovement (entityId : string) (player : Player)
           (input : PlayerInput) (deltaTime : R) (pw : PhysicsWorld.t)
  : Player * PhysicsWorld.t :=
  match PhysicsWorld.body pw entityId,
        JsMap.get entityId (PhysicsWorld.entityData pw) with
  | Some (_, b), Some _ =>
      (* Update grounded state *)
      let pw1 := PhysicsWorld.updatePlayerGrounded env entityId pw in
      let isGrounded := groundedOf entityId pw1 in
      (* Get current state *)
      let pos := RAPIER.translation b in
      let vel := RAPIER.linvel b in
      (* Movement direction (based on player yaw) *)
      let yaw := p_yaw player in
      let forwardX := - sin yaw in
      let forwardZ := - cos yaw in
      let rightX := cos yaw in
      let rightZ := - sin yaw in
      let moveX0 := forward input * forwardX + right input * rightX in
      let moveZ0 := forward input * forwardZ + right input * rightZ in
      let moveLen := sqrt (moveX0 * moveX0 + moveZ0 * moveZ0) in
      let moveX := if Rgtb moveLen 1 then moveX0 / moveLen else moveX0 in
      let moveZ := if Rgtb moveLen 1 then moveZ0 / moveLen else moveZ0 in
      (* Movement speed *)
      let isRunning' := run input && Rgtb (stamina player) 0 in
      let isCrouching' := crouch input in
      let targetSpeed :=
        if isCrouching' then CONFIG.crouchSpeed
        else if isRunning' then CONFIG.runSpeed
        else CONFIG.walkSpeed in
      let targetVelX := moveX * targetSpeed in
      let targetVelZ := moveZ * targetSpeed in
      let accel := if isGrounded then 20 else 20 * CONFIG.airControl in
      let newVelX := approach (vx vel) targetVelX (accel * deltaTime) in
      let newVelZ := approach (vz vel) targetVelZ (accel * deltaTime) in
      (* Jumping *)
      let newVelY :=
        if jump input && isGrounded && negb isCrouching'
        then CONFIG.jumpForce else vy vel in
      let pw2 :=
        PhysicsWorld.setVelocity entityId (mkVec3 newVelX newVelY newVelZ)
                                 pw1 in
      (* Stamina *)
      let stamina' :=
        if isRunning' && Rgtb moveLen 0 then
          Rmax 0 (stamina player - CONFIG.staminaDrainRate * deltaTime)
        else if negb isRunning' then
          Rmin CONFIG.maxStamina
               (stamina player + CONFIG.staminaRegenRate * deltaTime)
        else stamina player in
      let player' :=
        {| entityId := PlayerPhysicsManager.entityId player;
           clientId := clientId player;
           username := username player;
           appearance := appearance player;
           health := health player;
           stamina := stamina';
           isRunning := isRunning';
           isCrouching := isCrouching';
           p_yaw := p_yaw player;
           vehicleId := vehicleId player;
           (* Update last processed input sequence *)
           lastInputSeq := seq input |} in
      (* Prevent falling through terrain (safety check) *)
      let groundHeight :=
        TerrainPhysicsManager.getHeightAt env (vx pos) (vz pos) in
      let minY := groundHeight + CONFIG.playerHeight / 2 in
      let pw3 :=
        if Rltb (vy pos) (minY - 1) then
          PhysicsWorld.setVelocity entityId (mkVec3 newVelX 0 newVelZ)
            (PhysicsWorld.setPosition entityId
               (mkVec3 (vx pos) minY (vz pos)) pw2)
        else pw2 in
      (player', pw3)
  | _, _ => (player, pw)
  end.

(** The loop of [update] over the entries of [this.players]; the
    player objects are changed in place, the keys stay. *)
Fixpoint update_loop (inputs : list (string * PlayerInput))
         (deltaTime : R) (entries : list (string * Player))
         (pw : PhysicsWorld.t)
  : list (string * Player) * PhysicsWorld.t :=
  match entries with
  | [] => ([], pw)
  | (entityId, player) :: rest =>
      let '(player', pw') :=
        match vehicleId player with
        | Some _ => (player, pw)           (* skip if in vehicle *)
        | None =>
            match JsMap.get entityId inputs with
            | None => (player, pw)
            | Some input =>
                updatePlayerMovement entityId player input deltaTime pw
            end
        end in
      let '(rest', pw'') := update_loop inputs deltaTime rest pw' in
      ((entityId, player') :: rest', pw'')
  end.

Definition update (deltaTime : R) (pm : t) (pw : PhysicsWorld.t)
  : t * PhysicsWorld.t :=
  let '(ps, pw') :=
    update_loop (playerInputs pm) deltaTime (players pm) pw in
  ({| players := ps; playerInputs := playerInputs pm;
      inputHistory := inputHistory pm |}, pw').

Definition playerExitVehicle (clientId : string) (exitPosition : Vec3)
           (pm : t) (pw : PhysicsWorld.t) : bool * (t * PhysicsWorld.t) :=
  let entityId := playerEntityId clientId in
  match JsMap.get entityId (players pm) with
  | None => (false, (pm, pw))
  | Some player =>
      match vehicleId player with
      | None => (false, (pm, pw))
      | Some _ =>
          let pm' :=
            {| players :=
                 JsMap.set entityId (withVehicleId None player)
                           (players pm);
               playerInputs := playerInputs pm;
               inputHistory := inputHistory pm |} in
          match JsMap.get entityId (PhysicsWorld.bodies pw) with
          | None => (true, (pm', pw))
          | Some h =>
              let pw1 :=
                PhysicsWorld.withWorld
                  (RAPIER.updateBody h (RAPIER.setEnabled true)
                                     (PhysicsWorld.world pw)) pw in
              let groundHeight :=
                TerrainPhysicsManager.getHeightAt env (vx exitPosition)
                                                  (vz exitPosition) in
              let exitPosition' :=
                mkVec3 (vx exitPosition)
                       (Rmax (vy exitPosition)
                             (groundHeight + CONFIG.playerHeight / 2
                              + 1 / 10))
                       (vz exitPosition) in
              (true,
               (pm',
                PhysicsWorld.setVelocity entityId vec0
                  (PhysicsWorld.setPosition entityId exitPosition' pw1)))
          end
      end
  end.
End WithEnv.

Definition playerEnterVehicle (clientId vehicleId : string) (pm : t)
           (pw : PhysicsWorld.t) : bool * (t * PhysicsWorld.t) :=
  let entityId := playerEntityId clientId in
  match JsMap.get entityId (players pm) with
  | None => (false, (pm, pw))
  | Some player =>
      (true,
       ({| players :=
             JsMap.set entityId (withVehicleId (Some vehicleId) player)
                       (players pm);
           playerInputs := playerInputs pm;
           inputHistory := inputHistory pm |},
        match JsMap.get entityId (PhysicsWorld.bodies pw) with
        | Some h =>
            PhysicsWorld.withWorld
              (RAPIER.updateBody h (RAPIER.setEnabled false)
                                 (PhysicsWorld.world pw)) pw
        | None => pw
        end))
  end.

(** The state reported for a player: the kinematic part is absent
    while the player sits in a vehicle. *)
Record Kinematics := {
  k_state : PhysicsWorld.EntityState;
  k_yaw : R;
  k_isRunning : bool;
  k_isCrouching : bool
}.

Record PlayerState := {
  ps_entityId : string;
  ps_clientId : string;
  ps_inVehicle : bool;
  ps_vehicleId : option string;
  ps_username : string;
  ps_appearance : Appearance;
  ps_health : R;
  ps_stamina : R;
  ps_lastInputSeq : Z;
  ps_kinematics : option Kinematics
}.

Definition getPlayerState (clientId : string) (pm : t)
           (pw : PhysicsWorld.t) : option PlayerState :=
  let entityId := playerEntityId clientId in
  match JsMap.get entityId (players pm) with
  | None => None
  | Some player =>
      match vehicleId player with
      | Some v =>
          Some {| ps_entityId := entityId;
                  ps_clientId := PlayerPhysicsManager.clientId player;
                  ps_inVehicle := true;
                  ps_vehicleId := Some v;
                  ps_username := username player;
                  ps_appearance := appearance player;
                  ps_health := health player;
                  ps_stamina := stamina player;
                  ps_lastInputSeq := lastInputSeq player;
                  ps_kinematics := None |}
      | None =>
          match PhysicsWorld.getEntityState entityId pw with
          | None => None
          | Some physicsState =>
              Some {| ps_entityId := PhysicsWorld.es_entityId physicsState;
                      ps_clientId := PlayerPhysicsManager.clientId player;
                      ps_inVehicle := false;
                      ps_vehicleId := None;
                      ps_username := username player;
                      ps_appearance := appearance player;
                      ps_health := health player;
                      ps_stamina := stamina player;
                      ps_lastInputSeq := lastInputSeq player;
                      ps_kinematics :=
                        Some {| k_state := physicsState;
                                k_yaw := p_yaw player;
                                k_isRunning := isRunning player;
                                k_isCrouching := isCrouching player |} |}
          end
      end
  end.

Definition getAllPlayerStates (pm : t) (pw : PhysicsWorld.t)
  : list PlayerState :=
  flat_map (fun player =>
              match getPlayerState (clientId player) pm pw with
              | Some s => [s]
              | None => []
              end)
           (JsMap.values (players pm)).

Definition getPlayerPositions (pm : t) (pw : PhysicsWorld.t)
  : list TerrainPhysicsManager.PlayerPosition :=
  flat_map (fun e : string * Player =>
              match vehicleId (snd e) with
              | Some _ => []               (* skip players in vehicles *)
              | None =>
                  match PhysicsWorld.getEntityState (fst e) pw with
                  | Some state =>
                      [ {| TerrainPhysicsManager.pp_entityId := fst e;
                           TerrainPhysicsManager.pp_x :=
                             vx (PhysicsWorld.es_position state);
                           TerrainPhysicsManager.pp_z :=
                             vz (PhysicsWorld.es_position state) |} ]
                  | None => []
                  end
              end)
           (players pm).

Definition getPlayer (clientId : string) (pm : t) : option Player :=
  JsMap.get (playerEntityId clientId) (players pm).

Definition hasPlayer (clientId : string) (pm : t) : bool :=
  JsMap.has (playerEntityId clientId) (players pm).

Definition getPlayerCount (pm : t) : nat := JsMap.size (players pm).

Definition withHealth (h : R) (p : Player) : Player :=
  {| entityId := entityId p; clientId := clientId p;
     username := username p; appearance := appearance p;
     health := h; stamina := stamina p; isRunning := isRunning p;
     isCrouching := isCrouching p; p_yaw := p_yaw p;
     vehicleId := vehicleId p; lastInputSeq := lastInputSeq p |}.

(** [damagePlayer] and [healPlayer] return [false] for an unknown
    client, [None] here, and the player's new health otherwise. *)
Definition damagePlayer (clientId : string) (damage : R) (pm : t)
  : option R * t :=
  let entityId := playerEntityId clientId in
  match JsMap.get entityId (players pm) with
  | None => (None, pm)
  | Some player =>
      let h := Rmax 0 (health player - damage) in
      (Some h,
       {| players := JsMap.set entityId (withHealth h player) (players pm);
          playerInputs := playerInputs pm;
          inputHistory := inputHistory pm |})
  end.

Definition healPlayer (clientId : string) (amount : R) (pm : t)
  : option R * t :=
  let entityId := playerEntityId clientId in
  match JsMap.get entityId (players pm) with
  | None => (None, pm)
  | Some player =>
      let h := Rmin 100 (health player + amount) in
      (Some h,
       {| players := JsMap.set entityId (withHealth h player) (players pm);
          playerInputs := playerInputs pm;
          inputHistory := inputHistory pm |})
  end.

Section Teleport.
Variable env : Env.

(** [position.y] is overwritten on the caller's object, as in
    [spawnPlayer]; the state is the terrain manager with the physics
    world. *)
Definition teleportPlayer (clientId : string) (position : Vec3) (pm : t)
           (tst : TerrainPhysicsManager.t * PhysicsWorld.t)
  : bool * (TerrainPhysicsManager.t * PhysicsWorld.t) :=
  let entityId := playerEntityId clientId in
  if negb (JsMap.has entityId (players pm)) then (false, tst)
  else
    let '(tm1, pw1) :=
      TerrainPhysicsManager.forceLoadAroundPosition env (vx position)
        (vz position) 1 tst in
    let groundHeight :=
      TerrainPhysicsManager.getHeightAt env (vx position) (vz position) in
    let position' :=
      mkVec3 (vx position)
             (Rmax (vy position)
                   (groundHeight + CONFIG.playerHeight / 2 + 1 / 10))
             (vz position) in
    (true,
     (tm1,
      PhysicsWorld.setVelocity entityId vec0
        (PhysicsWorld.setPosition entityId position' pw1))).
End Teleport.
End PlayerPhysicsManager.

(** ** server/physics-server.js: PhysicsServer

    A connection is identified by its socket, a number here.  The
    socket's [readyState] is kept with the client data.  [sent] lists,
    in order, the messages handed to [ws.send]. *)

Module PhysicsServer.
Inductive ReadyState := CONNECTING | OPEN | CLOSING | CLOSED.
Inductive ConnState := connected | playing.

Record ClientData := {
  clientId : string;
  username : string;
  state : ConnState;
  lastPing : R;
  latency : R;
  chunkRequests : list TerrainPhysicsManager.Key;
  readyState : ReadyState
}.

Inductive Message :=
| HANDSHAKE_ACK (clientId : string) (serverTime : R) (tickRate : Z)
| ENTITY_SPAWN_PLAYER (entityId : string) (position : Vec3)
                      (username : option string)
                      (appearance : option PlayerPhysicsManager.Appearance)
                      (isLocal : bool)
| ENTITY_SPAWN_STATE (s : PlayerPhysicsManager.PlayerState)
| ENTITY_SPAWN_VEHICLE (s : VehiclePhysicsManager.VehicleState)
| INPUT_ACK (seq : Z)
| VEHICLE_ENTER (vehicleId playerId : string)
| VEHICLE_EXIT (vehicleId playerId : string) (exitPosition : Vec3)
| CHUNK_DATA (d : TerrainPhysicsManager.ClientChunkData)
| WORLD_SNAPSHOT (tick : Z) (serverTime : R)
                 (players : list PlayerPhysicsManager.PlayerState)
                 (vehicles : list VehiclePhysicsManager.VehicleState)
                 (yourLastInputSeq : Z).

Record t := {
  physicsWorld : PhysicsWorld.t;
  terrainManager : TerrainPhysicsManager.t;
  vehicleManager : VehiclePhysicsManager.t;
  playerManager : PlayerPhysicsManager.t;
  clients : list (nat * ClientData);
  tickNumber : Z;
  lastTickTime : R;
  sent : list (nat * Message)
}.

(** The state once [start()] has built the managers, at time [now]. *)
Definition start (now : R) : t :=
  {| physicsWorld := PhysicsWorld.init;
     terrainManager := TerrainPhysicsManager.init;
     vehicleManager := VehiclePhysicsManager.init;
     playerManager := PlayerPhysicsManager.init;
     clients := []; tickNumber := 0; lastTickTime := now; sent := [] |}.

Definition withSent (m : list (nat * Message)) (s : t) : t :=
  {| physicsWorld := physicsWorld s; terrainManager := terrainManager s;
     vehicleManager := vehicleManager s; playerManager := playerManager s;
     clients := clients s; tickNumber := tickNumber s;
     lastTickTime := lastTickTime s; sent := m |}.
Definition withClients (c : list (nat * ClientData)) (s : t) : t :=
  {| physicsWorld := physicsWorld s; terrainManager := terrainManager s;
     vehicleManager := vehicleManager s; playerManager := playerManager s;
     clients := c; tickNumber := tickNumber s;
     lastTickTime := lastTickTime s; sent := sent s |}.
Definition withManagers (pw : PhysicsWorld.t) (tm : TerrainPhysicsManager.t)
           (vm : VehiclePhysicsManager.t) (pm : PlayerPhysicsManager.t)
           (s : t) : t :=
  {| physicsWorld := pw; terrainManager := tm; vehicleManager := vm;
     playerManager := pm; clients := clients s; tickNumber := tickNumber s;
     lastTickTime := lastTickTime s; sent := sent s |}.

Definition isOpen (r : ReadyState) : bool :=
  match r with OPEN => true | _ => false end.
Definition isPlaying (c : ConnState) : bool :=
  match c with playing => true | connected => false end.

(** [send(ws, message)], for the socket of a known client. *)
Definition send (ws : nat) (message : Message) (s : t) : t :=
  match JsMap.get ws (clients s) with
  | Some c =>
      if isOpen (readyState c) then withSent (sent s ++ [(ws, message)]) s
      else s
  | None => s
  end.

Definition broadcast (message : Message) (excludeWs : option nat) (s : t)
  : t :=
  fold_left
    (fun acc (e : nat * ClientData) =>
       if negb (eqb (Some (fst e)) excludeWs) then send (fst e) message acc
       else acc)
    (clients s) s.

(** A new connection; [clientId] is the generated identifier. *)
Definition handleConnection (ws : nat) (clientId : string) (now : R)
           (s : t) : t :=
  send ws (HANDSHAKE_ACK clientId now CONFIG.tickRate)
    (withClients
       (JsMap.set ws
          {| clientId := clientId; username := "Player";
             state := connected; lastPing := now; latency := 0;
             chunkRequests := []; readyState := OPEN |}
          (clients s)) s).

Definition setClient (ws : nat) (c : ClientData) (s : t) : t :=
  withClients (JsMap.set ws c (clients s)) s.

Definition handlePlayerInput (ws : nat)
           (input : PlayerPhysicsManager.PlayerInput) (now : R) (s : t)
  : t :=
  match JsMap.get ws (clients s) with
  | None => s
  | Some clientData =>
      if negb (isPlaying (state clientData)) then s
      else
        let pm :=
          PlayerPhysicsManager.setPlayerInput (clientId clientData) input
            now (playerManager s) in
        send ws (INPUT_ACK (PlayerPhysicsManager.seq input))
             (withManagers (physicsWorld s) (terrainManager s)
                           (vehicleManager s) pm s)
  end.

Definition handleVehicleEnter (ws : nat) (s : t) : t :=
  match JsMap.get ws (clients s) with
  | None => s
  | Some clientData =>
      match PlayerPhysicsManager.getPlayerState (clientId clientData)
              (playerManager s) (physicsWorld s) with
      | None => s
      | Some playerState =>
          if PlayerPhysicsManager.ps_inVehicle playerState then s
          else
          match PlayerPhysicsManager.ps_kinematics playerState with
          | None => s
          | Some k =>
              let position :=
                PhysicsWorld.es_position (PlayerPhysicsManager.k_state k) in
              match VehiclePhysicsManager.findNearestVehicle position 5
                      (vehicleManager s, physicsWorld s) with
              | None => s
              | Some nearest =>
                  if VehiclePhysicsManager.n_occupied nearest then s
                  else
                    match VehiclePhysicsManager.enterVehicle
                            (VehiclePhysicsManager.n_entityId nearest)
                            (clientId clientData)
                            (vehicleManager s, physicsWorld s) with
                    | (false, _) => s
                    | (true, (vm, pw)) =>
                        let '(_, (pm, pw')) :=
                          PlayerPhysicsManager.playerEnterVehicle
                            (clientId clientData)
                            (VehiclePhysicsManager.n_entityId nearest)
                            (playerManager s) pw in
                        broadcast
                          (VEHICLE_ENTER
                             (VehiclePhysicsManager.n_entityId nearest)
                             (clientId clientData))
                          None
                          (withManagers pw' (terrainManager s) vm pm s)
                    end
              end
          end
      end
  end.

Definition handleChunkRequest (ws : nat) (chunkX chunkZ : Z) (s : t) : t :=
  match JsMap.get ws (clients s) with
  | None => s
  | Some c =>
      setClient ws
        {| clientId := clientId c; username := username c;
           state := state c; lastPing := lastPing c; latency := latency c;
           chunkRequests := JsSet.add (chunkX, chunkZ) (chunkRequests c);
           readyState := readyState c |} s
  end.

Section WithEnv.
Variable env : Env.

(** [random] is the sequence of values [Math.random()] returns from
    the call of the handler on. *)
Definition handleHandshake (ws : nat) (username : string)
           (appearance : PlayerPhysicsManager.Appearance)
           (random : nat -> R) (s : t) : t :=
  match JsMap.get ws (clients s) with
  | None => s
  | Some c =>
      let name := if eqb username "" then "Player" else username in
      let c' :=
        {| clientId := clientId c; username := name; state := playing;
           lastPing := lastPing c; latency := latency c;
           chunkRequests := chunkRequests c;
           readyState := readyState c |} in
      let s1 := setClient ws c' s in
      let spawnPoint0 :=
        TerrainPhysicsManager.findSpawnPoint env random in
      let '((entityId, spawnPoint), (pm, (tm, pw))) :=
        PlayerPhysicsManager.spawnPlayer env (clientId c) spawnPoint0
          name appearance
          (playerManager s1, (terrainManager s1, physicsWorld s1)) in
      let s2 := withManagers pw tm (vehicleManager s1) pm s1 in
      let s3 :=
        send ws (ENTITY_SPAWN_PLAYER entityId spawnPoint None None true)
             s2 in
      let s4 :=
        broadcast
          (ENTITY_SPAWN_PLAYER entityId spawnPoint (Some name)
                               (Some appearance) false)
          (Some ws) s3 in
      let s5 :=
        fold_left
          (fun acc (e : nat * ClientData) =>
             if negb (eqb (fst e) ws) && isPlaying (state (snd e)) then
               match PlayerPhysicsManager.getPlayerState
                       (clientId (snd e)) (playerManager acc)
                       (physicsWorld acc) with
               | Some playerState =>
                   send ws (ENTITY_SPAWN_STATE playerState) acc
               | None => acc
               end
             else acc)
          (clients s4) s4 in
      fold_left
        (fun acc vehicleState =>
           send ws (ENTITY_SPAWN_VEHICLE vehicleState) acc)
        (VehiclePhysicsManager.getAllVehicleStates
           (vehicleManager s5, physicsWorld s5))
        s5
  end.

Definition maxChunksPerTick : nat := 2.

(** For each client the first [maxChunksPerTick] requested keys are
    answered and deleted from the client's set. *)
Definition processChunkRequests (s : t) : t :=
  fold_left
    (fun acc (e : nat * ClientData) =>
       let (ws, c) := e in
       let served := firstn maxChunksPerTick (chunkRequests c) in
       let acc1 :=
         fold_left
           (fun a (key : TerrainPhysicsManager.Key) =>
              send ws
                (CHUNK_DATA
                   (TerrainPhysicsManager.getChunkDataForClient env
                      (fst key) (snd key) (terrainManager a)))
                a)
           served acc in
       setClient ws
         {| clientId := clientId c; username := username c;
            state := state c; lastPing := lastPing c;
            latency := latency c;
            chunkRequests := skipn maxChunksPerTick (chunkRequests c);
            readyState := readyState c |} acc1)
    (clients s) s.

(** [x || 0] on a number. *)
Definition orZero (x : option Z) : Z :=
  match x with
  | Some z => if Z.eqb z 0 then 0%Z else z
  | None => 0%Z
  end.

Definition sendWorldSnapshot (now : R) (s : t) : t :=
  let playerStates :=
    PlayerPhysicsManager.getAllPlayerStates (playerManager s)
                                            (physicsWorld s) in
  let vehicleStates :=
    VehiclePhysicsManager.getAllVehicleStates
      (vehicleManager s, physicsWorld s) in
  fold_left
    (fun acc (e : nat * ClientData) =>
       let (ws, clientData) := e in
       if negb (isPlaying (state clientData)) then acc
       else
         let myPlayerState :=
           find (fun p => eqb (PlayerPhysicsManager.ps_clientId p)
                              (clientId clientData))
                playerStates in
         send ws
           (WORLD_SNAPSHOT (tickNumber s) now playerStates vehicleStates
              (orZero
                 (option_map PlayerPhysicsManager.ps_lastInputSeq
                             myPlayerState)))
           acc)
    (clients s) s.

(** The phases of [tick], each on the whole server state. *)
Definition advanceClock (now : R) (s : t) : R * t :=
  ((now - lastTickTime s) / 1000,
   {| physicsWorld := physicsWorld s; terrainManager := terrainManager s;
      vehicleManager := vehicleManager s;
      playerManager := playerManager s; clients := clients s;
      tickNumber := (tickNumber s + 1)%Z; lastTickTime := now;
      sent := sent s |}).

Definition gatherPositions (s : t)
  : list TerrainPhysicsManager.PlayerPosition :=
  PlayerPhysicsManager.getPlayerPositions (playerManager s)
                                          (physicsWorld s).

Definition streamChunks
           (playerPositions : list TerrainPhysicsManager.PlayerPosition)
           (s : t) : t :=
  let '(tm, pw) :=
    TerrainPhysicsManager.updateForPlayers env playerPositions
      (terrainManager s, physicsWorld s) in
  withManagers pw tm (vehicleManager s) (playerManager s) s.

Definition updatePlayers (deltaTime : R) (s : t) : t :=
  let '(pm, pw) :=
    PlayerPhysicsManager.update env deltaTime (playerManager s)
                                (physicsWorld s) in
  withManagers pw (terrainManager s) (vehicleManager s) pm s.

Definition updateVehicles (deltaTime : R) (s : t) : t :=
  let '(vm, pw) :=
    VehiclePhysicsManager.update env deltaTime
      (vehicleManager s, physicsWorld s) in
  withManagers pw (terrainManager s) vm (playerManager s) s.

(** [this.physicsWorld.step(deltaTime)]: an exception of the world's
    [step] leaves the server with the world as [step] left it. *)
Definition stepPhysics (deltaTime : R) (s : t) : Result t :=
  let withWorld pw :=
    withManagers pw (terrainManager s) (vehicleManager s)
                 (playerManager s) s in
  match PhysicsWorld.step env deltaTime (physicsWorld s) with
  | Ok pw => Ok (withWorld pw)
  | TypeError pw => TypeError (withWorld pw)
  end.

(** [now] is [Date.now()] at the head of the tick, [now'] at the
    assembly of the snapshot.  [tick] catches nothing: an exception of
    the physics step leaves the tick before the chunk requests and the
    snapshot. *)
Definition tick (now now' : R) (s : t) : Result t :=
  let '(deltaTime, s0) := advanceClock now s in
  let playerPositions := gatherPositions s0 in
  let s1 := streamChunks playerPositions s0 in
  let s2 := updatePlayers deltaTime s1 in
  let s3 := updateVehicles deltaTime s2 in
  bind (stepPhysics deltaTime s3)
       (fun s4 =>
          let s5 := processChunkRequests s4 in
          Ok (sendWorldSnapshot now' s5)).
End WithEnv.

(** An entity id in a condition, [if (vehicleId)]: the empty string is
    falsy, like [null]. *)
Definition truthy (id : string) : bool := negb (eqb id EmptyString).

Definition drivenBy (clientId : string) (s : t) : option string :=
  match VehiclePhysicsManager.getVehicleByDriver clientId
          (vehicleManager s) with
  | Some vehicleId => if truthy vehicleId then Some vehicleId else None
  | None => None
  end.

Definition handleVehicleInput (ws : nat)
           (input : VehiclePhysicsManager.VehicleInputPatch) (s : t) : t :=
  match JsMap.get ws (clients s) with
  | None => s
  | Some clientData =>
      match drivenBy (clientId clientData) s with
      | Some vehicleId =>
          withManagers (physicsWorld s) (terrainManager s)
            (VehiclePhysicsManager.setVehicleInput vehicleId input
               (vehicleManager s))
            (playerManager s) s
      | None => s
      end
  end.

Section Leaving.
Variable env : Env.

(** The [exitPosition] object after [playerExitVehicle] has run on
    it: the method raises its [y] to standing height when it gets as
    far as the player's body. *)
Definition exitPositionAfter (clientId : string) (exitPosition : Vec3)
           (pm : PlayerPhysicsManager.t) (pw : PhysicsWorld.t) : Vec3 :=
  let entityId := PlayerPhysicsManager.playerEntityId clientId in
  match JsMap.get entityId (PlayerPhysicsManager.players pm) with
  | None => exitPosition
  | Some player =>
      match PlayerPhysicsManager.vehicleId player,
            JsMap.get entityId (PhysicsWorld.bodies pw) with
      | Some _, Some _ =>
          mkVec3 (vx exitPosition)
                 (Rmax (vy exitPosition)
                       (TerrainPhysicsManager.getHeightAt env
                          (vx exitPosition) (vz exitPosition)
                        + CONFIG.playerHeight / 2 + 1 / 10))
                 (vz exitPosition)
      | _, _ => exitPosition
      end
  end.

Definition handleVehicleExit (ws : nat) (s : t) : t :=
  match JsMap.get ws (clients s) with
  | None => s
  | Some clientData =>
      match drivenBy (clientId clientData) s with
      | None => s
      | Some vehicleId =>
          match VehiclePhysicsManager.getVehicleState vehicleId
                  (vehicleManager s, physicsWorld s) with
          | None => s
          | Some vehicleState =>
              let p :=
                PhysicsWorld.es_position
                  (VehiclePhysicsManager.vs_state vehicleState) in
              let exitOffset := 3 in
              let exitPosition := mkVec3 (vx p + exitOffset) (vy p) (vz p) in
              match VehiclePhysicsManager.exitVehicle vehicleId
                      (clientId clientData)
                      (vehicleManager s, physicsWorld s) with
              | (false, _) => s
              | (true, (vm, pw)) =>
                  let '(_, (pm, pw')) :=
                    PlayerPhysicsManager.playerExitVehicle env
                      (clientId clientData) exitPosition
                      (playerManager s) pw in
                  broadcast
                    (VEHICLE_EXIT vehicleId (clientId clientData)
                       (exitPositionAfter (clientId clientData)
                          exitPosition (playerManager s) pw))
                    None
                    (withManagers pw' (terrainManager s) vm pm s)
              end
          end
      end
  end.
End Leaving.

(** [handleDisconnect]: the server afterwards, and the
    [entity_destroy] messages handed to [ws.send], each with its socket
    and the entity id it names. *)
Definition handleDisconnect (ws : nat) (s : t) : t * list (nat * string) :=
  match JsMap.get ws (clients s) with
  | None => (s, [])
  | Some clientData =>
      let cid := clientId clientData in
      let '(pm, pw1) :=
        PlayerPhysicsManager.removePlayer cid (playerManager s)
                                          (physicsWorld s) in
      let '(vm, pw2) :=
        match drivenBy cid s with
        | Some vehicleId =>
            snd (VehiclePhysicsManager.exitVehicle vehicleId cid
                   (vehicleManager s, pw1))
        | None => (vehicleManager s, pw1)
        end in
      let clients' := JsMap.delete ws (clients s) in
      (withClients clients'
         (withManagers pw2 (terrainManager s) vm pm s),
       flat_map
         (fun e : nat * ClientData =>
            if negb (eqb (fst e) ws) && isOpen (readyState (snd e))
            then [(fst e, PlayerPhysicsManager.playerEntityId cid)]
            else [])
         clients')
  end.
End PhysicsServer.

(** ** The client: js/network-client.js and js/player-controller.js *)

Module NetworkClient.
(** An element of [pendingInputs]: the flat copy
    [{ ...input, timestamp }] of the input that was sent. *)
Record PendingInput := {
  pi_forward : R;
  pi_right : R;
  pi_jump : bool;
  pi_run : bool;
  pi_crouch : bool;
  pi_yaw : R;
  pi_seq : Z;
  pi_timestamp : R
}.

Record t := {
  connected : bool;
  inputSequence : Z;
  lastAckedInputSeq : Z;
  pendingInputs : list PendingInput;
  outbox : list PlayerPhysicsManager.PlayerInput   (* player_input sent *)
}.

(** The [seq] assigned, or [None] for [undefined] when not connected;
    [input.seq] is set on the caller's object.  [socketOpen] is
    [this.ws && this.ws.readyState === WebSocket.OPEN] at the call of
    [send], which transmits nothing otherwise. *)
Definition sendPlayerInput (socketOpen : bool)
           (input : PlayerPhysicsManager.PlayerInput)
           (now : R) (nc : t) : option Z * t :=
  if negb (connected nc) then (None, nc)
  else
    let seq := (inputSequence nc + 1)%Z in
    let input' :=
      {| PlayerPhysicsManager.forward := PlayerPhysicsManager.forward input;
         PlayerPhysicsManager.right := PlayerPhysicsManager.right input;
         PlayerPhysicsManager.jump := PlayerPhysicsManager.jump input;
         PlayerPhysicsManager.run := PlayerPhysicsManager.run input;
         PlayerPhysicsManager.crouch := PlayerPhysicsManager.crouch input;
         PlayerPhysicsManager.yaw := PlayerPhysicsManager.yaw input;
         PlayerPhysicsManager.seq := seq |} in
    (Some seq,
     {| connected := true;
        inputSequence := seq;
        lastAckedInputSeq := lastAckedInputSeq nc;
        pendingInputs :=
          PlayerPhysicsManager.keepLast CONFIG.inputBufferSize
            (pendingInputs nc ++
             [ {| pi_forward := PlayerPhysicsManager.forward input;
                  pi_right := PlayerPhysicsManager.right input;
                  pi_jump := PlayerPhysicsManager.jump input;
                  pi_run := PlayerPhysicsManager.run input;
                  pi_crouch := PlayerPhysicsManager.crouch input;
                  pi_yaw := PlayerPhysicsManager.yaw input;
                  pi_seq := seq;
                  pi_timestamp := now |} ]);
        outbox := if socketOpen then outbox nc ++ [input'] else outbox nc |}).

(** The acknowledgment part of [handleWorldSnapshot]. *)
Definition handleWorldSnapshot (yourLastInputSeq : option Z) (nc : t) : t :=
  match yourLastInputSeq with
  | None => nc
  | Some ack =>
      {| connected := connected nc;
         inputSequence := inputSequence nc;
         lastAckedInputSeq := ack;
         pendingInputs :=
           filter (fun input => Z.ltb ack (pi_seq input)) (pendingInputs nc);
         outbox := outbox nc |}
  end.

Definition handleInputAck (seq : Z) (nc : t) : t :=
  let ack := Z.max (lastAckedInputSeq nc) seq in
  {| connected := connected nc;
     inputSequence := inputSequence nc;
     lastAckedInputSeq := ack;
     pendingInputs :=
       filter (fun input => Z.ltb ack (pi_seq input)) (pendingInputs nc);
     outbox := outbox nc |}.

Definition getPendingInputs (nc : t) : list PendingInput :=
  pendingInputs nc.

(** [inputData.input] on an element of [pendingInputs]: the elements
    are flat copies and carry no [input] property, so the read gives
    [undefined]. *)
Definition inputOf (inputData : PendingInput)
  : option PlayerPhysicsManager.PlayerInput := None.

(** The chunk bookkeeping of the client: [requestedChunks],
    [receivedChunks], and the [chunk_request] messages handed to
    [ws.send], in order. *)
Record Chunks := {
  requestedChunks : list TerrainPhysicsManager.Key;
  receivedChunks :
    list (TerrainPhysicsManager.Key * TerrainPhysicsManager.ClientChunkData);
  chunkRequestsSent : list TerrainPhysicsManager.Key
}.

(** [socketOpen] is [this.ws && this.ws.readyState === WebSocket.OPEN]
    at the call of [send]. *)
Definition requestChunk (socketOpen : bool) (chunkX chunkZ : Z)
           (ct : Chunks) : Chunks :=
  let key := (chunkX, chunkZ) in
  if JsSet.has key (requestedChunks ct) || JsMap.has key (receivedChunks ct)
  then ct
  else
    {| requestedChunks := JsSet.add key (requestedChunks ct);
       receivedChunks := receivedChunks ct;
       chunkRequestsSent :=
         if socketOpen then chunkRequestsSent ct ++ [key]
         else chunkRequestsSent ct |}.

Definition handleChunkData (message : TerrainPhysicsManager.ClientChunkData)
           (ct : Chunks) : Chunks :=
  let key := (TerrainPhysicsManager.ccd_chunkX message,
              TerrainPhysicsManager.ccd_chunkZ message) in
  {| requestedChunks := JsSet.delete key (requestedChunks ct);
     receivedChunks := JsMap.set key message (receivedChunks ct);
     chunkRequestsSent := chunkRequestsSent ct |}.

Definition hasChunkData (chunkX chunkZ : Z) (ct : Chunks) : bool :=
  JsMap.has (chunkX, chunkZ) (receivedChunks ct).

Definition getChunkData (chunkX chunkZ : Z) (ct : Chunks)
  : option TerrainPhysicsManager.ClientChunkData :=
  JsMap.get (chunkX, chunkZ) (receivedChunks ct).

(** The loop visits the keys that are in [receivedChunks] when it
    starts and deletes those outside [keepKeys]. *)
Definition clearOldChunks (keepKeys : list TerrainPhysicsManager.Key)
           (ct : Chunks) : Chunks :=
  {| requestedChunks := requestedChunks ct;
     receivedChunks :=
       fold_left
         (fun m key => if JsSet.has key keepKeys then m
                       else JsMap.delete key m)
         (JsMap.keys (receivedChunks ct)) (receivedChunks ct);
     chunkRequestsSent := chunkRequestsSent ct |}.

Definition lerp (a b t : R) : R := a + (b - a) * t.

(** [slerpQuaternion]; a missing quaternion is [None], and
    [q2 || q1] is returned when one is missing. *)
Definition slerpQuaternion (q1 q2 : option Quat) (t : R) : option Quat :=
  match q1, q2 with
  | Some a, Some b =>
      let dot0 := qx a * qx b + qy a * qy b + qz a * qz b + qw a * qw b in
      let q2Modified :=
        if Rltb dot0 0 then mkQuat (- qx b) (- qy b) (- qz b) (- qw b)
        else b in
      let dot := if Rltb dot0 0 then - dot0 else dot0 in
      if Rgtb dot (9995 / 10000) then
        Some (mkQuat (lerp (qx a) (qx q2Modified) t)
                     (lerp (qy a) (qy q2Modified) t)
                     (lerp (qz a) (qz q2Modified) t)
                     (lerp (qw a) (qw q2Modified) t))
      else
        let theta0 := acos dot in
        let theta := theta0 * t in
        let sinTheta := sin theta in
        let sinTheta0 := sin theta0 in
        let s0 := cos theta - dot * sinTheta / sinTheta0 in
        let s1 := sinTheta / sinTheta0 in
        Some (mkQuat (s0 * qx a + s1 * qx q2Modified)
                     (s0 * qy a + s1 * qy q2Modified)
                     (s0 * qz a + s1 * qz q2Modified)
                     (s0 * qw a + s1 * qw q2Modified))
  | _, Some b => Some b
  | _, None => q1
  end.
End NetworkClient.

Module PlayerController.
Record Smoothing := {
  from : Vec3;
  to : Vec3;
  velocity : Vec3;
  start : R;
  duration : R
}.

(** An entry of [otherPlayers]; [mesh_position] and [mesh_rotation_y]
    are the rendered transform. *)
Record RemotePlayer := {
  mesh_position : Vec3;
  mesh_rotation_y : R;
  smoothing : option Smoothing;
  targetYaw : option R;
  rp_state : PlayerPhysicsManager.PlayerState
}.

Record t := {
  entityId : option string;
  position : Vec3;
  pc_velocity : Vec3;
  yaw : R;
  predictedPosition : Vec3;
  predictedVelocity : Vec3;
  otherPlayers : list (string * RemotePlayer);
  remoteSmoothingWindow : R;
  isGrounded : bool;
  isRunning : bool;
  isCrouching : bool;
  stamina : R;
  health : R;
  inVehicle : bool;
  vehicleId : option string
}.

(** [(CONFIG.networkInterpolationDelay || 100) / 1000] *)
Definition defaultSmoothingWindow : R := 100 / 1000.

Definition withOtherPlayers (o : list (string * RemotePlayer)) (pc : t)
  : t :=
  {| entityId := entityId pc; position := position pc;
     pc_velocity := pc_velocity pc; yaw := yaw pc;
     predictedPosition := predictedPosition pc;
     predictedVelocity := predictedVelocity pc; otherPlayers := o;
     remoteSmoothingWindow := remoteSmoothingWindow pc;
     isGrounded := isGrounded pc; isRunning := isRunning pc;
     isCrouching := isCrouching pc; stamina := stamina pc;
     health := health pc; inVehicle := inVehicle pc;
     vehicleId := vehicleId pc |}.

(** [state.position], [state.velocity], [state.grounded], [state.yaw]
    of a received player state; absent while the player is in a
    vehicle. *)
Definition statePosition (s : PlayerPhysicsManager.PlayerState)
  : option Vec3 :=
  option_map (fun k => PhysicsWorld.es_position
                         (PlayerPhysicsManager.k_state k))
             (PlayerPhysicsManager.ps_kinematics s).
Definition stateVelocity (s : PlayerPhysicsManager.PlayerState)
  : option Vec3 :=
  option_map (fun k => PhysicsWorld.es_velocity
                         (PlayerPhysicsManager.k_state k))
             (PlayerPhysicsManager.ps_kinematics s).
Definition stateGrounded (s : PlayerPhysicsManager.PlayerState) : bool :=
  match PlayerPhysicsManager.ps_kinematics s with
  | Some k =>
      match PhysicsWorld.es_specific (PlayerPhysicsManager.k_state k) with
      | PhysicsWorld.PlayerSpecific g _ => g
      | _ => false
      end
  | None => false
  end.
Definition stateYaw (s : PlayerPhysicsManager.PlayerState) : option R :=
  option_map PlayerPhysicsManager.k_yaw
             (PlayerPhysicsManager.ps_kinematics s).

Section WithEnv.
Variable env : Env.

(** [this.terrainRenderer.getHeightAt] *)
Definition getHeightAt (x z : R) : R := getTerrainHeight env x z.

Definition approach := PlayerPhysicsManager.approach.

Definition applyInput (input : option PlayerPhysicsManager.PlayerInput)
           (deltaTime : R) (pc : t) : Result t :=
  match input with
  | None => TypeError pc
  | Some input =>
      let forwardX := - sin (yaw pc) in
      let forwardZ := - cos (yaw pc) in
      let rightX := cos (yaw pc) in
      let rightZ := - sin (yaw pc) in
      let moveX0 :=
        PlayerPhysicsManager.forward input * forwardX
        + PlayerPhysicsManager.right input * rightX in
      let moveZ0 :=
        PlayerPhysicsManager.forward input * forwardZ
        + PlayerPhysicsManager.right input * rightZ in
      let moveLen := sqrt (moveX0 * moveX0 + moveZ0 * moveZ0) in
      let moveX := if Rgtb moveLen 1 then moveX0 / moveLen else moveX0 in
      let moveZ := if Rgtb moveLen 1 then moveZ0 / moveLen else moveZ0 in
      let isRunning' :=
        PlayerPhysicsManager.run input && Rgtb (stamina pc) 0 in
      let isCrouching' := PlayerPhysicsManager.crouch input in
      let targetSpeed :=
        if isCrouching' then CONFIG.crouchSpeed
        else if isRunning' then CONFIG.runSpeed
        else CONFIG.walkSpeed in
      let targetVelX := moveX * targetSpeed in
      let targetVelZ := moveZ * targetSpeed in
      let accel :=
        if isGrounded pc then 20 else 20 * CONFIG.airControl in
      let velX :=
        approach (vx (predictedVelocity pc)) targetVelX
                 (accel * deltaTime) in
      let velZ :=
        approach (vz (predictedVelocity pc)) targetVelZ
                 (accel * deltaTime) in
      (* Gravity *)
      let velY1 :=
        if negb (isGrounded pc)
        then vy (predictedVelocity pc) + CONFIG.gravity * deltaTime
        else vy (predictedVelocity pc) in
      (* Jump *)
      let jumps :=
        PlayerPhysicsManager.jump input && isGrounded pc
        && negb isCrouching' in
      let velY2 := if jumps then CONFIG.jumpForce else velY1 in
      let grounded2 := if jumps then false else isGrounded pc in
      (* Apply velocity *)
      let px := vx (predictedPosition pc) + velX * deltaTime in
      let py := vy (predictedPosition pc) + velY2 * deltaTime in
      let pz := vz (predictedPosition pc) + velZ * deltaTime in
      (* Simple ground collision *)
      let groundHeight := getHeightAt px pz + CONFIG.playerHeight / 2 in
      let lands := Rltb py groundHeight in
      let stamina' :=
        if isRunning' && Rgtb moveLen 0 then
          Rmax 0 (stamina pc - CONFIG.staminaDrainRate * deltaTime)
        else
          Rmin CONFIG.maxStamina
               (stamina pc + CONFIG.staminaRegenRate * deltaTime) in
      Ok {| entityId := entityId pc; position := position pc;
            pc_velocity := pc_velocity pc; yaw := yaw pc;
            predictedPosition :=
              mkVec3 px (if lands then groundHeight else py) pz;
            predictedVelocity :=
              mkVec3 velX (if lands then 0 else velY2) velZ;
            otherPlayers := otherPlayers pc;
            remoteSmoothingWindow := remoteSmoothingWindow pc;
            isGrounded := if lands then true else grounded2;
            isRunning := isRunning'; isCrouching := isCrouching';
            stamina := stamina'; health := health pc;
            inVehicle := inVehicle pc; vehicleId := vehicleId pc |}
  end.

(** The replay loop at the end of [updateLocalPlayerFromServer]. *)
Fixpoint replay (lastInputSeq : Z)
         (pendingInputs : list NetworkClient.PendingInput) (pc : t)
  : Result t :=
  match pendingInputs with
  | [] => Ok pc
  | inputData :: rest =>
      if Z.ltb lastInputSeq (NetworkClient.pi_seq inputData) then
        bind (applyInput (NetworkClient.inputOf inputData) (1 / 60) pc)
             (replay lastInputSeq rest)
      else replay lastInputSeq rest pc
  end.

(** [pendingInputs] is what [this.networkClient.getPendingInputs()]
    returns at the call. *)
Definition updateLocalPlayerFromServer
           (state : PlayerPhysicsManager.PlayerState)
           (pendingInputs : list NetworkClient.PendingInput) (pc : t)
  : Result t :=
  let pc0 :=
    {| entityId := entityId pc; position := position pc;
       pc_velocity := pc_velocity pc; yaw := yaw pc;
       predictedPosition := predictedPosition pc;
       predictedVelocity := predictedVelocity pc;
       otherPlayers := otherPlayers pc;
       remoteSmoothingWindow := remoteSmoothingWindow pc;
       isGrounded := stateGrounded state;
       isRunning := isRunning pc; isCrouching := isCrouching pc;
       stamina := PlayerPhysicsManager.ps_stamina state;
       health := PlayerPhysicsManager.ps_health state;
       inVehicle := PlayerPhysicsManager.ps_inVehicle state;
       vehicleId := PlayerPhysicsManager.ps_vehicleId state |} in
  match statePosition state, stateVelocity state with
  | Some serverPos, Some serverVel =>
      (* Reconciliation: compare server position with predicted *)
      let error := Vector3.distanceTo (predictedPosition pc0) serverPos in
      let snap := Rgtb error 2 in
      let smooth := Rgtb error (1 / 10) in
      let pc1 :=
        {| entityId := entityId pc0;
           position :=
             if snap then serverPos
             else if smooth then Vector3.lerp (position pc0) serverPos
                                              (3 / 10)
             else position pc0;
           pc_velocity := if snap then serverVel else pc_velocity pc0;
           yaw := yaw pc0;
           predictedPosition :=
             if snap then serverPos
             else if smooth then Vector3.lerp (predictedPosition pc0)
                                              serverPos (1 / 10)
             else predictedPosition pc0;
           predictedVelocity :=
             if snap then serverVel else predictedVelocity pc0;
           otherPlayers := otherPlayers pc0;
           remoteSmoothingWindow := remoteSmoothingWindow pc0;
           isGrounded := isGrounded pc0;
           isRunning := isRunning pc0; isCrouching := isCrouching pc0;
           stamina := stamina pc0; health := health pc0;
           inVehicle := inVehicle pc0; vehicleId := vehicleId pc0 |} in
      (* Re-apply unacknowledged inputs for prediction *)
      replay (PlayerPhysicsManager.ps_lastInputSeq state) pendingInputs
             pc1
  | _, _ => TypeError pc0
  end.
End WithEnv.

Definition spawnOtherPlayer (entityId : string)
           (state : PlayerPhysicsManager.PlayerState) (pc : t) : Result t :=
  if JsMap.has entityId (otherPlayers pc) then Ok pc
  else
    match statePosition state with
    | None => TypeError pc
    | Some p =>
        Ok (withOtherPlayers
              (JsMap.set entityId
                 {| mesh_position := p;
                    mesh_rotation_y :=
                      match stateYaw state with Some y => y | None => 0 end;
                    smoothing := None;
                    targetYaw := None;
                    rp_state := state |}
                 (otherPlayers pc)) pc)
    end.

(** [now] is [performance.now()]. *)
Definition updateOtherPlayerFromServer
           (state : PlayerPhysicsManager.PlayerState) (now : R) (pc : t)
  : Result t :=
  let entityId := PlayerPhysicsManager.ps_entityId state in
  bind (match JsMap.get entityId (otherPlayers pc) with
        | Some _ => Ok pc
        | None => spawnOtherPlayer entityId state pc
        end)
       (fun pc1 =>
          match JsMap.get entityId (otherPlayers pc1) with
          | None => Ok pc1
          | Some player =>
              match statePosition state with
              | None => TypeError pc1
              | Some targetPos =>
                  let targetVel :=
                    match stateVelocity state with
                    | Some v => v
                    | None => vec0
                    end in
                  Ok (withOtherPlayers
                        (JsMap.set entityId
                           {| mesh_position := mesh_position player;
                              mesh_rotation_y := mesh_rotation_y player;
                              smoothing :=
                                Some {| from := mesh_position player;
                                        to := targetPos;
                                        velocity := targetVel;
                                        start := now;
                                        duration :=
                                          remoteSmoothingWindow pc1 * 1000
                                     |};
                              targetYaw :=
                                match stateYaw state with
                                | Some y => Some y
                                | None => targetYaw player
                                end;
                              rp_state := state |}
                           (otherPlayers pc1)) pc1)
              end
          end).

(** The body of the loop of [smoothRemotePlayers] for one entry. *)
Definition smoothRemotePlayer (window now : R) (player : RemotePlayer)
  : RemotePlayer :=
  match smoothing player with
  | None => player
  | Some sm =>
      let t := Rmin 1 ((now - start sm) / duration sm) in
      let eased := t * t * (3 - 2 * t) in
      let blended :=
        Vector3.addScaledVector (to sm) (velocity sm)
                                (window * (1 - eased)) in
      {| mesh_position := Vector3.lerpVectors (from sm) blended eased;
         mesh_rotation_y :=
           match targetYaw player with
           | Some y =>
               (1 - 15 / 100) * mesh_rotation_y player + 15 / 100 * y
           | None => mesh_rotation_y player
           end;
         smoothing := smoothing player;
         targetYaw := targetYaw player;
         rp_state := rp_state player |}
  end.

Definition smoothRemotePlayers (now : R) (pc : t) : t :=
  withOtherPlayers
    (map (fun e => (fst e, smoothRemotePlayer (remoteSmoothingWindow pc)
                                              now (snd e)))
         (otherPlayers pc)) pc.
End PlayerController.

(** ** Runs and concrete scenarios

    What follows is not taken from the sources: the vocabulary in which
    the properties are stated, and small concrete worlds on which they
    are exercised. *)







(** The body of [entityId] and its entity data are both there. *)
Definition present (pw : PhysicsWorld.t) (entityId : string) : bool :=
  match PhysicsWorld.body pw entityId,
        JsMap.get entityId (PhysicsWorld.entityData pw) with
  | Some _, Some _ => true
  | _, _ => false
  end.

(** The rendered position of a remote entity in the words of the
    specification: progress clamped to [0, 1], eased by smoothstep, and
    a linear blend from [from] toward
    [to + velocity * delayWindow * (1 - eased)]. *)
Definition clamp (x lo hi : R) : R := Rmax lo (Rmin hi x).
Definition smoothstep (t : R) : R := t * t * (3 - 2 * t).
Definition vadd (a b : Vec3) : Vec3 :=
  mkVec3 (vx a + vx b) (vy a + vy b) (vz a + vz b).
Definition vsub (a b : Vec3) : Vec3 :=
  mkVec3 (vx a - vx b) (vy a - vy b) (vz a - vz b).
Definition vscale (a : Vec3) (k : R) : Vec3 :=
  mkVec3 (vx a * k) (vy a * k) (vz a * k).
Definition blendToward (a b : Vec3) (factor : R) : Vec3 :=
  vadd a (vscale (vsub b a) factor).

Definition specRender (delayWindow : R) (sm : PlayerController.Smoothing)
           (now : R) : Vec3 :=
  let t :=
    clamp ((now - PlayerController.start sm) / PlayerController.duration sm)
          0 1 in
  let eased := smoothstep t in
  blendToward (PlayerController.from sm)
    (vadd (PlayerController.to sm)
          (vscale (vscale (PlayerController.velocity sm) delayWindow)
                  (1 - eased)))
    eased.

(** The position [findSpawnPoint] builds for a candidate [(x, z)]. *)
Definition pointOf (env : Env) (c : R * R) : Vec3 :=
  mkVec3 (fst c)
         (TerrainPhysicsManager.getHeightAt env (fst c) (snd c) + 2)
         (snd c).

(** City influence and flatness sum at a candidate. *)
Definition cityAt (env : Env) (c : R * R) : R :=
  TerrainPhysicsManager.getCityInfluenceAt env (fst c) (snd c).
Definition flatAt (env : Env) (c : R * R) : R :=
  TerrainPhysicsManager.flatnessAt env (fst c) (snd c).

Module Scenario.
(** Flat ground, no city, nothing under any ray, an engine at rest. *)
Definition env0 : Env :=
  {| getTerrainHeight := fun _ _ => 0;
     getCityInfluence := fun _ _ => 0;
     getBiomeAt := fun _ _ => "wasteland";
     generateChunkHeightmap := fun _ _ _ => [];
     getCityBuildings := fun _ _ => [];
     castRay := fun _ _ _ _ _ => None;
     integrate := fun _ _ b => b;
     forceModel := fun _ _ _ _ _ x => x |}.

(** The record [spawnPlayer] stores for client [a]. *)
Definition player_a : PlayerPhysicsManager.Player :=
  {| PlayerPhysicsManager.entityId := "player_a";
     PlayerPhysicsManager.clientId := "a";
     PlayerPhysicsManager.username := "A";
     PlayerPhysicsManager.appearance := [];
     PlayerPhysicsManager.health := 100;
     PlayerPhysicsManager.stamina := CONFIG.maxStamina;
     PlayerPhysicsManager.isRunning := false;
     PlayerPhysicsManager.isCrouching := false;
     PlayerPhysicsManager.p_yaw := 0;
     PlayerPhysicsManager.vehicleId := None;
     PlayerPhysicsManager.lastInputSeq := 0 |}.

Definition idle (seq : Z) (jump : bool) : PlayerPhysicsManager.PlayerInput :=
  {| PlayerPhysicsManager.forward := 0; PlayerPhysicsManager.right := 0;
     PlayerPhysicsManager.jump := jump; PlayerPhysicsManager.run := false;
     PlayerPhysicsManager.crouch := false; PlayerPhysicsManager.yaw := 0;
     PlayerPhysicsManager.seq := seq |}.

Definition pm_a : PlayerPhysicsManager.t :=
  {| PlayerPhysicsManager.players := [("player_a", player_a)];
     PlayerPhysicsManager.playerInputs := [("player_a", idle 0 false)];
     PlayerPhysicsManager.inputHistory := [("player_a", [])] |}.

(** The world with the body of [a], created one unit above the origin. *)
Definition pw_a : PhysicsWorld.t :=
  snd (PhysicsWorld.createPlayerBody "player_a" (mkVec3 0 1 0) "a"
         PhysicsWorld.init).

(** The same player ten units under the ground, falling. *)
Definition pw_fallen : PhysicsWorld.t :=
  PhysicsWorld.setVelocity "player_a" (mkVec3 0 (-3) 0)
    (snd (PhysicsWorld.createPlayerBody "player_a" (mkVec3 0 (-10) 0) "a"
            PhysicsWorld.init)).

(** [a] in a vehicle. *)
Definition pm_driving : PlayerPhysicsManager.t :=
  {| PlayerPhysicsManager.players :=
       [("player_a",
         PlayerPhysicsManager.withVehicleId (Some "vehicle_1") player_a)];
     PlayerPhysicsManager.playerInputs := [("player_a", idle 0 false)];
     PlayerPhysicsManager.inputHistory := [("player_a", [])] |}.

Definition client_a (r : PhysicsServer.ReadyState)
  : PhysicsServer.ClientData :=
  {| PhysicsServer.clientId := "a"; PhysicsServer.username := "A";
     PhysicsServer.state := PhysicsServer.playing;
     PhysicsServer.lastPing := 0; PhysicsServer.latency := 0;
     PhysicsServer.chunkRequests := [];
     PhysicsServer.readyState := r |}.

Definition server (pm : PlayerPhysicsManager.t)
           (r : PhysicsServer.ReadyState) : PhysicsServer.t :=
  {| PhysicsServer.physicsWorld := pw_a;
     PhysicsServer.terrainManager := TerrainPhysicsManager.init;
     PhysicsServer.vehicleManager := VehiclePhysicsManager.init;
     PhysicsServer.playerManager := pm;
     PhysicsServer.clients := [(0%nat, client_a r)];
     PhysicsServer.tickNumber := 0;
     PhysicsServer.lastTickTime := 0;
     PhysicsServer.sent := [] |}.

(** The state of player [a] as a snapshot reports it. *)
Definition stateAt (pos vel : Vec3) (ack : Z)
  : PlayerPhysicsManager.PlayerState :=
  {| PlayerPhysicsManager.ps_entityId := "player_a";
     PlayerPhysicsManager.ps_clientId := "a";
     PlayerPhysicsManager.ps_inVehicle := false;
     PlayerPhysicsManager.ps_vehicleId := None;
     PlayerPhysicsManager.ps_username := "A";
     PlayerPhysicsManager.ps_appearance := [];
     PlayerPhysicsManager.ps_health := 100;
     PlayerPhysicsManager.ps_stamina := 100;
     PlayerPhysicsManager.ps_lastInputSeq := ack;
     PlayerPhysicsManager.ps_kinematics :=
       Some {| PlayerPhysicsManager.k_state :=
                 {| PhysicsWorld.es_entityId := "player_a";
                    PhysicsWorld.es_type := "player";
                    PhysicsWorld.es_position := pos;
                    PhysicsWorld.es_rotation := quatId;
                    PhysicsWorld.es_velocity := vel;
                    PhysicsWorld.es_angularVelocity := vec0;
                    PhysicsWorld.es_specific :=
                      PhysicsWorld.PlayerSpecific true (mkVec3 0 1 0) |};
               PlayerPhysicsManager.k_yaw := 0;
               PlayerPhysicsManager.k_isRunning := false;
               PlayerPhysicsManager.k_isCrouching := false |} |}.

(** A controller whose prediction stands at [predicted], with the
    remote players [others]. *)
Definition controllerAt (predicted : Vec3)
           (others : list (string * PlayerController.RemotePlayer))
  : PlayerController.t :=
  {| PlayerController.entityId := Some "player_me";
     PlayerController.position := predicted;
     PlayerController.pc_velocity := vec0;
     PlayerController.yaw := 0;
     PlayerController.predictedPosition := predicted;
     PlayerController.predictedVelocity := vec0;
     PlayerController.otherPlayers := others;
     PlayerController.remoteSmoothingWindow :=
       PlayerController.defaultSmoothingWindow;
     PlayerController.isGrounded := true;
     PlayerController.isRunning := false;
     PlayerController.isCrouching := false;
     PlayerController.stamina := 100;
     PlayerController.health := 100;
     PlayerController.inVehicle := false;
     PlayerController.vehicleId := None |}.

(** Remote player [a] as rendered at [pos], before any update. *)
Definition remoteAt (pos : Vec3) : PlayerController.RemotePlayer :=
  {| PlayerController.mesh_position := pos;
     PlayerController.mesh_rotation_y := 0;
     PlayerController.smoothing := None;
     PlayerController.targetYaw := None;
     PlayerController.rp_state := stateAt pos vec0 0 |}.

(** A car with an empty driver slot. *)
Definition vm_car : VehiclePhysicsManager.State :=
  snd (VehiclePhysicsManager.spawnVehicle "vehicle_1" "car" (mkVec3 0 0 0) 0
         (VehiclePhysicsManager.init, PhysicsWorld.init)).

(** A second player, [b], one unit along x from [a]. *)
Definition player_b : PlayerPhysicsManager.Player :=
  {| PlayerPhysicsManager.entityId := "player_b";
     PlayerPhysicsManager.clientId := "b";
     PlayerPhysicsManager.username := "B";
     PlayerPhysicsManager.appearance := [];
     PlayerPhysicsManager.health := 100;
     PlayerPhysicsManager.stamina := CONFIG.maxStamina;
     PlayerPhysicsManager.isRunning := false;
     PlayerPhysicsManager.isCrouching := false;
     PlayerPhysicsManager.p_yaw := 0;
     PlayerPhysicsManager.vehicleId := None;
     PlayerPhysicsManager.lastInputSeq := 0 |}.

Definition pm_ab : PlayerPhysicsManager.t :=
  {| PlayerPhysicsManager.players :=
       [("player_a", player_a); ("player_b", player_b)];
     PlayerPhysicsManager.playerInputs :=
       [("player_a", idle 0 false); ("player_b", idle 0 false)];
     PlayerPhysicsManager.inputHistory :=
       [("player_a", []); ("player_b", [])] |}.

Definition client_b (r : PhysicsServer.ReadyState)
  : PhysicsServer.ClientData :=
  {| PhysicsServer.clientId := "b"; PhysicsServer.username := "B";
     PhysicsServer.state := PhysicsServer.playing;
     PhysicsServer.lastPing := 0; PhysicsServer.latency := 0;
     PhysicsServer.chunkRequests := [];
     PhysicsServer.readyState := r |}.

(** Both players and a car spawned at the origin, between them. *)
Definition st_ab_car : VehiclePhysicsManager.State :=
  snd (VehiclePhysicsManager.spawnVehicle "vehicle_1" "car" (mkVec3 0 0 0) 0
         (VehiclePhysicsManager.init,
          snd (PhysicsWorld.createPlayerBody "player_b" (mkVec3 1 1 0) "b"
                 pw_a))).

Definition server_ab : PhysicsServer.t :=
  {| PhysicsServer.physicsWorld := snd st_ab_car;
     PhysicsServer.terrainManager := TerrainPhysicsManager.init;
     PhysicsServer.vehicleManager := fst st_ab_car;
     PhysicsServer.playerManager := pm_ab;
     PhysicsServer.clients :=
       [(0%nat, client_a PhysicsServer.OPEN);
        (1%nat, client_b PhysicsServer.OPEN)];
     PhysicsServer.tickNumber := 0;
     PhysicsServer.lastTickTime := 0;
     PhysicsServer.sent := [] |}.

(** Flat ground at height 0 that the rays see: a ray cast straight
    down from above the ground hits it at the distance of the origin's
    height, if that is within reach; a ray cast from below the ground
    hits nothing. *)
Definition envGround : Env :=
  {| getTerrainHeight := fun _ _ => 0;
     getCityInfluence := fun _ _ => 0;
     getBiomeAt := fun _ _ => "wasteland";
     generateChunkHeightmap := fun _ _ _ => [];
     getCityBuildings := fun _ _ => [];
     castRay := fun _ origin _ maxDistance _ =>
                  if Rltb (vy origin) 0 then None
                  else if Rleb (vy origin) maxDistance then
                         Some {| RAPIER.toi := vy origin;
                                 RAPIER.collider := 0%nat;
                                 RAPIER.normal := None |}
                       else None;
     integrate := fun _ _ b => b;
     forceModel := fun _ _ _ _ _ x => x |}.

(** [a] on foot, with a stored input that asks for a jump. *)
Definition pm_jump : PlayerPhysicsManager.t :=
  {| PlayerPhysicsManager.players := [("player_a", player_a)];
     PlayerPhysicsManager.playerInputs := [("player_a", idle 1 true)];
     PlayerPhysicsManager.inputHistory := [("player_a", [])] |}.
End Scenario.

(* ================================================================== *)
(** ** Notions used by the statements of Part II *)

Section MovementNotions.
Variable env : Env.
Import PlayerPhysicsManager.

(** The vertical velocity that the update leaves on the body, and what
    else it leaves: no case distinction on the horizontal part is
    needed. *)
Definition newVelY (input : PlayerInput) (isGrounded : bool)
           (b : RAPIER.RigidBody) : R :=
  if jump input && isGrounded && negb (crouch input)
  then CONFIG.jumpForce else vy (RAPIER.linvel b).

Definition clamps (b : RAPIER.RigidBody) : bool :=
  Rltb (vy (RAPIER.translation b))
       (TerrainPhysicsManager.getHeightAt env (vx (RAPIER.translation b))
                                          (vz (RAPIER.translation b))
        + CONFIG.playerHeight / 2 - 1).

End MovementNotions.

Section OwnStateNotions.
Import PlayerPhysicsManager.

(** The players map is a map (no key twice) and every player sits under
    the key built from its client id, as [spawnPlayer] stores it. *)
Definition wfPlayers (pm : t) : Prop :=
  NoDup (JsMap.keys (players pm))
  /\ Forall (fun e => fst e = playerEntityId (clientId (snd e))) (players pm).

(** The acknowledgment a snapshot carries for client [cid]. *)
Definition ackOf (pm : t) (pw : PhysicsWorld.t) (cid : string) : Z :=
  match getPlayerState cid pm pw with
  | Some ps => ps_lastInputSeq ps
  | None => 0%Z
  end.

End OwnStateNotions.

Section ServerNotions.
Import PhysicsServer.
Variable env : Env.

(** Everything of the server but its connections and its outbox. *)
Definition core (s : t) :=
  (physicsWorld s, terrainManager s, vehicleManager s, playerManager s,
   tickNumber s, lastTickTime s).

(** The socket of [ws] is known and open. *)
Definition openIn (cl : list (nat * ClientData)) (ws : nat) : bool :=
  match JsMap.get ws cl with
  | Some c => isOpen (readyState c)
  | None => false
  end.

(** What [processChunkRequests] leaves of a client: the requests that
    were not served. *)
Definition afterService (c : ClientData) : ClientData :=
  {| clientId := clientId c; username := username c; state := state c;
     lastPing := lastPing c; latency := latency c;
     chunkRequests := skipn maxChunksPerTick (chunkRequests c);
     readyState := readyState c |}.

(** The chunk data handed to the socket of one client in a tick. *)
Definition chunkDataFor (tm : TerrainPhysicsManager.t)
           (e : nat * ClientData) : list (nat * Message) :=
  if isOpen (readyState (snd e)) then
    map (fun key : TerrainPhysicsManager.Key =>
           (fst e,
            CHUNK_DATA (TerrainPhysicsManager.getChunkDataForClient env
                          (fst key) (snd key) tm)))
        (firstn maxChunksPerTick (chunkRequests (snd e)))
  else [].

(** The snapshot handed to the socket of one client: none unless the
    connection is Playing and its socket is open. *)
Definition snapshotFor (tick : Z) (serverTime : R) (s : t)
           (e : nat * ClientData) : list (nat * Message) :=
  if isPlaying (state (snd e)) && isOpen (readyState (snd e)) then
    [(fst e,
      WORLD_SNAPSHOT tick serverTime
        (PlayerPhysicsManager.getAllPlayerStates (playerManager s)
                                                 (physicsWorld s))
        (VehiclePhysicsManager.getAllVehicleStates
           (vehicleManager s, physicsWorld s))
        (ackOf (playerManager s) (physicsWorld s) (clientId (snd e))))]
  else [].

(** The server before the physics step of a tick that starts at [now]:
    clock advanced, chunks streamed, players and vehicles updated. *)
Definition beforeStep (now : R) (s : t) : t :=
  let deltaTime := (now - lastTickTime s) / 1000 in
  let s0 := snd (advanceClock now s) in
  updateVehicles env deltaTime
    (updatePlayers env deltaTime
       (streamChunks env (gatherPositions s0) s0)).

(** The server as the physics step of that tick leaves it. *)
Definition afterStep (now : R) (s : t) : t :=
  leftIn (stepPhysics env ((now - lastTickTime s) / 1000)
                      (beforeStep now s)).

End ServerNotions.



(** A player standing at the origin of the world. *)
Definition atOrigin : TerrainPhysicsManager.PlayerPosition :=
  {| TerrainPhysicsManager.pp_entityId := "player_a";
     TerrainPhysicsManager.pp_x := 0;
     TerrainPhysicsManager.pp_z := 0 |}.

(** The manager after the position updates of four ticks: the player
    stands at the origin for two ticks, is not tracked during the third
    (it sits in a vehicle, say), and is back at the origin in the
    fourth. *)
Definition threeTicks : TerrainPhysicsManager.State :=
  TerrainPhysicsManager.updateForPlayers Scenario.env0 []
    (TerrainPhysicsManager.updateForPlayers Scenario.env0 [atOrigin]
       (TerrainPhysicsManager.updateForPlayers Scenario.env0 [atOrigin]
          (TerrainPhysicsManager.init, PhysicsWorld.init))).

Definition fourTicks : TerrainPhysicsManager.State :=
  TerrainPhysicsManager.updateForPlayers Scenario.env0 [atOrigin] threeTicks.

(** The player manager after client [a] has been spawned twice at the
    origin, as a second handshake on the same connection does. *)
Definition spawnedTwice
  : PlayerPhysicsManager.t * (TerrainPhysicsManager.t * PhysicsWorld.t) :=
  snd (PlayerPhysicsManager.spawnPlayer Scenario.env0 "a" (mkVec3 0 0 0) "A" []
         (snd (PlayerPhysicsManager.spawnPlayer Scenario.env0 "a"
                 (mkVec3 0 0 0) "A" []
                 (PlayerPhysicsManager.init,
                  (TerrainPhysicsManager.init, PhysicsWorld.init))))).

(** The handles of the rigid bodies in the engine, and of those among
    them that some entity id is mapped to. *)
Definition engineBodies (pw : PhysicsWorld.t) : list nat :=
  JsMap.keys (RAPIER.rigidBodies (PhysicsWorld.world pw)).

Definition ownedBodies (pw : PhysicsWorld.t) : list nat :=
  JsMap.values (PhysicsWorld.bodies pw).
Definition engineColliders (pw : PhysicsWorld.t) : list nat :=
  JsMap.keys (RAPIER.colliderSet (PhysicsWorld.world pw)).

Section SpawnNotions.
Variable env : Env.
Variable random : nat -> R.

(** What the loop holds as best so far when attempt [i] starts. *)
Definition bestSoFar (i : nat) (bestPoint : Vec3) (bestFlatness : option R)
  : Prop :=
  match bestFlatness with
  | None => i = 0%nat
  | Some f =>
      exists k,
        (k < i)%nat
        /\ bestPoint = pointOf env (TerrainPhysicsManager.candidate random k)
        /\ f = flatAt env (TerrainPhysicsManager.candidate random k)
        /\ forall j, (j < i)%nat ->
                     f <= flatAt env (TerrainPhysicsManager.candidate random j)
  end.

End SpawnNotions.

(** ** Notions used by the statements of Part III *)

(** A player's stamina and health lie in the ranges the source clamps
    them to. *)
Definition staminaInRange (p : PlayerPhysicsManager.Player) : Prop :=
  0 <= PlayerPhysicsManager.stamina p <= CONFIG.maxStamina.

Definition healthInRange (p : PlayerPhysicsManager.Player) : Prop :=
  0 <= PlayerPhysicsManager.health p <= 100.

(** The engine holds exactly the rigid bodies the [bodies] map refers
    to, in the same order, each under one entity id; handles already
    given out lie below the next one. *)
Definition consistentBodies (pw : PhysicsWorld.t) : Prop :=
  engineBodies pw = ownedBodies pw
  /\ NoDup (JsMap.keys (PhysicsWorld.bodies pw))
  /\ NoDup (engineBodies pw)
  /\ Forall (fun h => (h < RAPIER.nextHandle (PhysicsWorld.world pw))%nat)
            (engineBodies pw).

(** An entity state with another velocity, or another position. *)
Definition withVelocity (v : Vec3) (s : PhysicsWorld.EntityState)
  : PhysicsWorld.EntityState :=
  {| PhysicsWorld.es_entityId := PhysicsWorld.es_entityId s;
     PhysicsWorld.es_type := PhysicsWorld.es_type s;
     PhysicsWorld.es_position := PhysicsWorld.es_position s;
     PhysicsWorld.es_rotation := PhysicsWorld.es_rotation s;
     PhysicsWorld.es_velocity := v;
     PhysicsWorld.es_angularVelocity := PhysicsWorld.es_angularVelocity s;
     PhysicsWorld.es_specific := PhysicsWorld.es_specific s |}.

Definition withPosition (p : Vec3) (s : PhysicsWorld.EntityState)
  : PhysicsWorld.EntityState :=
  {| PhysicsWorld.es_entityId := PhysicsWorld.es_entityId s;
     PhysicsWorld.es_type := PhysicsWorld.es_type s;
     PhysicsWorld.es_position := p;
     PhysicsWorld.es_rotation := PhysicsWorld.es_rotation s;
     PhysicsWorld.es_velocity := PhysicsWorld.es_velocity s;
     PhysicsWorld.es_angularVelocity := PhysicsWorld.es_angularVelocity s;
     PhysicsWorld.es_specific := PhysicsWorld.es_specific s |}.

(** The Chebyshev distance between two chunks. *)
Definition chebyshev (a b : TerrainPhysicsManager.Key) : Z :=
  Z.max (Z.abs (fst a - fst b)) (Z.abs (snd a - snd b)).

(** The terrain manager and the physics world hold the same chunks, in
    the same order, and the manager lists buildings for exactly its
    loaded chunks. *)
Definition terrainInStep (st : TerrainPhysicsManager.State) : Prop :=
  JsMap.keys (TerrainPhysicsManager.loadedChunks (fst st))
  = JsMap.keys (PhysicsWorld.terrainChunks (snd st))
  /\ JsMap.keys (TerrainPhysicsManager.buildings (fst st))
     = JsMap.keys (TerrainPhysicsManager.loadedChunks (fst st)).

(** The distance [findNearestVehicle] computes from [position] to the
    entity, when the entity has a state. *)
Definition vehicleDistance (position : Vec3) (pw : PhysicsWorld.t)
           (entityId : string) : option R :=
  option_map
    (fun state =>
       let dx := vx (PhysicsWorld.es_position state) - vx position in
       let dy := vy (PhysicsWorld.es_position state) - vy position in
       let dz := vz (PhysicsWorld.es_position state) - vz position in
       sqrt (dx * dx + dy * dy + dz * dz))
    (PhysicsWorld.getEntityState entityId pw).

Definition occupiedFlag (v : VehiclePhysicsManager.Vehicle) : bool :=
  match VehiclePhysicsManager.driverId v with
  | Some _ => true
  | None => false
  end.

(** What [findNearestVehicle] holds after the vehicles [seen]. *)
Definition nearestSoFar (position : Vec3) (maxDistance : R)
           (pw : PhysicsWorld.t)
           (seen : list (string * VehiclePhysicsManager.Vehicle))
           (acc : option VehiclePhysicsManager.Nearest * R) : Prop :=
  match fst acc with
  | None => snd acc = maxDistance
  | Some n =>
      VehiclePhysicsManager.n_distance n = snd acc
      /\ snd acc < maxDistance
      /\ vehicleDistance position pw (VehiclePhysicsManager.n_entityId n)
         = Some (snd acc)
      /\ exists v,
           In (VehiclePhysicsManager.n_entityId n, v) seen
           /\ VehiclePhysicsManager.n_vehicleType n
              = VehiclePhysicsManager.vehicleType v
           /\ VehiclePhysicsManager.n_occupied n = occupiedFlag v
  end
  /\ forall e v d,
       In (e, v) seen -> vehicleDistance position pw e = Some d ->
       snd acc <= d.

(** The client drives at most one vehicle, which the server's own
    [handleVehicleEnter] ensures by refusing a player that is in a
    vehicle. *)
Definition drivesAtMostOne (clientId : string)
           (vm : VehiclePhysicsManager.t) : Prop :=
  forall id1 v1 id2 v2,
    In (id1, v1) (VehiclePhysicsManager.vehicles vm) ->
    In (id2, v2) (VehiclePhysicsManager.vehicles vm) ->
    VehiclePhysicsManager.driverId v1 = Some clientId ->
    VehiclePhysicsManager.driverId v2 = Some clientId ->
    id1 = id2.

(** The server's maps are maps (no key twice) and no vehicle has the
    empty string for its id. *)
Definition serverMaps (s : PhysicsServer.t) : Prop :=
  NoDup (JsMap.keys (PhysicsServer.clients s))
  /\ NoDup (JsMap.keys
              (PlayerPhysicsManager.players (PhysicsServer.playerManager s)))
  /\ NoDup (JsMap.keys
              (VehiclePhysicsManager.vehicles
                 (PhysicsServer.vehicleManager s)))
  /\ NoDup (JsMap.keys (PhysicsWorld.bodies (PhysicsServer.physicsWorld s)))
  /\ forall id v,
       In (id, v)
          (VehiclePhysicsManager.vehicles (PhysicsServer.vehicleManager s)) ->
       id <> EmptyString.

(** Strictly increasing. *)
Fixpoint increasing (l : list Z) : Prop :=
  match l with
  | [] => True
  | a :: r => Forall (fun b => (a < b)%Z) r /\ increasing r
  end.

(** The unacknowledged inputs of the client are in the order in which
    they were sent, none of them later than the last one sent, and at
    most 64. *)
Definition pendingOk (nc : NetworkClient.t) : Prop :=
  increasing (map NetworkClient.pi_seq (NetworkClient.pendingInputs nc))
  /\ Forall (fun i => (NetworkClient.pi_seq i
                       <= NetworkClient.inputSequence nc)%Z)
            (NetworkClient.pendingInputs nc)
  /\ (List.length (NetworkClient.pendingInputs nc) <= 64)%nat.

(** No chunk is at once awaited and received, and neither collection
    holds a chunk twice. *)
Definition chunksOk (ct : NetworkClient.Chunks) : Prop :=
  NoDup (NetworkClient.requestedChunks ct)
  /\ NoDup (JsMap.keys (NetworkClient.receivedChunks ct))
  /\ forall key,
       In key (NetworkClient.requestedChunks ct) ->
       ~ In key (JsMap.keys (NetworkClient.receivedChunks ct)).

(** Quaternions: the squared norm, the dot product and the negation,
    which stands for the same rotation. *)
Definition quatNormSq (q : Quat) : R :=
  qx q * qx q + qy q * qy q + qz q * qz q + qw q * qw q.
Definition quatDot (a b : Quat) : R :=
  qx a * qx b + qy a * qy b + qz a * qz b + qw a * qw b.
Definition quatNeg (q : Quat) : Quat :=
  mkQuat (- qx q) (- qy q) (- qz q) (- qw q).

(** The controller after the render frames at the given times, in
    order. *)
Definition renderFrames (times : list R) (pc : PlayerController.t)
  : PlayerController.t :=
  fold_left (fun pc now => PlayerController.smoothRemotePlayers now pc)
            times pc.

(** ** Notions used by the statements of Part IV *)

(** The vehicle that a [vehicle_enter] request on the connection [ws]
    is about.  The message names no vehicle: the handler takes the one
    nearest to the requesting player within five units, for a player
    that is known, on foot and has a body. *)
Definition enterTarget (ws : nat) (s : PhysicsServer.t)
  : option VehiclePhysicsManager.Nearest :=
  match JsMap.get ws (PhysicsServer.clients s) with
  | None => None
  | Some clientData =>
      match PlayerPhysicsManager.getPlayerState
              (PhysicsServer.clientId clientData)
              (PhysicsServer.playerManager s) (PhysicsServer.physicsWorld s)
      with
      | None => None
      | Some playerState =>
          if PlayerPhysicsManager.ps_inVehicle playerState then None
          else
            match PlayerPhysicsManager.ps_kinematics playerState with
            | None => None
            | Some k =>
                VehiclePhysicsManager.findNearestVehicle
                  (PhysicsWorld.es_position (PlayerPhysicsManager.k_state k))
                  5
                  (PhysicsServer.vehicleManager s,
                   PhysicsServer.physicsWorld s)
            end
      end
  end.

(** * Part II. Properties *)
(* ================================================================== *)

(** ** Maps and sets *)

Section MapFacts.
Context {K V : Type} `{EqDec K}.
Implicit Types (k : K) (v : V) (m : list (K * V)).

Lemma get_set_eq k v m : JsMap.get k (JsMap.set k v m) = Some v.
Proof.
  induction m as [|[k' v'] r IH]; simpl.
  - destruct (eq_dec k k); congruence.
  - destruct (eq_dec k k') as [->|Hne]; simpl.
    + destruct (eq_dec k' k'); congruence.
    + destruct (eq_dec k k'); congruence.
Qed.

Lemma get_set_ne k k' v m :
  k <> k' -> JsMap.get k' (JsMap.set k v m) = JsMap.get k' m.
Proof.
  intros Hne. induction m as [|[k0 v0] r IH]; simpl.
  - destruct (eq_dec k' k); congruence.
  - destruct (eq_dec k k0) as [->|Hk]; simpl.
    + destruct (eq_dec k' k0); congruence.
    + destruct (eq_dec k' k0); congruence.
Qed.

Lemma keys_set_present k v m :
  JsMap.has k m = true -> JsMap.keys (JsMap.set k v m) = JsMap.keys m.
Proof.
  unfold JsMap.has, JsMap.keys.
  induction m as [|[k0 v0] r IH]; simpl; [discriminate|].
  destruct (eq_dec k k0) as [->|Hk]; simpl; [reflexivity|].
  intros Hr. f_equal. apply IH, Hr.
Qed.

Lemma has_get k m :
  JsMap.has k m = true <-> exists v, JsMap.get k m = Some v.
Proof.
  unfold JsMap.has. destruct (JsMap.get k m); split; eauto;
    try discriminate. intros [v Hv]; discriminate.
Qed.

Lemma get_in k v m : JsMap.get k m = Some v -> In (k, v) m.
Proof.
  induction m as [|[k0 v0] r IH]; simpl; [discriminate|].
  destruct (eq_dec k k0) as [->|Hk].
  - intros [= ->]. now left.
  - intros Hr. right. now apply IH.
Qed.

Lemma get_delete_eq k m :
  NoDup (JsMap.keys m) -> JsMap.get k (JsMap.delete k m) = None.
Proof.
  unfold JsMap.keys.
  induction m as [|[k0 v0] r IH]; simpl; [reflexivity|].
  intros Hnd. inversion Hnd as [|? ? Hnotin Hnd']; subst.
  destruct (eq_dec k k0) as [->|Hk]; simpl.
  - destruct (JsMap.get k0 r) eqn:E; [|reflexivity].
    exfalso. apply Hnotin. apply get_in in E.
    change k0 with (fst (k0, v)). now apply in_map.
  - destruct (eq_dec k k0); [congruence|]. now apply IH.
Qed.

Lemma get_delete_ne k k' m :
  k <> k' -> JsMap.get k' (JsMap.delete k m) = JsMap.get k' m.
Proof.
  intros Hne. induction m as [|[k0 v0] r IH]; simpl; [reflexivity|].
  destruct (eq_dec k k0) as [->|Hk]; simpl.
  - destruct (eq_dec k' k0); congruence.
  - destruct (eq_dec k' k0); congruence.
Qed.
End MapFacts.

Lemma eqb_true_iff {K} `{EqDec K} (a b : K) : eqb a b = true <-> a = b.
Proof. unfold eqb. destruct (eq_dec a b); split; congruence. Qed.

Lemma eqb_refl {K} `{EqDec K} (a : K) : eqb a a = true.
Proof. now apply eqb_true_iff. Qed.

Lemma Rltb_true a b : a < b -> Rltb a b = true.
Proof. unfold Rltb. destruct (Rlt_dec a b); tauto. Qed.

Lemma Rltb_false a b : ~ a < b -> Rltb a b = false.
Proof. unfold Rltb. destruct (Rlt_dec a b); tauto. Qed.

Lemma Rltb_spec a b : Rltb a b = true <-> a < b.
Proof. unfold Rltb. destruct (Rlt_dec a b); split; auto; discriminate. Qed.

(** ** Vehicle occupancy *)

Section VehicleFacts.
Import VehiclePhysicsManager.

Lemma enterVehicle_true_inv entityId playerId (st st' : State) :
  enterVehicle entityId playerId st = (true, st') ->
  exists v,
    JsMap.get entityId (vehicles (fst st)) = Some v /\ driverId v = None
    /\ JsMap.get entityId (vehicles (fst st'))
       = Some {| entityId := VehiclePhysicsManager.entityId v;
                 vehicleType := vehicleType v;
                 driverId := Some playerId;
                 engineRunning := true;
                 health := health v;
                 fuel := fuel v |}.
Proof.
  destruct st as [vm pw]. unfold enterVehicle.
  destruct (JsMap.get entityId (vehicles vm)) as [v|] eqn:Hv;
    [|discriminate].
  destruct (driverId v) eqn:Hd; [discriminate|].
  intros [= <-]. exists v. simpl. repeat split; auto.
  apply get_set_eq.
Qed.

Lemma enterVehicle_false_inv entityId playerId (st : State) :
  fst (enterVehicle entityId playerId st) = false ->
  enterVehicle entityId playerId st = (false, st).
Proof.
  destruct st as [vm pw]. unfold enterVehicle.
  destruct (JsMap.get entityId (vehicles vm)) as [v|]; [|reflexivity].
  destruct (driverId v); [reflexivity|discriminate].
Qed.

Lemma enterVehicle_occupied entityId playerId (st : State) v d :
  JsMap.get entityId (vehicles (fst st)) = Some v ->
  driverId v = Some d ->
  enterVehicle entityId playerId st = (false, st).
Proof.
  destruct st as [vm pw]. unfold enterVehicle. simpl.
  intros -> ->. reflexivity.
Qed.
End VehicleFacts.

(** ** Bodies persist under the setters *)

Lemma get_updateBody h h' f w :
  JsMap.get h' (RAPIER.rigidBodies (RAPIER.updateBody h f w))
  = option_map (fun b => if eqb h' h then f b else b)
               (JsMap.get h' (RAPIER.rigidBodies w)).
Proof.
  unfold RAPIER.updateBody. simpl.
  induction (RAPIER.rigidBodies w) as [|[h0 b0] r IH]; simpl; [reflexivity|].
  unfold eqb at 1. destruct (eq_dec h0 h) as [->|Hne]; simpl.
  - destruct (eq_dec h' h) as [->|Hh]; simpl.
    + now rewrite eqb_refl.
    + exact IH.
  - destruct (eq_dec h' h0) as [->|Hh]; simpl.
    + unfold eqb. destruct (eq_dec h0 h); congruence.
    + exact IH.
Qed.

Lemma body_setVelocity pw e e' v :
  PhysicsWorld.body (PhysicsWorld.setVelocity e v pw) e'
  = option_map
      (fun hb : nat * RAPIER.RigidBody =>
         (fst hb,
          if eqb (Some (fst hb)) (JsMap.get e (PhysicsWorld.bodies pw))
          then RAPIER.setLinvel v (snd hb) else snd hb))
      (PhysicsWorld.body pw e').
Proof.
  unfold PhysicsWorld.setVelocity, PhysicsWorld.body.
  destruct (JsMap.get e (PhysicsWorld.bodies pw)) as [h|] eqn:He;
    unfold PhysicsWorld.withWorld;
    cbn [PhysicsWorld.world PhysicsWorld.bodies].
  - destruct (JsMap.get e' (PhysicsWorld.bodies pw)) as [h'|];
      [|reflexivity].
    rewrite get_updateBody.
    destruct (JsMap.get h' (RAPIER.rigidBodies (PhysicsWorld.world pw)));
      simpl; [|reflexivity].
    unfold eqb. destruct (eq_dec h' h) as [->|Hne].
    + destruct (eq_dec (Some h) (Some h)); congruence.
    + destruct (eq_dec (Some h') (Some h)); congruence.
  - destruct (JsMap.get e' (PhysicsWorld.bodies pw)) as [h'|]; simpl;
      [|reflexivity].
    destruct (JsMap.get h' (RAPIER.rigidBodies (PhysicsWorld.world pw)));
      simpl; [|reflexivity].
    unfold eqb. destruct (eq_dec (Some h') None); congruence.
Qed.

Lemma body_setPosition pw e e' p :
  PhysicsWorld.body (PhysicsWorld.setPosition e p pw) e'
  = option_map
      (fun hb : nat * RAPIER.RigidBody =>
         (fst hb,
          if eqb (Some (fst hb)) (JsMap.get e (PhysicsWorld.bodies pw))
          then RAPIER.setTranslation p (snd hb) else snd hb))
      (PhysicsWorld.body pw e').
Proof.
  unfold PhysicsWorld.setPosition, PhysicsWorld.body.
  destruct (JsMap.get e (PhysicsWorld.bodies pw)) as [h|] eqn:He;
    unfold PhysicsWorld.withWorld;
    cbn [PhysicsWorld.world PhysicsWorld.bodies].
  - destruct (JsMap.get e' (PhysicsWorld.bodies pw)) as [h'|];
      [|reflexivity].
    rewrite get_updateBody.
    destruct (JsMap.get h' (RAPIER.rigidBodies (PhysicsWorld.world pw)));
      simpl; [|reflexivity].
    unfold eqb. destruct (eq_dec h' h) as [->|Hne].
    + destruct (eq_dec (Some h) (Some h)); congruence.
    + destruct (eq_dec (Some h') (Some h)); congruence.
  - destruct (JsMap.get e' (PhysicsWorld.bodies pw)) as [h'|]; simpl;
      [|reflexivity].
    destruct (JsMap.get h' (RAPIER.rigidBodies (PhysicsWorld.world pw)));
      simpl; [|reflexivity].
    unfold eqb. destruct (eq_dec (Some h') None); congruence.
Qed.

Lemma bodies_setVelocity pw e v :
  PhysicsWorld.bodies (PhysicsWorld.setVelocity e v pw)
  = PhysicsWorld.bodies pw.
Proof.
  unfold PhysicsWorld.setVelocity.
  now destruct (JsMap.get e (PhysicsWorld.bodies pw)).
Qed.

Lemma bodies_setPosition pw e p :
  PhysicsWorld.bodies (PhysicsWorld.setPosition e p pw)
  = PhysicsWorld.bodies pw.
Proof.
  unfold PhysicsWorld.setPosition.
  now destruct (JsMap.get e (PhysicsWorld.bodies pw)).
Qed.

Lemma entityData_setVelocity pw e v :
  PhysicsWorld.entityData (PhysicsWorld.setVelocity e v pw)
  = PhysicsWorld.entityData pw.
Proof.
  unfold PhysicsWorld.setVelocity.
  now destruct (JsMap.get e (PhysicsWorld.bodies pw)).
Qed.

Lemma entityData_setPosition pw e p :
  PhysicsWorld.entityData (PhysicsWorld.setPosition e p pw)
  = PhysicsWorld.entityData pw.
Proof.
  unfold PhysicsWorld.setPosition.
  now destruct (JsMap.get e (PhysicsWorld.bodies pw)).
Qed.

Section GroundedFacts.
Variable env : Env.

Lemma body_updatePlayerGrounded pw e e' :
  PhysicsWorld.body (PhysicsWorld.updatePlayerGrounded env e pw) e'
  = PhysicsWorld.body pw e'.
Proof.
  unfold PhysicsWorld.updatePlayerGrounded.
  destruct (PhysicsWorld.body pw e) as [[h b]|]; [|reflexivity].
  destruct (JsMap.get e (PhysicsWorld.entityData pw)) as [[]|];
    reflexivity.
Qed.

Lemma bodies_updatePlayerGrounded pw e :
  PhysicsWorld.bodies (PhysicsWorld.updatePlayerGrounded env e pw)
  = PhysicsWorld.bodies pw.
Proof.
  unfold PhysicsWorld.updatePlayerGrounded.
  destruct (PhysicsWorld.body pw e) as [[h b]|]; [|reflexivity].
  destruct (JsMap.get e (PhysicsWorld.entityData pw)) as [[]|];
    reflexivity.
Qed.

Lemma data_updatePlayerGrounded_some pw e e' :
  (exists d, JsMap.get e' (PhysicsWorld.entityData pw) = Some d) ->
  exists d',
    JsMap.get e'
      (PhysicsWorld.entityData (PhysicsWorld.updatePlayerGrounded env e pw))
    = Some d'.
Proof.
  intros [d Hd]. unfold PhysicsWorld.updatePlayerGrounded.
  destruct (PhysicsWorld.body pw e) as [[h b]|]; [|eauto].
  destruct (JsMap.get e (PhysicsWorld.entityData pw)) as [[]|] eqn:E;
    eauto.
  simpl. destruct (eq_dec e e') as [->|Hne].
  - rewrite get_set_eq. eauto.
  - rewrite get_set_ne by assumption. eauto.
Qed.
End GroundedFacts.

(** ** One player's movement update *)

Section MovementFacts.
Variable env : Env.
Import PlayerPhysicsManager.

Lemma present_setVelocity pw e e' v :
  present (PhysicsWorld.setVelocity e v pw) e' = present pw e'.
Proof.
  unfold present. rewrite body_setVelocity, entityData_setVelocity.
  now destruct (PhysicsWorld.body pw e').
Qed.

Lemma present_setPosition pw e e' p :
  present (PhysicsWorld.setPosition e p pw) e' = present pw e'.
Proof.
  unfold present. rewrite body_setPosition, entityData_setPosition.
  now destruct (PhysicsWorld.body pw e').
Qed.

Lemma present_updatePlayerGrounded pw e e' :
  present (PhysicsWorld.updatePlayerGrounded env e pw) e' = present pw e'.
Proof.
  unfold present. rewrite body_updatePlayerGrounded.
  destruct (PhysicsWorld.body pw e'); [|reflexivity].
  destruct (JsMap.get e' (PhysicsWorld.entityData pw)) eqn:E.
  - destruct (data_updatePlayerGrounded_some env pw e e') as [d' ->]; eauto.
  - unfold PhysicsWorld.updatePlayerGrounded.
    destruct (PhysicsWorld.body pw e) as [[h b]|]; [|now rewrite E].
    destruct (JsMap.get e (PhysicsWorld.entityData pw)) as [[]|] eqn:E';
      try (now rewrite E).
    simpl. destruct (eq_dec e e') as [->|Hne]; [congruence|].
    rewrite get_set_ne by assumption. now rewrite E.
Qed.

Lemma updatePlayerMovement_absent entityId player input deltaTime pw :
  present pw entityId = false ->
  updatePlayerMovement env entityId player input deltaTime pw = (player, pw).
Proof.
  unfold present, updatePlayerMovement.
  destruct (PhysicsWorld.body pw entityId) as [[h b]|]; [|reflexivity].
  destruct (JsMap.get entityId (PhysicsWorld.entityData pw));
    [discriminate|reflexivity].
Qed.

Lemma updatePlayerMovement_present entityId player input deltaTime pw h b :
  PhysicsWorld.body pw entityId = Some (h, b) ->
  present pw entityId = true ->
  let r := updatePlayerMovement env entityId player input deltaTime pw in
  lastInputSeq (fst r) = seq input
  /\ vehicleId (fst r) = vehicleId player
  /\ clientId (fst r) = clientId player
  /\ p_yaw (fst r) = p_yaw player
  /\ isCrouching (fst r) = crouch input
  /\ (forall e', present (snd r) e' = present pw e')
  /\ exists b',
       PhysicsWorld.body (snd r) entityId = Some (h, b')
       /\ vy (RAPIER.linvel b')
          = if clamps env b then 0
            else newVelY input
                   (groundedOf entityId
                      (PhysicsWorld.updatePlayerGrounded env entityId pw)) b.
Proof.
  intros Hb Hp. unfold present in Hp. rewrite Hb in Hp.
  destruct (JsMap.get entityId (PhysicsWorld.entityData pw)) as [d|] eqn:Hd;
    [|discriminate].
  assert (Hh : JsMap.get entityId (PhysicsWorld.bodies pw) = Some h).
  { unfold PhysicsWorld.body in Hb.
    destruct (JsMap.get entityId (PhysicsWorld.bodies pw)) as [h0|];
      [|discriminate].
    destruct (JsMap.get h0 _); [|discriminate]. congruence. }
  unfold updatePlayerMovement. rewrite Hb, Hd.
  cbv zeta. cbn [fst snd lastInputSeq vehicleId clientId p_yaw isCrouching].
  repeat (split; [reflexivity|]).
  set (pw1 := PhysicsWorld.updatePlayerGrounded env entityId pw).
  match goal with
  | |- context [PhysicsWorld.setVelocity entityId ?v pw1] =>
      match v with
      | mkVec3 _ (if _ then _ else _) _ => set (v1 := v)
      end
  end.
  set (pw2 := PhysicsWorld.setVelocity entityId v1 pw1).
  assert (Hb2 : PhysicsWorld.body pw2 entityId
                = Some (h, RAPIER.setLinvel v1 b)).
  { unfold pw2. rewrite body_setVelocity. unfold pw1.
    rewrite body_updatePlayerGrounded, Hb, bodies_updatePlayerGrounded, Hh.
    simpl. now rewrite eqb_refl. }
  assert (Hh2 : JsMap.get entityId (PhysicsWorld.bodies pw2) = Some h).
  { unfold pw2. rewrite bodies_setVelocity. unfold pw1.
    now rewrite bodies_updatePlayerGrounded. }
  assert (Hp2 : forall e', present pw2 e' = present pw e').
  { intros e'. unfold pw2. rewrite present_setVelocity. unfold pw1.
    apply present_updatePlayerGrounded. }
  unfold clamps, TerrainPhysicsManager.getHeightAt.
  match goal with
  | |- context [Rltb ?a ?c] =>
      match goal with
      | |- context [if Rltb a c then PhysicsWorld.setVelocity _ _ _ else _] =>
          replace c with
            (getTerrainHeight env (vx (RAPIER.translation b))
                              (vz (RAPIER.translation b))
             + CONFIG.playerHeight / 2 - 1) by reflexivity;
          destruct (Rltb a
                      (getTerrainHeight env (vx (RAPIER.translation b))
                                        (vz (RAPIER.translation b))
                       + CONFIG.playerHeight / 2 - 1)) eqn:Hc
      end
  end.
  - split.
    + intros e'. now rewrite present_setVelocity, present_setPosition.
    + eexists. split.
      * rewrite body_setVelocity, body_setPosition, Hb2.
        rewrite bodies_setPosition, Hh2. simpl.
        rewrite eqb_refl. reflexivity.
      * reflexivity.
  - split; [exact Hp2|].
    eexists. split; [exact Hb2|]. reflexivity.
Qed.
End MovementFacts.

(** ** The per-tick player update *)

Section UpdateFacts.
Variable env : Env.
Import PlayerPhysicsManager.

Lemma present_body pw e :
  present pw e = true -> exists h b, PhysicsWorld.body pw e = Some (h, b).
Proof.
  unfold present. destruct (PhysicsWorld.body pw e) as [[h b]|]; eauto.
  discriminate.
Qed.

Lemma updatePlayerMovement_frame entityId player input deltaTime pw :
  let r := updatePlayerMovement env entityId player input deltaTime pw in
  (forall e', present (snd r) e' = present pw e')
  /\ clientId (fst r) = clientId player
  /\ vehicleId (fst r) = vehicleId player
  /\ p_yaw (fst r) = p_yaw player
  /\ (present pw entityId = true -> lastInputSeq (fst r) = seq input)
  /\ (present pw entityId = false -> fst r = player).
Proof.
  destruct (present pw entityId) eqn:Hp.
  - destruct (present_body _ _ Hp) as (h & b & Hb).
    destruct (updatePlayerMovement_present env entityId player input
                deltaTime pw Hb Hp) as (H1 & H2 & H3 & H4 & _ & H5 & _).
    cbv zeta. repeat split; auto. discriminate.
  - rewrite updatePlayerMovement_absent by assumption. simpl.
    repeat split; auto. discriminate.
Qed.

Lemma update_loop_frame inputs deltaTime :
  forall entries pw,
    let r := update_loop env inputs deltaTime entries pw in
    (forall e, present (snd r) e = present pw e)
    /\ JsMap.keys (fst r) = JsMap.keys entries.
Proof.
  induction entries as [|[e0 p0] rest IH]; intros pw; simpl.
  - auto.
  - destruct (match vehicleId p0 with
              | Some _ => (p0, pw)
              | None =>
                  match JsMap.get e0 inputs with
                  | Some input =>
                      updatePlayerMovement env e0 p0 input deltaTime pw
                  | None => (p0, pw)
                  end
              end) as [p' pw'] eqn:E.
    assert (Hfr : forall e, present pw' e = present pw e).
    { destruct (vehicleId p0); [now inversion E|].
      destruct (JsMap.get e0 inputs) as [i|]; [|now inversion E].
      pose proof (updatePlayerMovement_frame e0 p0 i deltaTime pw) as F.
      rewrite E in F. apply F. }
    specialize (IH pw').
    destruct (update_loop env inputs deltaTime rest pw') as [rest' pw''].
    simpl in *. destruct IH as [IH1 IH2]. split.
    + intros e. now rewrite IH1.
    + unfold JsMap.keys in *. simpl. now f_equal.
Qed.

(** What the loop leaves in the entry of [entityId]. *)
Lemma update_loop_get inputs deltaTime :
  forall entries pw entityId p,
    JsMap.get entityId entries = Some p ->
    exists p',
      JsMap.get entityId (fst (update_loop env inputs deltaTime entries pw))
      = Some p'
      /\ clientId p' = clientId p
      /\ vehicleId p' = vehicleId p
      /\ p_yaw p' = p_yaw p
      /\ (vehicleId p <> None \/ JsMap.get entityId inputs = None
          \/ present pw entityId = false -> p' = p)
      /\ (forall i,
            vehicleId p = None -> JsMap.get entityId inputs = Some i ->
            present pw entityId = true -> lastInputSeq p' = seq i).
Proof.
  induction entries as [|[e0 p0] rest IH]; intros pw entityId p; simpl;
    [discriminate|].
  destruct (match vehicleId p0 with
            | Some _ => (p0, pw)
            | None =>
                match JsMap.get e0 inputs with
                | Some input =>
                    updatePlayerMovement env e0 p0 input deltaTime pw
                | None => (p0, pw)
                end
            end) as [p' pw'] eqn:E.
  assert (Hfr : forall e, present pw' e = present pw e).
  { destruct (vehicleId p0); [now inversion E|].
    destruct (JsMap.get e0 inputs) as [i|]; [|now inversion E].
    pose proof (updatePlayerMovement_frame e0 p0 i deltaTime pw) as F.
    rewrite E in F. apply F. }
  destruct (update_loop env inputs deltaTime rest pw') as [rest' pw''] eqn:R.
  simpl. destruct (eq_dec entityId e0) as [->|Hne].
  - intros [= ->]. exists p'.
    destruct (vehicleId p) eqn:Hv.
    + inversion E; subst. repeat split; auto. intros i; discriminate.
    + destruct (JsMap.get e0 inputs) as [i|] eqn:Hi.
      * pose proof (updatePlayerMovement_frame e0 p i deltaTime pw) as F.
        rewrite E in F. simpl in F.
        destruct F as (_ & F1 & F2 & F3 & F4 & F5).
        repeat split; auto; try congruence.
        -- intros [Hc|[Hc|Hc]]; [congruence|discriminate|auto].
        -- intros i' _ [= <-]. exact F4.
      * inversion E; subst. repeat split; auto. intros i; discriminate.
  - intros Hg. specialize (IH pw' entityId p Hg). rewrite R in IH.
    simpl in IH. destruct IH as (q & Hq & H1 & H2 & H3 & H4 & H5).
    exists q. repeat split; auto.
    + intros Hc. apply H4. now rewrite Hfr.
    + intros i Hv Hi Hp. apply (H5 i Hv Hi). now rewrite Hfr.
Qed.

Lemma update_inputs deltaTime pm pw :
  playerInputs (fst (update env deltaTime pm pw)) = playerInputs pm
  /\ inputHistory (fst (update env deltaTime pm pw)) = inputHistory pm
  /\ players (fst (update env deltaTime pm pw))
     = fst (update_loop env (playerInputs pm) deltaTime (players pm) pw)
  /\ snd (update env deltaTime pm pw)
     = snd (update_loop env (playerInputs pm) deltaTime (players pm) pw).
Proof.
  unfold update.
  destruct (update_loop env (playerInputs pm) deltaTime (players pm) pw).
  simpl. auto.
Qed.


Lemma setPlayerInput_in_vehicle clientId input now pm p v :
  JsMap.get (playerEntityId clientId) (players pm) = Some p ->
  vehicleId p = Some v ->
  setPlayerInput clientId input now pm = pm.
Proof.
  intros Hp Hv. unfold setPlayerInput. now rewrite Hp, Hv.
Qed.
End UpdateFacts.

(** ** Sending *)

Section SendFacts.
Import PhysicsServer.

Lemma send_core ws m s : core (send ws m s) = core s.
Proof.
  unfold send. destruct (JsMap.get ws (clients s)) as [c|]; [|reflexivity].
  destruct (isOpen (readyState c)); reflexivity.
Qed.

Lemma send_clients ws m s : clients (send ws m s) = clients s.
Proof.
  unfold send. destruct (JsMap.get ws (clients s)) as [c|]; [|reflexivity].
  destruct (isOpen (readyState c)); reflexivity.
Qed.

Lemma send_sent ws m s :
  sent (send ws m s)
  = sent s ++ (if openIn (clients s) ws then [(ws, m)] else []).
Proof.
  unfold send, openIn.
  destruct (JsMap.get ws (clients s)) as [c|];
    [|now rewrite app_nil_r].
  destruct (isOpen (readyState c)); simpl; [reflexivity|].
  now rewrite app_nil_r.
Qed.

(** A loop that sends to some of the entries of a list, each message
    determined by the entry and the core of the server. *)
Lemma fold_send {A} (ws : A -> nat) (cond : A -> bool)
      (msg : t -> A -> Message) :
  (forall a a' e, core a = core a' -> msg a e = msg a' e) ->
  forall (l : list A) (s : t),
    let r :=
      fold_left
        (fun acc e => if cond e then send (ws e) (msg acc e) acc else acc)
        l s in
    core r = core s
    /\ clients r = clients s
    /\ sent r
       = sent s
         ++ flat_map (fun e => if cond e && openIn (clients s) (ws e)
                               then [(ws e, msg s e)] else []) l.
Proof.
  intros Hmsg. induction l as [|e l IH]; intros s; simpl.
  - now rewrite app_nil_r.
  - specialize (IH (if cond e then send (ws e) (msg s e) s else s)).
    simpl in IH. destruct IH as (IH1 & IH2 & IH3).
    destruct (cond e); simpl.
    + rewrite IH1, IH2, IH3, send_core, send_clients, send_sent.
      repeat split; auto. rewrite <- app_assoc. do 2 f_equal.
      apply flat_map_ext. intros a.
      now rewrite (Hmsg (send (ws e) (msg s e) s) s a (send_core _ _ _)).
    + auto.
Qed.

Lemma fold_left_ext {A B} (f g : A -> B -> A) :
  (forall a b, f a b = g a b) ->
  forall l a, fold_left f l a = fold_left g l a.
Proof.
  intros Hfg. induction l as [|b l IH]; intros a; simpl; [reflexivity|].
  now rewrite Hfg, IH.
Qed.

Lemma core_playerManager s s' :
  core s = core s' ->
  physicsWorld s = physicsWorld s' /\ terrainManager s = terrainManager s'
  /\ vehicleManager s = vehicleManager s'
  /\ playerManager s = playerManager s' /\ tickNumber s = tickNumber s'
  /\ lastTickTime s = lastTickTime s'.
Proof. unfold core. intros [= -> -> -> -> -> ->]. auto 10. Qed.

Lemma sendWorldSnapshot_spec now s :
  let s' := sendWorldSnapshot now s in
  core s' = core s
  /\ clients s' = clients s
  /\ sent s'
     = sent s
       ++ flat_map
            (fun e : nat * ClientData =>
               if isPlaying (state (snd e)) && openIn (clients s) (fst e)
               then
                 [(fst e,
                   WORLD_SNAPSHOT (tickNumber s) now
                     (PlayerPhysicsManager.getAllPlayerStates
                        (playerManager s) (physicsWorld s))
                     (VehiclePhysicsManager.getAllVehicleStates
                        (vehicleManager s, physicsWorld s))
                     (orZero
                        (option_map PlayerPhysicsManager.ps_lastInputSeq
                           (find (fun p =>
                                    eqb (PlayerPhysicsManager.ps_clientId p)
                                        (clientId (snd e)))
                                 (PlayerPhysicsManager.getAllPlayerStates
                                    (playerManager s) (physicsWorld s))))))]
               else [])
            (clients s).
Proof.
  unfold sendWorldSnapshot.
  set (ps := PlayerPhysicsManager.getAllPlayerStates _ _).
  set (vs := VehiclePhysicsManager.getAllVehicleStates _).
  pose proof
    (fold_send (fun e : nat * ClientData => fst e)
       (fun e => isPlaying (state (snd e)))
       (fun _ e =>
          WORLD_SNAPSHOT (tickNumber s) now ps vs
            (orZero
               (option_map PlayerPhysicsManager.ps_lastInputSeq
                  (find (fun p => eqb (PlayerPhysicsManager.ps_clientId p)
                                      (clientId (snd e))) ps))))
       (fun _ _ _ _ => eq_refl) (clients s) s) as F.
  cbv zeta in F.
  match type of F with
  | core (fold_left ?f _ _) = _ /\ _ =>
      match goal with
      | |- context [fold_left ?g (clients s) s] =>
          replace (fold_left g (clients s) s) with (fold_left f (clients s) s)
      end
  end.
  - exact F.
  - apply fold_left_ext. intros acc [ws c]. simpl.
    now destruct (isPlaying (state c)).
Qed.
End SendFacts.

(** ** Chunk requests *)

Section MapAppFacts.
Context {K V : Type} `{EqDec K}.

Lemma get_app_notin (k : K) (pre l : list (K * V)) :
  ~ In k (JsMap.keys pre) -> JsMap.get k (pre ++ l) = JsMap.get k l.
Proof.
  unfold JsMap.keys. induction pre as [|[k0 v0] r IH]; simpl; [reflexivity|].
  intros Hn. destruct (eq_dec k k0) as [->|Hne]; [tauto|].
  apply IH. tauto.
Qed.

Lemma set_app_notin (k : K) (v : V) (pre l : list (K * V)) :
  ~ In k (JsMap.keys pre) ->
  JsMap.set k v (pre ++ l) = pre ++ JsMap.set k v l.
Proof.
  unfold JsMap.keys. induction pre as [|[k0 v0] r IH]; simpl; [reflexivity|].
  intros Hn. destruct (eq_dec k k0) as [->|Hne]; [tauto|].
  f_equal. apply IH. tauto.
Qed.

Lemma get_head (k : K) (v : V) (l : list (K * V)) :
  JsMap.get k ((k, v) :: l) = Some v.
Proof. simpl. destruct (eq_dec k k); congruence. Qed.

Lemma set_head (k : K) (v v' : V) (l : list (K * V)) :
  JsMap.set k v' ((k, v) :: l) = (k, v') :: l.
Proof. simpl. destruct (eq_dec k k); congruence. Qed.

Lemma get_NoDup_in (k : K) (v : V) (l : list (K * V)) :
  NoDup (JsMap.keys l) -> In (k, v) l -> JsMap.get k l = Some v.
Proof.
  unfold JsMap.keys. induction l as [|[k0 v0] r IH]; simpl; [tauto|].
  intros Hnd [Hin|Hin].
  - inversion Hin; subst. destruct (eq_dec k k); congruence.
  - inversion Hnd as [|? ? Hnotin Hnd']; subst.
    destruct (eq_dec k k0) as [->|Hne].
    + exfalso. apply Hnotin. change k0 with (fst (k0, v)).
      now apply in_map.
    + now apply IH.
Qed.
End MapAppFacts.

Lemma flat_map_single {A B} (f : A -> B) (l : list A) :
  flat_map (fun x => [f x]) l = map f l.
Proof. induction l; simpl; congruence. Qed.

Lemma flat_map_none {A B} (l : list A) :
  flat_map (fun _ => @nil B) l = [].
Proof. induction l; simpl; congruence. Qed.

Section ChunkRequestFacts.
Import PhysicsServer.
Variable env : Env.

Lemma processChunkRequests_loop :
  forall (suf pre : list (nat * ClientData)) (acc : t),
    clients acc = pre ++ suf ->
    NoDup (JsMap.keys (pre ++ suf)) ->
    let r :=
      fold_left
        (fun acc (e : nat * ClientData) =>
           let (ws, c) := e in
           let served := firstn maxChunksPerTick (chunkRequests c) in
           let acc1 :=
             fold_left
               (fun a (key : TerrainPhysicsManager.Key) =>
                  send ws
                    (CHUNK_DATA
                       (TerrainPhysicsManager.getChunkDataForClient env
                          (fst key) (snd key) (terrainManager a)))
                    a)
               served acc in
           setClient ws (afterService c) acc1)
        suf acc in
    core r = core acc
    /\ clients r = pre ++ map (fun e => (fst e, afterService (snd e))) suf
    /\ sent r
       = sent acc ++ flat_map (chunkDataFor env (terrainManager acc)) suf.
Proof.
  induction suf as [|[ws c] suf IH]; intros pre acc Hcl Hnd.
  - simpl. rewrite !app_nil_r in *. auto.
  - cbn [fold_left].
    set (served := firstn maxChunksPerTick (chunkRequests c)).
    pose proof
      (fold_send (fun _ : TerrainPhysicsManager.Key => ws) (fun _ => true)
         (fun a key =>
            CHUNK_DATA
              (TerrainPhysicsManager.getChunkDataForClient env (fst key)
                 (snd key) (terrainManager a)))) as F.
    assert (Hm : forall a a' (e : TerrainPhysicsManager.Key),
               core a = core a' ->
               CHUNK_DATA
                 (TerrainPhysicsManager.getChunkDataForClient env (fst e)
                    (snd e) (terrainManager a))
               = CHUNK_DATA
                   (TerrainPhysicsManager.getChunkDataForClient env (fst e)
                      (snd e) (terrainManager a'))).
    { intros a a' e Hc. apply core_playerManager in Hc.
      destruct Hc as (_ & -> & _). reflexivity. }
    specialize (F Hm served acc). cbv zeta in F. cbn [andb] in F.
    set (acc1 := fold_left _ served acc) in *.
    destruct F as (F1 & F2 & F3).
    assert (Hnotin : ~ In ws (JsMap.keys pre)).
    { unfold JsMap.keys in *. rewrite map_app in Hnd. simpl in Hnd.
      apply NoDup_remove_2 in Hnd. intros Hin. apply Hnd.
      apply in_or_app. now left. }
    assert (Hget : JsMap.get ws (clients acc) = Some c).
    { rewrite Hcl, get_app_notin by assumption. apply get_head. }
    specialize (IH (pre ++ [(ws, afterService c)])
                   (setClient ws (afterService c) acc1)).
    assert (Hcl' : clients (setClient ws (afterService c) acc1)
                   = (pre ++ [(ws, afterService c)]) ++ suf).
    { unfold setClient. simpl. rewrite F2, Hcl.
      rewrite set_app_notin by assumption. rewrite set_head.
      now rewrite <- app_assoc. }
    assert (Hnd' : NoDup (JsMap.keys ((pre ++ [(ws, afterService c)]) ++ suf))).
    { rewrite <- app_assoc. simpl. unfold JsMap.keys in *.
      rewrite map_app in *. exact Hnd. }
    specialize (IH Hcl' Hnd'). cbv zeta in IH.
    destruct IH as (IH1 & IH2 & IH3).
    assert (Hcore : core (setClient ws (afterService c) acc1) = core acc).
    { unfold setClient, core in *. simpl. exact F1. }
    split; [etransitivity; [exact IH1|exact Hcore]|]. split.
    + etransitivity; [exact IH2|]. rewrite <- app_assoc. reflexivity.
    + etransitivity; [exact IH3|]. unfold setClient at 1.
      cbn [sent withClients].
      rewrite F3. rewrite <- app_assoc. f_equal.
      cbn [flat_map]. f_equal.
      * unfold chunkDataFor, openIn. cbn [fst snd]. rewrite Hget.
        destruct (isOpen (readyState c)).
        -- apply flat_map_single.
        -- apply flat_map_none.
      * apply core_playerManager in Hcore.
        destruct Hcore as (_ & -> & _). reflexivity.
Qed.

Lemma processChunkRequests_spec (s : t) :
  NoDup (JsMap.keys (clients s)) ->
  let s' := processChunkRequests env s in
  core s' = core s
  /\ clients s' = map (fun e => (fst e, afterService (snd e))) (clients s)
  /\ sent s' = sent s ++ flat_map (chunkDataFor env (terrainManager s)) (clients s).
Proof.
  intros Hnd.
  exact (processChunkRequests_loop (clients s) [] s eq_refl Hnd).
Qed.
End ChunkRequestFacts.

(** ** A player's own state in the list of all states *)

Section OwnStateFacts.
Import PlayerPhysicsManager.

Lemma playerEntityId_inj a b : playerEntityId a = playerEntityId b -> a = b.
Proof. unfold playerEntityId. simpl. now intros [= ->]. Qed.

Lemma getPlayerState_some cid pm pw ps :
  getPlayerState cid pm pw = Some ps ->
  exists p,
    JsMap.get (playerEntityId cid) (players pm) = Some p
    /\ ps_clientId ps = clientId p
    /\ ps_lastInputSeq ps = lastInputSeq p.
Proof.
  unfold getPlayerState.
  destruct (JsMap.get (playerEntityId cid) (players pm)) as [p|];
    [|discriminate].
  destruct (vehicleId p).
  - intros [= <-]. eauto.
  - destruct (PhysicsWorld.getEntityState _ _); [|discriminate].
    intros [= <-]. eauto.
Qed.

Lemma wf_key_client pm k p :
  wfPlayers pm -> In (k, p) (players pm) ->
  JsMap.get (playerEntityId (clientId p)) (players pm) = Some p.
Proof.
  intros [Hnd Hall] Hin. apply get_NoDup_in; [assumption|].
  rewrite Forall_forall in Hall. specialize (Hall _ Hin). simpl in Hall.
  now subst k.
Qed.

Lemma find_own_state_in pm pw cid :
  wfPlayers pm ->
  forall l,
    (forall e, In e l -> In e (players pm)) ->
    find (fun s => eqb (ps_clientId s) cid)
         (flat_map (fun player =>
                      match getPlayerState (clientId player) pm pw with
                      | Some s => [s]
                      | None => []
                      end) (map snd l))
    = if existsb (fun e => eqb (clientId (snd e)) cid) l
      then getPlayerState cid pm pw else None.
Proof.
  intros Hwf. induction l as [|[k p] l IH]; intros Hsub; simpl;
    [reflexivity|].
  assert (Hin : In (k, p) (players pm)) by (apply Hsub; now left).
  assert (IH' := IH (fun e He => Hsub e (or_intror He))). clear IH.
  destruct (getPlayerState (clientId p) pm pw) as [s|] eqn:Hs; simpl.
  - destruct (getPlayerState_some _ _ _ Hs) as (p' & Hp' & Hc & _).
    rewrite (@wf_key_client pm k p Hwf Hin) in Hp'. inversion Hp'; subst p'.
    rewrite Hc. unfold eqb at 1 3.
    destruct (eq_dec (clientId p) cid) as [<-|Hne]; simpl.
    + now rewrite Hs.
    + exact IH'.
  - unfold eqb at 2. destruct (eq_dec (clientId p) cid) as [<-|Hne]; simpl.
    + rewrite IH', Hs. now destruct (existsb _ l).
    + exact IH'.
Qed.

Lemma find_own_state pm pw cid :
  wfPlayers pm ->
  find (fun s => eqb (ps_clientId s) cid) (getAllPlayerStates pm pw)
  = getPlayerState cid pm pw.
Proof.
  intros Hwf. unfold getAllPlayerStates, JsMap.values.
  rewrite (@find_own_state_in pm pw cid Hwf (players pm) (fun e He => He)).
  destruct (existsb _ (players pm)) eqn:Hex; [reflexivity|].
  destruct (getPlayerState cid pm pw) as [ps|] eqn:Hs; [|reflexivity].
  exfalso. destruct (getPlayerState_some _ _ _ Hs) as (p & Hp & _).
  pose proof (get_in _ _ Hp) as Hin.
  assert (Hc : clientId p = cid).
  { destruct Hwf as [_ Hall]. rewrite Forall_forall in Hall.
    specialize (Hall _ Hin). simpl in Hall.
    symmetry. now apply playerEntityId_inj. }
  assert (Ht : existsb (fun e => eqb (clientId (snd e)) cid) (players pm)
               = true).
  { apply existsb_exists. exists (playerEntityId cid, p). split; [exact Hin|].
    simpl. now apply eqb_true_iff. }
  congruence.
Qed.

Lemma orZero_ack pm pw cid :
  wfPlayers pm ->
  PhysicsServer.orZero
    (option_map ps_lastInputSeq
       (find (fun s => eqb (ps_clientId s) cid) (getAllPlayerStates pm pw)))
  = ackOf pm pw cid.
Proof.
  intros Hwf. rewrite (@find_own_state pm pw cid Hwf). unfold ackOf.
  destruct (getPlayerState cid pm pw) as [ps|]; simpl; [|reflexivity].
  destruct (Z.eqb_spec (ps_lastInputSeq ps) 0); congruence.
Qed.

Lemma update_loop_wf env inputs deltaTime :
  forall entries pw,
    Forall (fun e => fst e = playerEntityId (clientId (snd e))) entries ->
    Forall (fun e => fst e = playerEntityId (clientId (snd e)))
           (fst (update_loop env inputs deltaTime entries pw)).
Proof.
  induction entries as [|[e0 p0] rest IH]; intros pw Hall; simpl;
    [constructor|].
  inversion Hall as [|? ? H0 Hrest]; subst. simpl in H0.
  destruct (match vehicleId p0 with
            | Some _ => (p0, pw)
            | None =>
                match JsMap.get e0 inputs with
                | Some input =>
                    updatePlayerMovement env e0 p0 input deltaTime pw
                | None => (p0, pw)
                end
            end) as [p' pw'] eqn:E.
  assert (Hc : clientId p' = clientId p0).
  { destruct (vehicleId p0); [now inversion E|].
    destruct (JsMap.get e0 inputs) as [i|]; [|now inversion E].
    pose proof (updatePlayerMovement_frame env e0 p0 i deltaTime pw) as F.
    rewrite E in F. apply F. }
  specialize (IH pw' Hrest).
  destruct (update_loop env inputs deltaTime rest pw') as [rest' pw''].
  simpl in *. constructor; [simpl; congruence|exact IH].
Qed.

Lemma update_wf env deltaTime pm pw :
  wfPlayers pm -> wfPlayers (fst (update env deltaTime pm pw)).
Proof.
  intros [Hnd Hall]. destruct (update_inputs env deltaTime pm pw)
    as (_ & _ & Hp & _).
  unfold wfPlayers. rewrite Hp. split.
  - destruct (update_loop_frame env (playerInputs pm) deltaTime (players pm)
                                pw) as [_ ->]. exact Hnd.
  - now apply update_loop_wf.
Qed.
End OwnStateFacts.

(** ** The tick *)

Lemma flat_map_ext_in {A B} (f g : A -> list B) (l : list A) :
  (forall a, In a l -> f a = g a) -> flat_map f l = flat_map g l.
Proof.
  induction l as [|a l IH]; intros Hfg; simpl; [reflexivity|].
  rewrite Hfg by now left. f_equal. apply IH. intros; apply Hfg; now right.
Qed.

Lemma flat_map_of_map {A B C} (f : B -> list C) (g : A -> B) (l : list A) :
  flat_map f (map g l) = flat_map (fun a => f (g a)) l.
Proof. induction l; simpl; congruence. Qed.

Section TickFacts.
Import PhysicsServer.
Variable env : Env.

Lemma streamChunks_frame ps s :
  let s' := streamChunks env ps s in
  clients s' = clients s /\ sent s' = sent s
  /\ playerManager s' = playerManager s
  /\ vehicleManager s' = vehicleManager s
  /\ tickNumber s' = tickNumber s /\ lastTickTime s' = lastTickTime s.
Proof.
  unfold streamChunks.
  destruct (TerrainPhysicsManager.updateForPlayers env ps _) as [tm pw].
  simpl. auto 10.
Qed.

Lemma updatePlayers_frame dt s :
  let s' := updatePlayers env dt s in
  clients s' = clients s /\ sent s' = sent s
  /\ playerManager s'
     = fst (PlayerPhysicsManager.update env dt (playerManager s)
                                        (physicsWorld s))
  /\ physicsWorld s'
     = snd (PlayerPhysicsManager.update env dt (playerManager s)
                                        (physicsWorld s))
  /\ vehicleManager s' = vehicleManager s
  /\ terrainManager s' = terrainManager s
  /\ tickNumber s' = tickNumber s /\ lastTickTime s' = lastTickTime s.
Proof.
  unfold updatePlayers.
  destruct (PlayerPhysicsManager.update env dt _ _) as [pm pw].
  simpl. auto 10.
Qed.

Lemma updateVehicles_frame dt s :
  let s' := updateVehicles env dt s in
  clients s' = clients s /\ sent s' = sent s
  /\ playerManager s' = playerManager s
  /\ vehicleManager s' = vehicleManager s
  /\ terrainManager s' = terrainManager s
  /\ tickNumber s' = tickNumber s /\ lastTickTime s' = lastTickTime s.
Proof. unfold updateVehicles. simpl. auto 10. Qed.

Lemma stepPhysics_frame dt s :
  let s' := leftIn (stepPhysics env dt s) in
  clients s' = clients s /\ sent s' = sent s
  /\ playerManager s' = playerManager s
  /\ vehicleManager s' = vehicleManager s
  /\ terrainManager s' = terrainManager s
  /\ tickNumber s' = tickNumber s /\ lastTickTime s' = lastTickTime s.
Proof.
  unfold stepPhysics.
  destruct (PhysicsWorld.step env dt (physicsWorld s)); simpl; auto 10.
Qed.

(** On an initialised world the physics step throws. *)
Lemma stepPhysics_throws dt s :
  PhysicsWorld.initialized (physicsWorld s) = true ->
  stepPhysics env dt s = TypeError (leftIn (stepPhysics env dt s)).
Proof.
  intros Hi. unfold stepPhysics, PhysicsWorld.step. rewrite Hi. reflexivity.
Qed.

(** On a world that was never initialised it returns at once. *)
Lemma stepPhysics_returns dt s :
  PhysicsWorld.initialized (physicsWorld s) = false ->
  stepPhysics env dt s = Ok (leftIn (stepPhysics env dt s)).
Proof.
  intros Hi. unfold stepPhysics, PhysicsWorld.step. rewrite Hi. reflexivity.
Qed.

Lemma afterStep_frame now s :
  let s4 := afterStep env now s in
  clients s4 = clients s /\ sent s4 = sent s
  /\ tickNumber s4 = (tickNumber s + 1)%Z
  /\ lastTickTime s4 = now
  /\ playerManager s4
     = playerManager
         (updatePlayers env ((now - lastTickTime s) / 1000)
            (streamChunks env (gatherPositions (snd (advanceClock now s)))
                          (snd (advanceClock now s)))).
Proof.
  unfold afterStep, beforeStep. cbv zeta.
  set (dt := (now - lastTickTime s) / 1000).
  set (s0 := snd (advanceClock now s)).
  set (s1 := streamChunks env (gatherPositions s0) s0).
  set (s2 := updatePlayers env dt s1).
  set (s3 := updateVehicles env dt s2).
  destruct (stepPhysics_frame dt s3) as (A1 & A2 & A3 & _ & _ & A6 & A7).
  destruct (updateVehicles_frame dt s2) as (B1 & B2 & B3 & _ & _ & B6 & B7).
  destruct (updatePlayers_frame dt s1) as (C1 & C2 & _ & _ & _ & _ & C6 & C7).
  destruct (streamChunks_frame (gatherPositions s0) s0)
    as (D1 & D2 & _ & _ & D6 & D7).
  fold s1 in D1, D2, D6, D7. fold s2 in C1, C2, C6, C7, B1, B2, B3, B6, B7.
  fold s3 in A1, A2, A3, A6, A7, B1, B2, B3, B6, B7.
  assert (E1 : clients s0 = clients s) by reflexivity.
  assert (E2 : sent s0 = sent s) by reflexivity.
  assert (E3 : tickNumber s0 = (tickNumber s + 1)%Z) by reflexivity.
  assert (E4 : lastTickTime s0 = now) by reflexivity.
  repeat split; congruence.
Qed.

Lemma tick_phases now now' s :
  tick env now now' s
  = bind (stepPhysics env ((now - lastTickTime s) / 1000)
                      (beforeStep env now s))
         (fun s4 =>
            Ok (sendWorldSnapshot now' (processChunkRequests env s4))).
Proof. reflexivity. Qed.

Lemma openIn_own (l : list (nat * ClientData)) e :
  NoDup (JsMap.keys l) -> In e l ->
  openIn l (fst e) = isOpen (readyState (snd e)).
Proof.
  intros Hnd Hin. unfold openIn. destruct e as [ws c].
  now rewrite (get_NoDup_in ws c l Hnd Hin).
Qed.

Lemma keys_afterService (l : list (nat * ClientData)) :
  JsMap.keys (map (fun e => (fst e, afterService (snd e))) l) = JsMap.keys l.
Proof. unfold JsMap.keys. rewrite map_map. reflexivity. Qed.

(** What the service of the chunk requests and the snapshot hand to
    the sockets, from a server [s4]. *)
Lemma delivery_sent now' s4 :
  NoDup (JsMap.keys (clients s4)) ->
  wfPlayers (playerManager s4) ->
  let s' := sendWorldSnapshot now' (processChunkRequests env s4) in
  core s' = core s4
  /\ clients s' = map (fun e => (fst e, afterService (snd e))) (clients s4)
  /\ sent s'
     = (sent s4 ++ flat_map (chunkDataFor env (terrainManager s4))
                           (clients s4))
       ++ flat_map (snapshotFor (tickNumber s4) now' s4) (clients s4).
Proof.
  intros Hnd4 Hwf. cbv zeta.
  destruct (processChunkRequests_spec env s4 Hnd4) as (P1 & P2 & P3).
  set (s5 := processChunkRequests env s4) in *.
  destruct (sendWorldSnapshot_spec now' s5) as (S1 & S2 & S3).
  pose proof (core_playerManager P1) as (Q1 & Q2 & Q3 & Q4 & Q5 & Q6).
  split; [congruence|]. split; [congruence|].
  rewrite S3, P3. f_equal.
  rewrite P2, flat_map_of_map.
  apply flat_map_ext_in. intros [ws c] Hin. cbn [fst snd].
  unfold snapshotFor. cbn [fst snd afterService state readyState clientId].
  assert (Ho : openIn
                 (map (fun e => (fst e, afterService (snd e))) (clients s4)) ws
               = isOpen (readyState c)).
  { rewrite (@openIn_own _ (ws, afterService c)).
    - reflexivity.
    - now rewrite keys_afterService.
    - change (ws, afterService c)
        with ((fun e : nat * ClientData => (fst e, afterService (snd e)))
                (ws, c)).
      now apply in_map. }
  rewrite Ho, Q1, Q3, Q4, Q5.
  rewrite (@orZero_ack (playerManager s4) (physicsWorld s4) (clientId c) Hwf).
  reflexivity.
Qed.
End TickFacts.

(** ** Input acknowledgment *)

Lemma fold_left_inv {A B} (P : A -> Prop) (f : A -> B -> A) :
  (forall a b, P a -> P (f a b)) ->
  forall l a, P a -> P (fold_left f l a).
Proof.
  intros Hf. induction l as [|b l IH]; intros a Ha; simpl; auto.
Qed.

Section AckFacts.
Variable env : Env.

Lemma processChunkRequests_core s :
  core (PhysicsServer.processChunkRequests env s) = core s.
Proof.
  unfold PhysicsServer.processChunkRequests.
  apply (fold_left_inv (fun acc => core acc = core s)); [|reflexivity].
  intros acc [ws c] Hacc.
  unfold PhysicsServer.setClient. unfold core at 1. simpl.
  fold (core (fold_left
                (fun a (key : TerrainPhysicsManager.Key) =>
                   PhysicsServer.send ws
                     (PhysicsServer.CHUNK_DATA
                        (TerrainPhysicsManager.getChunkDataForClient env
                           (fst key) (snd key)
                           (PhysicsServer.terrainManager a))) a)
                (firstn PhysicsServer.maxChunksPerTick
                        (PhysicsServer.chunkRequests c)) acc)).
  rewrite <- Hacc.
  apply (fold_left_inv (fun a => core a = core acc)); [|reflexivity].
  intros a key Ha. now rewrite send_core.
Qed.

Lemma tick_core now now' s :
  core (leftIn (PhysicsServer.tick env now now' s))
  = core (afterStep env now s).
Proof.
  rewrite tick_phases. unfold afterStep.
  destruct (PhysicsServer.stepPhysics env _ (beforeStep env now s)) as [s4|s4];
    cbn [bind leftIn]; [|reflexivity].
  destruct (sendWorldSnapshot_spec now'
              (PhysicsServer.processChunkRequests env s4))
    as (-> & _).
  apply processChunkRequests_core.
Qed.

Lemma afterStep_playerManager now s :
  PhysicsServer.playerManager (afterStep env now s)
  = fst (PlayerPhysicsManager.update env
           ((now - PhysicsServer.lastTickTime s) / 1000)
           (PhysicsServer.playerManager s)
           (PhysicsServer.physicsWorld
              (PhysicsServer.streamChunks env
                 (PhysicsServer.gatherPositions
                    (snd (PhysicsServer.advanceClock now s)))
                 (snd (PhysicsServer.advanceClock now s))))).
Proof.
  destruct (afterStep_frame env now s) as (_ & _ & _ & _ & ->).
  set (s0 := snd (PhysicsServer.advanceClock now s)).
  set (s1 := PhysicsServer.streamChunks env _ s0).
  destruct (updatePlayers_frame env
              ((now - PhysicsServer.lastTickTime s) / 1000) s1)
    as (_ & _ & -> & _).
  destruct (streamChunks_frame env (PhysicsServer.gatherPositions s0) s0)
    as (_ & _ & H & _).
  fold s1 in H. rewrite H. reflexivity.
Qed.

Lemma ackOf_in_vehicle pm pw cid p v :
  JsMap.get (PlayerPhysicsManager.playerEntityId cid)
            (PlayerPhysicsManager.players pm) = Some p ->
  PlayerPhysicsManager.vehicleId p = Some v ->
  ackOf pm pw cid = PlayerPhysicsManager.lastInputSeq p.
Proof.
  intros Hp Hv. unfold ackOf, PlayerPhysicsManager.getPlayerState.
  now rewrite Hp, Hv.
Qed.
End AckFacts.

(** C10.  While a player is in a vehicle, a [player_input] message for
    it changes nothing of the managers: neither the stored input nor the
    yaw, the input history or [lastInputSeq]; only an [input_ack] may
    leave through the socket.  The tick that follows skips the player,
    so in the state that the tick leaves behind (whether it returns or
    the physics step throws) its record, its stored input and its
    history are still what they were, and the acknowledgment a snapshot
    reports for it is the old [lastInputSeq]. *)
Theorem C10_input_discarded_in_vehicle :
  forall (env : Env) (ws : nat) (input : PlayerPhysicsManager.PlayerInput)
         (now tickStart tickSend : R) (s : PhysicsServer.t)
         (c : PhysicsServer.ClientData) (p : PlayerPhysicsManager.Player)
         (v : string),
    JsMap.get ws (PhysicsServer.clients s) = Some c ->
    JsMap.get (PlayerPhysicsManager.playerEntityId (PhysicsServer.clientId c))
              (PlayerPhysicsManager.players (PhysicsServer.playerManager s))
    = Some p ->
    PlayerPhysicsManager.vehicleId p = Some v ->
    let entityId :=
      PlayerPhysicsManager.playerEntityId (PhysicsServer.clientId c) in
    let s1 := PhysicsServer.handlePlayerInput ws input now s in
    let s2 := leftIn (PhysicsServer.tick env tickStart tickSend s1) in
    core s1 = core s
    /\ PhysicsServer.clients s1 = PhysicsServer.clients s
    /\ JsMap.get entityId
         (PlayerPhysicsManager.players (PhysicsServer.playerManager s2))
       = Some p
    /\ PlayerPhysicsManager.playerInputs (PhysicsServer.playerManager s2)
       = PlayerPhysicsManager.playerInputs (PhysicsServer.playerManager s)
    /\ PlayerPhysicsManager.inputHistory (PhysicsServer.playerManager s2)
       = PlayerPhysicsManager.inputHistory (PhysicsServer.playerManager s)
    /\ ackOf (PhysicsServer.playerManager s2) (PhysicsServer.physicsWorld s2)
             (PhysicsServer.clientId c)
       = PlayerPhysicsManager.lastInputSeq p.
Proof.
  intros env ws input now tickStart tickSend s c p v Hc Hp Hv entityId s1 s2.
  assert (H1 : core s1 = core s /\ PhysicsServer.clients s1
                                   = PhysicsServer.clients s).
  { subst s1. unfold PhysicsServer.handlePlayerInput. rewrite Hc.
    destruct (PhysicsServer.isPlaying (PhysicsServer.state c)); simpl;
      [|auto].
    rewrite send_core, send_clients.
    rewrite (setPlayerInput_in_vehicle _ input now _ Hp Hv).
    split; reflexivity. }
  destruct H1 as [Hcore Hcl]. split; [exact Hcore|]. split; [exact Hcl|].
  pose proof (core_playerManager Hcore) as (_ & _ & _ & Hpm & _ & Hlt).
  pose proof (core_playerManager (tick_core env tickStart tickSend s1))
    as (_ & _ & _ & Hpm2 & _).
  fold s2 in Hpm2. rewrite afterStep_playerManager in Hpm2.
  set (pw1 := PhysicsServer.physicsWorld _) in Hpm2.
  set (dt := (tickStart - PhysicsServer.lastTickTime s1) / 1000) in Hpm2.
  destruct (update_inputs env dt (PhysicsServer.playerManager s1) pw1)
    as (Hi & Hh & Hps & _).
  rewrite <- Hpm2 in Hi, Hh, Hps. rewrite Hpm in Hi, Hh, Hps.
  destruct (update_loop_get env
              (PlayerPhysicsManager.playerInputs
                 (PhysicsServer.playerManager s)) dt
              (PlayerPhysicsManager.players (PhysicsServer.playerManager s))
              pw1 entityId Hp)
    as (p' & Hget & _ & _ & _ & Hsame & _).
  assert (Hpp : p' = p) by (apply Hsame; left; congruence). subst p'.
  rewrite <- Hps in Hget.
  repeat split; auto.
  now apply (ackOf_in_vehicle _ _ _ Hget Hv).
Qed.

Lemma C10_witness :
  JsMap.get "player_a"
    (PlayerPhysicsManager.players
       (PhysicsServer.playerManager
          (leftIn
             (PhysicsServer.tick Scenario.env0 1 1
                (PhysicsServer.handlePlayerInput 0 (Scenario.idle 5 false) 0
                   (Scenario.server Scenario.pm_driving
                                    PhysicsServer.OPEN))))))
  = Some (PlayerPhysicsManager.withVehicleId (Some "vehicle_1")
            Scenario.player_a)
  /\ ackOf
       (PhysicsServer.playerManager
          (leftIn
             (PhysicsServer.tick Scenario.env0 1 1
                (PhysicsServer.handlePlayerInput 0 (Scenario.idle 5 false) 0
                   (Scenario.server Scenario.pm_driving
                                    PhysicsServer.OPEN)))))
       (PhysicsServer.physicsWorld
          (leftIn
             (PhysicsServer.tick Scenario.env0 1 1
                (PhysicsServer.handlePlayerInput 0 (Scenario.idle 5 false) 0
                   (Scenario.server Scenario.pm_driving
                                    PhysicsServer.OPEN)))))
       "a"
     = 0%Z.
Proof.
  destruct (C10_input_discarded_in_vehicle Scenario.env0 0
              (Scenario.idle 5 false) 0 1 1
              (Scenario.server Scenario.pm_driving PhysicsServer.OPEN)
              (c := Scenario.client_a PhysicsServer.OPEN)
              (p := PlayerPhysicsManager.withVehicleId (Some "vehicle_1")
                      Scenario.player_a)
              (v := "vehicle_1") eq_refl eq_refl eq_refl)
    as (_ & _ & Hp & _ & _ & Hack).
  split; [exact Hp|exact Hack].
Defined.

Section SequenceFacts.
Variable env : Env.
Variable cid : string.
Import PlayerPhysicsManager.






End SequenceFacts.





(** ** What the service of the chunk requests sends *)

Lemma chunkDataFor_bounded env tm e :
  (List.length (chunkDataFor env tm e) <= PhysicsServer.maxChunksPerTick)%nat.
Proof.
  unfold chunkDataFor.
  destruct (PhysicsServer.isOpen _); [|simpl; lia].
  rewrite length_map. apply firstn_le_length.
Qed.

(** ** Chunk streaming *)

Lemma centreChunk_origin : TerrainPhysicsManager.centreChunk 0 0 = (0, 0)%Z.
Proof.
  unfold TerrainPhysicsManager.centreChunk, CONFIG.chunkSize.
  replace (0 / 200) with (IZR 0) by (simpl; lra).
  now rewrite ZfloorZ.
Qed.

Lemma requiredChunks_origin :
  TerrainPhysicsManager.requiredChunks [atOrigin]
  = TerrainPhysicsManager.neighbourhood CONFIG.serverChunkRadius (0, 0)%Z.
Proof.
  unfold TerrainPhysicsManager.requiredChunks. cbn [fold_left].
  unfold atOrigin.
  cbn [TerrainPhysicsManager.pp_x TerrainPhysicsManager.pp_z].
  rewrite centreChunk_origin. vm_compute. reflexivity.
Qed.

(** C2 fails on the code.  Chunk (-3,-1) is loaded when the fourth
    update starts and lies in the set that update requires, yet the
    update unloads it: the chunk was queued for unload during the third
    tick, the entry stayed in the queue, and the drain checks only that
    the chunk is loaded. *)
Theorem C2_unloads_required_chunk :
  JsSet.has (-3, -1)%Z (TerrainPhysicsManager.requiredChunks [atOrigin])
  = true
  /\ JsMap.has (-3, -1)%Z
       (TerrainPhysicsManager.loadedChunks (fst threeTicks)) = true
  /\ JsSet.has (-3, -1)%Z
       (TerrainPhysicsManager.unloadQueue (fst threeTicks)) = true
  /\ JsMap.has (-3, -1)%Z
       (TerrainPhysicsManager.loadedChunks (fst fourTicks)) = false
  /\ JsMap.has (-3, -1)%Z (PhysicsWorld.terrainChunks (snd fourTicks))
     = false.
Proof.
  unfold fourTicks, threeTicks, TerrainPhysicsManager.updateForPlayers.
  rewrite requiredChunks_origin.
  change (TerrainPhysicsManager.requiredChunks []) with
    (@nil TerrainPhysicsManager.Key).
  vm_compute. repeat split; reflexivity.
Qed.

(** ** Creating a body twice *)

(** C9 fails on the code.  [createPlayerBody] does not look for a body
    under the same id: called twice, it creates a second rigid body and
    collider and overwrites the map entries.  The first body and its
    collider stay in the simulation, reachable from no entity id, also
    after the entity is removed. *)
Theorem C9_second_body_leaks_first :
  let pw1 :=
    snd (PhysicsWorld.createPlayerBody "player_a" (mkVec3 0 1 0) "a"
           PhysicsWorld.init) in
  let pw2 :=
    snd (PhysicsWorld.createPlayerBody "player_a" (mkVec3 0 1 0) "a" pw1) in
  (engineBodies pw1 = [0%nat] /\ engineColliders pw1 = [1%nat])
  /\ (engineBodies pw2 = [0%nat; 2%nat] /\ ownedBodies pw2 = [2%nat]
      /\ engineColliders pw2 = [1%nat; 3%nat]
      /\ JsMap.get "player_a" (PhysicsWorld.colliders pw2) = Some [3%nat])
  /\ (engineBodies (PhysicsWorld.removeEntity "player_a" pw2) = [0%nat]
      /\ engineColliders (PhysicsWorld.removeEntity "player_a" pw2)
         = [1%nat]
      /\ ownedBodies (PhysicsWorld.removeEntity "player_a" pw2) = [])
  /\ (List.length (engineBodies (snd (snd spawnedTwice))) = 2%nat
      /\ List.length (ownedBodies (snd (snd spawnedTwice))) = 1%nat).
Proof.
  cbv zeta. repeat split; try reflexivity.
  - unfold spawnedTwice, PlayerPhysicsManager.spawnPlayer,
      TerrainPhysicsManager.forceLoadAroundPosition.
    cbn [vx vz]. rewrite centreChunk_origin. reflexivity.
  - unfold spawnedTwice, PlayerPhysicsManager.spawnPlayer,
      TerrainPhysicsManager.forceLoadAroundPosition.
    cbn [vx vz]. rewrite centreChunk_origin. reflexivity.
Qed.

(** ** Reconciliation of the local player *)

Section ReconcileFacts.
Variable env : Env.
Import PlayerController.

Lemma replay_nothing lastInputSeq pending pc :
  Forall (fun i => (NetworkClient.pi_seq i <= lastInputSeq)%Z) pending ->
  replay env lastInputSeq pending pc = Ok pc.
Proof.
  induction 1 as [|i l Hi Hl IH]; simpl; [reflexivity|].
  destruct (Z.ltb_spec lastInputSeq (NetworkClient.pi_seq i)); [lia|].
  exact IH.
Qed.

(** The first buffered input that is later than the acknowledgment
    stops the replay: the buffered entries carry no [input] property, so
    [applyInput] is called on [undefined] and throws on its first read
    of it, leaving the controller as it was. *)
Lemma replay_unacknowledged_throws lastInputSeq i pending pc :
  (lastInputSeq < NetworkClient.pi_seq i)%Z ->
  replay env lastInputSeq (i :: pending) pc = TypeError pc.
Proof.
  intros Hi. simpl.
  destruct (Z.ltb_spec lastInputSeq (NetworkClient.pi_seq i)); [|lia].
  reflexivity.
Qed.

(** The three tiers of the correction, when nothing is left to replay. *)
Lemma reconcile_tiers state pending pc serverPos serverVel :
  statePosition state = Some serverPos ->
  stateVelocity state = Some serverVel ->
  Forall (fun i => (NetworkClient.pi_seq i
                    <= PlayerPhysicsManager.ps_lastInputSeq state)%Z)
         pending ->
  exists pc',
    updateLocalPlayerFromServer env state pending pc = Ok pc'
    /\ predictedPosition pc'
       = if Rgtb (Vector3.distanceTo (predictedPosition pc) serverPos) 2
         then serverPos
         else if Rgtb (Vector3.distanceTo (predictedPosition pc) serverPos)
                      (1 / 10)
              then Vector3.lerp (predictedPosition pc) serverPos (1 / 10)
              else predictedPosition pc.
Proof.
  intros Hp Hv Hpend. unfold updateLocalPlayerFromServer.
  rewrite Hp, Hv. cbv zeta. rewrite replay_nothing by assumption.
  eexists. split; reflexivity.
Qed.
End ReconcileFacts.

(** C3, as the code has it.  With nothing left to replay, one snapshot
    brings the predicted position exactly onto the authoritative one
    only when the two are more than 2 units apart (the hard snap).
    Between 0.1 and 2 units the predicted position moves a tenth of the
    way towards the authoritative one, and up to 0.1 units it stays
    where it is. *)
Theorem C3_reconciliation_tiers :
  forall (env : Env) (state : PlayerPhysicsManager.PlayerState)
         (pending : list NetworkClient.PendingInput)
         (pc : PlayerController.t) (serverPos serverVel : Vec3),
    PlayerController.statePosition state = Some serverPos ->
    PlayerController.stateVelocity state = Some serverVel ->
    Forall (fun i => (NetworkClient.pi_seq i
                      <= PlayerPhysicsManager.ps_lastInputSeq state)%Z)
           pending ->
    let error :=
      Vector3.distanceTo (PlayerController.predictedPosition pc) serverPos in
    exists pc',
      PlayerController.updateLocalPlayerFromServer env state pending pc
      = Ok pc'
      /\ (2 < error -> PlayerController.predictedPosition pc' = serverPos)
      /\ (1 / 10 < error <= 2 ->
          PlayerController.predictedPosition pc'
          = Vector3.lerp (PlayerController.predictedPosition pc) serverPos
                         (1 / 10))
      /\ (error <= 1 / 10 ->
          PlayerController.predictedPosition pc'
          = PlayerController.predictedPosition pc).
Proof.
  intros env state pending pc serverPos serverVel Hp Hv Hpend error.
  destruct (reconcile_tiers env state pc Hp Hv Hpend) as (pc' & Hok & Hpos).
  exists pc'. split; [exact Hok|]. fold error in Hpos. unfold Rgtb in Hpos.
  repeat split.
  - intros H. now rewrite (Rltb_true H) in Hpos.
  - intros [H1 H2]. rewrite Rltb_false in Hpos by lra.
    now rewrite (Rltb_true H1) in Hpos.
  - intros H. now rewrite !Rltb_false in Hpos by lra.
Qed.

Lemma distance_on_x a :
  0 <= a -> Vector3.distanceTo (mkVec3 a 0 0) (mkVec3 0 0 0) = a.
Proof.
  intros Ha. unfold Vector3.distanceTo, Vector3.distanceToSquared.
  cbn [vx vy vz].
  replace ((a - 0) * (a - 0) + (0 - 0) * (0 - 0) + (0 - 0) * (0 - 0))
    with (a * a) by lra.
  now apply sqrt_square.
Qed.

Lemma C3_witness :
  exists pc',
    PlayerController.updateLocalPlayerFromServer Scenario.env0
      (Scenario.stateAt (mkVec3 0 0 0) vec0 0) []
      (Scenario.controllerAt (mkVec3 3 0 0) [])
    = Ok pc'
    /\ PlayerController.predictedPosition pc' = mkVec3 0 0 0.
Proof.
  destruct (@C3_reconciliation_tiers Scenario.env0
              (Scenario.stateAt (mkVec3 0 0 0) vec0 0) []
              (Scenario.controllerAt (mkVec3 3 0 0) [])
              (mkVec3 0 0 0) vec0 eq_refl eq_refl (Forall_nil _))
    as (pc' & Hok & Hsnap & _).
  exists pc'. split; [exact Hok|]. apply Hsnap.
  cbn [PlayerController.predictedPosition Scenario.controllerAt].
  rewrite distance_on_x; lra.
Defined.

(** The claim fails in the middle tier: a prediction one unit off the
    authoritative position is still nine tenths of a unit off after the
    snapshot, with nothing to replay. *)
Lemma C3_counterexample :
  exists pc',
    PlayerController.updateLocalPlayerFromServer Scenario.env0
      (Scenario.stateAt (mkVec3 0 0 0) vec0 0) []
      (Scenario.controllerAt (mkVec3 1 0 0) [])
    = Ok pc'
    /\ vx (PlayerController.predictedPosition pc') = 9 / 10
    /\ PlayerController.predictedPosition pc' <> mkVec3 0 0 0.
Proof.
  destruct (@reconcile_tiers Scenario.env0
              (Scenario.stateAt (mkVec3 0 0 0) vec0 0) []
              (Scenario.controllerAt (mkVec3 1 0 0) [])
              (mkVec3 0 0 0) vec0 eq_refl eq_refl (Forall_nil _))
    as (pc' & Hok & Hpos).
  cbn [PlayerController.predictedPosition Scenario.controllerAt] in Hpos.
  rewrite distance_on_x in Hpos by lra.
  unfold Rgtb in Hpos.
  rewrite (@Rltb_false 2 1) in Hpos by lra.
  rewrite (@Rltb_true (1 / 10) 1) in Hpos by lra.
  exists pc'. split; [exact Hok|].
  rewrite Hpos. unfold Vector3.lerp. cbn [vx vy vz]. split; [lra|].
  intros H. apply (f_equal vx) in H. cbn [vx] in H. lra.
Qed.

(** ** Smoothing of remote players *)

Lemma get_map_values {K V} `{EqDec K} (f : V -> V) (k : K)
      (l : list (K * V)) :
  JsMap.get k (map (fun e => (fst e, f (snd e))) l)
  = option_map f (JsMap.get k l).
Proof.
  induction l as [|[k0 v0] r IH]; simpl; [reflexivity|].
  destruct (eq_dec k k0); [reflexivity|exact IH].
Qed.

Lemma clamp_unit x : 0 <= x -> clamp x 0 1 = Rmin 1 x.
Proof.
  intros Hx. unfold clamp. apply Rmax_right.
  apply Rmin_glb; lra.
Qed.

Lemma smoothRemotePlayer_render window now player sm :
  PlayerController.smoothing player = Some sm ->
  0 < PlayerController.duration sm ->
  PlayerController.start sm <= now ->
  PlayerController.mesh_position
    (PlayerController.smoothRemotePlayer window now player)
  = specRender window sm now.
Proof.
  intros Hsm Hd Hs. unfold PlayerController.smoothRemotePlayer.
  rewrite Hsm. cbn [PlayerController.mesh_position]. unfold specRender.
  rewrite clamp_unit.
  - unfold smoothstep, blendToward, vadd, vsub, vscale,
      Vector3.lerpVectors, Vector3.addScaledVector.
    cbn [vx vy vz]. f_equal; ring.
  - apply Rmult_le_pos; [lra|]. left. now apply Rinv_0_lt_compat.
Qed.

Lemma update_keeps_rendered state arrival pc player targetPos :
  JsMap.get (PlayerPhysicsManager.ps_entityId state)
            (PlayerController.otherPlayers pc) = Some player ->
  PlayerController.statePosition state = Some targetPos ->
  exists pc1 player1,
    PlayerController.updateOtherPlayerFromServer state arrival pc = Ok pc1
    /\ JsMap.get (PlayerPhysicsManager.ps_entityId state)
                 (PlayerController.otherPlayers pc1) = Some player1
    /\ PlayerController.mesh_position player1
       = PlayerController.mesh_position player
    /\ PlayerController.remoteSmoothingWindow pc1
       = PlayerController.remoteSmoothingWindow pc
    /\ PlayerController.smoothing player1
       = Some {| PlayerController.from :=
                   PlayerController.mesh_position player;
                 PlayerController.to := targetPos;
                 PlayerController.velocity :=
                   match PlayerController.stateVelocity state with
                   | Some v => v
                   | None => vec0
                   end;
                 PlayerController.start := arrival;
                 PlayerController.duration :=
                   PlayerController.remoteSmoothingWindow pc * 1000 |}.
Proof.
  intros Hg Hp. unfold PlayerController.updateOtherPlayerFromServer.
  rewrite Hg. cbn [bind]. rewrite Hg, Hp.
  eexists. eexists. split; [reflexivity|].
  cbn [PlayerController.otherPlayers PlayerController.withOtherPlayers
       PlayerController.remoteSmoothingWindow].
  rewrite get_set_eq. repeat split; reflexivity.
Qed.

(** C8.  On a render frame at time [now], a remote entity with the
    smoothing descriptor [{from, to, velocity, start, duration}] is
    rendered at the linear blend from [from] toward
    [to + velocity * delayWindow * (1 - eased)] by [eased], where
    [t = clamp((now - start)/duration, 0, 1)] and [eased] is the
    smoothstep of [t]; the clock does not run backwards ([start <= now])
    and the window is positive.  An update for a known remote entity
    leaves its rendered position where it is and only installs the
    descriptor that starts from it. *)
Theorem C8_remote_smoothing :
  (forall (now : R) (pc : PlayerController.t) (entityId : string)
          (player : PlayerController.RemotePlayer)
          (sm : PlayerController.Smoothing),
      JsMap.get entityId (PlayerController.otherPlayers pc) = Some player ->
      PlayerController.smoothing player = Some sm ->
      0 < PlayerController.duration sm ->
      PlayerController.start sm <= now ->
      option_map PlayerController.mesh_position
        (JsMap.get entityId
           (PlayerController.otherPlayers
              (PlayerController.smoothRemotePlayers now pc)))
      = Some (specRender (PlayerController.remoteSmoothingWindow pc) sm now))
  /\ (forall (state : PlayerPhysicsManager.PlayerState) (arrival : R)
             (pc : PlayerController.t)
             (player : PlayerController.RemotePlayer) (targetPos : Vec3),
         JsMap.get (PlayerPhysicsManager.ps_entityId state)
                   (PlayerController.otherPlayers pc) = Some player ->
         PlayerController.statePosition state = Some targetPos ->
         exists pc1 player1,
           PlayerController.updateOtherPlayerFromServer state arrival pc
           = Ok pc1
           /\ JsMap.get (PlayerPhysicsManager.ps_entityId state)
                        (PlayerController.otherPlayers pc1) = Some player1
           /\ PlayerController.mesh_position player1
              = PlayerController.mesh_position player
           /\ PlayerController.smoothing player1
              = Some {| PlayerController.from :=
                          PlayerController.mesh_position player;
                        PlayerController.to := targetPos;
                        PlayerController.velocity :=
                          match PlayerController.stateVelocity state with
                          | Some v => v
                          | None => vec0
                          end;
                        PlayerController.start := arrival;
                        PlayerController.duration :=
                          PlayerController.remoteSmoothingWindow pc * 1000 |}).
Proof.
  split.
  - intros now pc entityId player sm Hg Hsm Hd Hs.
    unfold PlayerController.smoothRemotePlayers.
    cbn [PlayerController.otherPlayers PlayerController.withOtherPlayers].
    rewrite get_map_values, Hg. cbn [option_map]. f_equal.
    now apply smoothRemotePlayer_render.
  - intros state arrival pc player targetPos Hg Hp.
    destruct (update_keeps_rendered state arrival pc Hg Hp)
      as (pc1 & player1 & H1 & H2 & H3 & _ & H5).
    exists pc1, player1. auto.
Qed.

Lemma C8_witness :
  exists pc1 sm,
    PlayerController.updateOtherPlayerFromServer
      (Scenario.stateAt (mkVec3 10 0 0) (mkVec3 1 0 0) 0) 0
      (Scenario.controllerAt (mkVec3 0 0 0)
         [("player_a", Scenario.remoteAt (mkVec3 0 0 0))])
    = Ok pc1
    /\ PlayerController.from sm = mkVec3 0 0 0
    /\ PlayerController.to sm = mkVec3 10 0 0
    /\ option_map PlayerController.mesh_position
         (JsMap.get "player_a"
            (PlayerController.otherPlayers
               (PlayerController.smoothRemotePlayers 50 pc1)))
       = Some (specRender PlayerController.defaultSmoothingWindow sm 50).
Proof.
  destruct C8_remote_smoothing as [Hrender Hupdate].
  destruct (Hupdate (Scenario.stateAt (mkVec3 10 0 0) (mkVec3 1 0 0) 0) 0
              (Scenario.controllerAt (mkVec3 0 0 0)
                 [("player_a", Scenario.remoteAt (mkVec3 0 0 0))])
              (Scenario.remoteAt (mkVec3 0 0 0)) (mkVec3 10 0 0)
              eq_refl eq_refl)
    as (pc1 & player1 & Hok & Hg & Hm & Hsm).
  exists pc1,
    {| PlayerController.from := mkVec3 0 0 0;
       PlayerController.to := mkVec3 10 0 0;
       PlayerController.velocity := mkVec3 1 0 0;
       PlayerController.start := 0;
       PlayerController.duration :=
         PlayerController.defaultSmoothingWindow * 1000 |}.
  split; [exact Hok|]. split; [reflexivity|]. split; [reflexivity|].
  assert (Hw : PlayerController.remoteSmoothingWindow pc1
               = PlayerController.defaultSmoothingWindow).
  { destruct (@update_keeps_rendered
                (Scenario.stateAt (mkVec3 10 0 0) (mkVec3 1 0 0) 0) 0
                (Scenario.controllerAt (mkVec3 0 0 0)
                   [("player_a", Scenario.remoteAt (mkVec3 0 0 0))])
                (Scenario.remoteAt (mkVec3 0 0 0)) (mkVec3 10 0 0)
                eq_refl eq_refl)
      as (pc1' & _ & Hok' & _ & _ & Hw' & _).
    rewrite Hok in Hok'. inversion Hok'; subst pc1'. exact Hw'. }
  assert (Hr := Hrender 50 pc1 "player_a" player1 _ Hg Hsm).
  rewrite Hw in Hr. apply Hr.
  - cbn [PlayerController.duration PlayerController.remoteSmoothingWindow
         Scenario.controllerAt].
    unfold PlayerController.defaultSmoothingWindow. lra.
  - cbn [PlayerController.start]. lra.
Defined.

(** ** The spawn point search *)

Section SpawnFacts.
Variable env : Env.
Variable random : nat -> R.

Local Abbreviation cand := (TerrainPhysicsManager.candidate random).

Lemma findSpawnPoint_loop_spec :
  forall n i bestPoint bestFlatness,
    bestSoFar env random i bestPoint bestFlatness ->
    let p :=
      TerrainPhysicsManager.findSpawnPoint_loop env random n i bestPoint
                                                bestFlatness in
    (exists k, (i <= k < i + n)%nat /\ p = pointOf env (cand k)
               /\ 3 / 10 < cityAt env (cand k)
               /\ forall j, (i <= j < k)%nat ->
                            ~ 3 / 10 < cityAt env (cand j))
    \/ ((forall k, (i <= k < i + n)%nat -> ~ 3 / 10 < cityAt env (cand k))
        /\ ((i + n = 0)%nat -> p = bestPoint)
        /\ ((0 < i + n)%nat ->
            exists k, (k < i + n)%nat /\ p = pointOf env (cand k)
                      /\ forall j, (j < i + n)%nat ->
                                   flatAt env (cand k) <= flatAt env (cand j))).
Proof.
  induction n as [|n IH]; intros i bestPoint bestFlatness Hbest; cbv zeta.
  - right. simpl. split; [intros k Hk; lia|]. split; [reflexivity|].
    intros Hi. unfold bestSoFar in Hbest.
    destruct bestFlatness as [f|]; [|lia].
    destruct Hbest as (k & Hk & Hp & Hf & Hall).
    exists k. split; [lia|]. split; [exact Hp|].
    intros j Hj. rewrite <- Hf. apply Hall. lia.
  - cbn [TerrainPhysicsManager.findSpawnPoint_loop].
    destruct (cand i) as [x z] eqn:Hc.
    unfold Rgtb.
    destruct (Rltb (3 / 10)
                   (TerrainPhysicsManager.getCityInfluenceAt env x z)) eqn:Hcity.
    + left. exists i. split; [lia|]. rewrite Hc.
      split; [reflexivity|]. split; [|intros j Hj; lia].
      unfold cityAt. simpl. now apply Rltb_spec.
    + assert (Hnc : ~ 3 / 10 < cityAt env (cand i)).
      { rewrite Hc. unfold cityAt. simpl. intros H.
        apply Rltb_spec in H. congruence. }
      set (f := TerrainPhysicsManager.flatnessAt env x z).
      assert (Hfi : f = flatAt env (cand i)) by (now rewrite Hc).
      assert (Hstep :
                exists bp bf,
                  (if TerrainPhysicsManager.belowBest f bestFlatness
                   then
                     TerrainPhysicsManager.findSpawnPoint_loop env random n
                       (S i)
                       (mkVec3 x (TerrainPhysicsManager.getHeightAt env x z
                                  + 2) z)
                       (Some f)
                   else
                     TerrainPhysicsManager.findSpawnPoint_loop env random n
                       (S i) bestPoint bestFlatness)
                  = TerrainPhysicsManager.findSpawnPoint_loop env random n
                      (S i) bp bf
                  /\ bestSoFar env random (S i) bp bf).
      { destruct (TerrainPhysicsManager.belowBest f bestFlatness) eqn:Hb.
        - exists (mkVec3 x (TerrainPhysicsManager.getHeightAt env x z + 2) z),
                 (Some f).
          split; [reflexivity|]. exists i. split; [lia|].
          split; [now rewrite Hc|]. split; [exact Hfi|].
          intros j Hj. destruct (Nat.eq_dec j i) as [->|Hne].
          + rewrite Hfi. apply Rle_refl.
          + unfold bestSoFar in Hbest. destruct bestFlatness as [f0|];
              [|lia].
            destruct Hbest as (k & _ & _ & _ & Hall). simpl in Hb.
            apply Rltb_spec in Hb. left.
            eapply Rlt_le_trans; [exact Hb|]. apply Hall. lia.
        - exists bestPoint, bestFlatness. split; [reflexivity|].
          unfold bestSoFar in *. destruct bestFlatness as [f0|];
            [|discriminate].
          destruct Hbest as (k & Hk & Hp & Hf0 & Hall).
          exists k. split; [lia|]. split; [exact Hp|]. split; [exact Hf0|].
          intros j Hj. destruct (Nat.eq_dec j i) as [->|Hne].
          + rewrite <- Hfi. simpl in Hb. apply Rnot_lt_le. intros H.
            apply Rltb_spec in H. congruence.
          + apply Hall. lia. }
      destruct Hstep as (bp & bf & -> & Hbest').
      destruct (IH (S i) bp bf Hbest')
        as [(k & Hk & Hp & Hcy & Hfirst)|(Hno & _ & Hex)].
      * left. exists k. split; [lia|]. split; [exact Hp|].
        split; [exact Hcy|]. intros j Hj.
        destruct (Nat.eq_dec j i) as [->|Hne]; [exact Hnc|].
        apply Hfirst. lia.
      * right. split; [|split].
        -- intros k Hk. destruct (Nat.eq_dec k i) as [->|Hne]; [exact Hnc|].
           apply Hno. lia.
        -- intros; lia.
        -- intros _. destruct Hex as (k & Hk & Hp & Hall); [lia|].
           exists k. split; [lia|]. split; [exact Hp|].
           intros j Hj. apply Hall. lia.
Qed.
End SpawnFacts.

(** [findSpawnPoint] returns one of the fifty sampled candidates:
    the first whose city influence exceeds 0.3, or, when none does,
    one with the least sum of the four height differences at distance
    5 among the fifty.  The search compares the sums with each other
    and with nothing else: the least sum may be of any size. *)
Lemma findSpawnPoint_first_city_or_flattest :
  forall (env : Env) (random : nat -> R),
    let p := TerrainPhysicsManager.findSpawnPoint env random in
    let cand := TerrainPhysicsManager.candidate random in
    (exists k, (k < 50)%nat /\ p = pointOf env (cand k)
               /\ 3 / 10
                  < TerrainPhysicsManager.getCityInfluenceAt env (vx p) (vz p)
               /\ (forall j, (j < k)%nat ->
                             ~ 3 / 10 < cityAt env (cand j)))
    \/ (exists k, (k < 50)%nat /\ p = pointOf env (cand k)
                  /\ (forall j, (j < 50)%nat ->
                                ~ 3 / 10 < cityAt env (cand j))
                  /\ (forall j, (j < 50)%nat ->
                                TerrainPhysicsManager.flatnessAt env (vx p)
                                                                 (vz p)
                                <= flatAt env (cand j))).
Proof.
  intros env random p cand. subst p cand.
  unfold TerrainPhysicsManager.findSpawnPoint, TerrainPhysicsManager.attempts.
  destruct (@findSpawnPoint_loop_spec env random 50 0 (mkVec3 0 0 0) None
              eq_refl)
    as [(k & Hk & Hp & Hc & Hfirst)|(Hno & _ & Hex)].
  - left. exists k. split; [lia|]. split; [exact Hp|].
    split; [rewrite Hp; exact Hc|]. intros j Hj. apply Hfirst. lia.
  - right. destruct Hex as (k & Hk & Hp & Hall); [lia|].
    exists k. split; [lia|]. split; [exact Hp|]. split.
    + intros j Hj. apply Hno. lia.
    + intros j Hj. rewrite Hp. apply Hall. lia.
Qed.

(* ================================================================== *)
(** * Part III. Further properties of the code *)
(* ================================================================== *)

(** ** The vector helpers of the vehicle manager *)

Section VectorFacts.
Import VehiclePhysicsManager.

Lemma rotateVector_sqr v q :
  let r := rotateVector v q in
  vx r * vx r + vy r * vy r + vz r * vz r
  = (qx q * qx q + qy q * qy q + qz q * qz q + qw q * qw q)
    * (qx q * qx q + qy q * qy q + qz q * qz q + qw q * qw q)
    * (vx v * vx v + vy v * vy v + vz v * vz v).
Proof. destruct v, q. cbn. ring. Qed.
End VectorFacts.

(** X1.  Rotating a vector by a unit quaternion keeps its length. *)
Theorem rotateVector_keeps_length :
  forall (v : Vec3) (q : Quat),
    qx q * qx q + qy q * qy q + qz q * qz q + qw q * qw q = 1 ->
    VehiclePhysicsManager.vectorLength
      (VehiclePhysicsManager.rotateVector v q)
    = VehiclePhysicsManager.vectorLength v.
Proof.
  intros v q Hq. unfold VehiclePhysicsManager.vectorLength.
  rewrite (rotateVector_sqr v q), Hq. f_equal. ring.
Qed.

Lemma rotateVector_keeps_length_witness :
  VehiclePhysicsManager.vectorLength
    (VehiclePhysicsManager.rotateVector (mkVec3 3 0 4) (mkQuat 0 1 0 0))
  = VehiclePhysicsManager.vectorLength (mkVec3 3 0 4).
Proof.
  apply rotateVector_keeps_length. cbn. ring.
Defined.

(** X2.  Rotating by the quaternion that [yawToQuaternion] builds is
    the rotation about the vertical axis by that angle, as
    [rotateVectorY] computes it. *)
Theorem rotateVector_yawToQuaternion :
  forall (v : Vec3) (yaw : R),
    VehiclePhysicsManager.rotateVector v
      (VehiclePhysicsManager.yawToQuaternion yaw)
    = VehiclePhysicsManager.rotateVectorY v yaw.
Proof.
  intros [x y z] yaw.
  unfold VehiclePhysicsManager.rotateVector,
    VehiclePhysicsManager.yawToQuaternion,
    VehiclePhysicsManager.rotateVectorY.
  cbn [vx vy vz qx qy qz qw].
  assert (Hc : cos yaw
               = cos (yaw / 2) * cos (yaw / 2)
                 - sin (yaw / 2) * sin (yaw / 2)).
  { replace yaw with (2 * (yaw / 2)) at 1 by field. apply cos_2a. }
  assert (Hs : sin yaw = 2 * sin (yaw / 2) * cos (yaw / 2)).
  { replace yaw with (2 * (yaw / 2)) at 1 by field. apply sin_2a. }
  rewrite Hc, Hs.
  pose proof (sin2_cos2 (yaw / 2)) as H. unfold Rsqr in H.
  f_equal; try ring.
  transitivity (y * (sin (yaw / 2) * sin (yaw / 2)
                     + cos (yaw / 2) * cos (yaw / 2))); [ring|].
  rewrite H. ring.
Qed.

(** X3.  [normalizeVector] returns the zero vector for a vector of
    length zero and a vector of length one for every other vector. *)
Theorem normalizeVector_unit :
  forall v : Vec3,
    (VehiclePhysicsManager.vectorLength v = 0 ->
     VehiclePhysicsManager.normalizeVector v = mkVec3 0 0 0)
    /\ (VehiclePhysicsManager.vectorLength v <> 0 ->
        VehiclePhysicsManager.vectorLength
          (VehiclePhysicsManager.normalizeVector v) = 1).
Proof.
  intros v. unfold VehiclePhysicsManager.normalizeVector.
  destruct (Req_dec_T (VehiclePhysicsManager.vectorLength v) 0) as [E|N].
  - split; [reflexivity|contradiction].
  - split; [contradiction|]. intros _.
    set (l := VehiclePhysicsManager.vectorLength v) in *.
    assert (Hsq : vx v * vx v + vy v * vy v + vz v * vz v = l * l).
    { unfold l, VehiclePhysicsManager.vectorLength.
      rewrite sqrt_sqrt; [reflexivity|].
      assert (0 <= vx v * vx v) by apply Rle_0_sqr.
      assert (0 <= vy v * vy v) by apply Rle_0_sqr.
      assert (0 <= vz v * vz v) by apply Rle_0_sqr.
      lra. }
    unfold VehiclePhysicsManager.vectorLength at 1. cbn [vx vy vz].
    replace (vx v / l * (vx v / l) + vy v / l * (vy v / l)
             + vz v / l * (vz v / l))
      with ((vx v * vx v + vy v * vy v + vz v * vz v) / (l * l))
      by (field; exact N).
    rewrite Hsq.
    replace (l * l / (l * l)) with 1 by (field; exact N).
    apply sqrt_1.
Qed.

(** ** Player movement: [approach], stamina, health, input history *)

(** X4.  [approach] moves [current] towards [target] by [rate] and
    never past it: the target is reached exactly when it is within
    [rate], otherwise the result lies [rate] away from [current], on
    the side of the target. *)
Theorem approach_no_overshoot :
  forall current target rate : R,
    0 <= rate ->
    let r := PlayerPhysicsManager.approach current target rate in
    (Rabs (target - current) <= rate -> r = target)
    /\ (rate < Rabs (target - current) ->
        Rabs (r - current) = rate
        /\ Rabs (target - r) = Rabs (target - current) - rate)
    /\ Rmin current target <= r <= Rmax current target.
Proof.
  intros current target rate Hr r. subst r.
  unfold PlayerPhysicsManager.approach, Rgtb, Rltb.
  destruct (Rlt_dec current target) as [Hlt|Hge].
  - unfold Rmin, Rmax, Rabs.
    repeat (match goal with
            | |- context [Rle_dec ?a ?b] => destruct (Rle_dec a b)
            | |- context [Rcase_abs ?a] => destruct (Rcase_abs a)
            end); repeat split; intros; try lra.
  - destruct (Rlt_dec target current) as [Hgt|Hle].
    + unfold Rmin, Rmax, Rabs.
      repeat (match goal with
              | |- context [Rle_dec ?a ?b] => destruct (Rle_dec a b)
              | |- context [Rcase_abs ?a] => destruct (Rcase_abs a)
              end); repeat split; intros; try lra.
    + assert (current = target) by lra. subst.
      unfold Rmin, Rmax, Rabs.
      repeat (match goal with
              | |- context [Rle_dec ?a ?b] => destruct (Rle_dec a b)
              | |- context [Rcase_abs ?a] => destruct (Rcase_abs a)
              end); repeat split; intros; try lra.
Qed.

Lemma approach_no_overshoot_witness :
  PlayerPhysicsManager.approach 0 5 2 = 2
  /\ PlayerPhysicsManager.approach 4 5 2 = 5.
Proof.
  destruct (@approach_no_overshoot 0 5 2 ltac:(lra)) as (_ & H1 & H2).
  destruct (@approach_no_overshoot 4 5 2 ltac:(lra)) as (H3 & _).
  split.
  - assert (Ha : Rabs (5 - 0) = 5) by (rewrite Rabs_pos_eq; lra).
    destruct H1 as [H1 _]; [rewrite Ha; lra|].
    rewrite Rmin_left, Rmax_right in H2 by lra.
    rewrite Rabs_pos_eq in H1 by lra. lra.
  - apply H3. rewrite Rabs_pos_eq; lra.
Defined.

Section StaminaFacts.
Variable env : Env.
Import PlayerPhysicsManager.

Lemma updatePlayerMovement_stamina entityId player input deltaTime pw :
  0 <= deltaTime -> staminaInRange player ->
  staminaInRange
    (fst (updatePlayerMovement env entityId player input deltaTime pw)).
Proof.
  intros Hdt [H0 H1]. unfold updatePlayerMovement.
  destruct (PhysicsWorld.body pw entityId) as [[h b]|]; [|now split].
  destruct (JsMap.get entityId (PhysicsWorld.entityData pw));
    [|now split].
  cbv zeta. unfold staminaInRange. cbn [fst stamina].
  unfold CONFIG.maxStamina, CONFIG.staminaDrainRate,
    CONFIG.staminaRegenRate in *.
  destruct (run input && Rgtb (stamina player) 0).
  - destruct (true && _); cbn [negb].
    + unfold Rmax. destruct (Rle_dec _ _); lra.
    + lra.
  - cbn [andb negb]. unfold Rmin. destruct (Rle_dec _ _); lra.
Qed.

Lemma update_loop_stamina inputs deltaTime :
  0 <= deltaTime ->
  forall entries pw,
    Forall (fun e => staminaInRange (snd e)) entries ->
    Forall (fun e => staminaInRange (snd e))
           (fst (update_loop env inputs deltaTime entries pw)).
Proof.
  intros Hdt. induction entries as [|[e0 p0] rest IH]; intros pw Hall;
    simpl; [constructor|].
  inversion Hall as [|? ? H0 Hrest]; subst. simpl in H0.
  assert (Hp : staminaInRange
                 (fst (match vehicleId p0 with
                       | Some _ => (p0, pw)
                       | None =>
                           match JsMap.get e0 inputs with
                           | None => (p0, pw)
                           | Some input =>
                               updatePlayerMovement env e0 p0 input
                                                    deltaTime pw
                           end
                       end))).
  { destruct (vehicleId p0); [exact H0|].
    destruct (JsMap.get e0 inputs); [|exact H0].
    now apply updatePlayerMovement_stamina. }
  destruct (match vehicleId p0 with
            | Some _ => (p0, pw)
            | None => _
            end) as [p' pw'].
  specialize (IH pw' Hrest).
  destruct (update_loop env inputs deltaTime rest pw') as [rest' pw''].
  simpl in *. constructor; assumption.
Qed.
End StaminaFacts.

(** X5.  A tick of the player manager keeps every player's stamina
    between 0 and the maximum, when the tick's time step is not
    negative. *)
Theorem update_keeps_stamina_in_range :
  forall (env : Env) (deltaTime : R) (pm : PlayerPhysicsManager.t)
         (pw : PhysicsWorld.t),
    0 <= deltaTime ->
    Forall (fun e => staminaInRange (snd e))
           (PlayerPhysicsManager.players pm) ->
    Forall (fun e => staminaInRange (snd e))
           (PlayerPhysicsManager.players
              (fst (PlayerPhysicsManager.update env deltaTime pm pw))).
Proof.
  intros env deltaTime pm pw Hdt Hall.
  unfold PlayerPhysicsManager.update.
  pose proof (@update_loop_stamina env (PlayerPhysicsManager.playerInputs pm)
                deltaTime Hdt (PlayerPhysicsManager.players pm) pw Hall)
    as H.
  destruct (PlayerPhysicsManager.update_loop _ _ _ _ _) as [ps pw'].
  exact H.
Qed.

Lemma update_keeps_stamina_in_range_witness :
  Forall (fun e => staminaInRange (snd e))
         (PlayerPhysicsManager.players
            (fst (PlayerPhysicsManager.update Scenario.env0 1 Scenario.pm_a
                                              Scenario.pw_a))).
Proof.
  apply update_keeps_stamina_in_range; [lra|].
  constructor; [|constructor].
  unfold staminaInRange. cbn. unfold CONFIG.maxStamina. lra.
Defined.

(** [damagePlayer] and [healPlayer] on a known client return the
    new health and store it; with a non-negative amount the health
    stays within 0 and 100, damage never raises it and healing never
    lowers it.  For an unknown client they return [false] and change
    nothing. *)
Theorem health_stays_in_range :
  forall (clientId : string) (amount : R) (pm : PlayerPhysicsManager.t),
    0 <= amount ->
    (forall p,
        PlayerPhysicsManager.getPlayer clientId pm = Some p ->
        healthInRange p ->
        let h := PlayerPhysicsManager.health p in
        (exists p',
            fst (PlayerPhysicsManager.damagePlayer clientId amount pm)
            = Some (PlayerPhysicsManager.health p')
            /\ PlayerPhysicsManager.getPlayer clientId
                 (snd (PlayerPhysicsManager.damagePlayer clientId amount pm))
               = Some p'
            /\ healthInRange p'
            /\ PlayerPhysicsManager.health p' <= h
            /\ (amount <= h -> PlayerPhysicsManager.health p' = h - amount))
        /\ (exists p',
               fst (PlayerPhysicsManager.healPlayer clientId amount pm)
               = Some (PlayerPhysicsManager.health p')
               /\ PlayerPhysicsManager.getPlayer clientId
                    (snd (PlayerPhysicsManager.healPlayer clientId amount pm))
                  = Some p'
               /\ healthInRange p'
               /\ h <= PlayerPhysicsManager.health p'
               /\ (h + amount <= 100 ->
                   PlayerPhysicsManager.health p' = h + amount)))
    /\ (PlayerPhysicsManager.getPlayer clientId pm = None ->
        PlayerPhysicsManager.damagePlayer clientId amount pm = (None, pm)
        /\ PlayerPhysicsManager.healPlayer clientId amount pm = (None, pm)).
Proof.
  intros clientId amount pm Ha. unfold PlayerPhysicsManager.getPlayer.
  split.
  - intros p Hp [H0 H1]. cbv zeta.
    unfold PlayerPhysicsManager.damagePlayer,
      PlayerPhysicsManager.healPlayer.
    rewrite Hp. cbn [fst snd PlayerPhysicsManager.players].
    rewrite !get_set_eq. split.
    + exists (PlayerPhysicsManager.withHealth
                (Rmax 0 (PlayerPhysicsManager.health p - amount)) p).
      split; [reflexivity|]. split; [reflexivity|].
      unfold healthInRange. cbn [PlayerPhysicsManager.withHealth
                                   PlayerPhysicsManager.health].
      unfold Rmax. destruct (Rle_dec _ _); repeat split; intros; lra.
    + exists (PlayerPhysicsManager.withHealth
                (Rmin 100 (PlayerPhysicsManager.health p + amount)) p).
      split; [reflexivity|]. split; [reflexivity|].
      unfold healthInRange. cbn [PlayerPhysicsManager.withHealth
                                   PlayerPhysicsManager.health].
      unfold Rmin. destruct (Rle_dec _ _); repeat split; intros; lra.
  - intros Hp.
    unfold PlayerPhysicsManager.damagePlayer,
      PlayerPhysicsManager.healPlayer.
    now rewrite Hp.
Qed.

Lemma health_stays_in_range_witness :
  fst (PlayerPhysicsManager.damagePlayer "a" 130 Scenario.pm_a) = Some 0
  /\ fst (PlayerPhysicsManager.healPlayer "a" 5 Scenario.pm_a) = Some 100.
Proof.
  destruct (@health_stays_in_range "a" 130 Scenario.pm_a ltac:(lra))
    as [H _].
  destruct (@health_stays_in_range "a" 5 Scenario.pm_a ltac:(lra))
    as [H' _].
  assert (Hr : healthInRange Scenario.player_a)
    by (unfold healthInRange; cbn; lra).
  destruct (H Scenario.player_a eq_refl Hr)
    as [(p1 & E1 & _ & [L1 _] & U1 & _) _].
  destruct (H' Scenario.player_a eq_refl Hr)
    as [_ (p2 & E2 & _ & [_ U2] & L2 & _)].
  cbn [Scenario.player_a PlayerPhysicsManager.health] in *.
  rewrite E1, E2. split; f_equal.
  - cbn in E1. injection E1 as E1.
    unfold Rmax in E1. destruct (Rle_dec _ _) in E1; lra.
  - lra.
Defined.

(** ** Bounded buffers *)

Lemma trim_skipn {A} (n : nat) :
  forall (fuel : nat) (l : list A),
    (List.length l <= n + fuel)%nat ->
    PlayerPhysicsManager.trim n fuel l = skipn (List.length l - n) l.
Proof.
  induction fuel as [|fuel IH]; intros l Hl; simpl.
  - replace (List.length l - n)%nat with 0%nat by lia. reflexivity.
  - destruct (Nat.ltb_spec n (List.length l)) as [Hlt|Hge].
    + destruct l as [|a l]; [simpl in Hlt; lia|]. simpl tl.
      simpl in Hlt, Hl.
      rewrite IH by lia. simpl List.length.
      replace (S (List.length l) - n)%nat
        with (S (List.length l - n)) by lia.
      reflexivity.
    + replace (List.length l - n)%nat with 0%nat by lia. reflexivity.
Qed.

Lemma keepLast_skipn {A} (n : nat) (l : list A) :
  PlayerPhysicsManager.keepLast n l = skipn (List.length l - n) l.
Proof. unfold PlayerPhysicsManager.keepLast. apply trim_skipn. lia. Qed.

Lemma keepLast_length {A} (n : nat) (l : list A) :
  List.length (PlayerPhysicsManager.keepLast n l)
  = Nat.min n (List.length l).
Proof. rewrite keepLast_skipn, length_skipn. lia. Qed.

Lemma skipn_app_last {A} (k : nat) (l : list A) (a : A) :
  (k <= List.length l)%nat -> skipn k (l ++ [a]) = skipn k l ++ [a].
Proof.
  intros Hk. rewrite skipn_app.
  replace (k - List.length l)%nat with 0%nat by lia. reflexivity.
Qed.

(** X6.  The input history of a player on foot holds the inputs
    received last, in order of arrival, and never more than 64: an
    input is appended with its sequence number and arrival time, and
    when that makes 65 entries the oldest one is dropped. *)
Theorem setPlayerInput_history :
  forall (clientId : string) (input : PlayerPhysicsManager.PlayerInput)
         (now : R) (pm : PlayerPhysicsManager.t)
         (p : PlayerPhysicsManager.Player)
         (history : list PlayerPhysicsManager.HistoryEntry),
    PlayerPhysicsManager.getPlayer clientId pm = Some p ->
    PlayerPhysicsManager.vehicleId p = None ->
    JsMap.get (PlayerPhysicsManager.playerEntityId clientId)
              (PlayerPhysicsManager.inputHistory pm) = Some history ->
    (List.length history <= 64)%nat ->
    let entry :=
      {| PlayerPhysicsManager.h_seq := PlayerPhysicsManager.seq input;
         PlayerPhysicsManager.h_input := input;
         PlayerPhysicsManager.h_timestamp := now |} in
    exists history',
      JsMap.get (PlayerPhysicsManager.playerEntityId clientId)
        (PlayerPhysicsManager.inputHistory
           (PlayerPhysicsManager.setPlayerInput clientId input now pm))
      = Some history'
      /\ history'
         = (if Nat.ltb (List.length history) 64 then history
            else tl history) ++ [entry]
      /\ (List.length history' <= 64)%nat.
Proof.
  intros clientId input now pm p history Hp Hv Hh Hlen entry.
  unfold PlayerPhysicsManager.getPlayer in Hp.
  unfold PlayerPhysicsManager.setPlayerInput. rewrite Hp, Hv, Hh.
  cbn [PlayerPhysicsManager.inputHistory]. rewrite get_set_eq.
  eexists. split; [reflexivity|]. fold entry.
  unfold CONFIG.inputBufferSize.
  rewrite keepLast_skipn, length_app. cbn [List.length].
  destruct (Nat.ltb_spec (List.length history) 64) as [Hlt|Hge].
  - replace (List.length history + 1 - 64)%nat with 0%nat by lia.
    cbn [skipn]. split; [reflexivity|]. rewrite length_app. simpl. lia.
  - assert (Heq : List.length history = 64%nat) by lia.
    replace (List.length history + 1 - 64)%nat with 1%nat by lia.
    rewrite skipn_app_last by lia.
    destruct history as [|h0 rest]; [simpl in Heq; lia|].
    cbn [skipn tl]. split; [reflexivity|].
    rewrite length_app. simpl in *. lia.
Qed.

Lemma setPlayerInput_history_witness :
  exists history',
    JsMap.get "player_a"
      (PlayerPhysicsManager.inputHistory
         (PlayerPhysicsManager.setPlayerInput "a" (Scenario.idle 1 false) 7
                                              Scenario.pm_a))
    = Some history'
    /\ List.length history' = 1%nat.
Proof.
  destruct (@setPlayerInput_history "a" (Scenario.idle 1 false) 7
              Scenario.pm_a Scenario.player_a [] eq_refl eq_refl eq_refl
              ltac:(simpl; lia))
    as (h & Hg & Hh & _).
  exists h. split; [exact Hg|]. rewrite Hh. reflexivity.
Defined.

(** ** The physics world: bodies and the maps that refer to them *)

Section MoreMapFacts.
Context {K V : Type} `{EqDec K}.

Lemma has_false_notin (k : K) (m : list (K * V)) :
  JsMap.has k m = false <-> ~ In k (JsMap.keys m).
Proof.
  unfold JsMap.has, JsMap.keys.
  induction m as [|[k0 v0] r IH]; simpl; [tauto|].
  destruct (eq_dec k k0) as [->|Hne].
  - split; [discriminate|]. intros Hn. exfalso. apply Hn. now left.
  - rewrite IH. split; intros Hn; [intros [E|Hin]; [congruence|tauto]|tauto].
Qed.

Lemma set_absent (k : K) (v : V) (m : list (K * V)) :
  JsMap.has k m = false -> JsMap.set k v m = m ++ [(k, v)].
Proof.
  unfold JsMap.has.
  induction m as [|[k0 v0] r IH]; simpl; [reflexivity|].
  destruct (eq_dec k k0) as [->|Hne]; [discriminate|].
  intros Hr. f_equal. now apply IH.
Qed.

Lemma keys_set_absent (k : K) (v : V) (m : list (K * V)) :
  JsMap.has k m = false -> JsMap.keys (JsMap.set k v m) = JsMap.keys m ++ [k].
Proof.
  intros Hk. rewrite set_absent by assumption.
  unfold JsMap.keys. now rewrite map_app.
Qed.

Lemma NoDup_keys_set (k : K) (v : V) (m : list (K * V)) :
  NoDup (JsMap.keys m) -> NoDup (JsMap.keys (JsMap.set k v m)).
Proof.
  intros Hnd. destruct (JsMap.has k m) eqn:Hk.
  - now rewrite keys_set_present.
  - rewrite keys_set_absent by assumption.
    apply NoDup_app; [assumption|repeat constructor; simpl; tauto|].
    intros x Hx [<-|[]]. apply has_false_notin in Hk. contradiction.
Qed.

Lemma in_keys_delete (k k' : K) (m : list (K * V)) :
  In k' (JsMap.keys (JsMap.delete k m)) -> In k' (JsMap.keys m).
Proof.
  unfold JsMap.keys.
  induction m as [|[k0 v0] r IH]; simpl; [tauto|].
  destruct (eq_dec k k0) as [->|Hne]; simpl; [tauto|].
  intros [E|Hin]; [now left|right; now apply IH].
Qed.

Lemma NoDup_keys_delete (k : K) (m : list (K * V)) :
  NoDup (JsMap.keys m) -> NoDup (JsMap.keys (JsMap.delete k m)).
Proof.
  unfold JsMap.keys.
  induction m as [|[k0 v0] r IH]; simpl; [constructor|].
  intros Hnd. inversion Hnd as [|? ? Hnotin Hnd']; subst.
  destruct (eq_dec k k0) as [->|Hne]; simpl; [assumption|].
  constructor; [|now apply IH].
  intros Hin. apply Hnotin. eapply in_keys_delete. exact Hin.
Qed.

Lemma keys_delete_absent (k : K) (m : list (K * V)) :
  JsMap.has k m = false -> JsMap.delete k m = m.
Proof.
  unfold JsMap.has.
  induction m as [|[k0 v0] r IH]; simpl; [reflexivity|].
  destruct (eq_dec k k0) as [->|Hne]; [discriminate|].
  intros Hr. f_equal. now apply IH.
Qed.

Lemma get_some_in_keys (k : K) (v : V) (m : list (K * V)) :
  JsMap.get k m = Some v -> In k (JsMap.keys m).
Proof.
  intros Hg. apply get_in in Hg. unfold JsMap.keys.
  change k with (fst (k, v)). now apply in_map.
Qed.

Lemma get_none_notin (k : K) (m : list (K * V)) :
  JsMap.get k m = None <-> ~ In k (JsMap.keys m).
Proof.
  rewrite <- has_false_notin. unfold JsMap.has.
  destruct (JsMap.get k m); split; congruence.
Qed.

Lemma get_app_last (k : K) (v : V) (m : list (K * V)) :
  ~ In k (JsMap.keys m) -> JsMap.get k (m ++ [(k, v)]) = Some v.
Proof.
  unfold JsMap.keys.
  induction m as [|[k0 v0] r IH]; simpl; intros Hn.
  - destruct (eq_dec k k); congruence.
  - destruct (eq_dec k k0) as [->|Hne]; [tauto|]. apply IH. tauto.
Qed.

Lemma get_app_first (k k' : K) (v : V) (m : list (K * V)) :
  k <> k' -> JsMap.get k (m ++ [(k', v)]) = JsMap.get k m.
Proof.
  intros Hne. induction m as [|[k0 v0] r IH]; simpl.
  - destruct (eq_dec k k'); congruence.
  - destruct (eq_dec k k0); [reflexivity|exact IH].
Qed.
End MoreMapFacts.

Section BodyFacts.
Import PhysicsWorld.

Lemma delete_in_step {B} (id : string) (h : nat) :
  forall (bs : list (string * nat)) (rb : list (nat * B)),
    JsMap.keys rb = JsMap.values bs ->
    NoDup (JsMap.keys rb) ->
    JsMap.get id bs = Some h ->
    JsMap.keys (JsMap.delete h rb) = JsMap.values (JsMap.delete id bs).
Proof.
  unfold JsMap.keys, JsMap.values.
  induction bs as [|[k v] bs IH]; intros [|[h0 b0] rb] Heq Hnd Hg;
    simpl in *; try discriminate.
  injection Heq as Eh Heq. subst h0.
  inversion Hnd as [|? ? Hnotin Hnd']; subst.
  destruct (eq_dec id k) as [->|Hne].
  - injection Hg as ->. destruct (eq_dec h h); [assumption|congruence].
  - assert (Hin : In h (map fst rb)).
    { rewrite Heq. apply get_in in Hg.
      change h with (snd (id, h)). now apply in_map. }
    destruct (eq_dec h v) as [->|Hhv]; [contradiction|].
    simpl. f_equal. now apply IH.
Qed.

Lemma fold_removeCollider_bodies cs w :
  RAPIER.rigidBodies (fold_left (fun w c => RAPIER.removeCollider c w) cs w)
  = RAPIER.rigidBodies w
  /\ RAPIER.nextHandle
       (fold_left (fun w c => RAPIER.removeCollider c w) cs w)
     = RAPIER.nextHandle w.
Proof.
  revert w. induction cs as [|c cs IH]; intros w; simpl; [auto|].
  destruct (IH (RAPIER.removeCollider c w)) as [-> ->]. auto.
Qed.

Lemma keys_updateBody h f w :
  JsMap.keys (RAPIER.rigidBodies (RAPIER.updateBody h f w))
  = JsMap.keys (RAPIER.rigidBodies w).
Proof.
  unfold RAPIER.updateBody, JsMap.keys. simpl. rewrite map_map.
  apply map_ext. intros [h0 b0]. simpl. now destruct (eqb h0 h).
Qed.

Lemma consistent_updateBody h f pw :
  consistentBodies pw ->
  consistentBodies (withWorld (RAPIER.updateBody h f (world pw)) pw).
Proof.
  unfold consistentBodies, engineBodies, ownedBodies.
  cbn [withWorld world bodies]. rewrite keys_updateBody. auto.
Qed.

Lemma consistent_createCollider desc pw f :
  (forall w, bodies (f w) = bodies pw) ->
  (forall w, world (f w) = w) ->
  consistentBodies pw ->
  consistentBodies (f (snd (RAPIER.createCollider desc (world pw)))).
Proof.
  intros Hb Hw (He & Hk & Hn & Hf).
  unfold consistentBodies, engineBodies, ownedBodies in *.
  rewrite Hb, Hw. cbn [RAPIER.createCollider snd RAPIER.rigidBodies
                       RAPIER.nextHandle].
  repeat split; try assumption.
  eapply Forall_impl; [|exact Hf]. intros a Ha. simpl in Ha. lia.
Qed.

Lemma consistent_create id desc cdesc data pw :
  JsMap.has id (bodies pw) = false ->
  consistentBodies pw ->
  let '(b, w1) := RAPIER.createRigidBody desc (world pw) in
  let '(c, w2) := RAPIER.createCollider (cdesc b) w1 in
  consistentBodies
    {| world := w2; initialized := initialized pw;
       bodies := JsMap.set id b (bodies pw);
       colliders := JsMap.set id [c] (colliders pw);
       entityData := JsMap.set id data (entityData pw);
       terrainChunks := terrainChunks pw |}.
Proof.
  intros Hid (He & Hk & Hn & Hf).
  unfold consistentBodies, engineBodies, ownedBodies in *.
  cbn [RAPIER.createRigidBody RAPIER.createCollider world bodies
       RAPIER.rigidBodies RAPIER.nextHandle].
  rewrite set_absent by assumption.
  unfold JsMap.keys, JsMap.values in *. rewrite !map_app. simpl.
  repeat split.
  - now rewrite He.
  - apply NoDup_app; [assumption|repeat constructor; simpl; tauto|].
    intros x Hx [<-|[]]. apply has_false_notin in Hid. contradiction.
  - apply NoDup_app; [assumption|repeat constructor; simpl; tauto|].
    intros x Hx [<-|[]]. rewrite Forall_forall in Hf.
    specialize (Hf _ Hx). simpl in Hf. lia.
  - apply Forall_app. split.
    + eapply Forall_impl; [|exact Hf]. intros a Ha. simpl in Ha. lia.
    + constructor; [lia|constructor].
Qed.

Lemma consistent_createPlayerBody id position ownerId pw :
  JsMap.has id (bodies pw) = false ->
  consistentBodies pw ->
  consistentBodies (snd (createPlayerBody id position ownerId pw)).
Proof.
  intros Hid Hc. unfold createPlayerBody.
  exact (@consistent_create id _
           (fun b => {| RAPIER.parent := Some b;
                        RAPIER.collisionGroups :=
                          makeCollisionGroups GROUPS.PLAYER MASKS.PLAYER |})
           _ pw Hid Hc).
Qed.

Lemma consistent_createVehicleBody id vehicleType position rotation pw :
  JsMap.has id (bodies pw) = false ->
  consistentBodies pw ->
  consistentBodies
    (snd (createVehicleBody id vehicleType position rotation pw)).
Proof.
  intros Hid Hc. unfold createVehicleBody.
  destruct (CONFIG.vehicle vehicleType) as [cfg|]; [|exact Hc].
  exact (@consistent_create id _
           (fun b => {| RAPIER.parent := Some b;
                        RAPIER.collisionGroups :=
                          makeCollisionGroups GROUPS.VEHICLE
                                              MASKS.VEHICLE |})
           _ pw Hid Hc).
Qed.

Lemma consistent_removeEntity id pw :
  consistentBodies pw -> consistentBodies (removeEntity id pw).
Proof.
  intros (He & Hk & Hn & Hf). unfold removeEntity.
  destruct (JsMap.get id (bodies pw)) as [h|] eqn:Hg.
  - assert (Hc1 : consistentBodies
                    (withBodies (JsMap.delete id (bodies pw))
                       (withWorld (RAPIER.removeRigidBody h (world pw))
                                  pw))).
    { unfold consistentBodies, engineBodies, ownedBodies in *.
      cbn [withBodies withWorld world bodies RAPIER.removeRigidBody
           RAPIER.rigidBodies RAPIER.nextHandle].
      repeat split.
      - now apply delete_in_step.
      - now apply NoDup_keys_delete.
      - now apply NoDup_keys_delete.
      - rewrite Forall_forall in *. intros x Hx. apply Hf.
        eapply in_keys_delete. exact Hx. }
    set (pw1 := withBodies _ _) in *.
    destruct (JsMap.get id (colliders pw1)); exact Hc1.
  - assert (Hc0 : consistentBodies pw) by (repeat split; assumption).
    destruct (JsMap.get id (colliders pw)) as [cs|]; [|exact Hc0].
    unfold consistentBodies, engineBodies, ownedBodies in *.
    cbn [withEntityData withColliders withWorld world bodies].
    destruct (fold_removeCollider_bodies cs (world pw)) as [-> ->].
    repeat split; assumption.
Qed.
End BodyFacts.

Lemma consistent_init : consistentBodies PhysicsWorld.init.
Proof. repeat split; constructor. Qed.

(** X7.  The bodies map and the engine stay in step: when the engine
    holds exactly the rigid bodies that the [bodies] map refers to, each
    under one entity id, this is still so after any method of the
    physics world that writes, provided a body is created only for an
    id that has none; for [step], which throws, this is the world that
    the call leaves behind.  In particular [removeEntity] takes the
    entity's body out of the engine and out of the map together. *)
Theorem bodies_stay_consistent :
  forall (env : Env) (pw : PhysicsWorld.t),
    consistentBodies pw ->
    (forall id position ownerId,
        JsMap.has id (PhysicsWorld.bodies pw) = false ->
        consistentBodies
          (snd (PhysicsWorld.createPlayerBody id position ownerId pw)))
    /\ (forall id vehicleType position rotation,
           JsMap.has id (PhysicsWorld.bodies pw) = false ->
           consistentBodies
             (snd (PhysicsWorld.createVehicleBody id vehicleType position
                                                  rotation pw)))
    /\ (forall id, consistentBodies (PhysicsWorld.removeEntity id pw))
    /\ (forall id v, consistentBodies (PhysicsWorld.setVelocity id v pw))
    /\ (forall id p, consistentBodies (PhysicsWorld.setPosition id p pw))
    /\ (forall chunkX chunkZ heightmap resolution,
           consistentBodies
             (PhysicsWorld.createTerrainChunk chunkX chunkZ heightmap
                                              resolution pw))
    /\ (forall chunkX chunkZ,
           consistentBodies (PhysicsWorld.removeTerrainChunk chunkX chunkZ pw))
    /\ (forall id position width height depth rotation,
           consistentBodies
             (snd (PhysicsWorld.createBuildingCollider id position width
                     height depth rotation pw)))
    /\ (forall id, consistentBodies
                     (PhysicsWorld.updatePlayerGrounded env id pw))
    /\ (forall deltaTime,
           consistentBodies (leftIn (PhysicsWorld.step env deltaTime pw))).
Proof.
  intros env pw Hc.
  split; [intros; now apply consistent_createPlayerBody|].
  split; [intros; now apply consistent_createVehicleBody|].
  split; [intros; now apply consistent_removeEntity|].
  split.
  { intros id v. unfold PhysicsWorld.setVelocity.
    destruct (JsMap.get id (PhysicsWorld.bodies pw)); [|exact Hc].
    now apply consistent_updateBody. }
  split.
  { intros id p. unfold PhysicsWorld.setPosition.
    destruct (JsMap.get id (PhysicsWorld.bodies pw)); [|exact Hc].
    now apply consistent_updateBody. }
  split.
  { intros chunkX chunkZ heightmap resolution.
    unfold PhysicsWorld.createTerrainChunk.
    destruct (JsMap.has _ _); [exact Hc|].
    destruct Hc as (He & Hk & Hn & Hf).
    unfold consistentBodies, engineBodies, ownedBodies in *.
    cbn. repeat split; try assumption.
    eapply Forall_impl; [|exact Hf]. intros a Ha. simpl in Ha. lia. }
  split.
  { intros chunkX chunkZ. unfold PhysicsWorld.removeTerrainChunk.
    destruct (JsMap.get _ _); exact Hc. }
  split.
  { intros id position width height depth rotation.
    destruct Hc as (He & Hk & Hn & Hf).
    unfold consistentBodies, engineBodies, ownedBodies in *.
    cbn. repeat split; try assumption.
    eapply Forall_impl; [|exact Hf]. intros a Ha. simpl in Ha. lia. }
  split.
  { intros id. unfold PhysicsWorld.updatePlayerGrounded.
    destruct (PhysicsWorld.body pw id) as [[h b]|]; [|exact Hc].
    destruct (JsMap.get id (PhysicsWorld.entityData pw)) as [[]|];
      exact Hc. }
  intros deltaTime. unfold PhysicsWorld.step.
  destruct (negb (PhysicsWorld.initialized pw)); [exact Hc|].
  cbn [leftIn].
  destruct Hc as (He & Hk & Hn & Hf).
  unfold consistentBodies, engineBodies, ownedBodies in *.
  cbn [PhysicsWorld.withWorld PhysicsWorld.world PhysicsWorld.bodies
       RAPIER.rigidBodies RAPIER.nextHandle].
  assert (Hkeys :
            JsMap.keys
              (map (fun e => (fst e,
                              integrate env (PhysicsWorld.world pw) (fst e)
                                        (snd e)))
                   (RAPIER.rigidBodies (PhysicsWorld.world pw)))
            = JsMap.keys (RAPIER.rigidBodies (PhysicsWorld.world pw))).
  { unfold JsMap.keys. rewrite map_map. reflexivity. }
  rewrite Hkeys. repeat split; assumption.
Qed.

Lemma bodies_stay_consistent_witness :
  consistentBodies Scenario.pw_a
  /\ consistentBodies (PhysicsWorld.removeEntity "player_a" Scenario.pw_a).
Proof.
  destruct (@bodies_stay_consistent Scenario.env0 PhysicsWorld.init
              consistent_init) as (Hcreate & _).
  assert (Ha : consistentBodies Scenario.pw_a)
    by (apply Hcreate; reflexivity).
  split; [exact Ha|].
  destruct (@bodies_stay_consistent Scenario.env0 Scenario.pw_a Ha)
    as (_ & _ & Hremove & _).
  apply Hremove.
Defined.

Section EntityStateFacts.
Import PhysicsWorld.

Lemma values_injective {K V} `{EqDec K} (m : list (K * V)) k k' v :
  NoDup (JsMap.values m) ->
  JsMap.get k m = Some v -> JsMap.get k' m = Some v -> k = k'.
Proof.
  unfold JsMap.values.
  induction m as [|[k0 v0] r IH]; simpl; [discriminate|].
  intros Hnd. inversion Hnd as [|? ? Hnotin Hnd']; subst.
  destruct (eq_dec k k0) as [->|Hk]; destruct (eq_dec k' k0) as [->|Hk'];
    intros H1 H2.
  - reflexivity.
  - injection H1 as ->. exfalso. apply Hnotin. apply get_in in H2.
    change v with (snd (k', v)). now apply in_map.
  - injection H2 as ->. exfalso. apply Hnotin. apply get_in in H1.
    change v with (snd (k, v)). now apply in_map.
  - now apply IH.
Qed.

Lemma owned_below_next pw id h :
  consistentBodies pw ->
  JsMap.get id (bodies pw) = Some h ->
  (h < RAPIER.nextHandle (world pw))%nat.
Proof.
  intros (He & _ & _ & Hf) Hg. rewrite Forall_forall in Hf. apply Hf.
  rewrite He. unfold ownedBodies, JsMap.values. apply get_in in Hg.
  change h with (snd (id, h)). now apply in_map.
Qed.

Lemma next_not_in_engine pw :
  consistentBodies pw ->
  ~ In (RAPIER.nextHandle (world pw))
       (JsMap.keys (RAPIER.rigidBodies (world pw))).
Proof.
  intros (_ & _ & _ & Hf) Hin. rewrite Forall_forall in Hf.
  specialize (Hf _ Hin). simpl in Hf. lia.
Qed.
End EntityStateFacts.

(** X8.  A player body that has just been created is reported by
    [getEntityState] at the given position raised by half the player
    height, at rest, not grounded; the states of all other entities
    are as they were. *)
Theorem createPlayerBody_then_getEntityState :
  forall (id : string) (position : Vec3) (ownerId : string)
         (pw : PhysicsWorld.t),
    consistentBodies pw ->
    let pw' := snd (PhysicsWorld.createPlayerBody id position ownerId pw) in
    PhysicsWorld.getEntityState id pw'
    = Some {| PhysicsWorld.es_entityId := id;
              PhysicsWorld.es_type := "player";
              PhysicsWorld.es_position :=
                mkVec3 (vx position)
                       (vy position + CONFIG.playerHeight / 2)
                       (vz position);
              PhysicsWorld.es_rotation := quatId;
              PhysicsWorld.es_velocity := vec0;
              PhysicsWorld.es_angularVelocity := vec0;
              PhysicsWorld.es_specific :=
                PhysicsWorld.PlayerSpecific false (mkVec3 0 1 0) |}
    /\ (forall id',
           id' <> id ->
           PhysicsWorld.getEntityState id' pw'
           = PhysicsWorld.getEntityState id' pw).
Proof.
  intros id position ownerId pw Hc pw'. subst pw'.
  pose proof (next_not_in_engine Hc) as Hfresh.
  unfold PhysicsWorld.createPlayerBody, PhysicsWorld.getEntityState,
    PhysicsWorld.body.
  cbn [RAPIER.createRigidBody RAPIER.createCollider snd
       PhysicsWorld.bodies PhysicsWorld.world PhysicsWorld.entityData
       RAPIER.rigidBodies].
  split.
  - rewrite !get_set_eq. rewrite get_app_last by assumption. reflexivity.
  - intros id' Hne.
    rewrite !get_set_ne by congruence.
    destruct (JsMap.get id' (PhysicsWorld.bodies pw)) as [h'|] eqn:Hg;
      [|reflexivity].
    rewrite get_app_first; [reflexivity|].
    pose proof (owned_below_next _ Hc Hg). lia.
Qed.

Lemma createPlayerBody_then_getEntityState_witness :
  option_map PhysicsWorld.es_position
    (PhysicsWorld.getEntityState "player_a" Scenario.pw_a)
  = Some (mkVec3 0 (1 + CONFIG.playerHeight / 2) 0).
Proof.
  destruct (@createPlayerBody_then_getEntityState "player_a" (mkVec3 0 1 0)
              "a" PhysicsWorld.init consistent_init) as [H _].
  unfold Scenario.pw_a. rewrite H. reflexivity.
Defined.

Lemma eqb_neq {K} `{EqDec K} (a b : K) : a <> b -> eqb a b = false.
Proof. unfold eqb. destruct (eq_dec a b); congruence. Qed.

Section SetterFacts.
Import PhysicsWorld.

Lemma body_handle pw e h b :
  body pw e = Some (h, b) -> JsMap.get e (bodies pw) = Some h.
Proof.
  unfold body. destruct (JsMap.get e (bodies pw)) as [h0|]; [|discriminate].
  destruct (JsMap.get h0 _); [|discriminate]. congruence.
Qed.

Lemma other_handle pw e e' h h' :
  consistentBodies pw -> e' <> e ->
  JsMap.get e (bodies pw) = Some h -> JsMap.get e' (bodies pw) = Some h' ->
  h' <> h.
Proof.
  intros (He & _ & Hn & _) Hne Hg Hg' ->. apply Hne.
  unfold engineBodies, ownedBodies in *. rewrite He in Hn.
  exact (values_injective _ _ _ Hn Hg' Hg).
Qed.

Lemma getEntityState_setVelocity pw e v e' :
  consistentBodies pw ->
  getEntityState e' (setVelocity e v pw)
  = if eqb e' e then option_map (withVelocity v) (getEntityState e' pw)
    else getEntityState e' pw.
Proof.
  intros Hc. unfold getEntityState.
  rewrite body_setVelocity, entityData_setVelocity.
  destruct (body pw e') as [[h' b']|] eqn:Hb;
    [|now destruct (eqb e' e)].
  cbn [option_map fst snd]. pose proof (body_handle _ _ Hb) as Hh.
  destruct (eq_dec e' e) as [->|Hne].
  - rewrite Hh, !eqb_refl.
    now destruct (JsMap.get e (entityData pw)).
  - rewrite (eqb_neq Hne).
    destruct (JsMap.get e (bodies pw)) as [h|] eqn:Hg.
    + rewrite eqb_neq; [reflexivity|].
      intros E. injection E as E.
      exact (other_handle Hc Hne Hg Hh E).
    + rewrite eqb_neq; [reflexivity|discriminate].
Qed.

Lemma getEntityState_setPosition pw e p e' :
  consistentBodies pw ->
  getEntityState e' (setPosition e p pw)
  = if eqb e' e then option_map (withPosition p) (getEntityState e' pw)
    else getEntityState e' pw.
Proof.
  intros Hc. unfold getEntityState.
  rewrite body_setPosition, entityData_setPosition.
  destruct (body pw e') as [[h' b']|] eqn:Hb;
    [|now destruct (eqb e' e)].
  cbn [option_map fst snd]. pose proof (body_handle _ _ Hb) as Hh.
  destruct (eq_dec e' e) as [->|Hne].
  - rewrite Hh, !eqb_refl.
    now destruct (JsMap.get e (entityData pw)).
  - rewrite (eqb_neq Hne).
    destruct (JsMap.get e (bodies pw)) as [h|] eqn:Hg.
    + rewrite eqb_neq; [reflexivity|].
      intros E. injection E as E.
      exact (other_handle Hc Hne Hg Hh E).
    + rewrite eqb_neq; [reflexivity|discriminate].
Qed.
End SetterFacts.

(** X9.  [setVelocity] and [setPosition] change the velocity, or the
    position, that [getEntityState] reports for the entity they are
    called for, and nothing else of any entity's state; for an id
    without a body they do nothing. *)
Theorem setters_change_one_entity :
  forall (pw : PhysicsWorld.t) (id : string) (v p : Vec3),
    consistentBodies pw ->
    (forall s,
        PhysicsWorld.getEntityState id pw = Some s ->
        PhysicsWorld.getEntityState id (PhysicsWorld.setVelocity id v pw)
        = Some (withVelocity v s)
        /\ PhysicsWorld.getEntityState id (PhysicsWorld.setPosition id p pw)
           = Some (withPosition p s))
    /\ (forall id',
           id' <> id ->
           PhysicsWorld.getEntityState id' (PhysicsWorld.setVelocity id v pw)
           = PhysicsWorld.getEntityState id' pw
           /\ PhysicsWorld.getEntityState id'
                (PhysicsWorld.setPosition id p pw)
              = PhysicsWorld.getEntityState id' pw)
    /\ (JsMap.get id (PhysicsWorld.bodies pw) = None ->
        PhysicsWorld.setVelocity id v pw = pw
        /\ PhysicsWorld.setPosition id p pw = pw).
Proof.
  intros pw id v p Hc. split; [|split].
  - intros s Hs.
    rewrite getEntityState_setVelocity, getEntityState_setPosition
      by assumption.
    rewrite eqb_refl, Hs. split; reflexivity.
  - intros id' Hne.
    rewrite getEntityState_setVelocity, getEntityState_setPosition
      by assumption.
    rewrite (eqb_neq Hne). split; reflexivity.
  - intros Hn. unfold PhysicsWorld.setVelocity, PhysicsWorld.setPosition.
    rewrite Hn. split; reflexivity.
Qed.

Lemma setters_change_one_entity_witness :
  option_map PhysicsWorld.es_velocity
    (PhysicsWorld.getEntityState "player_a"
       (PhysicsWorld.setVelocity "player_a" (mkVec3 1 2 3) Scenario.pw_a))
  = Some (mkVec3 1 2 3).
Proof.
  assert (Ha : consistentBodies Scenario.pw_a).
  { apply consistent_createPlayerBody; [reflexivity|apply consistent_init]. }
  destruct (@setters_change_one_entity Scenario.pw_a "player_a"
              (mkVec3 1 2 3) vec0 Ha) as (H & _).
  destruct (PhysicsWorld.getEntityState "player_a" Scenario.pw_a)
    as [s|] eqn:Hs; [|discriminate Hs].
  destruct (H s eq_refl) as [-> _]. reflexivity.
Defined.

Lemma toInt32_small (z : Z) :
  (- 2 ^ 31 <= z < 2 ^ 31)%Z -> PhysicsWorld.toInt32 z = z.
Proof.
  intros Hz. unfold PhysicsWorld.toInt32.
  change (2 ^ 31)%Z with 2147483648%Z in *.
  change (2 ^ 32)%Z with 4294967296%Z.
  rewrite Z.mod_small by lia. lia.
Qed.

(** X10.  [makeCollisionGroups] packs the membership into the upper
    and the filter into the lower 16 bits: both are read back
    unchanged, for a membership below 2^15 and a filter below 2^16,
    where the 32-bit shift of the source does not overflow. *)
Theorem makeCollisionGroups_round_trip :
  forall membership filter : Z,
    (0 <= membership < 2 ^ 15)%Z ->
    (0 <= filter < 2 ^ 16)%Z ->
    let g := PhysicsWorld.makeCollisionGroups membership filter in
    Z.shiftr g 16 = membership
    /\ Z.land g 65535 = filter
    /\ (0 <= g < 2 ^ 31)%Z.
Proof.
  intros membership filter Hm Hf g. subst g.
  change (2 ^ 15)%Z with 32768%Z in Hm.
  change (2 ^ 16)%Z with 65536%Z in Hf.
  change (2 ^ 31)%Z with 2147483648%Z.
  assert (Hg : (0 <= Z.lor (Z.shiftl membership 16) filter
                < 2147483648)%Z).
  { assert (Hd : Z.land (Z.shiftl membership 16) filter = 0%Z).
    { apply Z.bits_inj'. intros n Hn. rewrite Z.land_spec, Z.bits_0.
      destruct (Z.ltb_spec n 16) as [Hlt|Hge].
      - rewrite Z.shiftl_spec_low by lia. reflexivity.
      - replace (Z.testbit filter n) with false;
          [apply andb_false_r|].
        symmetry. apply Z.bits_above_log2; [lia|].
        destruct (Z.eq_dec filter 0) as [->|Hnz]; [simpl; lia|].
        apply Z.lt_le_trans with 16%Z; [|lia].
        apply Z.log2_lt_pow2; [lia|].
        change (2 ^ 16)%Z with 65536%Z. lia. }
    rewrite <- Z.lxor_lor by exact Hd.
    rewrite <- Z.add_nocarry_lxor by exact Hd.
    rewrite Z.shiftl_mul_pow2 by lia.
    change (2 ^ 16)%Z with 65536%Z. lia. }
  unfold PhysicsWorld.makeCollisionGroups.
  rewrite (@toInt32_small membership)
    by (change (2 ^ 31)%Z with 2147483648%Z; lia).
  rewrite (@toInt32_small filter)
    by (change (2 ^ 31)%Z with 2147483648%Z; lia).
  rewrite (@toInt32_small (Z.shiftl membership 16))
    by (rewrite Z.shiftl_mul_pow2 by lia;
        change (2 ^ 16)%Z with 65536%Z;
        change (2 ^ 31)%Z with 2147483648%Z; lia).
  rewrite (@toInt32_small (Z.lor (Z.shiftl membership 16) filter))
    by (change (2 ^ 31)%Z with 2147483648%Z; lia).
  assert (Hlow : Z.shiftr filter 16 = 0%Z).
  { rewrite Z.shiftr_div_pow2 by lia. apply Z.div_small.
    change (2 ^ 16)%Z with 65536%Z. lia. }
  assert (Hdisj : Z.land (Z.shiftl membership 16) filter = 0%Z).
  { apply Z.bits_inj'. intros n Hn. rewrite Z.land_spec, Z.bits_0.
    destruct (Z.ltb_spec n 16) as [Hlt|Hge].
    - rewrite Z.shiftl_spec_low by lia. reflexivity.
    - replace (Z.testbit filter n) with false;
        [apply andb_false_r|].
      symmetry. apply Z.bits_above_log2; [lia|].
      destruct (Z.eq_dec filter 0) as [->|Hnz]; [simpl; lia|].
      apply Z.lt_le_trans with 16%Z; [|lia].
      apply Z.log2_lt_pow2; [lia|].
      change (2 ^ 16)%Z with 65536%Z. lia. }
  split; [|split].
  - rewrite Z.shiftr_lor, Z.shiftr_shiftl_l by lia.
    rewrite Hlow, Z.sub_diag, Z.shiftl_0_r. apply Z.lor_0_r.
  - change 65535%Z with (Z.ones 16).
    rewrite Z.land_lor_distr_l, !Z.land_ones by lia.
    rewrite Z.shiftl_mul_pow2 by lia.
    rewrite Z.mod_mul by (change (2 ^ 16)%Z with 65536%Z; lia).
    rewrite Z.mod_small by (change (2 ^ 16)%Z with 65536%Z; lia).
    reflexivity.
  - rewrite <- Z.lxor_lor by exact Hdisj.
    rewrite <- Z.add_nocarry_lxor by exact Hdisj.
    rewrite Z.shiftl_mul_pow2 by lia.
    change (2 ^ 16)%Z with 65536%Z. lia.
Qed.

Lemma makeCollisionGroups_round_trip_witness :
  Z.shiftr (PhysicsWorld.makeCollisionGroups PhysicsWorld.GROUPS.PLAYER
                                             PhysicsWorld.MASKS.PLAYER) 16
  = PhysicsWorld.GROUPS.PLAYER.
Proof.
  apply (@makeCollisionGroups_round_trip PhysicsWorld.GROUPS.PLAYER
           PhysicsWorld.MASKS.PLAYER);
    unfold PhysicsWorld.GROUPS.PLAYER, PhysicsWorld.MASKS.PLAYER; lia.
Defined.

(** ** Chunk streaming *)

Section SetFacts.
Context {K : Type} `{EqDec K}.

Lemma set_has_in (k : K) (s : list K) : JsSet.has k s = true <-> In k s.
Proof.
  induction s as [|k0 r IH]; simpl; [split; [discriminate|tauto]|].
  destruct (eq_dec k k0) as [->|Hne].
  - split; auto.
  - rewrite IH. split; [auto|]. intros [E|Hin]; [congruence|assumption].
Qed.

Lemma set_has_false (k : K) (s : list K) :
  JsSet.has k s = false <-> ~ In k s.
Proof.
  rewrite <- set_has_in. destruct (JsSet.has k s); split; congruence.
Qed.

Lemma in_set_add (k k' : K) (s : list K) :
  In k (JsSet.add k' s) <-> k = k' \/ In k s.
Proof.
  unfold JsSet.add. destruct (JsSet.has k' s) eqn:Hh.
  - apply set_has_in in Hh. split; [auto|]. intros [->|Hin]; assumption.
  - rewrite in_app_iff. simpl. split.
    + intros [Hin|[->|[]]]; auto.
    + intros [->|Hin]; auto.
Qed.

Lemma NoDup_set_add (k : K) (s : list K) :
  NoDup s -> NoDup (JsSet.add k s).
Proof.
  intros Hnd. unfold JsSet.add. destruct (JsSet.has k s) eqn:Hh;
    [assumption|].
  apply set_has_false in Hh.
  apply NoDup_app; [assumption|repeat constructor; simpl; tauto|].
  intros x Hx [<-|[]]. contradiction.
Qed.

Lemma in_fold_add (k : K) (l s : list K) :
  In k (fold_left (fun s key => JsSet.add key s) l s) <-> In k l \/ In k s.
Proof.
  revert s. induction l as [|a l IH]; intros s; simpl; [tauto|].
  rewrite IH, in_set_add. split; intros [Ha|Hb]; auto.
  - destruct Hb as [->|Hb]; auto.
  - destruct Ha as [->|Ha]; auto.
Qed.

Lemma NoDup_fold_add (l s : list K) :
  NoDup s -> NoDup (fold_left (fun s key => JsSet.add key s) l s).
Proof.
  revert s. induction l as [|a l IH]; intros s Hs; simpl; [assumption|].
  apply IH. now apply NoDup_set_add.
Qed.

Lemma fold_add_fresh (l s : list K) :
  NoDup (s ++ l) ->
  fold_left (fun s key => JsSet.add key s) l s = s ++ l.
Proof.
  revert s. induction l as [|a l IH]; intros s Hnd; simpl.
  - now rewrite app_nil_r.
  - assert (Ha : JsSet.has a s = false).
    { apply set_has_false. intros Hin.
      apply NoDup_remove_2 in Hnd. apply Hnd.
      apply in_or_app. now left. }
    unfold JsSet.add at 2. rewrite Ha.
    rewrite IH; rewrite <- app_assoc; [reflexivity|exact Hnd].
Qed.
End SetFacts.

Lemma NoDup_map_injective {A B} (f : A -> B) (l : list A) :
  (forall a b, f a = f b -> a = b) -> NoDup l -> NoDup (map f l).
Proof.
  intros Hinj. induction 1 as [|a l Hnotin Hnd IH]; simpl; constructor.
  - intros Hin. apply in_map_iff in Hin. destruct Hin as (b & E & Hb).
    apply Hinj in E. subst b. contradiction.
  - exact IH.
Qed.

Lemma in_zrange (lo hi i : Z) : In i (zrange lo hi) <-> (lo <= i <= hi)%Z.
Proof.
  unfold zrange. rewrite in_map_iff. split.
  - intros (n & <- & Hn). apply in_seq in Hn. lia.
  - intros Hi. exists (Z.to_nat (i - lo)). split; [lia|].
    apply in_seq. lia.
Qed.

Lemma NoDup_zrange (lo hi : Z) : NoDup (zrange lo hi).
Proof.
  unfold zrange. apply NoDup_map_injective; [|apply seq_NoDup].
  intros a b Hab. lia.
Qed.

Lemma in_neighbourhood (radius : Z) (centre key : TerrainPhysicsManager.Key) :
  In key (TerrainPhysicsManager.neighbourhood radius centre)
  <-> (chebyshev key centre <= radius)%Z.
Proof.
  unfold TerrainPhysicsManager.neighbourhood, chebyshev.
  rewrite in_flat_map. destruct key as [x z], centre as [cx cz]. simpl.
  split.
  - intros (dx & Hdx & Hin). apply in_map_iff in Hin.
    destruct Hin as (dz & E & Hdz). injection E as <- <-.
    apply in_zrange in Hdx, Hdz. lia.
  - intros Hd. exists (x - cx)%Z. split; [apply in_zrange; lia|].
    apply in_map_iff. exists (z - cz)%Z.
    split; [f_equal; lia|apply in_zrange; lia].
Qed.

Lemma NoDup_grid (cx cz : Z) (zs : list Z) :
  NoDup zs ->
  forall xs,
    NoDup xs ->
    NoDup (flat_map (fun dx => map (fun dz => ((cx + dx)%Z, (cz + dz)%Z)) zs)
                    xs).
Proof.
  intros Hzs. induction 1 as [|dx xs Hnotin Hnd IH]; simpl; [constructor|].
  apply NoDup_app.
  - apply NoDup_map_injective; [|assumption].
    intros a b Hab. injection Hab. lia.
  - exact IH.
  - intros k Hk Hk'. apply in_map_iff in Hk. destruct Hk as (dz & <- & _).
    apply in_flat_map in Hk'. destruct Hk' as (dx' & Hdx' & Hin).
    apply in_map_iff in Hin. destruct Hin as (dz' & E & _).
    injection E as E1 E2.
    assert (dx' = dx) by lia. subst dx'. contradiction.
Qed.

Lemma NoDup_neighbourhood (radius : Z) (centre : TerrainPhysicsManager.Key) :
  NoDup (TerrainPhysicsManager.neighbourhood radius centre).
Proof.
  unfold TerrainPhysicsManager.neighbourhood.
  apply NoDup_grid; apply NoDup_zrange.
Qed.

Section UnionFacts.
Context {P K : Type} `{EqDec K}.
Variable nb : P -> list K.

Lemma in_fold_union (key : K) :
  forall (ps : list P) (acc : list K),
    In key
       (fold_left
          (fun required p =>
             fold_left (fun s k => JsSet.add k s) (nb p) required)
          ps acc)
    <-> In key acc \/ exists p, In p ps /\ In key (nb p).
Proof.
  induction ps as [|p ps IH]; intros acc.
  - split; [auto|]. intros [Hin|(p & [] & _)]. exact Hin.
  - change (In key
              (fold_left
                 (fun required p =>
                    fold_left (fun s k => JsSet.add k s) (nb p) required)
                 ps (fold_left (fun s k => JsSet.add k s) (nb p) acc))
            <-> In key acc \/ exists q, In q (p :: ps) /\ In key (nb q)).
    rewrite IH, in_fold_add. split.
    + intros [[Hn|Hacc]|(q & Hq & Hd)].
      * right. exists p. split; [left; reflexivity|exact Hn].
      * left. exact Hacc.
      * right. exists q. split; [right; exact Hq|exact Hd].
    + intros [Hacc|(q & [<-|Hq] & Hd)].
      * left. right. exact Hacc.
      * left. left. exact Hd.
      * right. exists q. split; assumption.
Qed.

Lemma NoDup_fold_union :
  forall (ps : list P) (acc : list K),
    NoDup acc ->
    NoDup
      (fold_left
         (fun required p =>
            fold_left (fun s k => JsSet.add k s) (nb p) required)
         ps acc).
Proof.
  induction ps as [|p ps IH]; intros acc Hacc; [exact Hacc|].
  change (NoDup
            (fold_left
               (fun required p =>
                  fold_left (fun s k => JsSet.add k s) (nb p) required)
               ps (fold_left (fun s k => JsSet.add k s) (nb p) acc))).
  apply IH. now apply NoDup_fold_add.
Qed.
End UnionFacts.

Lemma required_has_iff (ps : list TerrainPhysicsManager.PlayerPosition)
      (key : TerrainPhysicsManager.Key) :
  JsSet.has key (TerrainPhysicsManager.requiredChunks ps) = true
  <-> exists p,
        In p ps
        /\ (chebyshev key
              (TerrainPhysicsManager.centreChunk
                 (TerrainPhysicsManager.pp_x p)
                 (TerrainPhysicsManager.pp_z p))
            <= 3)%Z.
Proof.
  unfold TerrainPhysicsManager.requiredChunks.
  rewrite set_has_in, in_fold_union. split.
  - intros [[]|(p & Hp & Hin)]. exists p. split; [exact Hp|].
    apply in_neighbourhood in Hin. exact Hin.
  - intros (p & Hp & Hd). right. exists p. split; [exact Hp|].
    apply in_neighbourhood. exact Hd.
Qed.

(** X11.  The required set is the union of the neighbourhoods of the
    tracked positions: a chunk is required exactly when it lies within
    Chebyshev distance 3 of the chunk some tracked position falls in.
    The set holds no chunk twice, and one position requires 49 chunks. *)
Theorem requiredChunks_is_union :
  forall (ps : list TerrainPhysicsManager.PlayerPosition)
         (key : TerrainPhysicsManager.Key),
    (JsSet.has key (TerrainPhysicsManager.requiredChunks ps) = true
     <-> exists p,
           In p ps
           /\ (chebyshev key
                 (TerrainPhysicsManager.centreChunk
                    (TerrainPhysicsManager.pp_x p)
                    (TerrainPhysicsManager.pp_z p))
               <= 3)%Z)
    /\ NoDup (TerrainPhysicsManager.requiredChunks ps)
    /\ (forall p,
           List.length (TerrainPhysicsManager.requiredChunks [p]) = 49%nat).
Proof.
  intros ps key. split; [apply required_has_iff|].
  unfold TerrainPhysicsManager.requiredChunks. split.
  - apply NoDup_fold_union. constructor.
  - intros p.
    change (List.length
              (fold_left (fun s k => JsSet.add k s)
                 (TerrainPhysicsManager.neighbourhood
                    CONFIG.serverChunkRadius
                    (TerrainPhysicsManager.centreChunk
                       (TerrainPhysicsManager.pp_x p)
                       (TerrainPhysicsManager.pp_z p))) [])
            = 49%nat).
    generalize (TerrainPhysicsManager.centreChunk
                  (TerrainPhysicsManager.pp_x p)
                  (TerrainPhysicsManager.pp_z p)) as c.
    intros c.
    rewrite (@fold_add_fresh _ _
               (TerrainPhysicsManager.neighbourhood
                  CONFIG.serverChunkRadius c) [])
      by apply NoDup_neighbourhood.
    destruct c as [cx cz]. reflexivity.
Qed.

(** X12.  A position lies in the square of the chunk that
    [Math.floor(x / chunkSize)] assigns to it, also for negative
    coordinates; moving by whole chunks moves the chunk by as many; and
    the chunk a tracked position falls in is always required. *)
Theorem centreChunk_contains_position :
  forall x z : R,
    let c := TerrainPhysicsManager.centreChunk x z in
    (IZR (fst c) * CONFIG.chunkSize <= x
     < (IZR (fst c) + 1) * CONFIG.chunkSize)
    /\ (IZR (snd c) * CONFIG.chunkSize <= z
        < (IZR (snd c) + 1) * CONFIG.chunkSize)
    /\ (forall k : Z,
           TerrainPhysicsManager.centreChunk (x + IZR k * CONFIG.chunkSize) z
           = ((fst c + k)%Z, snd c))
    /\ (forall ps p,
           In p ps ->
           TerrainPhysicsManager.pp_x p = x ->
           TerrainPhysicsManager.pp_z p = z ->
           JsSet.has c (TerrainPhysicsManager.requiredChunks ps) = true).
Proof.
  intros x z c. subst c. unfold TerrainPhysicsManager.centreChunk.
  cbn [fst snd]. unfold CONFIG.chunkSize.
  pose proof (Zfloor_bound (x / 200)) as Hx.
  pose proof (Zfloor_bound (z / 200)) as Hz.
  split; [|split; [|split]].
  - assert (E : x = x / 200 * 200) by field. lra.
  - assert (E : z = z / 200 * 200) by field. lra.
  - intros k. f_equal.
    replace ((x + IZR k * 200) / 200) with (x / 200 + IZR k) by field.
    apply Zfloor_addz.
  - intros ps p Hp Ex Ez.
    apply required_has_iff. exists p.
    split; [exact Hp|]. rewrite Ex, Ez.
    unfold TerrainPhysicsManager.centreChunk, chebyshev, CONFIG.chunkSize.
    cbn [fst snd]. lia.
Qed.

Section KeyFacts.
Context {K V W : Type} `{EqDec K}.

Lemma has_congr (k : K) (m1 : list (K * V)) (m2 : list (K * W)) :
  JsMap.keys m1 = JsMap.keys m2 -> JsMap.has k m1 = JsMap.has k m2.
Proof.
  unfold JsMap.keys, JsMap.has. revert m2.
  induction m1 as [|[k1 v1] r1 IH]; intros [|[k2 v2] r2] E; simpl in *;
    try discriminate; [reflexivity|].
  injection E as -> E. destruct (eq_dec k k2); [reflexivity|].
  now apply IH.
Qed.

Lemma keys_delete_congr (k : K) (m1 : list (K * V)) (m2 : list (K * W)) :
  JsMap.keys m1 = JsMap.keys m2 ->
  JsMap.keys (JsMap.delete k m1) = JsMap.keys (JsMap.delete k m2).
Proof.
  unfold JsMap.keys. revert m2.
  induction m1 as [|[k1 v1] r1 IH]; intros [|[k2 v2] r2] E; simpl in *;
    try discriminate; [reflexivity|].
  injection E as -> E. destruct (eq_dec k k2); [assumption|].
  simpl. f_equal. now apply IH.
Qed.

Lemma keys_set_congr (k : K) (v : V) (w : W) (m1 : list (K * V))
      (m2 : list (K * W)) :
  JsMap.keys m1 = JsMap.keys m2 ->
  JsMap.keys (JsMap.set k v m1) = JsMap.keys (JsMap.set k w m2).
Proof.
  unfold JsMap.keys. revert m2.
  induction m1 as [|[k1 v1] r1 IH]; intros [|[k2 v2] r2] E; simpl in *;
    try discriminate; [reflexivity|].
  injection E as -> E. destruct (eq_dec k k2); simpl; f_equal;
    [assumption|now apply IH].
Qed.
End KeyFacts.

Lemma length_set {K V} `{EqDec K} (k : K) (v : V) (m : list (K * V)) :
  List.length (JsMap.set k v m)
  = if JsMap.has k m then List.length m else S (List.length m).
Proof.
  destruct (JsMap.has k m) eqn:Hk.
  - pose proof (keys_set_present k v m Hk) as E.
    apply (f_equal (@List.length K)) in E. unfold JsMap.keys in E.
    now rewrite !length_map in E.
  - rewrite set_absent by assumption. rewrite length_app. simpl. lia.
Qed.

Lemma length_delete {K V} `{EqDec K} (k : K) (m : list (K * V)) :
  List.length (JsMap.delete k m)
  = if JsMap.has k m then pred (List.length m) else List.length m.
Proof.
  unfold JsMap.has.
  induction m as [|[k0 v0] r IH]; simpl; [reflexivity|].
  destruct (eq_dec k k0); [reflexivity|]. simpl. rewrite IH.
  destruct (JsMap.get k r) eqn:E; [|reflexivity].
  destruct r; [discriminate|reflexivity].
Qed.

Section TerrainFacts.
Variable env : Env.
Import TerrainPhysicsManager.

Lemma fold_buildings_frame chunkX chunkZ :
  forall (l : list (nat * BuildingDesc)) (acc : list string * PhysicsWorld.t),
    let r :=
      fold_left
        (fun (acc : list string * PhysicsWorld.t)
             (ib : nat * BuildingDesc) =>
           let (ids, p) := acc in
           let (i, building) := ib in
           let entityId := buildingId chunkX chunkZ i in
           (ids ++ [entityId],
            snd (PhysicsWorld.createBuildingCollider entityId
                   (mkVec3 (bd_x building) (bd_y building)
                           (bd_z building))
                   (bd_width building) (bd_height building)
                   (bd_depth building) (bd_rotation building) p)))
        l acc in
    PhysicsWorld.terrainChunks (snd r) = PhysicsWorld.terrainChunks (snd acc)
    /\ PhysicsWorld.bodies (snd r) = PhysicsWorld.bodies (snd acc).
Proof.
  induction l as [|[i b] l IH]; intros [ids p]; cbn [fold_left];
    [cbv zeta; auto|].
  cbv zeta in *. destruct (IH (ids ++ [buildingId chunkX chunkZ i],
                              snd (PhysicsWorld.createBuildingCollider
                                     (buildingId chunkX chunkZ i)
                                     (mkVec3 (bd_x b) (bd_y b) (bd_z b))
                                     (bd_width b) (bd_height b)
                                     (bd_depth b) (bd_rotation b) p)))
    as [-> ->].
  split; reflexivity.
Qed.

Lemma terrainChunks_removeEntity id pw :
  PhysicsWorld.terrainChunks (PhysicsWorld.removeEntity id pw)
  = PhysicsWorld.terrainChunks pw.
Proof.
  unfold PhysicsWorld.removeEntity.
  destruct (JsMap.get id (PhysicsWorld.bodies pw));
    cbv zeta;
    match goal with
    | |- context [JsMap.get id (PhysicsWorld.colliders ?p)] =>
        destruct (JsMap.get id (PhysicsWorld.colliders p))
    end; reflexivity.
Qed.

Lemma terrainChunks_fold_removeEntity ids pw :
  PhysicsWorld.terrainChunks
    (fold_left (fun p entityId => PhysicsWorld.removeEntity entityId p)
               ids pw)
  = PhysicsWorld.terrainChunks pw.
Proof.
  revert pw. induction ids as [|id ids IH]; intros pw; cbn [fold_left];
    [reflexivity|].
  rewrite IH. apply terrainChunks_removeEntity.
Qed.

Lemma terrainChunks_removeTerrainChunk chunkX chunkZ pw :
  PhysicsWorld.terrainChunks
    (PhysicsWorld.removeTerrainChunk chunkX chunkZ pw)
  = JsMap.delete (chunkX, chunkZ) (PhysicsWorld.terrainChunks pw).
Proof.
  unfold PhysicsWorld.removeTerrainChunk.
  destruct (JsMap.get (chunkX, chunkZ) (PhysicsWorld.terrainChunks pw))
    eqn:E; cbn [PhysicsWorld.terrainChunks]; [reflexivity|].
  symmetry. apply keys_delete_absent. unfold JsMap.has. now rewrite E.
Qed.

Lemma loadChunk_spec chunkX chunkZ tm pw :
  let st' := loadChunk env chunkX chunkZ (tm, pw) in
  loadQueue (fst st') = loadQueue tm
  /\ unloadQueue (fst st') = unloadQueue tm
  /\ (JsMap.has (chunkX, chunkZ) (loadedChunks tm) = true -> st' = (tm, pw))
  /\ (JsMap.has (chunkX, chunkZ) (loadedChunks tm) = false ->
      exists cd ids,
        loadedChunks (fst st')
        = JsMap.set (chunkX, chunkZ) cd (loadedChunks tm)
        /\ buildings (fst st')
           = JsMap.set (chunkX, chunkZ) ids (buildings tm)
        /\ PhysicsWorld.terrainChunks (snd st')
           = PhysicsWorld.terrainChunks
               (PhysicsWorld.createTerrainChunk chunkX chunkZ
                  (generateChunkHeightmap env chunkX chunkZ
                                          CONFIG.terrainResolution)
                  CONFIG.terrainResolution pw)).
Proof.
  cbv zeta. unfold loadChunk.
  destruct (JsMap.has (chunkX, chunkZ) (loadedChunks tm)) eqn:Hk.
  - repeat split; try reflexivity. discriminate.
  - match goal with
    | |- context [fold_left ?f ?l ?a] =>
        pose proof (fold_buildings_frame chunkX chunkZ l a) as Hf;
        destruct (fold_left f l a) as [ids pw2]
    end.
    cbv zeta in Hf. cbn [fst snd] in *. destruct Hf as [Ht _].
    split; [reflexivity|]. split; [reflexivity|].
    split; [discriminate|]. intros _.
    eexists _, ids. split; [reflexivity|]. split; [reflexivity|].
    exact Ht.
Qed.

Lemma unloadChunk_spec chunkX chunkZ tm pw :
  let st' := unloadChunk chunkX chunkZ (tm, pw) in
  loadQueue (fst st') = loadQueue tm
  /\ unloadQueue (fst st') = unloadQueue tm
  /\ (JsMap.has (chunkX, chunkZ) (loadedChunks tm) = false -> st' = (tm, pw))
  /\ (JsMap.has (chunkX, chunkZ) (loadedChunks tm) = true ->
      loadedChunks (fst st') = JsMap.delete (chunkX, chunkZ) (loadedChunks tm)
      /\ buildings (fst st')
         = JsMap.delete (chunkX, chunkZ) (buildings tm)
      /\ PhysicsWorld.terrainChunks (snd st')
         = JsMap.delete (chunkX, chunkZ) (PhysicsWorld.terrainChunks pw)).
Proof.
  cbv zeta. unfold unloadChunk, JsMap.has.
  destruct (JsMap.get (chunkX, chunkZ) (loadedChunks tm)) eqn:Hk.
  - cbn [fst snd loadQueue unloadQueue loadedChunks buildings].
    split; [reflexivity|]. split; [reflexivity|].
    split; [discriminate|]. intros _.
    split; [reflexivity|]. split; [reflexivity|].
    rewrite terrainChunks_fold_removeEntity.
    apply terrainChunks_removeTerrainChunk.
  - split; [reflexivity|]. split; [reflexivity|].
    split; [reflexivity|discriminate].
Qed.
End TerrainFacts.

Section StreamingFacts.
Variable env : Env.
Import TerrainPhysicsManager.

(** What holds of the loaded chunks before a drain holds after it, when
    loading and unloading one chunk keep it and it does not depend on
    the queues. *)
Lemma load_loop_preserves (P : State -> Prop) :
  (forall x z st, P st -> P (loadChunk env x z st)) ->
  (forall q st, P st -> P (withLoadQueue q (fst st), snd st)) ->
  forall queue n st, P st -> P (processLoadQueue_loop env queue n st).
Proof.
  intros Hload Hq. induction queue as [|key rest IH]; intros n st HP;
    cbn [processLoadQueue_loop]; [now apply Hq|].
  destruct (Nat.ltb n maxChunksPerFrame); [|now apply Hq].
  destruct (JsMap.has key (loadedChunks (fst st))).
  - now apply IH.
  - apply IH. now apply Hload.
Qed.

Lemma unload_loop_preserves (P : State -> Prop) :
  (forall x z st, P st -> P (unloadChunk x z st)) ->
  (forall q st, P st -> P (withUnloadQueue q (fst st), snd st)) ->
  forall queue n st, P st -> P (processUnloadQueue_loop queue n st).
Proof.
  intros Hunload Hq. induction queue as [|key rest IH]; intros n st HP;
    cbn [processUnloadQueue_loop]; [now apply Hq|].
  destruct (Nat.ltb n maxChunksPerFrame); [|now apply Hq].
  destruct (JsMap.has key (loadedChunks (fst st))).
  - apply IH. now apply Hunload.
  - now apply IH.
Qed.

Lemma updateForRequired_preserves (P : State -> Prop) :
  (forall x z st, P st -> P (loadChunk env x z st)) ->
  (forall x z st, P st -> P (unloadChunk x z st)) ->
  (forall q st, P st -> P (withLoadQueue q (fst st), snd st)) ->
  (forall q st, P st -> P (withUnloadQueue q (fst st), snd st)) ->
  forall required st, P st -> P (updateForRequired env required st).
Proof.
  intros Hload Hunload Hlq Huq required [tm pw] HP.
  unfold updateForRequired, processUnloadQueue, processLoadQueue.
  apply unload_loop_preserves; [assumption..|].
  apply load_loop_preserves; [assumption..|].
  match goal with
  | |- P (withUnloadQueue ?uq (withLoadQueue ?lq tm), pw) =>
      exact (Huq uq (withLoadQueue lq tm, pw) (Hlq lq (tm, pw) HP))
  end.
Qed.

Lemma inStep_loadChunk x z st :
  terrainInStep st -> terrainInStep (loadChunk env x z st).
Proof.
  destruct st as [tm pw]. intros [H1 H2].
  destruct (loadChunk_spec env x z tm pw) as (_ & _ & Hsame & Hnew).
  cbv zeta in *. cbn [fst snd] in *.
  destruct (JsMap.has (x, z) (loadedChunks tm)) eqn:Hk.
  - rewrite Hsame by reflexivity. now split.
  - destruct (Hnew eq_refl) as (cd & ids & El & Eb & Et).
    unfold terrainInStep. rewrite El, Eb, Et.
    unfold PhysicsWorld.createTerrainChunk.
    rewrite <- (has_congr (x, z) _ _ H1), Hk.
    cbn [PhysicsWorld.terrainChunks RAPIER.createCollider].
    split; apply keys_set_congr; assumption.
Qed.

Lemma inStep_unloadChunk x z st :
  terrainInStep st -> terrainInStep (unloadChunk x z st).
Proof.
  destruct st as [tm pw]. intros [H1 H2].
  destruct (unloadChunk_spec x z tm pw) as (_ & _ & Hsame & Hgone).
  cbv zeta in *. cbn [fst snd] in *.
  destruct (JsMap.has (x, z) (loadedChunks tm)) eqn:Hk.
  - destruct (Hgone eq_refl) as (El & Eb & Et).
    unfold terrainInStep. rewrite El, Eb, Et.
    split; apply keys_delete_congr; assumption.
  - rewrite Hsame by reflexivity. now split.
Qed.

Lemma inStep_fold_load (keys : list Key) st :
  terrainInStep st ->
  terrainInStep (fold_left (fun s key => loadChunk env (fst key) (snd key) s)
                           keys st).
Proof.
  revert st. induction keys as [|k keys IH]; intros st H;
    cbn [fold_left]; [assumption|].
  apply IH. now apply inStep_loadChunk.
Qed.

Lemma inStep_fold_unload (keys : list Key) st :
  terrainInStep st ->
  terrainInStep (fold_left (fun s key => unloadChunk (fst key) (snd key) s)
                           keys st).
Proof.
  revert st. induction keys as [|k keys IH]; intros st H;
    cbn [fold_left]; [assumption|].
  apply IH. now apply inStep_unloadChunk.
Qed.
End StreamingFacts.

(** X13.  The terrain manager and the physics world hold the same
    chunks: when the keys of [loadedChunks] are the keys of the world's
    [terrainChunks], and [buildings] has an entry for exactly the loaded
    chunks, this is still so after [loadChunk], [unloadChunk],
    [updateForPlayers], [forceLoadAroundPosition] and [clear]. *)
Theorem terrain_stays_in_step :
  forall (env : Env) (st : TerrainPhysicsManager.State),
    terrainInStep st ->
    (forall x z, terrainInStep (TerrainPhysicsManager.loadChunk env x z st))
    /\ (forall x z, terrainInStep (TerrainPhysicsManager.unloadChunk x z st))
    /\ (forall ps,
           terrainInStep (TerrainPhysicsManager.updateForPlayers env ps st))
    /\ (forall x z radius,
           terrainInStep
             (TerrainPhysicsManager.forceLoadAroundPosition env x z radius
                                                            st))
    /\ terrainInStep (TerrainPhysicsManager.clear st).
Proof.
  intros env st H.
  split; [intros; now apply inStep_loadChunk|].
  split; [intros; now apply inStep_unloadChunk|].
  split.
  { intros ps. unfold TerrainPhysicsManager.updateForPlayers.
    apply updateForRequired_preserves; try assumption.
    - intros; now apply inStep_loadChunk.
    - intros; now apply inStep_unloadChunk.
    - intros q [tm pw] Hs. exact Hs.
    - intros q [tm pw] Hs. exact Hs. }
  split.
  { intros x z radius.
    unfold TerrainPhysicsManager.forceLoadAroundPosition.
    now apply inStep_fold_load. }
  unfold TerrainPhysicsManager.clear.
  pose proof (@inStep_fold_unload
                (JsMap.keys (TerrainPhysicsManager.loadedChunks (fst st)))
                st H) as Hc.
  destruct (fold_left _ _ st) as [tm pw]. exact Hc.
Qed.

Lemma terrain_stays_in_step_witness :
  terrainInStep
    (TerrainPhysicsManager.updateForPlayers Scenario.env0 [atOrigin]
       (TerrainPhysicsManager.init, PhysicsWorld.init)).
Proof.
  apply terrain_stays_in_step. split; reflexivity.
Defined.

Section BudgetFacts.
Variable env : Env.
Import TerrainPhysicsManager.

Lemma load_loop_count :
  forall queue n st,
    (n <= maxChunksPerFrame)%nat ->
    let st' := processLoadQueue_loop env queue n st in
    (List.length (loadedChunks (fst st))
     <= List.length (loadedChunks (fst st'))
     <= List.length (loadedChunks (fst st)) + (maxChunksPerFrame - n))%nat.
Proof.
  induction queue as [|key rest IH]; intros n st Hn; cbv zeta;
    cbn [processLoadQueue_loop].
  - cbn [fst withLoadQueue loadedChunks]. lia.
  - destruct (Nat.ltb_spec n maxChunksPerFrame) as [Hlt|Hge];
      [|cbn [fst withLoadQueue loadedChunks]; lia].
    destruct (JsMap.has key (loadedChunks (fst st))) eqn:Hk.
    + specialize (IH n st Hn). cbv zeta in IH. lia.
    + destruct st as [tm pw]. cbn [fst] in Hk.
      destruct (loadChunk_spec env (fst key) (snd key) tm pw)
        as (_ & _ & _ & Hnew).
      cbv zeta in Hnew.
      replace (fst key, snd key) with key in Hnew by now destruct key.
      destruct (Hnew Hk) as (cd & ids & El & _).
      assert (Hlen : List.length
                       (loadedChunks
                          (fst (loadChunk env (fst key) (snd key) (tm, pw))))
                     = S (List.length (loadedChunks tm))).
      { rewrite El, length_set, Hk. reflexivity. }
      specialize (IH (S n) (loadChunk env (fst key) (snd key) (tm, pw))
                     ltac:(lia)).
      cbv zeta in IH. cbn [fst]. lia.
Qed.

Lemma unload_loop_count :
  forall queue n st,
    (n <= maxChunksPerFrame)%nat ->
    let st' := processUnloadQueue_loop queue n st in
    (List.length (loadedChunks (fst st'))
     <= List.length (loadedChunks (fst st))
     <= List.length (loadedChunks (fst st')) + (maxChunksPerFrame - n))%nat.
Proof.
  induction queue as [|key rest IH]; intros n st Hn; cbv zeta;
    cbn [processUnloadQueue_loop].
  - cbn [fst withUnloadQueue loadedChunks]. lia.
  - destruct (Nat.ltb_spec n maxChunksPerFrame) as [Hlt|Hge];
      [|cbn [fst withUnloadQueue loadedChunks]; lia].
    destruct (JsMap.has key (loadedChunks (fst st))) eqn:Hk.
    + destruct st as [tm pw]. cbn [fst] in Hk.
      destruct (unloadChunk_spec (fst key) (snd key) tm pw)
        as (_ & _ & _ & Hgone).
      cbv zeta in Hgone.
      replace (fst key, snd key) with key in Hgone by now destruct key.
      destruct (Hgone Hk) as (El & _).
      assert (Hlen : S (List.length
                          (loadedChunks
                             (fst (unloadChunk (fst key) (snd key) (tm, pw)))))
                     = List.length (loadedChunks tm)).
      { rewrite El, length_delete, Hk.
        destruct (loadedChunks tm); [discriminate Hk|reflexivity]. }
      specialize (IH (S n) (unloadChunk (fst key) (snd key) (tm, pw))
                     ltac:(lia)).
      cbv zeta in IH. cbn [fst]. lia.
    + specialize (IH n st Hn). cbv zeta in IH. lia.
Qed.
Lemma keys_delete {K V} `{EqDec K} (k : K) (m : list (K * V)) :
  JsMap.keys (JsMap.delete k m) = JsSet.delete k (JsMap.keys m).
Proof.
  unfold JsMap.keys. induction m as [|[k0 v0] r IH]; simpl; [reflexivity|].
  destruct (eq_dec k k0); simpl; [reflexivity|]. now rewrite IH.
Qed.

(** The chunks that one drain of the load queue loads: no more than
    the budget leaves, none of them loaded before, appended to the
    loaded chunks in the order of the queue. *)
Lemma load_loop_keys :
  forall queue n st,
    (n <= maxChunksPerFrame)%nat ->
    exists loads,
      (List.length loads <= maxChunksPerFrame - n)%nat
      /\ (forall k, In k loads ->
                    In k queue /\ ~ In k (JsMap.keys (loadedChunks (fst st))))
      /\ JsMap.keys
           (loadedChunks (fst (processLoadQueue_loop env queue n st)))
         = JsMap.keys (loadedChunks (fst st)) ++ loads.
Proof.
  induction queue as [|key rest IH]; intros n st Hn;
    cbn [processLoadQueue_loop].
  - exists []. cbn [fst withLoadQueue loadedChunks List.length].
    split; [lia|]. split; [intros k []|]. now rewrite app_nil_r.
  - destruct (Nat.ltb_spec n maxChunksPerFrame) as [Hlt|Hge].
    2:{ exists []. cbn [fst withLoadQueue loadedChunks List.length].
        split; [lia|]. split; [intros k []|]. now rewrite app_nil_r. }
    destruct (JsMap.has key (loadedChunks (fst st))) eqn:Hk.
    + destruct (IH n st Hn) as (loads & Hlen & Hin & Hkeys).
      exists loads. split; [exact Hlen|]. split; [|exact Hkeys].
      intros k Hk'. destruct (Hin k Hk') as [H1 H2].
      split; [now right|exact H2].
    + destruct st as [tm pw]. cbn [fst] in Hk |- *.
      destruct (loadChunk_spec env (fst key) (snd key) tm pw)
        as (_ & _ & _ & Hnew).
      cbv zeta in Hnew.
      replace (fst key, snd key) with key in Hnew by now destruct key.
      destruct (Hnew Hk) as (cd & ids & El & _).
      destruct (IH (S n) (loadChunk env (fst key) (snd key) (tm, pw))
                   ltac:(lia)) as (loads & Hlen & Hin & Hkeys).
      rewrite El, keys_set_absent in Hkeys by exact Hk.
      exists (key :: loads). cbn [List.length]. split; [lia|]. split.
      * intros k [<-|Hk'].
        -- split; [now left|]. now apply has_false_notin.
        -- destruct (Hin k Hk') as [H1 H2]. split; [now right|].
           intros Hb. apply H2. rewrite El, keys_set_absent by exact Hk.
           apply in_or_app. now left.
      * rewrite Hkeys, <- app_assoc. reflexivity.
Qed.

(** The chunks that one drain of the unload queue unloads: no more
    than the budget leaves, each of them loaded before, taken out of
    the loaded chunks one after the other. *)
Lemma unload_loop_keys :
  forall queue n st,
    (n <= maxChunksPerFrame)%nat ->
    exists unloads,
      (List.length unloads <= maxChunksPerFrame - n)%nat
      /\ (forall k, In k unloads ->
                    In k queue /\ In k (JsMap.keys (loadedChunks (fst st))))
      /\ JsMap.keys
           (loadedChunks (fst (processUnloadQueue_loop queue n st)))
         = fold_left (fun s k => JsSet.delete k s) unloads
                     (JsMap.keys (loadedChunks (fst st))).
Proof.
  induction queue as [|key rest IH]; intros n st Hn;
    cbn [processUnloadQueue_loop].
  - exists []. cbn [fst withUnloadQueue loadedChunks List.length fold_left].
    split; [lia|]. split; [intros k []|reflexivity].
  - destruct (Nat.ltb_spec n maxChunksPerFrame) as [Hlt|Hge].
    2:{ exists [].
        cbn [fst withUnloadQueue loadedChunks List.length fold_left].
        split; [lia|]. split; [intros k []|reflexivity]. }
    destruct (JsMap.has key (loadedChunks (fst st))) eqn:Hk.
    + destruct st as [tm pw]. cbn [fst] in Hk |- *.
      destruct (unloadChunk_spec (fst key) (snd key) tm pw)
        as (_ & _ & _ & Hgone).
      cbv zeta in Hgone.
      replace (fst key, snd key) with key in Hgone by now destruct key.
      destruct (Hgone Hk) as (El & _).
      destruct (IH (S n) (unloadChunk (fst key) (snd key) (tm, pw))
                   ltac:(lia)) as (unloads & Hlen & Hin & Hkeys).
      rewrite El, keys_delete in Hkeys.
      exists (key :: unloads). cbn [List.length fold_left].
      split; [lia|]. split; [|exact Hkeys].
      intros k [<-|Hk'].
      * split; [now left|].
        destruct (JsMap.get key (loadedChunks tm)) as [v|] eqn:Hg.
        -- exact (get_some_in_keys _ _ Hg).
        -- unfold JsMap.has in Hk. rewrite Hg in Hk. discriminate.
      * destruct (Hin k Hk') as [H1 H2]. split; [now right|].
        rewrite El in H2. eapply in_keys_delete. exact H2.
    + destruct (IH n st Hn) as (unloads & Hlen & Hin & Hkeys).
      exists unloads. split; [exact Hlen|]. split; [|exact Hkeys].
      intros k Hk'. destruct (Hin k Hk') as [H1 H2].
      split; [now right|exact H2].
Qed.
End BudgetFacts.

(** X14.  One call of [updateForPlayers] loads at most two chunks and
    unloads at most two chunks, however many are queued: the chunks
    loaded after the call are those loaded before it, followed by at
    most two that were not loaded, less at most two that were.  So the
    number of loaded chunks changes by at most two in either
    direction. *)
Theorem updateForPlayers_budget :
  forall (env : Env) (ps : list TerrainPhysicsManager.PlayerPosition)
         (st : TerrainPhysicsManager.State),
    let before := TerrainPhysicsManager.loadedChunks (fst st) in
    let after :=
      TerrainPhysicsManager.loadedChunks
        (fst (TerrainPhysicsManager.updateForPlayers env ps st)) in
    let n := List.length before in
    let n' := List.length after in
    (exists loads unloads : list TerrainPhysicsManager.Key,
        (List.length loads <= 2)%nat
        /\ (List.length unloads <= 2)%nat
        /\ (forall k, In k loads -> ~ In k (JsMap.keys before))
        /\ (forall k, In k unloads -> In k (JsMap.keys before ++ loads))
        /\ JsMap.keys after
           = fold_left (fun s k => JsSet.delete k s) unloads
                       (JsMap.keys before ++ loads))
    /\ (n' <= n + 2 /\ n <= n' + 2)%nat.
Proof.
  intros env ps [tm pw]. cbv zeta.
  unfold TerrainPhysicsManager.updateForPlayers,
    TerrainPhysicsManager.updateForRequired,
    TerrainPhysicsManager.processUnloadQueue,
    TerrainPhysicsManager.processLoadQueue.
  match goal with
  | |- context [TerrainPhysicsManager.processLoadQueue_loop env ?q 0 ?s] =>
      pose proof (@load_loop_count env q 0%nat s ltac:(unfold TerrainPhysicsManager.maxChunksPerFrame; lia)) as Hl;
      pose proof (@load_loop_keys env q 0%nat s ltac:(unfold TerrainPhysicsManager.maxChunksPerFrame; lia)) as Hlk;
      set (mid := TerrainPhysicsManager.processLoadQueue_loop env q 0 s) in *
  end.
  match goal with
  | |- context [TerrainPhysicsManager.processUnloadQueue_loop ?q 0 mid] =>
      pose proof (@unload_loop_count q 0%nat mid ltac:(unfold TerrainPhysicsManager.maxChunksPerFrame; lia)) as Hu;
      pose proof (@unload_loop_keys q 0%nat mid ltac:(unfold TerrainPhysicsManager.maxChunksPerFrame; lia)) as Huk
  end.
  cbv zeta in Hl, Hu.
  unfold TerrainPhysicsManager.maxChunksPerFrame in Hl, Hu, Hlk, Huk.
  cbn [fst TerrainPhysicsManager.withUnloadQueue
       TerrainPhysicsManager.withLoadQueue
       TerrainPhysicsManager.loadedChunks] in Hl, Hlk.
  destruct Hlk as (loads & Hll & Hlin & Hlkeys).
  destruct Huk as (unloads & Hul & Huin & Hukeys).
  cbn [fst]. split; [|lia].
  exists loads, unloads.
  split; [lia|]. split; [lia|].
  split; [intros k Hk; exact (proj2 (Hlin k Hk))|].
  split.
  - intros k Hk. rewrite <- Hlkeys. exact (proj2 (Huin k Hk)).
  - rewrite Hukeys, Hlkeys. reflexivity.
Qed.

Section ForceLoadFacts.
Variable env : Env.
Import TerrainPhysicsManager.

Lemma has_set {K V} `{EqDec K} (k k' : K) (v : V) (m : list (K * V)) :
  JsMap.has k' (JsMap.set k v m) = eqb k' k || JsMap.has k' m.
Proof.
  unfold JsMap.has. destruct (eq_dec k' k) as [->|Hne].
  - now rewrite get_set_eq, eqb_refl.
  - rewrite get_set_ne by congruence. now rewrite (eqb_neq Hne).
Qed.

Lemma loadChunk_has x z st key :
  JsMap.has key (loadedChunks (fst (loadChunk env x z st)))
  = eqb key (x, z) || JsMap.has key (loadedChunks (fst st)).
Proof.
  destruct st as [tm pw].
  destruct (loadChunk_spec env x z tm pw) as (_ & _ & Hsame & Hnew).
  cbv zeta in *. cbn [fst] in *.
  destruct (JsMap.has (x, z) (loadedChunks tm)) eqn:Hk.
  - rewrite Hsame by reflexivity. cbn [fst]. unfold Key in *.
    destruct (eq_dec key (x, z)) as [->|Hne].
    + now rewrite Hk, eqb_refl.
    + now rewrite (eqb_neq Hne).
  - destruct (Hnew eq_refl) as (cd & ids & El & _).
    rewrite El. apply has_set.
Qed.

Lemma fold_load_has (keys : list Key) st key :
  JsMap.has key
    (loadedChunks
       (fst (fold_left (fun s k => loadChunk env (fst k) (snd k) s) keys st)))
  = JsSet.has key keys || JsMap.has key (loadedChunks (fst st)).
Proof.
  revert st. induction keys as [|k keys IH]; intros st; cbn [fold_left];
    [reflexivity|].
  rewrite IH, loadChunk_has. cbn [JsSet.has].
  replace (fst k, snd k) with k by now destruct k.
  unfold eqb. destruct (eq_dec key k).
  - now rewrite orb_true_r.
  - now destruct (JsSet.has key keys).
Qed.

Lemma fold_load_queues (keys : list Key) st :
  let st' := fold_left (fun s k => loadChunk env (fst k) (snd k) s) keys st in
  loadQueue (fst st') = loadQueue (fst st)
  /\ unloadQueue (fst st') = unloadQueue (fst st).
Proof.
  revert st. induction keys as [|k keys IH]; intros st; cbv zeta;
    cbn [fold_left]; [auto|].
  destruct (IH (loadChunk env (fst k) (snd k) st)) as [-> ->].
  destruct st as [tm pw].
  destruct (loadChunk_spec env (fst k) (snd k) tm pw) as (E1 & E2 & _).
  cbv zeta in *. auto.
Qed.
End ForceLoadFacts.

(** X15.  [forceLoadAroundPosition] loads the whole block at once,
    whatever the per-call budget of the queues: afterwards a chunk is
    loaded exactly when it was loaded before or lies within the radius
    of the chunk the position falls in, and the two queues are
    untouched.  So the terrain under a player that [spawnPlayer] has
    just placed is loaded. *)
Theorem forceLoad_loads_block :
  forall (env : Env) (x z : R) (radius : Z)
         (st : TerrainPhysicsManager.State) (key : TerrainPhysicsManager.Key),
    let st' :=
      TerrainPhysicsManager.forceLoadAroundPosition env x z radius st in
    (JsMap.has key (TerrainPhysicsManager.loadedChunks (fst st')) = true
     <-> JsMap.has key (TerrainPhysicsManager.loadedChunks (fst st)) = true
         \/ (chebyshev key (TerrainPhysicsManager.centreChunk x z)
             <= radius)%Z)
    /\ TerrainPhysicsManager.loadQueue (fst st')
       = TerrainPhysicsManager.loadQueue (fst st)
    /\ TerrainPhysicsManager.unloadQueue (fst st')
       = TerrainPhysicsManager.unloadQueue (fst st)
    /\ (forall clientId position username appearance pm,
           vx position = x -> vz position = z ->
           JsMap.has (TerrainPhysicsManager.centreChunk x z)
             (TerrainPhysicsManager.loadedChunks
                (fst (snd (snd (PlayerPhysicsManager.spawnPlayer env
                                  clientId position username appearance
                                  (pm, st))))))
           = true).
Proof.
  intros env x z radius st key st'. subst st'.
  unfold TerrainPhysicsManager.forceLoadAroundPosition.
  split; [|split; [|split]].
  - rewrite fold_load_has, orb_true_iff, set_has_in, in_neighbourhood.
    tauto.
  - apply fold_load_queues.
  - apply fold_load_queues.
  - intros clientId position username appearance pm Ex Ez.
    unfold PlayerPhysicsManager.spawnPlayer. destruct st as [tm pw].
    unfold TerrainPhysicsManager.forceLoadAroundPosition.
    rewrite Ex, Ez.
    match goal with
    | |- context [fold_left ?f ?l (tm, pw)] =>
        pose proof (fold_load_has env l (tm, pw)
                      (TerrainPhysicsManager.centreChunk x z)) as Hh;
        change (fold_left
                  (fun s k =>
                     TerrainPhysicsManager.loadChunk env (fst k) (snd k) s)
                  l (tm, pw))
          with (fold_left f l (tm, pw)) in Hh;
        destruct (fold_left f l (tm, pw)) as [tm1 pw1]
    end.
    match goal with
    | |- context [PhysicsWorld.createPlayerBody ?a ?b ?c ?d] =>
        destruct (PhysicsWorld.createPlayerBody a b c d) as [hb pw2]
    end.
    cbn [fst snd] in *. rewrite Hh. apply orb_true_iff. left.
    apply set_has_in, in_neighbourhood. unfold chebyshev. lia.
Qed.

Section QueueFacts.
Variable env : Env.
Import TerrainPhysicsManager.

Lemma enqueue_fold {K} `{EqDec K} (c : K -> bool) :
  forall (l q : list K),
    let q' :=
      fold_left
        (fun q key => if c key && negb (JsSet.has key q) then q ++ [key]
                      else q)
        l q in
    (NoDup q -> NoDup q')
    /\ (forall k, In k q' -> In k q \/ (In k l /\ c k = true)).
Proof.
  induction l as [|a l IH]; intros q; cbv zeta; cbn [fold_left];
    [auto|].
  destruct (IH (if c a && negb (JsSet.has a q) then q ++ [a] else q))
    as [Hnd Hin].
  cbv zeta in *. split.
  - intros Hq. apply Hnd.
    destruct (c a) eqn:Hc; cbn [andb]; [|assumption].
    destruct (JsSet.has a q) eqn:Ha; cbn [negb]; [assumption|].
    apply set_has_false in Ha.
    apply NoDup_app; [assumption|repeat constructor; simpl; tauto|].
    intros x Hx [<-|[]]. contradiction.
  - intros k Hk. destruct (Hin k Hk) as [Hq|[Hl Hc]].
    + destruct (c a && negb (JsSet.has a q)) eqn:Hca; [|now left].
      apply in_app_iff in Hq. destruct Hq as [Hq|[<-|[]]]; [now left|].
      right. split; [now left|].
      apply andb_true_iff in Hca. tauto.
    + right. split; [now right|assumption].
Qed.

Lemma load_loop_queues :
  forall queue n st,
    let st' := processLoadQueue_loop env queue n st in
    (exists pre, queue = pre ++ loadQueue (fst st'))
    /\ unloadQueue (fst st') = unloadQueue (fst st).
Proof.
  induction queue as [|key rest IH]; intros n st; cbv zeta;
    cbn [processLoadQueue_loop].
  - split; [now exists []|reflexivity].
  - destruct (Nat.ltb n maxChunksPerFrame);
      [|split; [now exists []|reflexivity]].
    destruct (JsMap.has key (loadedChunks (fst st))).
    + destruct (IH n st) as [(pre & E) Hu]. split; [|exact Hu].
      exists (key :: pre). cbn [app]. now f_equal.
    + destruct (IH (S n) (loadChunk env (fst key) (snd key) st))
        as [(pre & E) Hu].
      split; [exists (key :: pre); cbn [app]; now f_equal|].
      rewrite Hu. destruct st as [tm pw].
      now destruct (loadChunk_spec env (fst key) (snd key) tm pw)
        as (_ & E2 & _).
Qed.

Lemma unload_loop_queues :
  forall queue n st,
    let st' := processUnloadQueue_loop queue n st in
    (exists pre, queue = pre ++ unloadQueue (fst st'))
    /\ loadQueue (fst st') = loadQueue (fst st).
Proof.
  induction queue as [|key rest IH]; intros n st; cbv zeta;
    cbn [processUnloadQueue_loop].
  - split; [now exists []|reflexivity].
  - destruct (Nat.ltb n maxChunksPerFrame);
      [|split; [now exists []|reflexivity]].
    destruct (JsMap.has key (loadedChunks (fst st))).
    + destruct (IH (S n) (unloadChunk (fst key) (snd key) st))
        as [(pre & E) Hl].
      split; [exists (key :: pre); cbn [app]; now f_equal|].
      rewrite Hl. destruct st as [tm pw].
      now destruct (unloadChunk_spec (fst key) (snd key) tm pw)
        as (E1 & _).
    + destruct (IH n st) as [(pre & E) Hl]. split; [|exact Hl].
      exists (key :: pre). cbn [app]. now f_equal.
Qed.

Lemma NoDup_suffix {A} (pre l : list A) : NoDup (pre ++ l) -> NoDup l.
Proof.
  induction pre as [|a pre IH]; [auto|]. cbn [app]. intros Hnd.
  apply IH. now inversion Hnd.
Qed.
End QueueFacts.

(** X16.  The work queues of the terrain manager never hold a chunk
    twice, and [updateForPlayers] queues nothing without cause: a chunk
    in the load queue afterwards was queued before or is required by
    this call and was not loaded when it started; a chunk in the unload
    queue afterwards was queued before or was loaded and not required
    when the call started. *)
Theorem queues_hold_no_duplicates :
  forall (env : Env) (ps : list TerrainPhysicsManager.PlayerPosition)
         (st : TerrainPhysicsManager.State),
    NoDup (TerrainPhysicsManager.loadQueue (fst st)) ->
    NoDup (TerrainPhysicsManager.unloadQueue (fst st)) ->
    let st' := TerrainPhysicsManager.updateForPlayers env ps st in
    NoDup (TerrainPhysicsManager.loadQueue (fst st'))
    /\ NoDup (TerrainPhysicsManager.unloadQueue (fst st'))
    /\ (forall key,
           In key (TerrainPhysicsManager.loadQueue (fst st')) ->
           In key (TerrainPhysicsManager.loadQueue (fst st))
           \/ (JsSet.has key (TerrainPhysicsManager.requiredChunks ps) = true
               /\ JsMap.has key
                    (TerrainPhysicsManager.loadedChunks (fst st)) = false))
    /\ (forall key,
           In key (TerrainPhysicsManager.unloadQueue (fst st')) ->
           In key (TerrainPhysicsManager.unloadQueue (fst st))
           \/ (JsSet.has key (TerrainPhysicsManager.requiredChunks ps) = false
               /\ JsMap.has key
                    (TerrainPhysicsManager.loadedChunks (fst st)) = true)).
Proof.
  intros env ps [tm pw] Hl Hu. cbv zeta. cbn [fst] in Hl, Hu.
  unfold TerrainPhysicsManager.updateForPlayers,
    TerrainPhysicsManager.updateForRequired,
    TerrainPhysicsManager.processUnloadQueue,
    TerrainPhysicsManager.processLoadQueue.
  set (required := TerrainPhysicsManager.requiredChunks ps).
  cbn [fst TerrainPhysicsManager.withUnloadQueue
       TerrainPhysicsManager.withLoadQueue
       TerrainPhysicsManager.loadQueue TerrainPhysicsManager.unloadQueue].
  destruct (@enqueue_fold _ _
              (fun key =>
                 negb (JsMap.has key (TerrainPhysicsManager.loadedChunks tm)))
              required (TerrainPhysicsManager.loadQueue tm))
    as [Hlq Hlin].
  destruct (@enqueue_fold _ _
              (fun key => negb (JsSet.has key required))
              (JsMap.keys (TerrainPhysicsManager.loadedChunks tm))
              (TerrainPhysicsManager.unloadQueue tm))
    as [Huq Huin].
  cbv zeta in Hlq, Hlin, Huq, Huin.
  set (lq := fold_left _ required (TerrainPhysicsManager.loadQueue tm)) in *.
  set (uq := fold_left _ (JsMap.keys (TerrainPhysicsManager.loadedChunks tm))
                       (TerrainPhysicsManager.unloadQueue tm)) in *.
  set (s0 := (TerrainPhysicsManager.withUnloadQueue uq
                (TerrainPhysicsManager.withLoadQueue lq tm), pw)).
  destruct (load_loop_queues env lq 0 s0) as [(pre1 & E1) U1].
  set (mid := TerrainPhysicsManager.processLoadQueue_loop env lq 0 s0) in *.
  assert (Emid : TerrainPhysicsManager.unloadQueue (fst mid) = uq)
    by exact U1.
  rewrite Emid.
  destruct (unload_loop_queues uq 0 mid) as [(pre2 & E2) L2].
  set (fin := TerrainPhysicsManager.processUnloadQueue_loop uq 0 mid) in *.
  specialize (Hlq Hl). specialize (Huq Hu).
  assert (Hsub1 : forall k,
             In k (TerrainPhysicsManager.loadQueue (fst fin)) -> In k lq).
  { intros k Hk. rewrite L2 in Hk. rewrite E1. apply in_or_app. now right. }
  assert (Hsub2 : forall k,
             In k (TerrainPhysicsManager.unloadQueue (fst fin)) -> In k uq).
  { intros k Hk. rewrite E2. apply in_or_app. now right. }
  split; [|split; [|split]].
  - rewrite L2. rewrite E1 in Hlq. eapply NoDup_suffix. exact Hlq.
  - rewrite E2 in Huq. eapply NoDup_suffix. exact Huq.
  - intros key Hk. destruct (Hlin key (Hsub1 key Hk)) as [Hq|[Hr Hc]];
      [now left|right].
    split; [now apply set_has_in|].
    now apply negb_true_iff in Hc.
  - intros key Hk. destruct (Huin key (Hsub2 key Hk)) as [Hq|[Hr Hc]];
      [now left|right].
    split; [now apply negb_true_iff in Hc|].
    apply has_get. unfold JsMap.keys in Hr. apply in_map_iff in Hr.
    destruct Hr as ([k v] & <- & Hin). cbn [fst].
    destruct (JsMap.get k (TerrainPhysicsManager.loadedChunks tm)) eqn:E;
      [eauto|].
    exfalso. apply get_none_notin in E. apply E.
    unfold JsMap.keys. change k with (fst (k, v)). now apply in_map.
Qed.

Lemma queues_hold_no_duplicates_witness :
  NoDup (TerrainPhysicsManager.loadQueue (fst fourTicks))
  /\ NoDup (TerrainPhysicsManager.unloadQueue (fst fourTicks)).
Proof.
  assert (H0 : NoDup (TerrainPhysicsManager.loadQueue
                        (fst (TerrainPhysicsManager.init,
                              PhysicsWorld.init)))
               /\ NoDup (TerrainPhysicsManager.unloadQueue
                           (fst (TerrainPhysicsManager.init,
                                 PhysicsWorld.init))))
    by (split; constructor).
  destruct H0 as [A0 B0].
  destruct (@queues_hold_no_duplicates Scenario.env0 [atOrigin] _ A0 B0)
    as (A1 & B1 & _).
  destruct (@queues_hold_no_duplicates Scenario.env0 [atOrigin] _ A1 B1)
    as (A2 & B2 & _).
  destruct (@queues_hold_no_duplicates Scenario.env0 [] _ A2 B2)
    as (A3 & B3 & _).
  destruct (@queues_hold_no_duplicates Scenario.env0 [atOrigin] _ A3 B3)
    as (A4 & B4 & _).
  split; [exact A4|exact B4].
Defined.

Section ClearFacts.
Import TerrainPhysicsManager.

Lemma unloadChunk_loaded x z st :
  loadedChunks (fst (unloadChunk x z st))
  = JsMap.delete (x, z) (loadedChunks (fst st)).
Proof.
  destruct st as [tm pw].
  destruct (unloadChunk_spec x z tm pw) as (_ & _ & Hsame & Hgone).
  cbv zeta in *. cbn [fst] in *.
  destruct (JsMap.has (x, z) (loadedChunks tm)) eqn:Hk.
  - now destruct (Hgone eq_refl) as (-> & _).
  - rewrite Hsame by reflexivity. cbn [fst]. symmetry.
    now apply keys_delete_absent.
Qed.

Lemma fold_unload_loaded (keys : list Key) st :
  loadedChunks
    (fst (fold_left (fun s key => unloadChunk (fst key) (snd key) s) keys st))
  = fold_left (fun m key => JsMap.delete key m) keys (loadedChunks (fst st)).
Proof.
  revert st. induction keys as [|k keys IH]; intros st; cbn [fold_left];
    [reflexivity|].
  rewrite IH, unloadChunk_loaded. now destruct k.
Qed.

Lemma fold_delete_all {K V} `{EqDec K} (m : list (K * V)) :
  fold_left (fun m key => JsMap.delete key m) (JsMap.keys m) m = [].
Proof.
  induction m as [|[k v] r IH]; [reflexivity|].
  cbn [JsMap.keys map fst fold_left JsMap.delete].
  destruct (eq_dec k k); [exact IH|congruence].
Qed.

Lemma keys_nil {K V} (m : list (K * V)) : JsMap.keys m = [] -> m = [].
Proof. now destruct m. Qed.
End ClearFacts.

(** X17.  After [clear] no chunk is loaded and both queues are empty;
    when manager and physics world held the same chunks before, the
    world has no terrain chunk left and no building list remains. *)
Theorem clear_unloads_everything :
  forall st : TerrainPhysicsManager.State,
    let st' := TerrainPhysicsManager.clear st in
    TerrainPhysicsManager.loadedChunks (fst st') = []
    /\ TerrainPhysicsManager.loadQueue (fst st') = []
    /\ TerrainPhysicsManager.unloadQueue (fst st') = []
    /\ (terrainInStep st ->
        PhysicsWorld.terrainChunks (snd st') = []
        /\ TerrainPhysicsManager.buildings (fst st') = []).
Proof.
  intros st. cbv zeta.
  assert (Hloaded :
            TerrainPhysicsManager.loadedChunks
              (fst (TerrainPhysicsManager.clear st)) = []).
  { unfold TerrainPhysicsManager.clear.
    pose proof (fold_unload_loaded
                  (JsMap.keys (TerrainPhysicsManager.loadedChunks (fst st)))
                  st) as Hf.
    rewrite fold_delete_all in Hf.
    destruct (fold_left _ _ st) as [tm pw]. exact Hf. }
  split; [exact Hloaded|].
  split; [unfold TerrainPhysicsManager.clear;
          now destruct (fold_left _ _ st)|].
  split; [unfold TerrainPhysicsManager.clear;
          now destruct (fold_left _ _ st)|].
  intros Hs.
  assert (Hc : terrainInStep (TerrainPhysicsManager.clear st)).
  { unfold TerrainPhysicsManager.clear.
    pose proof (@inStep_fold_unload
                  (JsMap.keys (TerrainPhysicsManager.loadedChunks (fst st)))
                  st Hs) as Hc.
    destruct (fold_left _ _ st) as [tm pw]. exact Hc. }
  destruct Hc as [H1 H2]. rewrite Hloaded in H1, H2.
  split; apply keys_nil; [now symmetry|exact H2].
Qed.

(** ** Vehicles *)

Section NearestFacts.
Import VehiclePhysicsManager.
Variable position : Vec3.
Variable maxDistance : R.
Variable pw : PhysicsWorld.t.

Local Abbreviation step :=
  (fun (acc : option Nearest * R) (e : string * Vehicle) =>
     let (nearest, nearestDist) := acc in
     match PhysicsWorld.getEntityState (fst e) pw with
     | None => acc
     | Some state =>
         let dx := vx (PhysicsWorld.es_position state) - vx position in
         let dy := vy (PhysicsWorld.es_position state) - vy position in
         let dz := vz (PhysicsWorld.es_position state) - vz position in
         let dist := sqrt (dx * dx + dy * dy + dz * dz) in
         if Rltb dist nearestDist then
           (Some {| n_entityId := fst e;
                    n_vehicleType := vehicleType (snd e);
                    n_distance := dist;
                    n_occupied :=
                      match driverId (snd e) with
                      | Some _ => true
                      | None => false
                      end |},
            dist)
         else acc
     end).

Lemma nearest_step seen acc e :
  nearestSoFar position maxDistance pw seen acc ->
  nearestSoFar position maxDistance pw (seen ++ [e]) (step acc e).
Proof.
  destruct acc as [nearest nd], e as [id v].
  intros [Hn Hall]. cbn [fst snd] in *. cbv beta iota. cbn [fst snd].
  assert (Hkeep :
            (forall d, vehicleDistance position pw id = Some d -> nd <= d) ->
            nearestSoFar position maxDistance pw (seen ++ [(id, v)])
                         (nearest, nd)).
  { intros Hd. split; cbn [fst snd].
    - destruct nearest as [n|]; [|exact Hn].
      destruct Hn as (E & Hlt & Hdist & v0 & Hin & Hty & Hocc).
      repeat split; try assumption.
      exists v0. repeat split; try assumption.
      apply in_or_app. now left.
    - intros e' v' d Hin Hd'. apply in_app_iff in Hin.
      destruct Hin as [Hin|[[= <- <-]|[]]]; [eauto|now apply Hd]. }
  destruct (PhysicsWorld.getEntityState id pw) as [state|] eqn:Hs.
  - cbv zeta.
    set (dist := sqrt _).
    assert (Hvd : vehicleDistance position pw id = Some dist).
    { unfold vehicleDistance. now rewrite Hs. }
    destruct (Rltb dist nd) eqn:Hlt.
    + apply Rltb_spec in Hlt. split; cbn [fst snd n_distance n_entityId
                                          n_vehicleType n_occupied].
      * split; [reflexivity|]. split.
        -- destruct nearest as [n|]; [|lra].
           destruct Hn as (_ & Hnd & _). lra.
        -- split; [exact Hvd|]. exists v.
           split; [apply in_or_app; right; now left|].
           split; reflexivity.
      * intros e' v' d Hin Hd'. apply in_app_iff in Hin.
        destruct Hin as [Hin|[[= <- <-]|[]]].
        -- specialize (Hall _ _ _ Hin Hd'). lra.
        -- rewrite Hvd in Hd'. injection Hd' as <-. lra.
    + apply Hkeep. intros d Hd. rewrite Hvd in Hd. injection Hd as <-.
      apply Rnot_lt_le. intros Hlt'. apply Rltb_spec in Hlt'. congruence.
  - apply Hkeep. intros d Hd. unfold vehicleDistance in Hd.
    rewrite Hs in Hd. discriminate.
Qed.

Lemma nearest_fold l :
  forall seen acc,
    nearestSoFar position maxDistance pw seen acc ->
    nearestSoFar position maxDistance pw (seen ++ l) (fold_left step l acc).
Proof.
  induction l as [|e l IH]; intros seen acc H; cbn [fold_left].
  - now rewrite app_nil_r.
  - replace (seen ++ e :: l) with ((seen ++ [e]) ++ l)
      by (rewrite <- app_assoc; reflexivity).
    apply IH. now apply nearest_step.
Qed.

Lemma findNearestVehicle_fold vm :
  findNearestVehicle position maxDistance (vm, pw)
  = fst (fold_left step (vehicles vm) (None, maxDistance)).
Proof. reflexivity. Qed.
End NearestFacts.

(** X18.  [findNearestVehicle] returns a vehicle with a body that is
    strictly nearer than [maxDistance] and such that no vehicle is
    strictly nearer, with its type, its distance and whether it has a
    driver; it returns [null] exactly when no vehicle with a body is
    strictly nearer than [maxDistance]. *)
Theorem findNearestVehicle_is_nearest :
  forall (position : Vec3) (maxDistance : R)
         (vm : VehiclePhysicsManager.t) (pw : PhysicsWorld.t),
    match VehiclePhysicsManager.findNearestVehicle position maxDistance
            (vm, pw) with
    | Some n =>
        VehiclePhysicsManager.n_distance n < maxDistance
        /\ vehicleDistance position pw (VehiclePhysicsManager.n_entityId n)
           = Some (VehiclePhysicsManager.n_distance n)
        /\ (exists v,
               In (VehiclePhysicsManager.n_entityId n, v)
                  (VehiclePhysicsManager.vehicles vm)
               /\ VehiclePhysicsManager.n_vehicleType n
                  = VehiclePhysicsManager.vehicleType v
               /\ VehiclePhysicsManager.n_occupied n = occupiedFlag v)
        /\ (forall e v d,
               In (e, v) (VehiclePhysicsManager.vehicles vm) ->
               vehicleDistance position pw e = Some d ->
               VehiclePhysicsManager.n_distance n <= d)
    | None =>
        forall e v d,
          In (e, v) (VehiclePhysicsManager.vehicles vm) ->
          vehicleDistance position pw e = Some d ->
          maxDistance <= d
    end.
Proof.
  intros position maxDistance vm pw.
  rewrite findNearestVehicle_fold.
  pose proof (@nearest_fold position maxDistance pw
                (VehiclePhysicsManager.vehicles vm) [] (None, maxDistance))
    as H.
  cbn [app] in H.
  destruct (fold_left _ (VehiclePhysicsManager.vehicles vm)
                      (None, maxDistance)) as [nearest nd].
  destruct H as [Hn Hall].
  { split; cbn [fst snd]; [reflexivity|]. intros e v d []. }
  cbn [fst snd] in *. destruct nearest as [n|].
  - destruct Hn as (E & Hlt & Hd & Hex). rewrite E.
    repeat split; try assumption.
  - rewrite <- Hn. exact Hall.
Qed.

(** X19.  [exitVehicle] succeeds exactly when the vehicle exists and the
    caller is its driver; a refused call changes nothing.  After a
    successful call the driver slot is empty, the engine is off, the
    stored input is the idle input with the handbrake on, and anyone
    can enter.  The driver who has just entered can always leave. *)
Theorem exitVehicle_frees_vehicle :
  forall (entityId playerId : string) (st : VehiclePhysicsManager.State),
    let r := VehiclePhysicsManager.exitVehicle entityId playerId st in
    (fst r = true <->
     exists v,
       JsMap.get entityId (VehiclePhysicsManager.vehicles (fst st)) = Some v
       /\ VehiclePhysicsManager.driverId v = Some playerId)
    /\ (fst r = false -> snd r = st)
    /\ (fst r = true ->
        (exists v',
            JsMap.get entityId
              (VehiclePhysicsManager.vehicles (fst (snd r))) = Some v'
            /\ VehiclePhysicsManager.driverId v' = None
            /\ VehiclePhysicsManager.engineRunning v' = false)
        /\ JsMap.get entityId
             (VehiclePhysicsManager.vehicleInputs (fst (snd r)))
           = Some (VehiclePhysicsManager.idleInput true)
        /\ (forall other,
               fst (VehiclePhysicsManager.enterVehicle entityId other (snd r))
               = true))
    /\ (forall st1,
           VehiclePhysicsManager.enterVehicle entityId playerId st
           = (true, st1) ->
           fst (VehiclePhysicsManager.exitVehicle entityId playerId st1)
           = true).
Proof.
  intros entityId playerId [vm pw]. cbv zeta.
  unfold VehiclePhysicsManager.exitVehicle. cbn [fst].
  destruct (JsMap.get entityId (VehiclePhysicsManager.vehicles vm))
    as [v|] eqn:Hv.
  - destruct (eqb (VehiclePhysicsManager.driverId v) (Some playerId))
      eqn:Hd.
    + apply eqb_true_iff in Hd. cbn [fst snd].
      split; [split; [eauto|reflexivity]|].
      split; [discriminate|].
      split.
      * intros _. cbn [VehiclePhysicsManager.vehicles
                         VehiclePhysicsManager.vehicleInputs].
        rewrite !get_set_eq.
        split; [eexists; repeat split; reflexivity|].
        split; [reflexivity|].
        intros other. unfold VehiclePhysicsManager.enterVehicle.
        cbn [VehiclePhysicsManager.vehicles]. rewrite get_set_eq.
        reflexivity.
      * intros st1 He. unfold VehiclePhysicsManager.enterVehicle in He.
        rewrite Hv, Hd in He. discriminate.
    + cbn [fst snd].
      split.
      { split; [discriminate|]. intros (v0 & [= <-] & Hd').
        rewrite Hd' in Hd. rewrite eqb_refl in Hd. discriminate. }
      split; [reflexivity|]. split; [discriminate|].
      intros st1 He. unfold VehiclePhysicsManager.enterVehicle in He.
      rewrite Hv in He.
      destruct (VehiclePhysicsManager.driverId v); [discriminate|].
      injection He as <-.
      cbn [VehiclePhysicsManager.vehicles]. rewrite get_set_eq.
      cbn [VehiclePhysicsManager.driverId]. now rewrite eqb_refl.
  - cbn [fst snd].
    split; [split; [discriminate|intros (v0 & [=] & _)]|].
    split; [reflexivity|]. split; [discriminate|].
    intros st1 He. unfold VehiclePhysicsManager.enterVehicle in He.
    rewrite Hv in He. discriminate.
Qed.

Section DriverFacts.
Import VehiclePhysicsManager.

Lemma getVehicleByDriver_some playerId vm id :
  getVehicleByDriver playerId vm = Some id ->
  exists v, In (id, v) (vehicles vm) /\ driverId v = Some playerId.
Proof.
  unfold getVehicleByDriver.
  destruct (find _ (vehicles vm)) as [[id0 v]|] eqn:Hf; [|discriminate].
  intros [= <-]. apply find_some in Hf. destruct Hf as [Hin Hd].
  exists v. split; [exact Hin|]. now apply eqb_true_iff in Hd.
Qed.

Lemma getVehicleByDriver_none playerId vm :
  getVehicleByDriver playerId vm = None <->
  forall id v, In (id, v) (vehicles vm) -> driverId v <> Some playerId.
Proof.
  unfold getVehicleByDriver. split.
  - destruct (find _ (vehicles vm)) as [[id0 v0]|] eqn:Hf; [discriminate|].
    intros _ id v Hin Hd.
    pose proof (find_none _ _ Hf _ Hin) as Hn. cbn [snd] in Hn.
    rewrite Hd, eqb_refl in Hn. discriminate.
  - intros Hall.
    destruct (find _ (vehicles vm)) as [[id0 v0]|] eqn:Hf; [|reflexivity].
    apply find_some in Hf. destruct Hf as [Hin Hd]. cbn [snd] in Hd.
    apply eqb_true_iff in Hd. exfalso. exact (Hall _ _ Hin Hd).
Qed.
End DriverFacts.

(** X20.  A vehicle input message reaches at most one vehicle, and only
    one whose driver is the sender: [handleVehicleInput] changes nothing
    but the stored input of a vehicle that the sending client drives,
    and from a client that drives no vehicle the message is ignored. *)
Theorem handleVehicleInput_only_driver :
  forall (ws : nat) (input : VehiclePhysicsManager.VehicleInputPatch)
         (s : PhysicsServer.t),
    let s' := PhysicsServer.handleVehicleInput ws input s in
    core s'
    = (PhysicsServer.physicsWorld s, PhysicsServer.terrainManager s,
       PhysicsServer.vehicleManager s', PhysicsServer.playerManager s,
       PhysicsServer.tickNumber s, PhysicsServer.lastTickTime s)
    /\ PhysicsServer.clients s' = PhysicsServer.clients s
    /\ PhysicsServer.sent s' = PhysicsServer.sent s
    /\ VehiclePhysicsManager.vehicles (PhysicsServer.vehicleManager s')
       = VehiclePhysicsManager.vehicles (PhysicsServer.vehicleManager s)
    /\ (forall id,
           JsMap.get id
             (VehiclePhysicsManager.vehicleInputs
                (PhysicsServer.vehicleManager s'))
           <> JsMap.get id
                (VehiclePhysicsManager.vehicleInputs
                   (PhysicsServer.vehicleManager s)) ->
           exists c v,
             JsMap.get ws (PhysicsServer.clients s) = Some c
             /\ In (id, v)
                   (VehiclePhysicsManager.vehicles
                      (PhysicsServer.vehicleManager s))
             /\ VehiclePhysicsManager.driverId v
                = Some (PhysicsServer.clientId c))
    /\ (forall c,
           JsMap.get ws (PhysicsServer.clients s) = Some c ->
           (forall id v,
               In (id, v)
                  (VehiclePhysicsManager.vehicles
                     (PhysicsServer.vehicleManager s)) ->
               VehiclePhysicsManager.driverId v
               <> Some (PhysicsServer.clientId c)) ->
           s' = s).
Proof.
  intros ws input s. cbv zeta.
  unfold PhysicsServer.handleVehicleInput, PhysicsServer.drivenBy.
  destruct (JsMap.get ws (PhysicsServer.clients s)) as [c|] eqn:Hc.
  2:{ repeat split; try reflexivity; intros; congruence. }
  destruct (VehiclePhysicsManager.getVehicleByDriver
              (PhysicsServer.clientId c) (PhysicsServer.vehicleManager s))
    as [vid|] eqn:Hd.
  2:{ repeat split; try reflexivity; intros; congruence. }
  destruct (PhysicsServer.truthy vid).
  2:{ repeat split; try reflexivity; intros; congruence. }
  destruct (getVehicleByDriver_some _ _ Hd) as (v & Hin & Hv).
  unfold core. cbn.
  split; [reflexivity|]. split; [reflexivity|]. split; [reflexivity|].
  unfold VehiclePhysicsManager.setVehicleInput.
  destruct (JsMap.has vid
              (VehiclePhysicsManager.vehicles (PhysicsServer.vehicleManager s)))
    eqn:Hh.
  - cbn [VehiclePhysicsManager.vehicles VehiclePhysicsManager.vehicleInputs].
    split; [reflexivity|]. split.
    + intros id Hne. destruct (eq_dec id vid) as [->|Hid].
      * exists c, v. auto.
      * rewrite get_set_ne in Hne by congruence. congruence.
    + intros c0 [= <-] Hall. exfalso. exact (Hall _ _ Hin Hv).
  - split; [reflexivity|]. split; [intros id Hne; congruence|].
    intros c0 [= <-] Hall. exfalso. exact (Hall _ _ Hin Hv).
Qed.

(** ** Leaving: disconnect and vehicle exit *)

Section LeavingFacts.

Lemma in_set_cases {K V} `{EqDec K} (k k' : K) (v w : V)
      (m : list (K * V)) :
  NoDup (JsMap.keys m) ->
  In (k', w) (JsMap.set k v m) ->
  (k' = k /\ w = v) \/ (k' <> k /\ In (k', w) m).
Proof.
  unfold JsMap.keys.
  induction m as [|[k0 v0] r IH]; cbn [JsMap.set map fst]; intros Hnd Hin.
  - destruct Hin as [[= <- <-]|[]]. now left.
  - inversion Hnd as [|? ? Hnotin Hnd']; subst.
    destruct (eq_dec k k0) as [->|Hne].
    + destruct Hin as [[= <- <-]|Hin]; [now left|].
      right. split; [|now right].
      intros ->. apply Hnotin. change k0 with (fst (k0, w)).
      now apply in_map.
    + destruct Hin as [[= <- <-]|Hin].
      * right. split; [congruence|now left].
      * destruct (IH Hnd' Hin) as [Hl|[Hr1 Hr2]]; [now left|].
        right. split; [assumption|now right].
Qed.

Lemma bodies_removeEntity id pw :
  PhysicsWorld.bodies (PhysicsWorld.removeEntity id pw)
  = JsMap.delete id (PhysicsWorld.bodies pw).
Proof.
  unfold PhysicsWorld.removeEntity.
  destruct (JsMap.get id (PhysicsWorld.bodies pw)) eqn:Hg; cbv zeta.
  - match goal with
    | |- context [JsMap.get id (PhysicsWorld.colliders ?p)] =>
        destruct (JsMap.get id (PhysicsWorld.colliders p))
    end; reflexivity.
  - assert (E : JsMap.delete id (PhysicsWorld.bodies pw)
                = PhysicsWorld.bodies pw).
    { apply keys_delete_absent. unfold JsMap.has. now rewrite Hg. }
    rewrite E.
    destruct (JsMap.get id (PhysicsWorld.colliders pw)); reflexivity.
Qed.

Lemma bodies_setEntityDriver id d pw :
  PhysicsWorld.bodies (VehiclePhysicsManager.setEntityDriver id d pw)
  = PhysicsWorld.bodies pw.
Proof.
  unfold VehiclePhysicsManager.setEntityDriver.
  destruct (JsMap.get id (PhysicsWorld.entityData pw)) as [[]|];
    reflexivity.
Qed.

Lemma bodies_exitVehicle id p st :
  PhysicsWorld.bodies
    (snd (snd (VehiclePhysicsManager.exitVehicle id p st)))
  = PhysicsWorld.bodies (snd st).
Proof.
  destruct st as [vm pw]. unfold VehiclePhysicsManager.exitVehicle.
  destruct (JsMap.get id (VehiclePhysicsManager.vehicles vm));
    [|reflexivity].
  destruct (eqb _ _); [|reflexivity].
  cbn [snd]. apply bodies_setEntityDriver.
Qed.

Lemma world_removeEntity id pw h :
  JsMap.get id (PhysicsWorld.bodies pw) = Some h ->
  PhysicsWorld.world (PhysicsWorld.removeEntity id pw)
  = RAPIER.removeRigidBody h (PhysicsWorld.world pw).
Proof.
  intros Hg. unfold PhysicsWorld.removeEntity. rewrite Hg. cbv zeta.
  match goal with
  | |- context [JsMap.get id (PhysicsWorld.colliders ?p)] =>
      destruct (JsMap.get id (PhysicsWorld.colliders p))
  end; reflexivity.
Qed.

Lemma world_exitVehicle id p st :
  PhysicsWorld.world
    (snd (snd (VehiclePhysicsManager.exitVehicle id p st)))
  = PhysicsWorld.world (snd st).
Proof.
  destruct st as [vm pw]. unfold VehiclePhysicsManager.exitVehicle.
  destruct (JsMap.get id (VehiclePhysicsManager.vehicles vm));
    [|reflexivity].
  destruct (eqb _ _); [|reflexivity].
  cbn [snd]. unfold VehiclePhysicsManager.setEntityDriver.
  destruct (JsMap.get id (PhysicsWorld.entityData pw)) as [[]|];
    reflexivity.
Qed.

Lemma consistent_same_world pw pw' :
  PhysicsWorld.world pw' = PhysicsWorld.world pw ->
  PhysicsWorld.bodies pw' = PhysicsWorld.bodies pw ->
  consistentBodies pw -> consistentBodies pw'.
Proof.
  unfold consistentBodies, engineBodies, ownedBodies.
  intros -> ->. tauto.
Qed.

Lemma exitVehicle_no_driver id cid vm pw :
  NoDup (JsMap.keys (VehiclePhysicsManager.vehicles vm)) ->
  drivesAtMostOne cid vm ->
  VehiclePhysicsManager.getVehicleByDriver cid vm = Some id ->
  VehiclePhysicsManager.getVehicleByDriver cid
    (fst (snd (VehiclePhysicsManager.exitVehicle id cid (vm, pw))))
  = None.
Proof.
  intros Hnd Hone Hd.
  destruct (getVehicleByDriver_some _ _ Hd) as (v & Hin & Hv).
  pose proof (get_NoDup_in _ _ _ Hnd Hin) as Hg.
  unfold VehiclePhysicsManager.exitVehicle. rewrite Hg, Hv, eqb_refl.
  cbn [fst snd]. apply getVehicleByDriver_none.
  cbn [VehiclePhysicsManager.vehicles]. intros id' w Hw Hdw.
  destruct (in_set_cases _ _ _ _ _ Hnd Hw) as [[-> ->]|[Hne Hin']].
  - discriminate Hdw.
  - apply Hne. exact (Hone _ _ _ _ Hin' Hin Hdw Hv).
Qed.
End LeavingFacts.

(** X21.  After a client has disconnected, the server has forgotten
    it: the connection and the client's player are gone, the physics
    world no longer knows the player's entity, the rigid body that the
    world held for it is out of the engine together with every collider
    attached to it, no vehicle has the client as its driver, the other
    connections are as they were, and every other client with an open
    socket is told that the player's entity is destroyed, no one else.
    If the engine held exactly the bodies that the world's map refers
    to, it still does; a body that the map had lost before, as a second
    handshake leaves one, is in the engine after the disconnect as it
    was before. *)
Theorem handleDisconnect_cleans_up :
  forall (ws : nat) (s : PhysicsServer.t) (c : PhysicsServer.ClientData),
    JsMap.get ws (PhysicsServer.clients s) = Some c ->
    serverMaps s ->
    drivesAtMostOne (PhysicsServer.clientId c)
                    (PhysicsServer.vehicleManager s) ->
    let s' := fst (PhysicsServer.handleDisconnect ws s) in
    let destroyed := snd (PhysicsServer.handleDisconnect ws s) in
    let cid := PhysicsServer.clientId c in
    JsMap.get ws (PhysicsServer.clients s') = None
    /\ (forall ws', ws' <> ws ->
                    JsMap.get ws' (PhysicsServer.clients s')
                    = JsMap.get ws' (PhysicsServer.clients s))
    /\ PlayerPhysicsManager.hasPlayer cid (PhysicsServer.playerManager s')
       = false
    /\ (PlayerPhysicsManager.hasPlayer cid (PhysicsServer.playerManager s)
        = true ->
        PhysicsWorld.getEntityState
          (PlayerPhysicsManager.playerEntityId cid)
          (PhysicsServer.physicsWorld s') = None)
    /\ (PlayerPhysicsManager.hasPlayer cid (PhysicsServer.playerManager s)
        = true ->
        (forall h,
            JsMap.get (PlayerPhysicsManager.playerEntityId cid)
                      (PhysicsWorld.bodies (PhysicsServer.physicsWorld s))
            = Some h ->
            (NoDup (engineBodies (PhysicsServer.physicsWorld s)) ->
             ~ In h (engineBodies (PhysicsServer.physicsWorld s')))
            /\ (forall c,
                   In c (RAPIER.colliderSet
                           (PhysicsWorld.world
                              (PhysicsServer.physicsWorld s'))) ->
                   RAPIER.attachedTo h c = false)
            /\ (forall h',
                   h' <> h ->
                   (In h' (engineBodies (PhysicsServer.physicsWorld s'))
                    <-> In h' (engineBodies (PhysicsServer.physicsWorld s)))))
        /\ (consistentBodies (PhysicsServer.physicsWorld s) ->
            consistentBodies (PhysicsServer.physicsWorld s')))
    /\ VehiclePhysicsManager.getVehicleByDriver cid
         (PhysicsServer.vehicleManager s') = None
    /\ (forall ws' id,
           In (ws', id) destroyed <->
           id = PlayerPhysicsManager.playerEntityId cid
           /\ ws' <> ws
           /\ openIn (PhysicsServer.clients s) ws' = true).
Proof.
  intros ws s c Hc (Hcl & Hpl & Hve & Hbo & Hids) Hone. cbv zeta.
  unfold PhysicsServer.handleDisconnect. rewrite Hc.
  set (cid := PhysicsServer.clientId c) in *.
  destruct (PlayerPhysicsManager.removePlayer cid
              (PhysicsServer.playerManager s) (PhysicsServer.physicsWorld s))
    as [pm pw1] eqn:Hrm.
  assert (Hpw1 : PlayerPhysicsManager.hasPlayer cid
                   (PhysicsServer.playerManager s) = true ->
                 pw1 = PhysicsWorld.removeEntity
                         (PlayerPhysicsManager.playerEntityId cid)
                         (PhysicsServer.physicsWorld s)).
  { intros Hh. unfold PlayerPhysicsManager.removePlayer in Hrm.
    unfold PlayerPhysicsManager.hasPlayer in Hh. rewrite Hh in Hrm.
    now injection Hrm as _ <-. }
  assert (Hpm : PlayerPhysicsManager.hasPlayer cid pm = false
                /\ (PlayerPhysicsManager.hasPlayer cid
                      (PhysicsServer.playerManager s) = true ->
                    JsMap.get (PlayerPhysicsManager.playerEntityId cid)
                              (PhysicsWorld.bodies pw1) = None)).
  { unfold PlayerPhysicsManager.removePlayer in Hrm.
    unfold PlayerPhysicsManager.hasPlayer.
    destruct (JsMap.has (PlayerPhysicsManager.playerEntityId cid)
                (PlayerPhysicsManager.players
                   (PhysicsServer.playerManager s))) eqn:Hh;
      injection Hrm as <- <-.
    - split.
      + unfold JsMap.has. cbn [PlayerPhysicsManager.players].
        now rewrite get_delete_eq.
      + intros _. rewrite bodies_removeEntity. now apply get_delete_eq.
    - split; [exact Hh|discriminate]. }
  destruct Hpm as [Hpm Hbody].
  destruct (match PhysicsServer.drivenBy cid s with
            | Some vehicleId =>
                snd (VehiclePhysicsManager.exitVehicle vehicleId cid
                       (PhysicsServer.vehicleManager s, pw1))
            | None => (PhysicsServer.vehicleManager s, pw1)
            end) as [vm pw2] eqn:Hex.
  assert (Hw2 : PhysicsWorld.world pw2 = PhysicsWorld.world pw1).
  { destruct (PhysicsServer.drivenBy cid s) as [vid|].
    - pose proof (world_exitVehicle vid cid
                    (PhysicsServer.vehicleManager s, pw1)) as Hw.
      rewrite Hex in Hw. exact Hw.
    - now injection Hex as _ <-. }
  assert (Hvm : VehiclePhysicsManager.getVehicleByDriver cid vm = None
                /\ PhysicsWorld.bodies pw2 = PhysicsWorld.bodies pw1).
  { unfold PhysicsServer.drivenBy in Hex.
    destruct (VehiclePhysicsManager.getVehicleByDriver cid
                (PhysicsServer.vehicleManager s)) as [vid|] eqn:Hd.
    - destruct (getVehicleByDriver_some _ _ Hd) as (v & Hin & Hv).
      assert (Ht : PhysicsServer.truthy vid = true).
      { unfold PhysicsServer.truthy. apply negb_true_iff.
        apply eqb_neq. exact (Hids _ _ Hin). }
      rewrite Ht in Hex.
      pose proof (@exitVehicle_no_driver vid cid
                    (PhysicsServer.vehicleManager s) pw1 Hve Hone Hd) as Hn.
      pose proof (bodies_exitVehicle vid cid
                    (PhysicsServer.vehicleManager s, pw1)) as Hb.
      rewrite Hex in Hn, Hb. cbn [fst snd] in Hn, Hb. now split.
    - injection Hex as <- <-. now split. }
  destruct Hvm as [Hvm Hb2].
  cbn [fst snd PhysicsServer.withClients PhysicsServer.withManagers
       PhysicsServer.clients PhysicsServer.playerManager
       PhysicsServer.vehicleManager PhysicsServer.physicsWorld].
  split; [now apply get_delete_eq|].
  split; [intros ws' Hne; apply get_delete_ne; congruence|].
  split; [exact Hpm|].
  split.
  { intros Hh. unfold PhysicsWorld.getEntityState, PhysicsWorld.body.
    rewrite Hb2, (Hbody Hh). reflexivity. }
  split.
  { intros Hh. split.
    - intros h Hg. unfold engineBodies. rewrite Hw2, (Hpw1 Hh).
      rewrite (world_removeEntity _ _ Hg).
      cbn [RAPIER.removeRigidBody RAPIER.rigidBodies RAPIER.colliderSet].
      split; [|split].
      + intros Hnd. apply get_none_notin. now apply get_delete_eq.
      + intros c0 Hin. apply filter_In in Hin.
        now apply negb_true_iff.
      + intros h' Hne. split.
        * apply in_keys_delete.
        * intros Hin.
          destruct (JsMap.get h'
                      (RAPIER.rigidBodies
                         (PhysicsWorld.world (PhysicsServer.physicsWorld s))))
            as [b|] eqn:Hb.
          -- apply (@get_some_in_keys _ _ _ h' b).
             rewrite get_delete_ne by congruence. exact Hb.
          -- apply get_none_notin in Hb. contradiction.
    - intros Hcons. apply (@consistent_same_world pw1 pw2 Hw2 Hb2).
      rewrite (Hpw1 Hh). now apply consistent_removeEntity. }
  split; [exact Hvm|].
  intros ws' id. rewrite in_flat_map. unfold openIn. split.
  - intros ([w c'] & Hin & Hsel). cbn [fst snd] in Hsel.
    destruct (eq_dec w ws) as [->|Hne].
    + rewrite eqb_refl in Hsel. destruct Hsel.
    + rewrite (eqb_neq Hne) in Hsel. cbn [negb andb] in Hsel.
      destruct (PhysicsServer.isOpen (PhysicsServer.readyState c')) eqn:Ho;
        [|destruct Hsel].
      destruct Hsel as [[= <- <-]|[]].
      split; [reflexivity|]. split; [exact Hne|].
      assert (Hg : JsMap.get w (JsMap.delete ws (PhysicsServer.clients s))
                   = Some c').
      { apply get_NoDup_in; [now apply NoDup_keys_delete|exact Hin]. }
      rewrite get_delete_ne in Hg by congruence. now rewrite Hg.
  - intros (-> & Hne & Ho).
    destruct (JsMap.get ws' (PhysicsServer.clients s)) as [c'|] eqn:Hg;
      [|discriminate].
    exists (ws', c'). split.
    + apply get_in. rewrite get_delete_ne by congruence. exact Hg.
    + cbn [fst snd]. rewrite (eqb_neq Hne), Ho. now left.
Qed.

Lemma scenario_serverMaps r : serverMaps (Scenario.server Scenario.pm_a r).
Proof.
  unfold serverMaps. cbn.
  repeat split; try (constructor; [simpl; tauto|constructor]);
    try constructor.
  intros id v [].
Qed.

Lemma handleDisconnect_cleans_up_witness :
  JsMap.get 0%nat
    (PhysicsServer.clients
       (fst (PhysicsServer.handleDisconnect 0
               (Scenario.server Scenario.pm_a PhysicsServer.OPEN))))
  = None
  /\ PlayerPhysicsManager.hasPlayer "a"
       (PhysicsServer.playerManager
          (fst (PhysicsServer.handleDisconnect 0
                  (Scenario.server Scenario.pm_a PhysicsServer.OPEN))))
     = false
  /\ engineBodies Scenario.pw_a = [0%nat]
  /\ consistentBodies
       (PhysicsServer.physicsWorld
          (fst (PhysicsServer.handleDisconnect 0
                  (Scenario.server Scenario.pm_a PhysicsServer.OPEN))))
  /\ (In 0%nat
         (engineBodies
            (PhysicsServer.physicsWorld
               (fst (PhysicsServer.handleDisconnect 0
                       (Scenario.server Scenario.pm_a PhysicsServer.OPEN)))))
      <-> False).
Proof.
  destruct (@handleDisconnect_cleans_up 0%nat
              (Scenario.server Scenario.pm_a PhysicsServer.OPEN)
              (Scenario.client_a PhysicsServer.OPEN) eq_refl
              (scenario_serverMaps PhysicsServer.OPEN))
    as (H1 & _ & H3 & _ & H5 & _).
  - intros id1 v1 id2 v2 [].
  - destruct (H5 eq_refl) as [Hbody Hcons].
    destruct (Hbody 0%nat eq_refl) as (Hout & _).
    assert (Ha : consistentBodies Scenario.pw_a).
    { apply consistent_createPlayerBody;
        [reflexivity|exact consistent_init]. }
    split; [exact H1|]. split; [exact H3|]. split; [reflexivity|].
    split; [exact (Hcons Ha)|].
    split; [|intros []].
    apply Hout. destruct Ha as (_ & _ & Hnd & _). exact Hnd.
Defined.

(** ** The client: unacknowledged inputs *)

Section PendingFacts.
Import NetworkClient.

Lemma increasing_app_last (l : list Z) (a : Z) :
  increasing l -> Forall (fun b => (b < a)%Z) l -> increasing (l ++ [a]).
Proof.
  induction l as [|x l IH]; cbn [app increasing]; intros Hi Hl.
  - split; constructor.
  - destruct Hi as [Hx Hi]. inversion Hl as [|? ? Hxa Hl']; subst.
    split; [|now apply IH].
    apply Forall_app. split; [assumption|]. now repeat constructor.
Qed.

Lemma increasing_skipn (k : nat) (l : list Z) :
  increasing l -> increasing (skipn k l).
Proof.
  revert l. induction k as [|k IH]; intros [|a l] Hi; cbn [skipn];
    try assumption.
  apply IH. now destruct Hi.
Qed.

Lemma increasing_filter (f : PendingInput -> bool) (l : list PendingInput) :
  increasing (map pi_seq l) -> increasing (map pi_seq (filter f l)).
Proof.
  induction l as [|x l IH]; cbn [filter map increasing]; [auto|].
  intros [Hx Hi]. destruct (f x); cbn [map increasing]; [|now apply IH].
  split; [|now apply IH].
  rewrite Forall_forall in *. intros b Hb. apply Hx.
  apply in_map_iff in Hb. destruct Hb as (y & <- & Hy).
  apply filter_In in Hy. apply in_map. tauto.
Qed.

Lemma Forall_skipn {A} (P : A -> Prop) (k : nat) (l : list A) :
  Forall P l -> Forall P (skipn k l).
Proof.
  revert l. induction k as [|k IH]; intros [|a l] H; cbn [skipn];
    try assumption.
  apply IH. now inversion H.
Qed.

Lemma Forall_filter {A} (P : A -> Prop) (f : A -> bool) (l : list A) :
  Forall P l -> Forall P (filter f l).
Proof.
  rewrite !Forall_forall. intros H x Hx. apply H.
  now apply filter_In in Hx.
Qed.

Lemma length_filter_le {A} (f : A -> bool) (l : list A) :
  (List.length (filter f l) <= List.length l)%nat.
Proof.
  induction l as [|a l IH]; simpl; [lia|]. destruct (f a); simpl; lia.
Qed.

Lemma pendingOk_filter (f : PendingInput -> bool) nc ack :
  pendingOk nc ->
  pendingOk {| connected := connected nc;
               inputSequence := inputSequence nc;
               lastAckedInputSeq := ack;
               pendingInputs := filter f (pendingInputs nc);
               outbox := outbox nc |}.
Proof.
  intros (Hi & Hs & Hl). unfold pendingOk.
  cbn [pendingInputs inputSequence].
  split; [now apply increasing_filter|].
  split; [now apply Forall_filter|].
  pose proof (length_filter_le f (pendingInputs nc)). lia.
Qed.
End PendingFacts.

(** X22.  The client's buffer of unacknowledged inputs stays in order:
    [sendPlayerInput] gives the input the next sequence number and
    appends it, so that the buffer is strictly increasing in sequence
    number, holds nothing later than the last number given out and
    never more than 64 inputs; the two acknowledgment handlers keep
    that.  The input is numbered and buffered whether or not the socket
    is open; it is transmitted only if it is.  An input offered while
    disconnected is dropped and gets no number. *)
Theorem pending_inputs_stay_ordered :
  forall (socketOpen : bool) (nc : NetworkClient.t)
         (input : PlayerPhysicsManager.PlayerInput)
         (now : R) (seq : Z) (ack : option Z),
    pendingOk nc ->
    pendingOk (snd (NetworkClient.sendPlayerInput socketOpen input now nc))
    /\ pendingOk (NetworkClient.handleInputAck seq nc)
    /\ pendingOk (NetworkClient.handleWorldSnapshot ack nc)
    /\ (NetworkClient.connected nc = true ->
        let r := NetworkClient.sendPlayerInput socketOpen input now nc in
        fst r = Some (NetworkClient.inputSequence nc + 1)%Z
        /\ (socketOpen = false ->
            NetworkClient.outbox (snd r) = NetworkClient.outbox nc)
        /\ (socketOpen = true ->
            exists sent,
              NetworkClient.outbox (snd r) = NetworkClient.outbox nc ++ [sent]
              /\ PlayerPhysicsManager.seq sent
                 = (NetworkClient.inputSequence nc + 1)%Z)
        /\ NetworkClient.inputSequence (snd r)
           = (NetworkClient.inputSequence nc + 1)%Z
        /\ exists older,
             NetworkClient.pendingInputs (snd r)
             = older
               ++ [ {| NetworkClient.pi_forward :=
                         PlayerPhysicsManager.forward input;
                       NetworkClient.pi_right :=
                         PlayerPhysicsManager.right input;
                       NetworkClient.pi_jump := PlayerPhysicsManager.jump input;
                       NetworkClient.pi_run := PlayerPhysicsManager.run input;
                       NetworkClient.pi_crouch :=
                         PlayerPhysicsManager.crouch input;
                       NetworkClient.pi_yaw := PlayerPhysicsManager.yaw input;
                       NetworkClient.pi_seq :=
                         (NetworkClient.inputSequence nc + 1)%Z;
                       NetworkClient.pi_timestamp := now |} ])
    /\ (NetworkClient.connected nc = false ->
        NetworkClient.sendPlayerInput socketOpen input now nc = (None, nc)).
Proof.
  intros socketOpen nc input now seq ack Hok.
  split; [|split; [|split; [|split]]].
  - unfold NetworkClient.sendPlayerInput.
    destruct (NetworkClient.connected nc); cbn [negb snd]; [|exact Hok].
    destruct Hok as (Hi & Hs & Hl). unfold pendingOk.
    cbn [NetworkClient.pendingInputs NetworkClient.inputSequence].
    rewrite keepLast_skipn. unfold CONFIG.inputBufferSize.
    split; [|split].
    + rewrite <- skipn_map. apply increasing_skipn.
      rewrite map_app. cbn [map NetworkClient.pi_seq].
      apply increasing_app_last; [assumption|].
      rewrite Forall_forall in *. intros b Hb.
      apply in_map_iff in Hb. destruct Hb as (y & <- & Hy).
      specialize (Hs _ Hy). simpl in Hs. lia.
    + apply Forall_skipn. apply Forall_app. split.
      * eapply Forall_impl; [|exact Hs]. intros a Ha. simpl in *. lia.
      * repeat constructor. simpl. lia.
    + rewrite length_skipn, length_app. simpl. lia.
  - now apply pendingOk_filter.
  - destruct ack as [a|]; [|exact Hok].
    now apply pendingOk_filter.
  - intros Hc. cbv zeta. unfold NetworkClient.sendPlayerInput.
    rewrite Hc. cbn [negb fst snd NetworkClient.inputSequence
                      NetworkClient.pendingInputs NetworkClient.outbox].
    split; [reflexivity|].
    split; [intros ->; reflexivity|].
    split; [intros ->; eexists; split; reflexivity|].
    split; [reflexivity|].
    rewrite keepLast_skipn.
    destruct Hok as (_ & _ & Hl). unfold CONFIG.inputBufferSize.
    rewrite length_app. cbn [List.length].
    destruct (Nat.ltb_spec (List.length (NetworkClient.pendingInputs nc)) 64)
      as [Hlt|Hge].
    + replace (List.length (NetworkClient.pendingInputs nc) + 1 - 64)%nat
        with 0%nat by lia.
      cbn [skipn]. eexists. reflexivity.
    + replace (List.length (NetworkClient.pendingInputs nc) + 1 - 64)%nat
        with 1%nat by lia.
      rewrite skipn_app_last by lia. eexists. reflexivity.
  - intros Hc. unfold NetworkClient.sendPlayerInput. now rewrite Hc.
Qed.


Lemma pending_inputs_stay_ordered_witness :
  let nc := {| NetworkClient.connected := true;
               NetworkClient.inputSequence := 0;
               NetworkClient.lastAckedInputSeq := 0;
               NetworkClient.pendingInputs := [];
               NetworkClient.outbox := [] |} in
  let input := {| PlayerPhysicsManager.forward := 1;
                  PlayerPhysicsManager.right := 0;
                  PlayerPhysicsManager.jump := false;
                  PlayerPhysicsManager.run := false;
                  PlayerPhysicsManager.crouch := false;
                  PlayerPhysicsManager.yaw := 0;
                  PlayerPhysicsManager.seq := 0 |} in
  pendingOk nc
  /\ NetworkClient.connected nc = true
  /\ fst (NetworkClient.sendPlayerInput true input 0 nc) = Some 1%Z
  /\ pendingOk (snd (NetworkClient.sendPlayerInput true input 0 nc)).
Proof.
  intros nc input.
  assert (Hok : pendingOk nc).
  { unfold pendingOk, nc. cbn. repeat split; try constructor; lia. }
  destruct (@pending_inputs_stay_ordered true nc input 0 1%Z None Hok)
    as (H1 & _ & _ & H4 & _).
  split; [exact Hok|]. split; [reflexivity|].
  split; [exact (proj1 (H4 eq_refl))|exact H1].
Defined.


Lemma filter_filter {A} (f g : A -> bool) (l : list A) :
  filter f (filter g l) = filter (fun x => g x && f x) l.
Proof.
  induction l as [|a l IH]; cbn [filter]; [reflexivity|].
  destruct (g a); cbn [filter andb]; [|exact IH].
  destruct (f a); now rewrite IH.
Qed.

(** X23.  [handleInputAck] only ever moves the acknowledged sequence
    number forward: it becomes the larger of the old one and the one
    received, and exactly the pending inputs after it are kept, in
    their order.  Acknowledgments can therefore arrive twice or out of
    order with the same outcome.  [handleWorldSnapshot] takes the
    number of the snapshot as it is: one that is behind leaves the
    pending inputs alone, but sets the acknowledged number back. *)
Theorem acknowledgments_in_any_order :
  forall (nc : NetworkClient.t) (seq seq' stale : Z),
    let nc' := NetworkClient.handleInputAck seq nc in
    NetworkClient.lastAckedInputSeq nc'
    = Z.max (NetworkClient.lastAckedInputSeq nc) seq
    /\ NetworkClient.pendingInputs nc'
       = filter (fun i => Z.ltb (NetworkClient.lastAckedInputSeq nc')
                                (NetworkClient.pi_seq i))
                (NetworkClient.pendingInputs nc)
    /\ NetworkClient.handleInputAck seq nc' = nc'
    /\ NetworkClient.handleInputAck seq' (NetworkClient.handleInputAck seq nc)
       = NetworkClient.handleInputAck seq (NetworkClient.handleInputAck seq' nc)
    /\ ((stale <= NetworkClient.lastAckedInputSeq nc')%Z ->
        NetworkClient.pendingInputs
          (NetworkClient.handleWorldSnapshot (Some stale) nc')
        = NetworkClient.pendingInputs nc'
        /\ NetworkClient.lastAckedInputSeq
             (NetworkClient.handleWorldSnapshot (Some stale) nc')
           = stale).
Proof.
  intros nc seq seq' stale nc'.
  split; [reflexivity|]. split; [reflexivity|].
  split; [|split].
  - unfold nc', NetworkClient.handleInputAck.
    cbn [NetworkClient.lastAckedInputSeq NetworkClient.pendingInputs
         NetworkClient.connected NetworkClient.inputSequence
         NetworkClient.outbox].
    rewrite filter_filter.
    replace (Z.max (Z.max (NetworkClient.lastAckedInputSeq nc) seq) seq)
      with (Z.max (NetworkClient.lastAckedInputSeq nc) seq) by lia.
    f_equal. apply filter_ext. intros a.
    now rewrite Bool.andb_diag.
  - unfold NetworkClient.handleInputAck.
    cbn [NetworkClient.lastAckedInputSeq NetworkClient.pendingInputs
         NetworkClient.connected NetworkClient.inputSequence
         NetworkClient.outbox].
    rewrite !filter_filter.
    replace (Z.max (Z.max (NetworkClient.lastAckedInputSeq nc) seq') seq)
      with (Z.max (Z.max (NetworkClient.lastAckedInputSeq nc) seq) seq')
      by lia.
    f_equal. apply filter_ext. intros a.
    destruct (Z.ltb_spec (Z.max (NetworkClient.lastAckedInputSeq nc) seq)
                         (NetworkClient.pi_seq a));
      destruct (Z.ltb_spec (Z.max (NetworkClient.lastAckedInputSeq nc) seq')
                           (NetworkClient.pi_seq a));
      destruct (Z.ltb_spec
                  (Z.max (Z.max (NetworkClient.lastAckedInputSeq nc) seq) seq')
                  (NetworkClient.pi_seq a));
      cbn [andb]; try reflexivity; lia.
  - intros Hs. split; [|reflexivity].
    unfold NetworkClient.handleWorldSnapshot.
    cbn [NetworkClient.pendingInputs].
    unfold nc', NetworkClient.handleInputAck in *.
    cbn [NetworkClient.lastAckedInputSeq NetworkClient.pendingInputs] in *.
    rewrite filter_filter. apply filter_ext. intros a.
    destruct (Z.ltb_spec (Z.max (NetworkClient.lastAckedInputSeq nc) seq)
                         (NetworkClient.pi_seq a));
      destruct (Z.ltb_spec stale (NetworkClient.pi_seq a));
      cbn [andb]; try reflexivity; lia.
Qed.


(** ** The client: chunk requests *)

Section ChunkTrackingFacts.
Context {K : Type} `{EqDec K}.

Lemma in_set_delete (k k' : K) (s : list K) :
  In k' (JsSet.delete k s) -> In k' s.
Proof.
  induction s as [|a s IH]; cbn [JsSet.delete]; [tauto|].
  destruct (eq_dec k a) as [->|Hne]; cbn [In]; tauto.
Qed.

Lemma NoDup_set_delete (k : K) (s : list K) :
  NoDup s -> NoDup (JsSet.delete k s).
Proof.
  induction s as [|a s IH]; cbn [JsSet.delete]; [constructor|].
  intros Hnd. inversion Hnd as [|? ? Hn Hnd']; subst.
  destruct (eq_dec k a) as [->|Hne]; [assumption|].
  constructor; [|now apply IH].
  intros Hin. apply Hn. eapply in_set_delete. exact Hin.
Qed.

Lemma notin_set_delete (k : K) (s : list K) :
  NoDup s -> ~ In k (JsSet.delete k s).
Proof.
  induction s as [|a s IH]; cbn [JsSet.delete]; [tauto|].
  intros Hnd. inversion Hnd as [|? ? Hn Hnd']; subst.
  destruct (eq_dec k a) as [->|Hne]; [assumption|].
  cbn [In]. intros [E|Hin]; [congruence|]. now apply IH.
Qed.

Lemma in_keys_set {V} (k k' : K) (v : V) (m : list (K * V)) :
  In k' (JsMap.keys (JsMap.set k v m)) <-> k' = k \/ In k' (JsMap.keys m).
Proof.
  destruct (JsMap.has k m) eqn:Hk.
  - rewrite keys_set_present by assumption. split; [auto|].
    intros [->|Hin]; [|assumption].
    destruct (in_dec eq_dec k (JsMap.keys m)) as [Hin|Hn]; [assumption|].
    apply has_false_notin in Hn. congruence.
  - rewrite keys_set_absent by assumption. rewrite in_app_iff.
    cbn [In]. split.
    + intros [Hin|[<-|[]]]; auto.
    + intros [->|Hin]; auto.
Qed.

(** Deleting, of the keys visited, those that [keep] rejects. *)
Lemma fold_delete_unless {V} (keep : K -> bool) (ks : list K) :
  forall m : list (K * V),
    NoDup (JsMap.keys m) ->
    let m' := fold_left (fun m key => if keep key then m
                                      else JsMap.delete key m) ks m in
    NoDup (JsMap.keys m')
    /\ forall k, JsMap.get k m'
                 = if JsSet.has k ks && negb (keep k) then None
                   else JsMap.get k m.
Proof.
  induction ks as [|a ks IH]; intros m Hnd; cbn [fold_left JsSet.has].
  - split; [assumption|]. intros k. reflexivity.
  - cbv zeta.
    assert (Hnd' : NoDup (JsMap.keys (if keep a then m
                                      else JsMap.delete a m))).
    { destruct (keep a); [assumption|now apply NoDup_keys_delete]. }
    destruct (IH _ Hnd') as [H1 H2]. split; [exact H1|].
    intros k. rewrite H2.
    destruct (eq_dec k a) as [->|Hne].
    + cbn [andb]. destruct (keep a) eqn:Ha; cbn [negb].
      * now rewrite Bool.andb_false_r.
      * rewrite Bool.andb_true_r.
        destruct (JsSet.has a ks); [reflexivity|].
        now apply get_delete_eq.
    + destruct (JsSet.has k ks && negb (keep k)); [reflexivity|].
      destruct (keep a); [reflexivity|].
      apply get_delete_ne. congruence.
Qed.
End ChunkTrackingFacts.

(** X24.  The client asks for a chunk at most once: [requestChunk]
    sends nothing for a chunk that is awaited or has arrived, and no
    chunk is ever at once awaited and received.  Once
    [handleChunkData] has stored a chunk, it can be read back and is no
    longer awaited.  [clearOldChunks] keeps the stored chunks named in
    [keepKeys] and drops the others.  A request made while the socket
    is not open still marks the chunk as awaited, so that it is sent
    neither then nor by a later [requestChunk]. *)
Theorem chunk_requests_tracked :
  forall (ct : NetworkClient.Chunks) (socketOpen : bool) (x z : Z)
         (message : TerrainPhysicsManager.ClientChunkData)
         (keepKeys : list TerrainPhysicsManager.Key),
    chunksOk ct ->
    chunksOk (NetworkClient.requestChunk socketOpen x z ct)
    /\ chunksOk (NetworkClient.handleChunkData message ct)
    /\ chunksOk (NetworkClient.clearOldChunks keepKeys ct)
    /\ (forall again,
          NetworkClient.requestChunk again x z
            (NetworkClient.requestChunk socketOpen x z ct)
          = NetworkClient.requestChunk socketOpen x z ct)
    /\ (let cx := TerrainPhysicsManager.ccd_chunkX message in
        let cz := TerrainPhysicsManager.ccd_chunkZ message in
        let ct' := NetworkClient.handleChunkData message ct in
        NetworkClient.getChunkData cx cz ct' = Some message
        /\ NetworkClient.hasChunkData cx cz ct' = true
        /\ JsSet.has (cx, cz) (NetworkClient.requestedChunks ct') = false
        /\ forall again, NetworkClient.requestChunk again cx cz ct' = ct')
    /\ (forall cx cz,
          NetworkClient.getChunkData cx cz
            (NetworkClient.clearOldChunks keepKeys ct)
          = if JsSet.has (cx, cz) keepKeys
            then NetworkClient.getChunkData cx cz ct
            else None)
    /\ (JsSet.has (x, z) (NetworkClient.requestedChunks ct) = false ->
        JsMap.has (x, z) (NetworkClient.receivedChunks ct) = false ->
        let ct' := NetworkClient.requestChunk false x z ct in
        JsSet.has (x, z) (NetworkClient.requestedChunks ct') = true
        /\ forall again,
             NetworkClient.chunkRequestsSent
               (NetworkClient.requestChunk again x z ct')
             = NetworkClient.chunkRequestsSent ct).
Proof.
  intros ct socketOpen x z message keepKeys (Hreq & Hrec & Hdis).
  assert (Hdone : forall o a,
             NetworkClient.requestChunk a x z
               (NetworkClient.requestChunk o x z ct)
             = NetworkClient.requestChunk o x z ct).
  { intros o a. unfold NetworkClient.requestChunk.
    destruct (JsSet.has (x, z) (NetworkClient.requestedChunks ct)
              || JsMap.has (x, z) (NetworkClient.receivedChunks ct)) eqn:E.
    - now rewrite E.
    - cbn [NetworkClient.requestedChunks NetworkClient.receivedChunks].
      assert (Hin : JsSet.has (x, z)
                      (JsSet.add (x, z) (NetworkClient.requestedChunks ct))
                    = true).
      { apply set_has_in. apply in_set_add. now left. }
      rewrite Hin. reflexivity. }
  split; [|split; [|split; [|split; [|split; [|split]]]]].
  - unfold NetworkClient.requestChunk.
    destruct (JsSet.has (x, z) (NetworkClient.requestedChunks ct)
              || JsMap.has (x, z) (NetworkClient.receivedChunks ct)) eqn:E;
      [now repeat split|].
    apply Bool.orb_false_iff in E. destruct E as [E1 E2].
    unfold chunksOk.
    cbn [NetworkClient.requestedChunks NetworkClient.receivedChunks].
    split; [now apply NoDup_set_add|]. split; [assumption|].
    intros key Hin. apply in_set_add in Hin. destruct Hin as [->|Hin].
    + now apply has_false_notin.
    + now apply Hdis.
  - unfold chunksOk, NetworkClient.handleChunkData.
    cbn [NetworkClient.requestedChunks NetworkClient.receivedChunks].
    split; [now apply NoDup_set_delete|].
    split; [now apply NoDup_keys_set|].
    intros key Hin Hin'. apply in_keys_set in Hin'.
    destruct Hin' as [->|Hin'].
    + revert Hin. now apply notin_set_delete.
    + apply in_set_delete in Hin. exact (Hdis _ Hin Hin').
  - unfold chunksOk, NetworkClient.clearOldChunks.
    cbn [NetworkClient.requestedChunks NetworkClient.receivedChunks].
    destruct (@fold_delete_unless _ _ _
                (fun key => JsSet.has key keepKeys)
                (JsMap.keys (NetworkClient.receivedChunks ct))
                (NetworkClient.receivedChunks ct) Hrec) as [H1 H2].
    split; [assumption|]. split; [exact H1|].
    intros key Hin Hin'. apply (Hdis _ Hin).
    destruct (JsMap.get key (NetworkClient.receivedChunks ct)) eqn:Hg.
    + eapply get_some_in_keys. exact Hg.
    + exfalso. revert Hin'. apply get_none_notin. rewrite H2.
      rewrite Hg. now destruct (_ && _).
  - intros again. apply Hdone.
  - cbv zeta. unfold NetworkClient.getChunkData, NetworkClient.hasChunkData.
    unfold NetworkClient.handleChunkData at 1 2 3.
    cbn [NetworkClient.requestedChunks NetworkClient.receivedChunks].
    split; [apply get_set_eq|].
    split; [apply has_get; exists message; apply get_set_eq|].
    split.
    + apply set_has_false. now apply notin_set_delete.
    + intros again. unfold NetworkClient.requestChunk.
      assert (Hh : JsMap.has
                     (TerrainPhysicsManager.ccd_chunkX message,
                      TerrainPhysicsManager.ccd_chunkZ message)
                     (NetworkClient.receivedChunks
                        (NetworkClient.handleChunkData message ct)) = true).
      { apply has_get. exists message.
        unfold NetworkClient.handleChunkData.
        cbn [NetworkClient.receivedChunks]. apply get_set_eq. }
      rewrite Hh. now rewrite Bool.orb_true_r.
  - intros cx cz. unfold NetworkClient.getChunkData,
      NetworkClient.clearOldChunks.
    cbn [NetworkClient.receivedChunks].
    destruct (@fold_delete_unless _ _ _
                (fun key => JsSet.has key keepKeys)
                (JsMap.keys (NetworkClient.receivedChunks ct))
                (NetworkClient.receivedChunks ct) Hrec) as [_ H2].
    rewrite H2. cbv beta. unfold TerrainPhysicsManager.Key in *.
    destruct (JsSet.has (cx, cz) keepKeys) eqn:Hk; cbn [negb].
    + now rewrite Bool.andb_false_r.
    + rewrite Bool.andb_true_r.
      match goal with
      | |- (if ?c then _ else _) = _ => destruct c eqn:Hs
      end; [reflexivity|].
      apply set_has_false in Hs. now apply get_none_notin.
  - intros E1 E2. cbv zeta. split.
    + unfold NetworkClient.requestChunk. rewrite E1, E2. cbn [orb].
      cbn [NetworkClient.requestedChunks].
      apply set_has_in. apply in_set_add. now left.
    + intros again. rewrite Hdone.
      unfold NetworkClient.requestChunk. rewrite E1, E2. reflexivity.
Qed.

Lemma chunk_requests_tracked_witness :
  let ct := {| NetworkClient.requestedChunks := [];
               NetworkClient.receivedChunks := [];
               NetworkClient.chunkRequestsSent := [] |} in
  chunksOk ct
  /\ chunksOk (NetworkClient.requestChunk true 2 3 ct)
  /\ NetworkClient.chunkRequestsSent
       (NetworkClient.requestChunk true 2 3
          (NetworkClient.requestChunk true 2 3 ct))
     = [(2, 3)%Z].
Proof.
  intros ct.
  assert (Hok : chunksOk ct).
  { unfold chunksOk, ct. cbn. repeat split; try constructor. tauto. }
  destruct (@chunk_requests_tracked ct true 2 3
              {| TerrainPhysicsManager.ccd_chunkX := 2;
                 TerrainPhysicsManager.ccd_chunkZ := 3;
                 TerrainPhysicsManager.ccd_heightmap := [];
                 TerrainPhysicsManager.ccd_buildings := [];
                 TerrainPhysicsManager.ccd_biome := "wasteland" |} [] Hok)
    as (H1 & _ & _ & H4 & _).
  split; [exact Hok|]. split; [exact H1|].
  rewrite H4. reflexivity.
Defined.


(** ** The client: interpolation of rotations *)

Section SlerpFacts.

(** The squared norm of a combination of two unit quaternions. *)
Lemma normSq_combination (a b : Quat) (s0 s1 : R) :
  quatNormSq a = 1 -> quatNormSq b = 1 ->
  quatNormSq (mkQuat (s0 * qx a + s1 * qx b) (s0 * qy a + s1 * qy b)
                     (s0 * qz a + s1 * qz b) (s0 * qw a + s1 * qw b))
  = s0 * s0 + 2 * s0 * s1 * quatDot a b + s1 * s1.
Proof.
  unfold quatNormSq, quatDot. cbn [qx qy qz qw]. intros Ha Hb.
  replace ((s0 * qx a + s1 * qx b) * (s0 * qx a + s1 * qx b)
           + (s0 * qy a + s1 * qy b) * (s0 * qy a + s1 * qy b)
           + (s0 * qz a + s1 * qz b) * (s0 * qz a + s1 * qz b)
           + (s0 * qw a + s1 * qw b) * (s0 * qw a + s1 * qw b))
    with (s0 * s0 * (qx a * qx a + qy a * qy a + qz a * qz a + qw a * qw a)
          + 2 * s0 * s1
            * (qx a * qx b + qy a * qy b + qz a * qz b + qw a * qw b)
          + s1 * s1
            * (qx b * qx b + qy b * qy b + qz b * qz b + qw b * qw b))
    by ring.
  rewrite Ha, Hb. ring.
Qed.

Lemma quatDot_le_1 (a b : Quat) :
  quatNormSq a = 1 -> quatNormSq b = 1 -> quatDot a b <= 1.
Proof.
  unfold quatNormSq, quatDot. intros Ha Hb.
  pose proof (Rle_0_sqr (qx a - qx b)).
  pose proof (Rle_0_sqr (qy a - qy b)).
  pose proof (Rle_0_sqr (qz a - qz b)).
  pose proof (Rle_0_sqr (qw a - qw b)).
  unfold Rsqr in *. lra.
Qed.

Lemma normSq_neg (q : Quat) : quatNormSq (quatNeg q) = quatNormSq q.
Proof. unfold quatNormSq, quatNeg. cbn [qx qy qz qw]. ring. Qed.

Lemma quatDot_neg (a b : Quat) : quatDot a (quatNeg b) = - quatDot a b.
Proof. unfold quatDot, quatNeg. cbn [qx qy qz qw]. ring. Qed.

(** [slerpQuaternion] on two quaternions, in terms of the quaternion
    [b'] that is interpolated to and the dot product [d] with it, which
    is not negative. *)
Lemma slerpQuaternion_cases (a b : Quat) (t : R) :
  exists b' d,
    (b' = b \/ b' = quatNeg b)
    /\ d = quatDot a b' /\ 0 <= d
    /\ d = Rabs (quatDot a b)
    /\ b' = (if Rltb (quatDot a b) 0 then quatNeg b else b)
    /\ ((9995 / 10000 < d
         /\ NetworkClient.slerpQuaternion (Some a) (Some b) t
            = Some (mkQuat (NetworkClient.lerp (qx a) (qx b') t)
                           (NetworkClient.lerp (qy a) (qy b') t)
                           (NetworkClient.lerp (qz a) (qz b') t)
                           (NetworkClient.lerp (qw a) (qw b') t)))
        \/ (d <= 9995 / 10000
            /\ NetworkClient.slerpQuaternion (Some a) (Some b) t
               = let s0 := cos (acos d * t)
                           - d * sin (acos d * t) / sin (acos d) in
                 let s1 := sin (acos d * t) / sin (acos d) in
                 Some (mkQuat (s0 * qx a + s1 * qx b')
                              (s0 * qy a + s1 * qy b')
                              (s0 * qz a + s1 * qz b')
                              (s0 * qw a + s1 * qw b')))).
Proof.
  unfold NetworkClient.slerpQuaternion. fold (quatDot a b).
  unfold Rgtb, Rltb.
  destruct (Rlt_dec (quatDot a b) 0) as [Hneg|Hpos].
  - exists (quatNeg b), (- quatDot a b).
    split; [now right|]. split; [now rewrite quatDot_neg|].
    split; [lra|]. split; [now rewrite Rabs_left|].
    split; [reflexivity|].
    fold (quatNeg b).
    destruct (Rlt_dec (9995 / 10000) (- quatDot a b)) as [Hl|Hs].
    + left. split; [assumption|reflexivity].
    + right. split; [lra|reflexivity].
  - exists b, (quatDot a b).
    split; [now left|]. split; [reflexivity|].
    split; [lra|]. split; [rewrite Rabs_right; [reflexivity|lra]|].
    split; [reflexivity|].
    destruct (Rlt_dec (9995 / 10000) (quatDot a b)) as [Hl|Hs].
    + left. split; [assumption|reflexivity].
    + right. split; [lra|reflexivity].
Qed.

Lemma sin_acos_pos (d : R) : 0 <= d <= 9995 / 10000 -> 0 < sin (acos d).
Proof.
  intros Hd. rewrite sin_acos by lra. apply sqrt_lt_R0.
  unfold Rsqr. nra.
Qed.

Lemma sin_acos_sqr (d : R) :
  0 <= d <= 9995 / 10000 -> sin (acos d) * sin (acos d) = 1 - d * d.
Proof.
  intros Hd. pose proof (sin2_cos2 (acos d)) as H.
  rewrite cos_acos in H by lra. unfold Rsqr in H. lra.
Qed.
End SlerpFacts.

(** X25.  [slerpQuaternion] starts at [q1] and ends at [q2] or at its
    negation, which is the same rotation, taken when the dot product is
    negative.  For unit quaternions and [t] from 0 to 1 the result of
    the spherical branch has norm one; the linear branch, taken when
    the dot product exceeds 0.9995 in absolute value, is not
    normalised, and the square of its norm lies between 1 - 1/4000 and
    1.  When one of the quaternions is missing the other one is
    returned. *)
Theorem slerpQuaternion_ends_and_norm :
  forall (a b : Quat) (t : R),
    NetworkClient.slerpQuaternion (Some a) (Some b) 0 = Some a
    /\ NetworkClient.slerpQuaternion (Some a) (Some b) 1
       = Some (if Rltb (quatDot a b) 0 then quatNeg b else b)
    /\ (quatNormSq a = 1 -> quatNormSq b = 1 -> 0 <= t <= 1 ->
        exists q,
          NetworkClient.slerpQuaternion (Some a) (Some b) t = Some q
          /\ 1 - 1 / 4000 <= quatNormSq q <= 1
          /\ (Rabs (quatDot a b) <= 9995 / 10000 -> quatNormSq q = 1))
    /\ NetworkClient.slerpQuaternion None (Some b) t = Some b
    /\ NetworkClient.slerpQuaternion (Some a) None t = Some a
    /\ NetworkClient.slerpQuaternion None None t = None.
Proof.
  intros a b t.
  split; [|split; [|split; [|repeat split]]].
  - destruct (slerpQuaternion_cases a b 0)
      as (b' & d & _ & _ & Hd & _ & _ & [[Hl ->]|[Hs ->]]).
    + unfold NetworkClient.lerp. destruct a. cbn [qx qy qz qw].
      f_equal. f_equal; ring.
    + cbv zeta. rewrite Rmult_0_r, sin_0, cos_0.
      pose proof (@sin_acos_pos d ltac:(lra)) as HS.
      destruct a. cbn [qx qy qz qw]. f_equal. f_equal; field; lra.
  - destruct (slerpQuaternion_cases a b 1)
      as (b' & d & _ & _ & Hd & _ & Hb' & [[Hl ->]|[Hs ->]]).
    + rewrite <- Hb'. unfold NetworkClient.lerp. destruct b'.
      cbn [qx qy qz qw]. f_equal. f_equal; ring.
    + rewrite <- Hb'. cbv zeta. rewrite Rmult_1_r.
      rewrite cos_acos by lra.
      pose proof (@sin_acos_pos d ltac:(lra)) as HS.
      destruct b'. cbn [qx qy qz qw]. f_equal. f_equal; field; lra.
  - intros Ha Hb Ht.
    destruct (slerpQuaternion_cases a b t)
      as (b' & d & Hor & Hdot & Hd & Habs & _ & [[Hl ->]|[Hs ->]]).
    + assert (Hb' : quatNormSq b' = 1).
      { destruct Hor as [->| ->]; [assumption|now rewrite normSq_neg]. }
      pose proof (quatDot_le_1 Ha Hb') as Hle. rewrite <- Hdot in Hle.
      eexists. split; [reflexivity|].
      unfold NetworkClient.lerp.
      replace (mkQuat (qx a + (qx b' - qx a) * t)
                      (qy a + (qy b' - qy a) * t)
                      (qz a + (qz b' - qz a) * t)
                      (qw a + (qw b' - qw a) * t))
        with (mkQuat ((1 - t) * qx a + t * qx b')
                     ((1 - t) * qy a + t * qy b')
                     ((1 - t) * qz a + t * qz b')
                     ((1 - t) * qw a + t * qw b'))
        by (f_equal; ring).
      rewrite normSq_combination by assumption. rewrite <- Hdot.
      assert (Hu : 0 <= t * (1 - t) <= 1 / 4).
      { pose proof (Rle_0_sqr (t - 1 / 2)) as Hsq. unfold Rsqr in Hsq.
        split; [apply Rmult_le_pos; lra|lra]. }
      assert (Huw : 0 <= t * (1 - t) * (1 - d) <= 1 / 4 * (5 / 10000)).
      { split; [apply Rmult_le_pos; lra|].
        apply Rmult_le_compat; lra. }
      replace ((1 - t) * (1 - t) + 2 * (1 - t) * t * d + t * t)
        with (1 - 2 * (t * (1 - t) * (1 - d))) by ring.
      split; [lra|]. intros Hc. rewrite <- Habs in Hc. lra.
    + assert (Hb' : quatNormSq b' = 1).
      { destruct Hor as [->| ->]; [assumption|now rewrite normSq_neg]. }
      cbv zeta. eexists. split; [reflexivity|].
      rewrite normSq_combination by assumption. rewrite <- Hdot.
      pose proof (@sin_acos_pos d ltac:(lra)) as HS.
      pose proof (@sin_acos_sqr d ltac:(lra)) as HS2.
      pose proof (sin2_cos2 (acos d * t)) as Hsc. unfold Rsqr in Hsc.
      set (S := sin (acos d)) in *.
      set (s := sin (acos d * t)) in *.
      set (c := cos (acos d * t)) in *.
      assert (Hone : (c - d * s / S) * (c - d * s / S)
                     + 2 * (c - d * s / S) * (s / S) * d
                     + s / S * (s / S) = 1).
      { replace ((c - d * s / S) * (c - d * s / S)
                 + 2 * (c - d * s / S) * (s / S) * d
                 + s / S * (s / S))
          with (c * c + s * s * (1 - d * d) / (S * S))
          by (field; lra).
        rewrite <- HS2. replace (s * s * (S * S) / (S * S)) with (s * s)
          by (field; lra).
        lra. }
      rewrite Hone. split; [lra|reflexivity].
Qed.

Lemma slerpQuaternion_ends_and_norm_witness :
  exists q,
    NetworkClient.slerpQuaternion (Some quatId) (Some (mkQuat 0 1 0 0))
                                  (1 / 2) = Some q
    /\ quatNormSq q = 1.
Proof.
  destruct (@slerpQuaternion_ends_and_norm quatId (mkQuat 0 1 0 0) (1 / 2))
    as (_ & _ & H & _).
  destruct H as (q & Hq & _ & H1).
  - unfold quatNormSq, quatId. cbn [qx qy qz qw]. lra.
  - unfold quatNormSq. cbn [qx qy qz qw]. lra.
  - lra.
  - exists q. split; [exact Hq|]. apply H1.
    unfold quatDot, quatId. cbn [qx qy qz qw].
    replace (0 * 0 + 0 * 1 + 0 * 0 + 1 * 0) with 0 by ring.
    rewrite Rabs_R0. lra.
Defined.


(** ** The client: where the smoothing of a remote player ends *)

Section FrameFacts.
Import PlayerController.

Lemma smoothRemotePlayer_keeps window now player :
  smoothing (smoothRemotePlayer window now player) = smoothing player
  /\ targetYaw (smoothRemotePlayer window now player) = targetYaw player.
Proof.
  unfold smoothRemotePlayer. destruct (smoothing player) eqn:E;
    cbn [smoothing targetYaw]; split; try reflexivity; exact E.
Qed.

Lemma smoothRemotePlayer_yaw window now player sm y :
  smoothing player = Some sm ->
  targetYaw player = Some y ->
  mesh_rotation_y (smoothRemotePlayer window now player) - y
  = 85 / 100 * (mesh_rotation_y player - y).
Proof.
  intros Hsm Hy. unfold smoothRemotePlayer. rewrite Hsm, Hy.
  cbn [mesh_rotation_y]. field.
Qed.

Lemma renderFrames_entry (entityId : string) (sm : Smoothing)
      (times : list R) :
  forall (pc : t) (player : RemotePlayer),
    JsMap.get entityId (otherPlayers pc) = Some player ->
    smoothing player = Some sm ->
    exists player',
      JsMap.get entityId (otherPlayers (renderFrames times pc))
      = Some player'
      /\ smoothing player' = Some sm
      /\ targetYaw player' = targetYaw player
      /\ remoteSmoothingWindow (renderFrames times pc)
         = remoteSmoothingWindow pc
      /\ (forall y,
             targetYaw player = Some y ->
             mesh_rotation_y player' - y
             = (85 / 100) ^ List.length times * (mesh_rotation_y player - y)).
Proof.
  induction times as [|now times IH]; intros pc player Hg Hsm.
  - exists player. cbn [renderFrames fold_left List.length pow].
    repeat split; try assumption. intros y _. ring.
  - unfold renderFrames. cbn [fold_left]. fold (renderFrames times).
    destruct (smoothRemotePlayer_keeps (remoteSmoothingWindow pc) now player)
      as [Hk1 Hk2].
    destruct (IH (smoothRemotePlayers now pc)
                 (smoothRemotePlayer (remoteSmoothingWindow pc) now player))
      as (player' & H1 & H2 & H3 & H4 & H5).
    + unfold smoothRemotePlayers. cbn [otherPlayers withOtherPlayers].
      rewrite get_map_values, Hg. reflexivity.
    + now rewrite Hk1.
    + exists player'. split; [exact H1|]. split; [exact H2|].
      split; [now rewrite H3|]. split; [exact H4|].
      intros y Hy. rewrite H5 by now rewrite Hk2.
      rewrite (smoothRemotePlayer_yaw _ _ _ Hsm Hy).
      cbn [List.length pow]. ring.
Qed.
End FrameFacts.

(** X26.  The smoothing of a remote player ends exactly at the position
    the server reported: on a render frame at or after the end of the
    window the player is drawn at [to], with nothing left of the
    extrapolation along the velocity, and on a frame at the start it is
    drawn at [from].  The position depends on the time of the frame
    alone, however many frames came before.  The yaw is different: every
    frame moves it 15% of the remaining way to the target yaw, so after
    [n] frames 0.85^n of the difference is left, whatever the times of
    the frames. *)
Theorem remote_smoothing_ends_at_target :
  forall (pc : PlayerController.t) (entityId : string)
         (player : PlayerController.RemotePlayer)
         (sm : PlayerController.Smoothing) (earlier : list R) (now : R),
    JsMap.get entityId (PlayerController.otherPlayers pc) = Some player ->
    PlayerController.smoothing player = Some sm ->
    0 < PlayerController.duration sm ->
    exists player',
      JsMap.get entityId
        (PlayerController.otherPlayers (renderFrames (earlier ++ [now]) pc))
      = Some player'
      /\ (now = PlayerController.start sm ->
          PlayerController.mesh_position player' = PlayerController.from sm)
      /\ (PlayerController.start sm + PlayerController.duration sm <= now ->
          PlayerController.mesh_position player' = PlayerController.to sm)
      /\ PlayerController.mesh_position player'
         = PlayerController.mesh_position
             (PlayerController.smoothRemotePlayer
                (PlayerController.remoteSmoothingWindow pc) now player)
      /\ (forall y,
             PlayerController.targetYaw player = Some y ->
             PlayerController.mesh_rotation_y player' - y
             = (85 / 100) ^ (List.length earlier + 1)
               * (PlayerController.mesh_rotation_y player - y)).
Proof.
  intros pc entityId player sm earlier now Hg Hsm Hd.
  destruct (renderFrames_entry entityId earlier pc Hg Hsm)
    as (p1 & H1 & H2 & H3 & H4 & H5).
  exists (PlayerController.smoothRemotePlayer
            (PlayerController.remoteSmoothingWindow pc) now p1).
  assert (Hpos : forall q,
             PlayerController.smoothing q = Some sm ->
             PlayerController.mesh_position
               (PlayerController.smoothRemotePlayer
                  (PlayerController.remoteSmoothingWindow pc) now q)
             = let t := Rmin 1 ((now - PlayerController.start sm)
                                / PlayerController.duration sm) in
               let eased := t * t * (3 - 2 * t) in
               Vector3.lerpVectors (PlayerController.from sm)
                 (Vector3.addScaledVector (PlayerController.to sm)
                    (PlayerController.velocity sm)
                    (PlayerController.remoteSmoothingWindow pc
                     * (1 - eased)))
                 eased).
  { intros q Hq. unfold PlayerController.smoothRemotePlayer. now rewrite Hq. }
  split; [|split; [|split; [|split]]].
  - unfold renderFrames. rewrite fold_left_app. cbn [fold_left].
    fold (renderFrames earlier pc).
    unfold PlayerController.smoothRemotePlayers.
    cbn [PlayerController.otherPlayers PlayerController.withOtherPlayers].
    rewrite get_map_values, H1, H4. reflexivity.
  - intros ->. rewrite (Hpos _ H2). cbv zeta.
    replace ((PlayerController.start sm - PlayerController.start sm)
             / PlayerController.duration sm) with 0 by (field; lra).
    rewrite Rmin_right by lra.
    unfold Vector3.lerpVectors, Vector3.addScaledVector.
    destruct (PlayerController.from sm). cbn [vx vy vz]. f_equal; ring.
  - intros Hend. rewrite (Hpos _ H2). cbv zeta.
    assert (Hq : 1 <= (now - PlayerController.start sm)
                      / PlayerController.duration sm).
    { apply Rmult_le_reg_r with (PlayerController.duration sm);
        [assumption|].
      replace ((now - PlayerController.start sm)
               / PlayerController.duration sm
               * PlayerController.duration sm)
        with (now - PlayerController.start sm) by (field; lra).
      lra. }
    rewrite Rmin_left by assumption.
    unfold Vector3.lerpVectors, Vector3.addScaledVector.
    destruct (PlayerController.to sm). cbn [vx vy vz]. f_equal; ring.
  - now rewrite (Hpos _ H2), (Hpos _ Hsm).
  - intros y Hy.
    rewrite (@smoothRemotePlayer_yaw _ now p1 sm y H2)
      by now rewrite H3.
    rewrite H5 by assumption. rewrite Nat.add_1_r. cbn [pow]. ring.
Qed.

Lemma remote_smoothing_ends_at_target_witness :
  let sm := {| PlayerController.from := mkVec3 0 0 0;
               PlayerController.to := mkVec3 10 0 0;
               PlayerController.velocity := mkVec3 1 0 0;
               PlayerController.start := 0;
               PlayerController.duration := 100 |} in
  let player := {| PlayerController.mesh_position := mkVec3 0 0 0;
                   PlayerController.mesh_rotation_y := 0;
                   PlayerController.smoothing := Some sm;
                   PlayerController.targetYaw := Some 1;
                   PlayerController.rp_state :=
                     Scenario.stateAt (mkVec3 10 0 0) (mkVec3 1 0 0) 0 |} in
  exists player',
    JsMap.get "player_a"
      (PlayerController.otherPlayers
         (renderFrames [50; 100]
            (Scenario.controllerAt (mkVec3 0 0 0) [("player_a", player)])))
    = Some player'
    /\ PlayerController.mesh_position player' = mkVec3 10 0 0.
Proof.
  intros sm player.
  destruct (@remote_smoothing_ends_at_target
              (Scenario.controllerAt (mkVec3 0 0 0) [("player_a", player)])
              "player_a" player sm [50] 100 eq_refl eq_refl)
    as (player' & H1 & _ & H3 & _).
  - cbn [PlayerController.duration sm]. lra.
  - exists player'. split; [exact H1|]. apply H3.
    cbn [PlayerController.start PlayerController.duration sm]. lra.
Defined.


(** ** Movement: what an input can do *)

Section MoveFacts.

(** The direction of movement after the normalisation has length at
    most one, whatever [forward] and [right] the input carries. *)
Lemma move_normalised (x z : R) :
  let len := sqrt (x * x + z * z) in
  let mx := if Rgtb len 1 then x / len else x in
  let mz := if Rgtb len 1 then z / len else z in
  mx * mx + mz * mz <= 1.
Proof.
  cbv zeta. unfold Rgtb, Rltb.
  assert (Hnn : 0 <= x * x + z * z).
  { pose proof (Rle_0_sqr x). pose proof (Rle_0_sqr z).
    unfold Rsqr in *. lra. }
  pose proof (sqrt_sqrt _ Hnn) as Hsq.
  pose proof (sqrt_pos (x * x + z * z)) as Hpos.
  set (len := sqrt (x * x + z * z)) in *.
  destruct (Rlt_dec 1 len) as [Hgt|Hle].
  - replace (x / len * (x / len) + z / len * (z / len))
      with ((x * x + z * z) / (len * len)) by (field; lra).
    rewrite Hsq. right. field. nra.
  - rewrite <- Hsq. nra.
Qed.

Lemma target_within (x z speed : R) :
  0 <= speed <= CONFIG.runSpeed ->
  let len := sqrt (x * x + z * z) in
  let mx := if Rgtb len 1 then x / len else x in
  let mz := if Rgtb len 1 then z / len else z in
  (- CONFIG.runSpeed <= mx * speed <= CONFIG.runSpeed)
  /\ (- CONFIG.runSpeed <= mz * speed <= CONFIG.runSpeed).
Proof.
  intros Hs. pose proof (move_normalised x z) as H. cbv zeta in *.
  set (mx := if Rgtb _ 1 then x / _ else x) in *.
  set (mz := if Rgtb _ 1 then z / _ else z) in *.
  assert (Hx : -1 <= mx <= 1) by nra.
  assert (Hz : -1 <= mz <= 1) by nra.
  unfold CONFIG.runSpeed in *. nra.
Qed.

Lemma targetSpeed_within (crouches runs : bool) :
  0 <= (if crouches then CONFIG.crouchSpeed
        else if runs then CONFIG.runSpeed else CONFIG.walkSpeed)
  <= CONFIG.runSpeed.
Proof.
  unfold CONFIG.crouchSpeed, CONFIG.runSpeed, CONFIG.walkSpeed.
  destruct crouches, runs; lra.
Qed.

Lemma approach_within (current target rate lo hi : R) :
  0 <= rate ->
  lo <= current <= hi -> lo <= target <= hi ->
  lo <= PlayerPhysicsManager.approach current target rate <= hi.
Proof.
  intros Hr Hc Ht. unfold PlayerPhysicsManager.approach, Rgtb, Rltb.
  destruct (Rlt_dec current target) as [Hlt|Hge].
  - unfold Rmin. destruct (Rle_dec (current + rate) target); lra.
  - destruct (Rlt_dec target current) as [Hgt|Hle]; [|lra].
    unfold Rmax. destruct (Rle_dec (current - rate) target); lra.
Qed.

Lemma stamina_step_within (drains : bool) (stamina deltaTime : R) :
  0 <= deltaTime ->
  0 <= stamina <= CONFIG.maxStamina ->
  0 <= (if drains
        then Rmax 0 (stamina - CONFIG.staminaDrainRate * deltaTime)
        else Rmin CONFIG.maxStamina
                  (stamina + CONFIG.staminaRegenRate * deltaTime))
  <= CONFIG.maxStamina.
Proof.
  intros Hd Hs.
  unfold CONFIG.maxStamina, CONFIG.staminaDrainRate,
    CONFIG.staminaRegenRate in *.
  destruct drains.
  - unfold Rmax. destruct (Rle_dec 0 (stamina - 15 * deltaTime)); nra.
  - unfold Rmin. destruct (Rle_dec 100 (stamina + 20 * deltaTime)); nra.
Qed.
End MoveFacts.

(** X27.  A step of the client's prediction never leaves the player
    under the terrain: after [applyInput] the predicted position is at
    or above the terrain height at its place plus half the player
    height.  A player who was on the ground and did not jump is still
    on the ground.  With a time step that is not negative the stamina
    stays between 0 and the maximum, and the horizontal velocity stays
    within the run speed in each axis if it was, whatever [forward] and
    [right] the input carries; the position moves by the new velocity
    times the time step. *)
Theorem applyInput_keeps_player_on_terrain :
  forall (env : Env) (input : PlayerPhysicsManager.PlayerInput)
         (deltaTime : R) (pc : PlayerController.t),
    0 <= deltaTime ->
    exists pc',
      PlayerController.applyInput env (Some input) deltaTime pc = Ok pc'
      /\ PlayerController.getHeightAt env
           (vx (PlayerController.predictedPosition pc'))
           (vz (PlayerController.predictedPosition pc'))
         + CONFIG.playerHeight / 2
         <= vy (PlayerController.predictedPosition pc')
      /\ (PlayerController.isGrounded pc' = false ->
          PlayerController.isGrounded pc = false
          \/ PlayerPhysicsManager.jump input = true)
      /\ (0 <= PlayerController.stamina pc <= CONFIG.maxStamina ->
          0 <= PlayerController.stamina pc' <= CONFIG.maxStamina)
      /\ (- CONFIG.runSpeed <= vx (PlayerController.predictedVelocity pc)
          <= CONFIG.runSpeed ->
          - CONFIG.runSpeed <= vx (PlayerController.predictedVelocity pc')
          <= CONFIG.runSpeed)
      /\ (- CONFIG.runSpeed <= vz (PlayerController.predictedVelocity pc)
          <= CONFIG.runSpeed ->
          - CONFIG.runSpeed <= vz (PlayerController.predictedVelocity pc')
          <= CONFIG.runSpeed)
      /\ vx (PlayerController.predictedPosition pc')
         = vx (PlayerController.predictedPosition pc)
           + vx (PlayerController.predictedVelocity pc') * deltaTime
      /\ vz (PlayerController.predictedPosition pc')
         = vz (PlayerController.predictedPosition pc)
           + vz (PlayerController.predictedVelocity pc') * deltaTime.
Proof.
  intros env input deltaTime pc Hdt.
  unfold PlayerController.applyInput. cbv zeta.
  eexists. split; [reflexivity|].
  cbn [PlayerController.predictedPosition PlayerController.predictedVelocity
       PlayerController.isGrounded PlayerController.stamina vx vy vz].
  assert (Hrate : 0 <= (if PlayerController.isGrounded pc then 20
                        else 20 * CONFIG.airControl) * deltaTime).
  { apply Rmult_le_pos; [|assumption].
    unfold CONFIG.airControl. destruct (PlayerController.isGrounded pc); lra. }
  split; [|split; [|split; [|split; [|split; [|split]]]]].
  - match goal with
    | |- context [if Rltb ?a ?b then _ else _] =>
        unfold Rltb; destruct (Rlt_dec a b) as [Hl|Hn]
    end; [apply Rle_refl|lra].
  - match goal with
    | |- context [if Rltb ?a ?b then true else _] =>
        destruct (Rltb a b)
    end; [discriminate|].
    destruct (PlayerPhysicsManager.jump input); [now right|].
    cbn [andb]. now left.
  - intros Hs. now apply stamina_step_within.
  - intros Hv. apply approach_within; [assumption|assumption|].
    apply target_within. apply targetSpeed_within.
  - intros Hv. apply approach_within; [assumption|assumption|].
    apply target_within. apply targetSpeed_within.
  - reflexivity.
  - reflexivity.
Qed.

Lemma applyInput_keeps_player_on_terrain_witness :
  exists pc',
    PlayerController.applyInput Scenario.env0
      (Some {| PlayerPhysicsManager.forward := 1;
               PlayerPhysicsManager.right := 0;
               PlayerPhysicsManager.jump := false;
               PlayerPhysicsManager.run := false;
               PlayerPhysicsManager.crouch := false;
               PlayerPhysicsManager.yaw := 0;
               PlayerPhysicsManager.seq := 1 |})
      (1 / 60) (Scenario.controllerAt (mkVec3 0 0 0) []) = Ok pc'
    /\ PlayerController.getHeightAt Scenario.env0
         (vx (PlayerController.predictedPosition pc'))
         (vz (PlayerController.predictedPosition pc'))
       + CONFIG.playerHeight / 2
       <= vy (PlayerController.predictedPosition pc').
Proof.
  destruct (@applyInput_keeps_player_on_terrain Scenario.env0
              {| PlayerPhysicsManager.forward := 1;
                 PlayerPhysicsManager.right := 0;
                 PlayerPhysicsManager.jump := false;
                 PlayerPhysicsManager.run := false;
                 PlayerPhysicsManager.crouch := false;
                 PlayerPhysicsManager.yaw := 0;
                 PlayerPhysicsManager.seq := 1 |}
              (1 / 60) (Scenario.controllerAt (mkVec3 0 0 0) []))
    as (pc' & H1 & H2 & _).
  - lra.
  - exists pc'. split; assumption.
Defined.


(** ** Prediction on the client and movement on the server *)

Section AgreementFacts.

(** With no key held the direction of movement is the zero vector, and
    only then. *)
Lemma moveLen_zero (yaw forward right : R) :
  Rgtb (sqrt ((forward * - sin yaw + right * cos yaw)
              * (forward * - sin yaw + right * cos yaw)
              + (forward * - cos yaw + right * - sin yaw)
                * (forward * - cos yaw + right * - sin yaw))) 0
  = false
  <-> forward = 0 /\ right = 0.
Proof.
  pose proof (sin2_cos2 yaw) as Hsc. unfold Rsqr in Hsc.
  assert (Hsum : (forward * - sin yaw + right * cos yaw)
                 * (forward * - sin yaw + right * cos yaw)
                 + (forward * - cos yaw + right * - sin yaw)
                   * (forward * - cos yaw + right * - sin yaw)
                 = forward * forward + right * right).
  { replace ((forward * - sin yaw + right * cos yaw)
             * (forward * - sin yaw + right * cos yaw)
             + (forward * - cos yaw + right * - sin yaw)
               * (forward * - cos yaw + right * - sin yaw))
      with ((forward * forward + right * right)
            * (sin yaw * sin yaw + cos yaw * cos yaw)) by ring.
    rewrite Hsc. ring. }
  rewrite Hsum. unfold Rgtb, Rltb.
  pose proof (Rle_0_sqr forward) as Hf. pose proof (Rle_0_sqr right) as Hr.
  unfold Rsqr in Hf, Hr.
  destruct (Rlt_dec 0 (sqrt (forward * forward + right * right)))
    as [Hpos|Hnp].
  - split; [discriminate|]. intros [-> ->].
    replace (0 * 0 + 0 * 0) with 0 in Hpos by ring.
    rewrite sqrt_0 in Hpos. lra.
  - split; [|reflexivity]. intros _.
    destruct (Req_dec (forward * forward + right * right) 0) as [Hz|Hnz].
    + split; nra.
    + exfalso. apply Hnp. apply sqrt_lt_R0. lra.
Qed.
End AgreementFacts.

(** X28.  The client predicts the horizontal movement as the server
    computes it: from the same yaw, stamina, grounded flag and
    horizontal velocity, [applyInput] on the client and
    [updatePlayerMovement] on the server arrive at the same horizontal
    velocity and the same running and crouching flags.  The stamina
    agrees too, except when the run key is held with stamina left and
    no direction key: the server then leaves the stamina as it is,
    while the client regenerates it. *)
Theorem prediction_agrees_with_server :
  forall (env : Env) (entityId : string)
         (player : PlayerPhysicsManager.Player)
         (input : PlayerPhysicsManager.PlayerInput) (deltaTime : R)
         (pw : PhysicsWorld.t) (h : nat) (b : RAPIER.RigidBody)
         (pc : PlayerController.t),
    PhysicsWorld.body pw entityId = Some (h, b) ->
    present pw entityId = true ->
    PlayerController.yaw pc = PlayerPhysicsManager.p_yaw player ->
    PlayerController.stamina pc = PlayerPhysicsManager.stamina player ->
    PlayerController.isGrounded pc
    = PlayerPhysicsManager.groundedOf entityId
        (PhysicsWorld.updatePlayerGrounded env entityId pw) ->
    vx (PlayerController.predictedVelocity pc) = vx (RAPIER.linvel b) ->
    vz (PlayerController.predictedVelocity pc) = vz (RAPIER.linvel b) ->
    let r := PlayerPhysicsManager.updatePlayerMovement env entityId player
               input deltaTime pw in
    exists pc',
      PlayerController.applyInput env (Some input) deltaTime pc = Ok pc'
      /\ (exists b',
             PhysicsWorld.body (snd r) entityId = Some (h, b')
             /\ vx (RAPIER.linvel b')
                = vx (PlayerController.predictedVelocity pc')
             /\ vz (RAPIER.linvel b')
                = vz (PlayerController.predictedVelocity pc'))
      /\ PlayerPhysicsManager.isRunning (fst r)
         = PlayerController.isRunning pc'
      /\ PlayerPhysicsManager.isCrouching (fst r)
         = PlayerController.isCrouching pc'
      /\ ((PlayerPhysicsManager.forward input <> 0
           \/ PlayerPhysicsManager.right input <> 0
           \/ PlayerPhysicsManager.run input = false
           \/ PlayerPhysicsManager.stamina player <= 0) ->
          PlayerPhysicsManager.stamina (fst r)
          = PlayerController.stamina pc')
      /\ (PlayerPhysicsManager.forward input = 0 ->
          PlayerPhysicsManager.right input = 0 ->
          PlayerPhysicsManager.run input = true ->
          0 < PlayerPhysicsManager.stamina player ->
          PlayerPhysicsManager.stamina (fst r)
          = PlayerPhysicsManager.stamina player
          /\ PlayerController.stamina pc'
             = Rmin CONFIG.maxStamina
                    (PlayerPhysicsManager.stamina player
                     + CONFIG.staminaRegenRate * deltaTime)).
Proof.
  intros env entityId player input deltaTime pw h b pc
         Hb Hp Hyaw Hst Hg Hvx Hvz r.
  unfold present in Hp. rewrite Hb in Hp.
  destruct (JsMap.get entityId (PhysicsWorld.entityData pw)) as [d|] eqn:Hd;
    [|discriminate].
  assert (Hh : JsMap.get entityId (PhysicsWorld.bodies pw) = Some h).
  { unfold PhysicsWorld.body in Hb.
    destruct (JsMap.get entityId (PhysicsWorld.bodies pw)) as [h0|];
      [|discriminate].
    destruct (JsMap.get h0 _); [|discriminate]. congruence. }
  unfold PlayerController.applyInput. cbv zeta.
  rewrite Hyaw, Hst, Hg, Hvx, Hvz.
  eexists. split; [reflexivity|].
  cbn [PlayerController.predictedVelocity PlayerController.isRunning
       PlayerController.isCrouching PlayerController.stamina vx vz].
  subst r. unfold PlayerPhysicsManager.updatePlayerMovement.
  rewrite Hb, Hd. cbv zeta.
  cbn [fst snd PlayerPhysicsManager.isRunning
       PlayerPhysicsManager.isCrouching PlayerPhysicsManager.stamina].
  unfold PlayerController.approach.
  set (pw1 := PhysicsWorld.updatePlayerGrounded env entityId pw).
  match goal with
  | |- context [PhysicsWorld.setVelocity entityId ?v pw1] =>
      match v with
      | mkVec3 _ (if _ then _ else _) _ => set (v1 := v)
      end
  end.
  set (pw2 := PhysicsWorld.setVelocity entityId v1 pw1).
  assert (Hb2 : PhysicsWorld.body pw2 entityId
                = Some (h, RAPIER.setLinvel v1 b)).
  { unfold pw2. rewrite body_setVelocity. unfold pw1.
    rewrite body_updatePlayerGrounded, Hb, bodies_updatePlayerGrounded, Hh.
    simpl. now rewrite eqb_refl. }
  assert (Hh2 : JsMap.get entityId (PhysicsWorld.bodies pw2) = Some h).
  { unfold pw2. rewrite bodies_setVelocity. unfold pw1.
    now rewrite bodies_updatePlayerGrounded. }
  split; [|split; [reflexivity|split; [reflexivity|split]]].
  - match goal with
    | |- context [if Rltb ?a ?c then PhysicsWorld.setVelocity _ _ _ else _] =>
        destruct (Rltb a c)
    end.
    + eexists. split.
      * rewrite body_setVelocity, body_setPosition, Hb2.
        rewrite bodies_setPosition, Hh2. simpl.
        rewrite eqb_refl. reflexivity.
      * split; reflexivity.
    + eexists. split; [exact Hb2|]. split; reflexivity.
  - intros Hcase.
    destruct (PlayerPhysicsManager.run input
              && Rgtb (PlayerPhysicsManager.stamina player) 0) eqn:Hrun;
      cbn [andb negb]; [|reflexivity].
    match goal with
    | |- context [if Rgtb ?l 0 then _ else _] =>
        destruct (Rgtb l 0) eqn:Hmove
    end; [reflexivity|].
    exfalso. apply moveLen_zero in Hmove. destruct Hmove as [Hf Hr].
    apply Bool.andb_true_iff in Hrun. destruct Hrun as [Hrun Hpos].
    unfold Rgtb in Hpos. apply Rltb_spec in Hpos.
    destruct Hcase as [Hc|[Hc|[Hc|Hc]]]; [tauto|tauto|congruence|lra].
  - intros Hf Hr Hrun Hpos.
    assert (Hmove := proj2 (moveLen_zero (PlayerPhysicsManager.p_yaw player)
                                         _ _) (conj Hf Hr)).
    rewrite Hmove, Hrun.
    assert (Hs : Rgtb (PlayerPhysicsManager.stamina player) 0 = true).
    { unfold Rgtb. now apply Rltb_true. }
    rewrite Hs. cbn [andb negb]. split; reflexivity.
Qed.

Lemma prediction_agrees_with_server_witness :
  let input := {| PlayerPhysicsManager.forward := 1;
                  PlayerPhysicsManager.right := 0;
                  PlayerPhysicsManager.jump := false;
                  PlayerPhysicsManager.run := false;
                  PlayerPhysicsManager.crouch := false;
                  PlayerPhysicsManager.yaw := 0;
                  PlayerPhysicsManager.seq := 1 |} in
  let pc :=
    {| PlayerController.entityId := Some "player_a";
       PlayerController.position := mkVec3 0 1 0;
       PlayerController.pc_velocity := vec0;
       PlayerController.yaw := 0;
       PlayerController.predictedPosition := mkVec3 0 1 0;
       PlayerController.predictedVelocity := vec0;
       PlayerController.otherPlayers := [];
       PlayerController.remoteSmoothingWindow :=
         PlayerController.defaultSmoothingWindow;
       PlayerController.isGrounded := false;
       PlayerController.isRunning := false;
       PlayerController.isCrouching := false;
       PlayerController.stamina := CONFIG.maxStamina;
       PlayerController.health := 100;
       PlayerController.inVehicle := false;
       PlayerController.vehicleId := None |} in
  exists pc',
    PlayerController.applyInput Scenario.env0 (Some input) (1 / 30) pc
    = Ok pc'
    /\ PlayerPhysicsManager.stamina
         (fst (PlayerPhysicsManager.updatePlayerMovement Scenario.env0
                 "player_a" Scenario.player_a input (1 / 30) Scenario.pw_a))
       = PlayerController.stamina pc'.
Proof.
  intros input pc.
  destruct (@prediction_agrees_with_server Scenario.env0 "player_a"
              Scenario.player_a input (1 / 30) Scenario.pw_a _ _ pc
              eq_refl eq_refl eq_refl eq_refl eq_refl eq_refl eq_refl)
    as (pc' & H1 & _ & _ & _ & H5 & _).
  exists pc'. split; [exact H1|]. apply H5. left.
  cbn [PlayerPhysicsManager.forward input]. lra.
Defined.


(** ** A player takes a seat and leaves it *)

Section SeatFacts.

Lemma body_parts pw e h b :
  PhysicsWorld.body pw e = Some (h, b) ->
  JsMap.get e (PhysicsWorld.bodies pw) = Some h
  /\ JsMap.get h (RAPIER.rigidBodies (PhysicsWorld.world pw)) = Some b.
Proof.
  unfold PhysicsWorld.body.
  destruct (JsMap.get e (PhysicsWorld.bodies pw)) as [h0|]; [|discriminate].
  destruct (JsMap.get h0 (RAPIER.rigidBodies (PhysicsWorld.world pw)))
    as [b0|] eqn:E; [|discriminate].
  intros [= <- <-]. split; [reflexivity|exact E].
Qed.

Lemma body_updateBody pw e h b f :
  PhysicsWorld.body pw e = Some (h, b) ->
  PhysicsWorld.body
    (PhysicsWorld.withWorld (RAPIER.updateBody h f (PhysicsWorld.world pw))
                            pw) e
  = Some (h, f b).
Proof.
  intros Hb. destruct (body_parts _ _ Hb) as [Hh Hg].
  unfold PhysicsWorld.body, PhysicsWorld.withWorld.
  cbn [PhysicsWorld.bodies PhysicsWorld.world].
  rewrite Hh, get_updateBody, Hg. cbn [option_map].
  now rewrite eqb_refl.
Qed.
End SeatFacts.

(** X29.  A player who takes a seat keeps the body, switched off, and
    is recorded with the vehicle; [playerExitVehicle] then switches the
    body on again and puts it at the exit position, raised where
    needed to a tenth above standing height on the terrain, at rest,
    and clears the vehicle.  For a player who sits in no vehicle
    [playerExitVehicle] returns [false] and changes nothing, so a
    second exit does nothing. *)
Theorem player_leaves_vehicle_standing :
  forall (env : Env) (clientId seat : string) (exitPosition : Vec3)
         (pm : PlayerPhysicsManager.t) (pw : PhysicsWorld.t)
         (p : PlayerPhysicsManager.Player) (h : nat) (b : RAPIER.RigidBody),
    PlayerPhysicsManager.getPlayer clientId pm = Some p ->
    PhysicsWorld.body pw (PlayerPhysicsManager.playerEntityId clientId)
    = Some (h, b) ->
    let entityId := PlayerPhysicsManager.playerEntityId clientId in
    let r1 := PlayerPhysicsManager.playerEnterVehicle clientId seat pm pw in
    let r2 :=
      PlayerPhysicsManager.playerExitVehicle env clientId exitPosition
        (fst (snd r1)) (snd (snd r1)) in
    fst r1 = true
    /\ PlayerPhysicsManager.getPlayer clientId (fst (snd r1))
       = Some (PlayerPhysicsManager.withVehicleId (Some seat) p)
    /\ PhysicsWorld.body (snd (snd r1)) entityId
       = Some (h, RAPIER.setEnabled false b)
    /\ fst r2 = true
    /\ PlayerPhysicsManager.getPlayer clientId (fst (snd r2))
       = Some (PlayerPhysicsManager.withVehicleId None p)
    /\ (exists b2,
           PhysicsWorld.body (snd (snd r2)) entityId = Some (h, b2)
           /\ RAPIER.enabled b2 = true
           /\ RAPIER.translation b2
              = mkVec3 (vx exitPosition)
                       (Rmax (vy exitPosition)
                             (TerrainPhysicsManager.getHeightAt env
                                (vx exitPosition) (vz exitPosition)
                              + CONFIG.playerHeight / 2 + 1 / 10))
                       (vz exitPosition)
           /\ RAPIER.linvel b2 = vec0
           /\ RAPIER.rotation b2 = RAPIER.rotation b)
    /\ PlayerPhysicsManager.playerExitVehicle env clientId exitPosition
         (fst (snd r2)) (snd (snd r2))
       = (false, snd r2)
    /\ (PlayerPhysicsManager.vehicleId p = None ->
        PlayerPhysicsManager.playerExitVehicle env clientId exitPosition
          pm pw
        = (false, (pm, pw))).
Proof.
  intros env clientId seat exitPosition pm pw p h b Hp Hb entityId r1 r2.
  unfold PlayerPhysicsManager.getPlayer in *. fold entityId in Hp, Hb.
  destruct (body_parts _ _ Hb) as [Hh Hg].
  assert (E1 : r1 = (true,
                     ({| PlayerPhysicsManager.players :=
                           JsMap.set entityId
                             (PlayerPhysicsManager.withVehicleId (Some seat) p)
                             (PlayerPhysicsManager.players pm);
                         PlayerPhysicsManager.playerInputs :=
                           PlayerPhysicsManager.playerInputs pm;
                         PlayerPhysicsManager.inputHistory :=
                           PlayerPhysicsManager.inputHistory pm |},
                      PhysicsWorld.withWorld
                        (RAPIER.updateBody h (RAPIER.setEnabled false)
                                           (PhysicsWorld.world pw)) pw))).
  { unfold r1, PlayerPhysicsManager.playerEnterVehicle.
    fold entityId. now rewrite Hp, Hh. }
  pose proof (@body_updateBody pw entityId h b (RAPIER.setEnabled false) Hb)
    as Hb1.
  set (pw1 := PhysicsWorld.withWorld
                (RAPIER.updateBody h (RAPIER.setEnabled false)
                                   (PhysicsWorld.world pw)) pw) in *.
  assert (Hh1 : JsMap.get entityId (PhysicsWorld.bodies pw1) = Some h)
    by exact Hh.
  pose proof (@body_updateBody pw1 entityId h _ (RAPIER.setEnabled true) Hb1)
    as Hb2.
  set (pw2 := PhysicsWorld.withWorld
                (RAPIER.updateBody h (RAPIER.setEnabled true)
                                   (PhysicsWorld.world pw1)) pw1) in *.
  assert (Hh2 : JsMap.get entityId (PhysicsWorld.bodies pw2) = Some h)
    by exact Hh.
  set (standing :=
         mkVec3 (vx exitPosition)
                (Rmax (vy exitPosition)
                      (TerrainPhysicsManager.getHeightAt env
                         (vx exitPosition) (vz exitPosition)
                       + CONFIG.playerHeight / 2 + 1 / 10))
                (vz exitPosition)).
  assert (E2 : r2 = (true,
                     ({| PlayerPhysicsManager.players :=
                           JsMap.set entityId
                             (PlayerPhysicsManager.withVehicleId None
                                (PlayerPhysicsManager.withVehicleId
                                   (Some seat) p))
                             (JsMap.set entityId
                                (PlayerPhysicsManager.withVehicleId
                                   (Some seat) p)
                                (PlayerPhysicsManager.players pm));
                         PlayerPhysicsManager.playerInputs :=
                           PlayerPhysicsManager.playerInputs pm;
                         PlayerPhysicsManager.inputHistory :=
                           PlayerPhysicsManager.inputHistory pm |},
                      PhysicsWorld.setVelocity entityId vec0
                        (PhysicsWorld.setPosition entityId standing pw2)))).
  { unfold r2. rewrite E1. cbn [fst snd].
    unfold PlayerPhysicsManager.playerExitVehicle. fold entityId.
    cbn [PlayerPhysicsManager.players PlayerPhysicsManager.playerInputs
         PlayerPhysicsManager.inputHistory].
    rewrite get_set_eq.
    cbn [PlayerPhysicsManager.vehicleId PlayerPhysicsManager.withVehicleId].
    rewrite Hh1. reflexivity. }
  rewrite E1, E2. cbn [fst snd PlayerPhysicsManager.players].
  split; [reflexivity|]. split; [apply get_set_eq|].
  split; [exact Hb1|]. split; [reflexivity|].
  split; [rewrite get_set_eq; reflexivity|].
  split; [|split].
  - eexists. split.
    + rewrite body_setVelocity, body_setPosition, Hb2.
      rewrite bodies_setPosition, Hh2. cbn [option_map fst snd].
      rewrite !eqb_refl. reflexivity.
    + repeat split.
  - unfold PlayerPhysicsManager.playerExitVehicle. fold entityId.
    cbn [PlayerPhysicsManager.players]. rewrite get_set_eq.
    reflexivity.
  - intros Hv. unfold PlayerPhysicsManager.playerExitVehicle.
    fold entityId. now rewrite Hp, Hv.
Qed.

Lemma player_leaves_vehicle_standing_witness :
  exists b2,
    PhysicsWorld.body
      (snd (snd (PlayerPhysicsManager.playerExitVehicle Scenario.env0 "a"
                   (mkVec3 3 0 0)
                   (fst (snd (PlayerPhysicsManager.playerEnterVehicle
                                "a" "vehicle_1" Scenario.pm_a Scenario.pw_a)))
                   (snd (snd (PlayerPhysicsManager.playerEnterVehicle
                                "a" "vehicle_1" Scenario.pm_a
                                Scenario.pw_a))))))
      "player_a"
    = Some (0%nat, b2)
    /\ RAPIER.enabled b2 = true
    /\ RAPIER.linvel b2 = vec0.
Proof.
  destruct (@player_leaves_vehicle_standing Scenario.env0 "a" "vehicle_1"
              (mkVec3 3 0 0) Scenario.pm_a Scenario.pw_a Scenario.player_a
              _ _ eq_refl eq_refl)
    as (_ & _ & _ & _ & _ & (b2 & H1 & H2 & _ & H4 & _) & _).
  exists b2. split; [exact H1|]. split; assumption.
Defined.


(** ** The driver leaves through the server *)

Section ExitFacts.
Variable env : Env.

Lemma body_setEntityDriver id d pw e :
  PhysicsWorld.body (VehiclePhysicsManager.setEntityDriver id d pw) e
  = PhysicsWorld.body pw e.
Proof.
  unfold VehiclePhysicsManager.setEntityDriver.
  destruct (JsMap.get id (PhysicsWorld.entityData pw)) as [[]|];
    reflexivity.
Qed.

(** [playerExitVehicle] for a player who sits in a vehicle and has a
    body: the place where the player is put, and the world. *)
Lemma playerExitVehicle_seated clientId exitPosition pm pw p seat h b :
  PlayerPhysicsManager.getPlayer clientId pm = Some p ->
  PlayerPhysicsManager.vehicleId p = Some seat ->
  PhysicsWorld.body pw (PlayerPhysicsManager.playerEntityId clientId)
  = Some (h, b) ->
  let entityId := PlayerPhysicsManager.playerEntityId clientId in
  let standing :=
    mkVec3 (vx exitPosition)
           (Rmax (vy exitPosition)
                 (TerrainPhysicsManager.getHeightAt env (vx exitPosition)
                                                    (vz exitPosition)
                  + CONFIG.playerHeight / 2 + 1 / 10))
           (vz exitPosition) in
  exists pw',
    PlayerPhysicsManager.playerExitVehicle env clientId exitPosition pm pw
    = (true,
       ({| PlayerPhysicsManager.players :=
             JsMap.set entityId (PlayerPhysicsManager.withVehicleId None p)
                       (PlayerPhysicsManager.players pm);
           PlayerPhysicsManager.playerInputs :=
             PlayerPhysicsManager.playerInputs pm;
           PlayerPhysicsManager.inputHistory :=
             PlayerPhysicsManager.inputHistory pm |}, pw'))
    /\ PhysicsWorld.body pw' entityId
       = Some (h, RAPIER.setLinvel vec0
                    (RAPIER.setTranslation standing
                       (RAPIER.setEnabled true b))).
Proof.
  intros Hp Hv Hb entityId standing.
  unfold PlayerPhysicsManager.getPlayer in Hp. fold entityId in Hp, Hb.
  destruct (body_parts _ _ Hb) as [Hh Hg].
  unfold PlayerPhysicsManager.playerExitVehicle. fold entityId.
  rewrite Hp, Hv, Hh. cbv zeta. fold standing.
  eexists. split; [reflexivity|].
  pose proof (@body_updateBody pw entityId h b (RAPIER.setEnabled true) Hb)
    as Hb1.
  rewrite body_setVelocity, body_setPosition, Hb1.
  rewrite bodies_setPosition. cbn [PhysicsWorld.bodies PhysicsWorld.withWorld].
  rewrite Hh. cbn [option_map fst snd]. rewrite !eqb_refl. reflexivity.
Qed.
End ExitFacts.


(** X30.  When the driver asks to leave, [handleVehicleExit] frees the
    vehicle and puts the player three units beside it along x, at the
    height of the vehicle or, where the terrain is higher, a tenth above
    standing height, at rest and with the body switched on again; the
    player is no longer recorded in a vehicle, and every client with an
    open socket, the sender included, is told the vehicle, the player
    and that place.  A request from a client who drives no vehicle
    changes nothing. *)
Theorem handleVehicleExit_puts_driver_beside_vehicle :
  forall (env : Env) (ws : nat) (s : PhysicsServer.t)
         (c : PhysicsServer.ClientData),
    JsMap.get ws (PhysicsServer.clients s) = Some c ->
    serverMaps s ->
    let cid := PhysicsServer.clientId c in
    let s' := PhysicsServer.handleVehicleExit env ws s in
    (VehiclePhysicsManager.getVehicleByDriver cid
       (PhysicsServer.vehicleManager s) = None ->
     s' = s)
    /\ (forall (vid : string) (vs : VehiclePhysicsManager.VehicleState)
               (p : PlayerPhysicsManager.Player) (seat : string) (h : nat)
               (b : RAPIER.RigidBody),
           VehiclePhysicsManager.getVehicleByDriver cid
             (PhysicsServer.vehicleManager s) = Some vid ->
           VehiclePhysicsManager.getVehicleState vid
             (PhysicsServer.vehicleManager s, PhysicsServer.physicsWorld s)
           = Some vs ->
           PlayerPhysicsManager.getPlayer cid (PhysicsServer.playerManager s)
           = Some p ->
           PlayerPhysicsManager.vehicleId p = Some seat ->
           PhysicsWorld.body (PhysicsServer.physicsWorld s)
             (PlayerPhysicsManager.playerEntityId cid) = Some (h, b) ->
           let at_ := PhysicsWorld.es_position
                        (VehiclePhysicsManager.vs_state vs) in
           let place :=
             mkVec3 (vx at_ + 3)
                    (Rmax (vy at_)
                          (TerrainPhysicsManager.getHeightAt env
                             (vx at_ + 3) (vz at_)
                           + CONFIG.playerHeight / 2 + 1 / 10))
                    (vz at_) in
           (exists v',
               JsMap.get vid
                 (VehiclePhysicsManager.vehicles
                    (PhysicsServer.vehicleManager s')) = Some v'
               /\ VehiclePhysicsManager.driverId v' = None
               /\ VehiclePhysicsManager.engineRunning v' = false)
           /\ PlayerPhysicsManager.getPlayer cid
                (PhysicsServer.playerManager s')
              = Some (PlayerPhysicsManager.withVehicleId None p)
           /\ (exists b',
                  PhysicsWorld.body (PhysicsServer.physicsWorld s')
                    (PlayerPhysicsManager.playerEntityId cid) = Some (h, b')
                  /\ RAPIER.enabled b' = true
                  /\ RAPIER.translation b' = place
                  /\ RAPIER.linvel b' = vec0)
           /\ PhysicsServer.clients s' = PhysicsServer.clients s
           /\ PhysicsServer.sent s'
              = PhysicsServer.sent s
                ++ flat_map
                     (fun e : nat * PhysicsServer.ClientData =>
                        if openIn (PhysicsServer.clients s) (fst e)
                        then [(fst e,
                               PhysicsServer.VEHICLE_EXIT vid cid place)]
                        else [])
                     (PhysicsServer.clients s)).
Proof.
  intros env ws s c Hc (Hcl & Hpl & Hve & Hbo & Hids) cid s'.
  split.
  - intros Hn. unfold s', PhysicsServer.handleVehicleExit.
    rewrite Hc. unfold PhysicsServer.drivenBy. fold cid. now rewrite Hn.
  - intros vid vs p seat h b Hd Hvs Hp Hv Hb at_ place.
    destruct (getVehicleByDriver_some _ _ Hd) as (v & Hin & Hdv).
    assert (Ht : PhysicsServer.truthy vid = true).
    { unfold PhysicsServer.truthy. apply negb_true_iff.
      apply eqb_neq. exact (Hids _ _ Hin). }
    pose proof (get_NoDup_in _ _ _ Hve Hin) as Hg.
    set (pw1 := VehiclePhysicsManager.setEntityDriver vid None
                  (PhysicsServer.physicsWorld s)).
    assert (Hb1 : PhysicsWorld.body pw1
                    (PlayerPhysicsManager.playerEntityId cid) = Some (h, b)).
    { unfold pw1. now rewrite body_setEntityDriver. }
    destruct (@playerExitVehicle_seated env cid
                (mkVec3 (vx at_ + 3) (vy at_) (vz at_))
                (PhysicsServer.playerManager s) pw1 p seat h b Hp Hv Hb1)
      as (pw' & E & Hb').
    cbn [vx vy vz] in E, Hb'. fold place in Hb'.
    assert (Hplace : PhysicsServer.exitPositionAfter env cid
                       (mkVec3 (vx at_ + 3) (vy at_) (vz at_))
                       (PhysicsServer.playerManager s) pw1 = place).
    { unfold PhysicsServer.exitPositionAfter.
      unfold PlayerPhysicsManager.getPlayer in Hp. rewrite Hp, Hv.
      destruct (body_parts _ _ Hb1) as [Hh _]. rewrite Hh.
      reflexivity. }
    assert (Es : s' = PhysicsServer.broadcast
                        (PhysicsServer.VEHICLE_EXIT vid cid place) None
                        (PhysicsServer.withManagers pw'
                           (PhysicsServer.terrainManager s)
                           {| VehiclePhysicsManager.vehicles :=
                                JsMap.set vid
                                  {| VehiclePhysicsManager.entityId :=
                                       VehiclePhysicsManager.entityId v;
                                     VehiclePhysicsManager.vehicleType :=
                                       VehiclePhysicsManager.vehicleType v;
                                     VehiclePhysicsManager.driverId := None;
                                     VehiclePhysicsManager.engineRunning :=
                                       false;
                                     VehiclePhysicsManager.health :=
                                       VehiclePhysicsManager.health v;
                                     VehiclePhysicsManager.fuel :=
                                       VehiclePhysicsManager.fuel v |}
                                  (VehiclePhysicsManager.vehicles
                                     (PhysicsServer.vehicleManager s));
                              VehiclePhysicsManager.vehicleInputs :=
                                JsMap.set vid
                                  (VehiclePhysicsManager.idleInput true)
                                  (VehiclePhysicsManager.vehicleInputs
                                     (PhysicsServer.vehicleManager s)) |}
                           {| PlayerPhysicsManager.players :=
                                JsMap.set
                                  (PlayerPhysicsManager.playerEntityId cid)
                                  (PlayerPhysicsManager.withVehicleId None p)
                                  (PlayerPhysicsManager.players
                                     (PhysicsServer.playerManager s));
                              PlayerPhysicsManager.playerInputs :=
                                PlayerPhysicsManager.playerInputs
                                  (PhysicsServer.playerManager s);
                              PlayerPhysicsManager.inputHistory :=
                                PlayerPhysicsManager.inputHistory
                                  (PhysicsServer.playerManager s) |}
                           s)).
    { unfold s', PhysicsServer.handleVehicleExit.
      rewrite Hc. unfold PhysicsServer.drivenBy. fold cid.
      rewrite Hd, Ht, Hvs. cbv zeta. fold at_.
      unfold VehiclePhysicsManager.exitVehicle.
      rewrite Hg, Hdv, eqb_refl. fold pw1.
      rewrite E, Hplace. reflexivity. }
    set (s0 := PhysicsServer.withManagers _ _ _ _ s) in Es.
    assert (F : core (PhysicsServer.broadcast
                        (PhysicsServer.VEHICLE_EXIT vid cid place) None s0)
                = core s0
                /\ PhysicsServer.clients
                     (PhysicsServer.broadcast
                        (PhysicsServer.VEHICLE_EXIT vid cid place) None s0)
                   = PhysicsServer.clients s0
                /\ PhysicsServer.sent
                     (PhysicsServer.broadcast
                        (PhysicsServer.VEHICLE_EXIT vid cid place) None s0)
                   = PhysicsServer.sent s0
                     ++ flat_map
                          (fun e : nat * PhysicsServer.ClientData =>
                             if negb (eqb (Some (fst e)) None)
                                && openIn (PhysicsServer.clients s0) (fst e)
                             then [(fst e,
                                    PhysicsServer.VEHICLE_EXIT vid cid place)]
                             else [])
                          (PhysicsServer.clients s0)).
    { exact (fold_send (fun e : nat * PhysicsServer.ClientData => fst e)
               (fun e => negb (eqb (Some (fst e)) None))
               (fun _ _ => PhysicsServer.VEHICLE_EXIT vid cid place)
               (fun _ _ _ _ => eq_refl) (PhysicsServer.clients s0) s0). }
    rewrite <- Es in F. destruct F as (F1 & F2 & F3).
    destruct (core_playerManager F1) as (Gpw & _ & Gvm & Gpm & _).
    rewrite Gpw, Gvm, Gpm, F2, F3.
    unfold s0.
    cbn [PhysicsServer.withManagers PhysicsServer.physicsWorld
         PhysicsServer.vehicleManager PhysicsServer.playerManager
         PhysicsServer.clients PhysicsServer.sent
         VehiclePhysicsManager.vehicles PlayerPhysicsManager.players].
    split; [|split; [|split; [|split]]].
    + eexists. split; [apply get_set_eq|]. split; reflexivity.
    + unfold PlayerPhysicsManager.getPlayer.
      cbn [PlayerPhysicsManager.players]. apply get_set_eq.
    + eexists. split; [exact Hb'|]. repeat split.
    + reflexivity.
    + reflexivity.
Qed.

Lemma handleVehicleExit_puts_driver_beside_vehicle_witness :
  let st :=
    snd (VehiclePhysicsManager.enterVehicle "vehicle_1" "a"
           (snd (VehiclePhysicsManager.spawnVehicle "vehicle_1" "car"
                   (mkVec3 5 0 0) 0
                   (VehiclePhysicsManager.init, Scenario.pw_a)))) in
  let s :=
    {| PhysicsServer.physicsWorld := snd st;
       PhysicsServer.terrainManager := TerrainPhysicsManager.init;
       PhysicsServer.vehicleManager := fst st;
       PhysicsServer.playerManager := Scenario.pm_driving;
       PhysicsServer.clients :=
         [(0%nat, Scenario.client_a PhysicsServer.OPEN)];
       PhysicsServer.tickNumber := 0;
       PhysicsServer.lastTickTime := 0;
       PhysicsServer.sent := [] |} in
  VehiclePhysicsManager.getVehicleByDriver "a" (PhysicsServer.vehicleManager s)
  = Some "vehicle_1"
  /\ PlayerPhysicsManager.getPlayer "a"
       (PhysicsServer.playerManager
          (PhysicsServer.handleVehicleExit Scenario.env0 0 s))
     = Some (PlayerPhysicsManager.withVehicleId None Scenario.player_a)
  /\ VehiclePhysicsManager.getVehicleByDriver "a"
       (PhysicsServer.vehicleManager
          (PhysicsServer.handleVehicleExit Scenario.env0 0 s))
     = None.
Proof.
  intros st s.
  assert (Hmaps : serverMaps s).
  { unfold serverMaps. cbn.
    repeat split; try (constructor; [simpl; tauto|constructor]);
      try constructor.
    - simpl. intros [E|[]]. discriminate E.
    - constructor; [simpl; tauto|constructor].
    - intros id v [[= <- <-]|[]]. discriminate. }
  destruct (@handleVehicleExit_puts_driver_beside_vehicle Scenario.env0 0%nat
              s (Scenario.client_a PhysicsServer.OPEN) eq_refl Hmaps)
    as [_ H].
  destruct (H "vehicle_1" _ _ "vehicle_1" _ _
              eq_refl eq_refl eq_refl eq_refl eq_refl)
    as ((v' & Hv1 & Hv2 & _) & Hp & _).
  split; [reflexivity|]. split; [exact Hp|].
  apply getVehicleByDriver_none. intros id v Hin Hd.
  assert (Hk : In id (JsMap.keys
                        (VehiclePhysicsManager.vehicles
                           (PhysicsServer.vehicleManager
                              (PhysicsServer.handleVehicleExit
                                 Scenario.env0 0 s))))).
  { unfold JsMap.keys. change id with (fst (id, v)). now apply in_map. }
  destruct (JsMap.get "vehicle_1"
              (VehiclePhysicsManager.vehicles
                 (PhysicsServer.vehicleManager
                    (PhysicsServer.handleVehicleExit Scenario.env0 0 s))))
    eqn:Hg; [|discriminate].
  injection Hv1 as ->.
  cbn in Hin. destruct Hin as [[= <- <-]|[]].
  cbn in Hg. injection Hg as <-. cbn in Hd. discriminate.
Defined.

(* ================================================================== *)
(** * Part IV. The server as a whole: the tick and the vehicle requests *)
(* ================================================================== *)

(** ** The world stays initialised *)

Section InitializedFacts.
Variable env : Env.

Lemma initialized_if (c : bool) (a b : PhysicsWorld.t) :
  PhysicsWorld.initialized (if c then a else b)
  = if c then PhysicsWorld.initialized a else PhysicsWorld.initialized b.
Proof. now destruct c. Qed.

Lemma initialized_removeEntity id pw :
  PhysicsWorld.initialized (PhysicsWorld.removeEntity id pw)
  = PhysicsWorld.initialized pw.
Proof.
  unfold PhysicsWorld.removeEntity.
  destruct (JsMap.get id (PhysicsWorld.bodies pw));
    cbv zeta;
    match goal with
    | |- context [JsMap.get id (PhysicsWorld.colliders ?p)] =>
        destruct (JsMap.get id (PhysicsWorld.colliders p))
    end; reflexivity.
Qed.

Lemma initialized_setVelocity id v pw :
  PhysicsWorld.initialized (PhysicsWorld.setVelocity id v pw)
  = PhysicsWorld.initialized pw.
Proof.
  unfold PhysicsWorld.setVelocity.
  now destruct (JsMap.get id (PhysicsWorld.bodies pw)).
Qed.

Lemma initialized_setPosition id p pw :
  PhysicsWorld.initialized (PhysicsWorld.setPosition id p pw)
  = PhysicsWorld.initialized pw.
Proof.
  unfold PhysicsWorld.setPosition.
  now destruct (JsMap.get id (PhysicsWorld.bodies pw)).
Qed.

Lemma initialized_updatePlayerGrounded id pw :
  PhysicsWorld.initialized (PhysicsWorld.updatePlayerGrounded env id pw)
  = PhysicsWorld.initialized pw.
Proof.
  unfold PhysicsWorld.updatePlayerGrounded.
  destruct (PhysicsWorld.body pw id) as [[h b]|]; [|reflexivity].
  destruct (JsMap.get id (PhysicsWorld.entityData pw)) as [[]|];
    reflexivity.
Qed.

Lemma initialized_loadChunk x z st :
  PhysicsWorld.initialized (snd (TerrainPhysicsManager.loadChunk env x z st))
  = PhysicsWorld.initialized (snd st).
Proof.
  destruct st as [tm pw]. unfold TerrainPhysicsManager.loadChunk.
  destruct (JsMap.has (x, z) (TerrainPhysicsManager.loadedChunks tm));
    [reflexivity|].
  match goal with
  | |- context [fold_left ?f ?l ?a] =>
      assert (Hf : PhysicsWorld.initialized (snd (fold_left f l a))
                   = PhysicsWorld.initialized (snd a));
      [|destruct (fold_left f l a) as [ids pw2]]
  end.
  { match goal with
    | |- context [fold_left ?f ?l ?a] => generalize a; generalize l
    end.
    induction l as [|[i b] l IH]; intros [ids p]; cbn [fold_left];
      [reflexivity|].
    rewrite IH. reflexivity. }
  cbn [snd] in *. rewrite Hf.
  unfold PhysicsWorld.createTerrainChunk.
  now destruct (JsMap.has (x, z) (PhysicsWorld.terrainChunks pw)).
Qed.

Lemma initialized_unloadChunk x z st :
  PhysicsWorld.initialized (snd (TerrainPhysicsManager.unloadChunk x z st))
  = PhysicsWorld.initialized (snd st).
Proof.
  destruct st as [tm pw]. unfold TerrainPhysicsManager.unloadChunk.
  destruct (JsMap.get (x, z) (TerrainPhysicsManager.loadedChunks tm));
    [|reflexivity].
  cbn [snd].
  match goal with
  | |- context [fold_left ?f ?l ?a] =>
      assert (Hf : PhysicsWorld.initialized (fold_left f l a)
                   = PhysicsWorld.initialized a)
  end.
  { match goal with
    | |- context [fold_left ?f ?l ?a] => generalize a; generalize l
    end.
    induction l as [|id l IH]; intros p; cbn [fold_left]; [reflexivity|].
    rewrite IH. apply initialized_removeEntity. }
  rewrite Hf. unfold PhysicsWorld.removeTerrainChunk.
  now destruct (JsMap.get (x, z) (PhysicsWorld.terrainChunks pw)).
Qed.

Lemma initialized_updateForPlayers ps st :
  PhysicsWorld.initialized
    (snd (TerrainPhysicsManager.updateForPlayers env ps st))
  = PhysicsWorld.initialized (snd st).
Proof.
  unfold TerrainPhysicsManager.updateForPlayers.
  apply (@updateForRequired_preserves env
           (fun st' => PhysicsWorld.initialized (snd st')
                       = PhysicsWorld.initialized (snd st)));
    try reflexivity.
  - intros x z st' H. now rewrite initialized_loadChunk.
  - intros x z st' H. now rewrite initialized_unloadChunk.
  - intros q st' H. exact H.
  - intros q st' H. exact H.
Qed.

Lemma initialized_updatePlayerMovement entityId player input deltaTime pw :
  PhysicsWorld.initialized
    (snd (PlayerPhysicsManager.updatePlayerMovement env entityId player input
            deltaTime pw))
  = PhysicsWorld.initialized pw.
Proof.
  unfold PlayerPhysicsManager.updatePlayerMovement.
  destruct (PhysicsWorld.body pw entityId) as [[h b]|]; [|reflexivity].
  destruct (JsMap.get entityId (PhysicsWorld.entityData pw));
    [|reflexivity].
  cbv zeta. cbn [snd].
  rewrite initialized_if, !initialized_setVelocity, initialized_setPosition,
    !initialized_setVelocity, initialized_updatePlayerGrounded.
  match goal with
  | |- (if ?c then _ else _) = _ => now destruct c
  end.
Qed.

Lemma initialized_update_loop inputs deltaTime :
  forall entries pw,
    PhysicsWorld.initialized
      (snd (PlayerPhysicsManager.update_loop env inputs deltaTime entries pw))
    = PhysicsWorld.initialized pw.
Proof.
  induction entries as [|[e0 p0] rest IH]; intros pw;
    cbn [PlayerPhysicsManager.update_loop]; [reflexivity|].
  destruct (match PlayerPhysicsManager.vehicleId p0 with
            | Some _ => (p0, pw)
            | None =>
                match JsMap.get e0 inputs with
                | Some input =>
                    PlayerPhysicsManager.updatePlayerMovement env e0 p0 input
                      deltaTime pw
                | None => (p0, pw)
                end
            end) as [p' pw'] eqn:E.
  assert (Hi : PhysicsWorld.initialized pw' = PhysicsWorld.initialized pw).
  { destruct (PlayerPhysicsManager.vehicleId p0); [now inversion E|].
    destruct (JsMap.get e0 inputs) as [i|]; [|now inversion E].
    pose proof (initialized_updatePlayerMovement e0 p0 i deltaTime pw) as F.
    rewrite E in F. exact F. }
  specialize (IH pw').
  destruct (PlayerPhysicsManager.update_loop env inputs deltaTime rest pw')
    as [rest' pw''].
  cbn [snd] in *. congruence.
Qed.

Lemma initialized_updateVehicle entityId vehicle input deltaTime pw :
  PhysicsWorld.initialized
    (VehiclePhysicsManager.updateVehicle env entityId vehicle input deltaTime
                                         pw)
  = PhysicsWorld.initialized pw.
Proof.
  unfold VehiclePhysicsManager.updateVehicle.
  destruct (negb _); [reflexivity|].
  destruct (PhysicsWorld.body pw entityId) as [[h b]|]; [|reflexivity].
  cbv zeta.
  match goal with
  | |- context [if ?c then pw else _] => destruct c; [reflexivity|]
  end.
  destruct (forceModel env _ _ _ _ _ _) as [b' ws'].
  destruct (JsMap.get entityId (PhysicsWorld.entityData pw)) as [[]|];
    reflexivity.
Qed.

Lemma initialized_vehicles deltaTime st :
  PhysicsWorld.initialized
    (snd (VehiclePhysicsManager.update env deltaTime st))
  = PhysicsWorld.initialized (snd st).
Proof.
  destruct st as [vm pw]. unfold VehiclePhysicsManager.update. cbn [snd].
  apply (fold_left_inv
           (fun p => PhysicsWorld.initialized p
                     = PhysicsWorld.initialized pw)); [|reflexivity].
  intros p e Hp.
  destruct (JsMap.get (fst e) (VehiclePhysicsManager.vehicleInputs vm));
    [|exact Hp].
  now rewrite initialized_updateVehicle.
Qed.

(** The world that the physics step of a tick finds is initialised if
    the world at the head of the tick is. *)
Lemma beforeStep_initialized now s :
  PhysicsWorld.initialized
    (PhysicsServer.physicsWorld (beforeStep env now s))
  = PhysicsWorld.initialized (PhysicsServer.physicsWorld s).
Proof.
  unfold beforeStep. cbv zeta.
  set (dt := (now - PhysicsServer.lastTickTime s) / 1000).
  set (s0 := snd (PhysicsServer.advanceClock now s)).
  set (s1 := PhysicsServer.streamChunks env _ s0).
  set (s2 := PhysicsServer.updatePlayers env dt s1).
  assert (H1 : PhysicsWorld.initialized (PhysicsServer.physicsWorld s1)
               = PhysicsWorld.initialized (PhysicsServer.physicsWorld s)).
  { unfold s1, PhysicsServer.streamChunks.
    pose proof (initialized_updateForPlayers
                  (PhysicsServer.gatherPositions s0)
                  (PhysicsServer.terrainManager s0,
                   PhysicsServer.physicsWorld s0)) as H.
    destruct (TerrainPhysicsManager.updateForPlayers env _ _) as [tm pw].
    exact H. }
  assert (H2 : PhysicsWorld.initialized (PhysicsServer.physicsWorld s2)
               = PhysicsWorld.initialized (PhysicsServer.physicsWorld s1)).
  { unfold s2, PhysicsServer.updatePlayers, PlayerPhysicsManager.update.
    pose proof (initialized_update_loop
                  (PlayerPhysicsManager.playerInputs
                     (PhysicsServer.playerManager s1)) dt
                  (PlayerPhysicsManager.players
                     (PhysicsServer.playerManager s1))
                  (PhysicsServer.physicsWorld s1)) as H.
    destruct (PlayerPhysicsManager.update_loop env _ dt _ _) as [ps pw].
    exact H. }
  unfold PhysicsServer.updateVehicles.
  pose proof (initialized_vehicles dt
                (PhysicsServer.vehicleManager s2,
                 PhysicsServer.physicsWorld s2)) as H3.
  destruct (VehiclePhysicsManager.update env dt _) as [vm pw].
  cbn [snd PhysicsServer.withManagers PhysicsServer.physicsWorld] in *.
  congruence.
Qed.
End InitializedFacts.

(** ** The tick *)

(** C4.  The tick does not reach its last two phases.  On the world
    that [start] has initialised, a tick advances the clock, (1) gathers
    the positions of the players on foot, (2) advances chunk streaming
    against them, updates (3) the players and (4) the vehicles, and (5)
    enters the physics step; the step moves the bodies and then throws,
    and the exception leaves the tick.  The tick ends there, in the
    state the step has left: (6) no chunk request is served, every
    client's queue is as it was, and (7) no snapshot, nothing at all,
    is sent. *)
Theorem C4_tick_aborts_in_step :
  forall (env : Env) (now now' : R) (s : PhysicsServer.t),
    PhysicsWorld.initialized (PhysicsServer.physicsWorld s) = true ->
    let deltaTime := (now - PhysicsServer.lastTickTime s) / 1000 in
    let s0 := snd (PhysicsServer.advanceClock now s) in
    let positions := PhysicsServer.gatherPositions s0 in
    let s1 := PhysicsServer.streamChunks env positions s0 in
    let s2 := PhysicsServer.updatePlayers env deltaTime s1 in
    let s3 := PhysicsServer.updateVehicles env deltaTime s2 in
    positions
    = PlayerPhysicsManager.getPlayerPositions
        (PhysicsServer.playerManager s) (PhysicsServer.physicsWorld s)
    /\ exists s4,
         PhysicsServer.stepPhysics env deltaTime s3 = TypeError s4
         /\ PhysicsServer.tick env now now' s = TypeError s4
         /\ PhysicsServer.tickNumber s4 = (PhysicsServer.tickNumber s + 1)%Z
         /\ PhysicsServer.playerManager s4 = PhysicsServer.playerManager s2
         /\ PhysicsServer.vehicleManager s4 = PhysicsServer.vehicleManager s3
         /\ PhysicsServer.terrainManager s4 = PhysicsServer.terrainManager s1
         /\ PhysicsServer.clients s4 = PhysicsServer.clients s
         /\ PhysicsServer.sent s4 = PhysicsServer.sent s.
Proof.
  intros env now now' s Hi deltaTime s0 positions s1 s2 s3.
  split; [reflexivity|].
  assert (Hi3 : PhysicsWorld.initialized (PhysicsServer.physicsWorld s3)
                = true).
  { pose proof (beforeStep_initialized env now s) as H.
    unfold beforeStep in H. cbv zeta in H.
    fold deltaTime s0 in H. fold positions in H. fold s1 in H.
    fold s2 in H. fold s3 in H. congruence. }
  exists (leftIn (PhysicsServer.stepPhysics env deltaTime s3)).
  pose proof (stepPhysics_throws env deltaTime s3 Hi3) as Ht.
  split; [exact Ht|].
  split.
  { rewrite tick_phases. unfold beforeStep. cbv zeta.
    fold deltaTime s0. fold positions. fold s1. fold s2. fold s3.
    rewrite Ht. reflexivity. }
  destruct (stepPhysics_frame env deltaTime s3)
    as (A1 & A2 & A3 & A4 & A5 & A6 & A7).
  destruct (updateVehicles_frame env deltaTime s2)
    as (B1 & B2 & B3 & B4 & B5 & B6 & B7).
  destruct (updatePlayers_frame env deltaTime s1)
    as (C1 & C2 & _ & _ & D4 & D5 & D6 & D7).
  destruct (streamChunks_frame env positions s0)
    as (E1 & E2 & _ & _ & E6 & E7).
  fold s1 in E1, E2, E6, E7.
  fold s2 in C1, C2, D4, D5, D6, D7, B1, B2, B3, B4, B5, B6, B7.
  fold s3 in A1, A2, A3, A4, A5, A6, A7, B1, B2, B3, B4, B5, B6, B7.
  assert (F1 : PhysicsServer.clients s0 = PhysicsServer.clients s)
    by reflexivity.
  assert (F2 : PhysicsServer.sent s0 = PhysicsServer.sent s) by reflexivity.
  assert (F3 : PhysicsServer.tickNumber s0
               = (PhysicsServer.tickNumber s + 1)%Z) by reflexivity.
  repeat split; congruence.
Qed.

Lemma C4_witness :
  exists s4,
    PhysicsServer.tick Scenario.env0 1 2
      (Scenario.server Scenario.pm_a PhysicsServer.OPEN)
    = TypeError s4
    /\ PhysicsServer.tickNumber s4 = 1%Z
    /\ PhysicsServer.sent s4 = [].
Proof.
  destruct (@C4_tick_aborts_in_step Scenario.env0 1 2
              (Scenario.server Scenario.pm_a PhysicsServer.OPEN) eq_refl)
    as (_ & s4 & _ & Ht & Hn & _ & _ & _ & _ & Hs).
  exists s4. split; [exact Ht|]. split; [exact Hn|exact Hs].
Defined.


(** ** Two requests for one vehicle *)

Section EnterFacts.
Import PhysicsServer.

(** The handler, read through [enterTarget]. *)
Lemma handleVehicleEnter_target ws s :
  handleVehicleEnter ws s
  = match JsMap.get ws (clients s), enterTarget ws s with
    | Some clientData, Some nearest =>
        if VehiclePhysicsManager.n_occupied nearest then s
        else
          match VehiclePhysicsManager.enterVehicle
                  (VehiclePhysicsManager.n_entityId nearest)
                  (clientId clientData)
                  (vehicleManager s, physicsWorld s) with
          | (false, _) => s
          | (true, (vm, pw)) =>
              let '(_, (pm, pw')) :=
                PlayerPhysicsManager.playerEnterVehicle
                  (clientId clientData)
                  (VehiclePhysicsManager.n_entityId nearest)
                  (playerManager s) pw in
              broadcast
                (VEHICLE_ENTER (VehiclePhysicsManager.n_entityId nearest)
                               (clientId clientData))
                None
                (withManagers pw' (terrainManager s) vm pm s)
          end
    | _, _ => s
    end.
Proof.
  unfold handleVehicleEnter, enterTarget.
  destruct (JsMap.get ws (clients s)) as [c|]; [|reflexivity].
  destruct (PlayerPhysicsManager.getPlayerState _ _ _) as [ps|];
    [|reflexivity].
  destruct (PlayerPhysicsManager.ps_inVehicle ps); [reflexivity|].
  destruct (PlayerPhysicsManager.ps_kinematics ps) as [k|]; [|reflexivity].
  destruct (VehiclePhysicsManager.findNearestVehicle _ _ _) as [n|];
    reflexivity.
Qed.

(** The vehicle reported as nearest is one of the manager's vehicles,
    and [occupied] says whether it has a driver. *)
Lemma findNearestVehicle_some position maxDistance vm pw n :
  VehiclePhysicsManager.findNearestVehicle position maxDistance (vm, pw)
  = Some n ->
  exists v,
    In (VehiclePhysicsManager.n_entityId n, v)
       (VehiclePhysicsManager.vehicles vm)
    /\ VehiclePhysicsManager.n_occupied n = occupiedFlag v.
Proof.
  rewrite findNearestVehicle_fold.
  pose proof (@nearest_fold position maxDistance pw
                (VehiclePhysicsManager.vehicles vm) [] (None, maxDistance))
    as H.
  cbn [app] in H.
  destruct (fold_left _ (VehiclePhysicsManager.vehicles vm)
                      (None, maxDistance)) as [nearest nd].
  destruct H as [Hn _].
  { split; cbn [fst snd]; [reflexivity|]. intros e v d []. }
  cbn [fst snd] in *. intros ->.
  destruct Hn as (_ & _ & _ & v & Hin & _ & Hocc). eauto.
Qed.

(** Where an entity is does not depend on who drives what, nor on
    which bodies are switched on. *)
Lemma position_setEntityDriver id d pw e :
  option_map PhysicsWorld.es_position
    (PhysicsWorld.getEntityState e
       (VehiclePhysicsManager.setEntityDriver id d pw))
  = option_map PhysicsWorld.es_position (PhysicsWorld.getEntityState e pw).
Proof.
  unfold PhysicsWorld.getEntityState. rewrite body_setEntityDriver.
  destruct (PhysicsWorld.body pw e) as [[h b]|]; [|reflexivity].
  unfold VehiclePhysicsManager.setEntityDriver.
  destruct (JsMap.get id (PhysicsWorld.entityData pw)) as [[]|] eqn:E;
    try reflexivity.
  cbn [PhysicsWorld.withEntityData PhysicsWorld.entityData].
  destruct (eq_dec e id) as [->|Hne].
  - rewrite get_set_eq, E. reflexivity.
  - rewrite get_set_ne by congruence. reflexivity.
Qed.

Lemma position_setEnabled h x pw e :
  option_map PhysicsWorld.es_position
    (PhysicsWorld.getEntityState e
       (PhysicsWorld.withWorld
          (RAPIER.updateBody h (RAPIER.setEnabled x) (PhysicsWorld.world pw))
          pw))
  = option_map PhysicsWorld.es_position (PhysicsWorld.getEntityState e pw).
Proof.
  unfold PhysicsWorld.getEntityState, PhysicsWorld.body,
    PhysicsWorld.withWorld.
  cbn [PhysicsWorld.bodies PhysicsWorld.world PhysicsWorld.entityData].
  destruct (JsMap.get e (PhysicsWorld.bodies pw)) as [h'|]; [|reflexivity].
  rewrite get_updateBody.
  destruct (JsMap.get h' (RAPIER.rigidBodies (PhysicsWorld.world pw)))
    as [b|]; [|reflexivity].
  cbn [option_map].
  destruct (JsMap.get e (PhysicsWorld.entityData pw)); [|reflexivity].
  destruct (eqb h' h); reflexivity.
Qed.

Lemma position_playerEnterVehicle cid vid pm pw e :
  option_map PhysicsWorld.es_position
    (PhysicsWorld.getEntityState e
       (snd (snd (PlayerPhysicsManager.playerEnterVehicle cid vid pm pw))))
  = option_map PhysicsWorld.es_position (PhysicsWorld.getEntityState e pw).
Proof.
  unfold PlayerPhysicsManager.playerEnterVehicle.
  destruct (JsMap.get _ (PlayerPhysicsManager.players pm)); [|reflexivity].
  cbn [snd].
  destruct (JsMap.get _ (PhysicsWorld.bodies pw)); [|reflexivity].
  apply position_setEnabled.
Qed.

Lemma vehicleDistance_congr position pw pw' e :
  option_map PhysicsWorld.es_position (PhysicsWorld.getEntityState e pw')
  = option_map PhysicsWorld.es_position (PhysicsWorld.getEntityState e pw) ->
  vehicleDistance position pw' e = vehicleDistance position pw e.
Proof.
  unfold vehicleDistance.
  destruct (PhysicsWorld.getEntityState e pw'),
    (PhysicsWorld.getEntityState e pw); cbn [option_map];
    intros H; try discriminate H; [|reflexivity].
  injection H as ->. reflexivity.
Qed.

Local Abbreviation nearer position pw :=
  (fun (acc : option VehiclePhysicsManager.Nearest * R)
       (e : string * VehiclePhysicsManager.Vehicle) =>
     let (nearest, nearestDist) := acc in
     match PhysicsWorld.getEntityState (fst e) pw with
     | None => acc
     | Some state =>
         let dx := vx (PhysicsWorld.es_position state) - vx position in
         let dy := vy (PhysicsWorld.es_position state) - vy position in
         let dz := vz (PhysicsWorld.es_position state) - vz position in
         let dist := sqrt (dx * dx + dy * dy + dz * dz) in
         if Rltb dist nearestDist then
           (Some {| VehiclePhysicsManager.n_entityId := fst e;
                    VehiclePhysicsManager.n_vehicleType :=
                      VehiclePhysicsManager.vehicleType (snd e);
                    VehiclePhysicsManager.n_distance := dist;
                    VehiclePhysicsManager.n_occupied :=
                      match VehiclePhysicsManager.driverId (snd e) with
                      | Some _ => true
                      | None => false
                      end |},
            dist)
         else acc
     end).

(** Which vehicle is nearest depends on the ids and the places of the
    vehicles only. *)
Lemma nearest_id_congr position pw pw' :
  (forall e, vehicleDistance position pw' e = vehicleDistance position pw e) ->
  forall l l',
    JsMap.keys l' = JsMap.keys l ->
    forall acc acc',
      option_map VehiclePhysicsManager.n_entityId (fst acc')
      = option_map VehiclePhysicsManager.n_entityId (fst acc) ->
      snd acc' = snd acc ->
      option_map VehiclePhysicsManager.n_entityId
        (fst (fold_left (nearer position pw') l' acc'))
      = option_map VehiclePhysicsManager.n_entityId
          (fst (fold_left (nearer position pw) l acc))
      /\ snd (fold_left (nearer position pw') l' acc')
         = snd (fold_left (nearer position pw) l acc).
Proof.
  intros Hd. induction l as [|[id v] l IH]; intros [|[id' v'] l'] Hk;
    try discriminate Hk; intros [n nd] [n' nd'] Hn Hnd; cbn [fold_left].
  - auto.
  - unfold JsMap.keys in Hk. cbn [map fst] in Hk.
    injection Hk as -> Hk. cbn [snd] in Hnd. subst nd'.
    apply IH; [exact Hk| |]; cbn [fst snd];
      pose proof (Hd id) as Hv; unfold vehicleDistance in Hv;
      destruct (PhysicsWorld.getEntityState id pw') as [st'|],
        (PhysicsWorld.getEntityState id pw) as [st|];
      cbn [option_map] in Hv; try discriminate Hv;
      try (injection Hv as Hv; cbv zeta; rewrite Hv;
           match goal with
           | |- context [Rltb ?a ?b] => destruct (Rltb a b)
           end);
      cbn [fst snd option_map VehiclePhysicsManager.n_entityId];
      try reflexivity; try exact Hn.
Qed.

Lemma findNearestVehicle_id_congr position maxDistance vm vm' pw pw' :
  (forall e, vehicleDistance position pw' e = vehicleDistance position pw e) ->
  JsMap.keys (VehiclePhysicsManager.vehicles vm')
  = JsMap.keys (VehiclePhysicsManager.vehicles vm) ->
  option_map VehiclePhysicsManager.n_entityId
    (VehiclePhysicsManager.findNearestVehicle position maxDistance (vm', pw'))
  = option_map VehiclePhysicsManager.n_entityId
      (VehiclePhysicsManager.findNearestVehicle position maxDistance (vm, pw)).
Proof.
  intros Hd Hk. unfold VehiclePhysicsManager.findNearestVehicle.
  apply (@nearest_id_congr position pw pw' Hd _ _ Hk
           (None, maxDistance) (None, maxDistance)); reflexivity.
Qed.
End EnterFacts.


Section TwoRequests.
Import PhysicsServer.

Lemma enterTarget_player ws s n :
  enterTarget ws s = Some n ->
  exists c p st,
    JsMap.get ws (clients s) = Some c
    /\ JsMap.get (PlayerPhysicsManager.playerEntityId (clientId c))
                 (PlayerPhysicsManager.players (playerManager s)) = Some p
    /\ PlayerPhysicsManager.vehicleId p = None
    /\ PhysicsWorld.getEntityState
         (PlayerPhysicsManager.playerEntityId (clientId c)) (physicsWorld s)
       = Some st
    /\ VehiclePhysicsManager.findNearestVehicle
         (PhysicsWorld.es_position st) 5 (vehicleManager s, physicsWorld s)
       = Some n.
Proof.
  unfold enterTarget, PlayerPhysicsManager.getPlayerState.
  destruct (JsMap.get ws (clients s)) as [c|]; [|discriminate].
  destruct (JsMap.get _ (PlayerPhysicsManager.players (playerManager s)))
    as [p|] eqn:Hp; [|discriminate].
  destruct (PlayerPhysicsManager.vehicleId p) eqn:Hv;
    [cbn [PlayerPhysicsManager.ps_inVehicle]; discriminate|].
  destruct (PhysicsWorld.getEntityState _ (physicsWorld s)) as [st|] eqn:Hs;
    [|discriminate].
  cbn [PlayerPhysicsManager.ps_inVehicle PlayerPhysicsManager.ps_kinematics
       PlayerPhysicsManager.k_state].
  intros H. exists c, p, st. repeat split; auto.
Qed.

Lemma enterTarget_on_foot ws s c p st :
  JsMap.get ws (clients s) = Some c ->
  JsMap.get (PlayerPhysicsManager.playerEntityId (clientId c))
            (PlayerPhysicsManager.players (playerManager s)) = Some p ->
  PlayerPhysicsManager.vehicleId p = None ->
  PhysicsWorld.getEntityState
    (PlayerPhysicsManager.playerEntityId (clientId c)) (physicsWorld s)
  = Some st ->
  enterTarget ws s
  = VehiclePhysicsManager.findNearestVehicle
      (PhysicsWorld.es_position st) 5 (vehicleManager s, physicsWorld s).
Proof.
  intros Hc Hp Hv Hs.
  unfold enterTarget, PlayerPhysicsManager.getPlayerState.
  rewrite Hc, Hp, Hv, Hs. reflexivity.
Qed.

(** The first of two requests for one free vehicle seats its player;
    the second then finds the vehicle occupied and changes nothing. *)
Lemma handleVehicleEnter_two_requests ws1 ws2 s c1 c2 n1 n2 :
  NoDup (JsMap.keys (VehiclePhysicsManager.vehicles (vehicleManager s))) ->
  JsMap.get ws1 (clients s) = Some c1 ->
  JsMap.get ws2 (clients s) = Some c2 ->
  clientId c1 <> clientId c2 ->
  enterTarget ws1 s = Some n1 ->
  enterTarget ws2 s = Some n2 ->
  VehiclePhysicsManager.n_entityId n2 = VehiclePhysicsManager.n_entityId n1 ->
  VehiclePhysicsManager.n_occupied n1 = false ->
  let vid := VehiclePhysicsManager.n_entityId n1 in
  let s1 := handleVehicleEnter ws1 s in
  (exists v',
      JsMap.get vid (VehiclePhysicsManager.vehicles (vehicleManager s1))
      = Some v'
      /\ VehiclePhysicsManager.driverId v' = Some (clientId c1))
  /\ (exists p',
         PlayerPhysicsManager.getPlayer (clientId c1) (playerManager s1)
         = Some p'
         /\ PlayerPhysicsManager.vehicleId p' = Some vid)
  /\ clients s1 = clients s
  /\ sent s1
     = sent s
       ++ flat_map
            (fun e : nat * ClientData =>
               if openIn (clients s) (fst e)
               then [(fst e, VEHICLE_ENTER vid (clientId c1))]
               else [])
            (clients s)
  /\ (exists n2',
         enterTarget ws2 s1 = Some n2'
         /\ VehiclePhysicsManager.n_entityId n2' = vid
         /\ VehiclePhysicsManager.n_occupied n2' = true)
  /\ handleVehicleEnter ws2 s1 = s1.
Proof.
  intros Hnd Hc1 Hc2 Hne Ht1 Ht2 Hsame Hfree vid s1.
  destruct (enterTarget_player _ _ Ht1)
    as (c1' & p1 & st1 & Hc1' & Hp1 & Hv1 & Hs1 & Hf1).
  rewrite Hc1 in Hc1'. injection Hc1' as <-.
  destruct (enterTarget_player _ _ Ht2)
    as (c2' & p2 & st2 & Hc2' & Hp2 & Hv2 & Hs2 & Hf2).
  rewrite Hc2 in Hc2'. injection Hc2' as <-.
  destruct (findNearestVehicle_some _ _ _ _ Hf1) as (v & Hin & Hocc).
  fold vid in Hin.
  pose proof (get_NoDup_in _ _ _ Hnd Hin) as Hg.
  assert (Hd : VehiclePhysicsManager.driverId v = None).
  { rewrite Hfree in Hocc. unfold occupiedFlag in Hocc.
    destruct (VehiclePhysicsManager.driverId v); [discriminate|reflexivity]. }
  set (seated :=
         {| VehiclePhysicsManager.entityId :=
              VehiclePhysicsManager.entityId v;
            VehiclePhysicsManager.vehicleType :=
              VehiclePhysicsManager.vehicleType v;
            VehiclePhysicsManager.driverId := Some (clientId c1);
            VehiclePhysicsManager.engineRunning := true;
            VehiclePhysicsManager.health := VehiclePhysicsManager.health v;
            VehiclePhysicsManager.fuel := VehiclePhysicsManager.fuel v |}).
  set (vm' :=
         {| VehiclePhysicsManager.vehicles :=
              JsMap.set vid seated
                (VehiclePhysicsManager.vehicles (vehicleManager s));
            VehiclePhysicsManager.vehicleInputs :=
              VehiclePhysicsManager.vehicleInputs (vehicleManager s) |}).
  set (pw0 := VehiclePhysicsManager.setEntityDriver vid (Some (clientId c1))
                (physicsWorld s)).
  set (pm' :=
         {| PlayerPhysicsManager.players :=
              JsMap.set (PlayerPhysicsManager.playerEntityId (clientId c1))
                (PlayerPhysicsManager.withVehicleId (Some vid) p1)
                (PlayerPhysicsManager.players (playerManager s));
            PlayerPhysicsManager.playerInputs :=
              PlayerPhysicsManager.playerInputs (playerManager s);
            PlayerPhysicsManager.inputHistory :=
              PlayerPhysicsManager.inputHistory (playerManager s) |}).
  set (pw' := snd (snd (PlayerPhysicsManager.playerEnterVehicle
                          (clientId c1) vid (playerManager s) pw0))).
  set (s0 := withManagers pw' (terrainManager s) vm' pm' s).
  assert (Es : s1 = broadcast (VEHICLE_ENTER vid (clientId c1)) None s0).
  { unfold s1. rewrite handleVehicleEnter_target, Hc1, Ht1, Hfree.
    fold vid. unfold VehiclePhysicsManager.enterVehicle.
    rewrite Hg, Hd. fold seated vm' pw0.
    unfold s0, pw', PlayerPhysicsManager.playerEnterVehicle.
    rewrite Hp1. reflexivity. }
  assert (F : core (broadcast (VEHICLE_ENTER vid (clientId c1)) None s0)
              = core s0
              /\ clients (broadcast (VEHICLE_ENTER vid (clientId c1)) None s0)
                 = clients s0
              /\ sent (broadcast (VEHICLE_ENTER vid (clientId c1)) None s0)
                 = sent s0
                   ++ flat_map
                        (fun e : nat * ClientData =>
                           if negb (eqb (Some (fst e)) None)
                              && openIn (clients s0) (fst e)
                           then [(fst e, VEHICLE_ENTER vid (clientId c1))]
                           else [])
                        (clients s0)).
  { exact (fold_send (fun e : nat * ClientData => fst e)
             (fun e => negb (eqb (Some (fst e)) None))
             (fun _ _ => VEHICLE_ENTER vid (clientId c1))
             (fun _ _ _ _ => eq_refl) (clients s0) s0). }
  rewrite <- Es in F. destruct F as (F1 & F2 & F3).
  destruct (core_playerManager F1) as (Gpw & _ & Gvm & Gpm & _).
  assert (Hcl : clients s1 = clients s) by (rewrite F2; reflexivity).
  (* where everything is, seen from the second request *)
  assert (Hpos : forall e,
             option_map PhysicsWorld.es_position
               (PhysicsWorld.getEntityState e pw')
             = option_map PhysicsWorld.es_position
                 (PhysicsWorld.getEntityState e (physicsWorld s))).
  { intros e. unfold pw'. rewrite position_playerEnterVehicle.
    unfold pw0. apply position_setEntityDriver. }
  assert (Hkeys : JsMap.keys (VehiclePhysicsManager.vehicles vm')
                  = JsMap.keys
                      (VehiclePhysicsManager.vehicles (vehicleManager s))).
  { unfold vm'. cbn [VehiclePhysicsManager.vehicles].
    apply keys_set_present. unfold JsMap.has. now rewrite Hg. }
  assert (Hp2' : JsMap.get
                   (PlayerPhysicsManager.playerEntityId (clientId c2))
                   (PlayerPhysicsManager.players pm') = Some p2).
  { unfold pm'. cbn [PlayerPhysicsManager.players].
    rewrite get_set_ne; [exact Hp2|].
    intros E. apply Hne. exact (playerEntityId_inj E). }
  pose proof (Hpos (PlayerPhysicsManager.playerEntityId (clientId c2)))
    as Hst2.
  rewrite Hs2 in Hst2. cbn [option_map] in Hst2.
  destruct (PhysicsWorld.getEntityState
              (PlayerPhysicsManager.playerEntityId (clientId c2)) pw')
    as [st2'|] eqn:Hs2'; [|discriminate Hst2].
  cbn [option_map] in Hst2. injection Hst2 as Hst2.
  assert (Ht2' : enterTarget ws2 s1
                 = VehiclePhysicsManager.findNearestVehicle
                     (PhysicsWorld.es_position st2) 5 (vm', pw')).
  { rewrite (@enterTarget_on_foot ws2 s1 c2 p2 st2').
    - rewrite Gvm, Gpw, Hst2. reflexivity.
    - rewrite Hcl. exact Hc2.
    - rewrite Gpm. exact Hp2'.
    - exact Hv2.
    - rewrite Gpw. exact Hs2'. }
  pose proof (@findNearestVehicle_id_congr (PhysicsWorld.es_position st2) 5
                (vehicleManager s) vm' (physicsWorld s) pw'
                (fun e => vehicleDistance_congr _ _ _ _ (Hpos e)) Hkeys)
    as Hid.
  rewrite Hf2 in Hid. cbn [option_map] in Hid. rewrite Hsame in Hid.
  fold vid in Hid.
  destruct (VehiclePhysicsManager.findNearestVehicle
              (PhysicsWorld.es_position st2) 5 (vm', pw'))
    as [n2'|] eqn:Hf2'; [|discriminate Hid].
  cbn [option_map] in Hid. injection Hid as Hid.
  destruct (findNearestVehicle_some _ _ _ _ Hf2') as (v1 & Hin1 & Hocc1).
  rewrite Hid in Hin1.
  assert (Hnd' : NoDup (JsMap.keys (VehiclePhysicsManager.vehicles vm')))
    by (rewrite Hkeys; exact Hnd).
  pose proof (get_NoDup_in _ _ _ Hnd' Hin1) as Hg1.
  unfold vm' in Hg1. cbn [VehiclePhysicsManager.vehicles] in Hg1.
  rewrite get_set_eq in Hg1. injection Hg1 as <-.
  assert (Hocc2 : VehiclePhysicsManager.n_occupied n2' = true)
    by (rewrite Hocc1; reflexivity).
  split.
  { exists seated. rewrite Gvm. unfold vm'.
    cbn [VehiclePhysicsManager.vehicles]. split; [apply get_set_eq|].
    reflexivity. }
  split.
  { exists (PlayerPhysicsManager.withVehicleId (Some vid) p1).
    rewrite Gpm. unfold PlayerPhysicsManager.getPlayer, pm'.
    cbn [PlayerPhysicsManager.players]. split; [apply get_set_eq|].
    reflexivity. }
  split; [exact Hcl|].
  split.
  { rewrite F3. reflexivity. }
  split.
  { exists n2'. rewrite Ht2'. auto. }
  rewrite handleVehicleEnter_target, Hcl, Hc2, Ht2', Hocc2. reflexivity.
Qed.
End TwoRequests.


Lemma findNearestVehicle_single position maxDistance vm pw id v st :
  VehiclePhysicsManager.vehicles vm = [(id, v)] ->
  PhysicsWorld.getEntityState id pw = Some st ->
  (forall d, vehicleDistance position pw id = Some d -> d < maxDistance) ->
  exists n,
    VehiclePhysicsManager.findNearestVehicle position maxDistance (vm, pw)
    = Some n
    /\ VehiclePhysicsManager.n_entityId n = id
    /\ VehiclePhysicsManager.n_occupied n = occupiedFlag v.
Proof.
  intros Hv Hst Hd. unfold VehiclePhysicsManager.findNearestVehicle.
  rewrite Hv. cbn [fold_left fst snd]. rewrite Hst. cbv zeta.
  rewrite Rltb_true.
  - eexists. split; [reflexivity|]. split; reflexivity.
  - apply Hd. unfold vehicleDistance. rewrite Hst. reflexivity.
Qed.

Lemma sqrt_below_5 x : 0 <= x < 25 -> sqrt x < 5.
Proof.
  intros Hx. replace 5 with (sqrt 25).
  - apply sqrt_lt_1_alt. exact Hx.
  - replace 25 with (5 * 5) by lra. apply sqrt_square. lra.
Qed.

(** In the scenario both players stand within reach of the car, which
    is free. *)
Lemma scenario_targets :
  (exists n,
      enterTarget 0 Scenario.server_ab = Some n
      /\ VehiclePhysicsManager.n_entityId n = "vehicle_1"
      /\ VehiclePhysicsManager.n_occupied n = false)
  /\ (exists n,
         enterTarget 1 Scenario.server_ab = Some n
         /\ VehiclePhysicsManager.n_entityId n = "vehicle_1"
         /\ VehiclePhysicsManager.n_occupied n = false).
Proof.
  assert (Hcar : exists st,
             PhysicsWorld.getEntityState "vehicle_1"
               (PhysicsServer.physicsWorld Scenario.server_ab) = Some st
             /\ vx (PhysicsWorld.es_position st) = 0
             /\ 0 <= vy (PhysicsWorld.es_position st) <= 2
             /\ vz (PhysicsWorld.es_position st) = 0).
  { eexists. split; [reflexivity|]. cbn. lra. }
  destruct Hcar as (stc & Hcar & Hx & Hy & Hz).
  assert (Hnear : forall x,
             0 <= x <= 1 ->
             forall d,
               vehicleDistance (mkVec3 x (1 + CONFIG.playerHeight / 2) 0)
                 (PhysicsServer.physicsWorld Scenario.server_ab) "vehicle_1"
               = Some d ->
               d < 5).
  { intros x Hx01 d. unfold vehicleDistance. rewrite Hcar.
    cbn [option_map vx vy vz]. cbv zeta. rewrite Hx, Hz.
    intros [= <-]. apply sqrt_below_5.
    unfold CONFIG.playerHeight.
    set (a := vy (PhysicsWorld.es_position stc) - (1 + 17 / 10 / 2)).
    assert (Ha : -2 <= a <= 2) by (unfold a; lra).
    assert (Ha2 : 0 <= a * a <= 4) by nra.
    assert (Hx2 : 0 <= (0 - x) * (0 - x) <= 1) by nra.
    lra. }
  assert (Ha : exists st,
             PhysicsWorld.getEntityState "player_a"
               (PhysicsServer.physicsWorld Scenario.server_ab) = Some st
             /\ PhysicsWorld.es_position st
                = mkVec3 0 (1 + CONFIG.playerHeight / 2) 0)
    by (eexists; split; reflexivity).
  assert (Hb : exists st,
             PhysicsWorld.getEntityState "player_b"
               (PhysicsServer.physicsWorld Scenario.server_ab) = Some st
             /\ PhysicsWorld.es_position st
                = mkVec3 1 (1 + CONFIG.playerHeight / 2) 0)
    by (eexists; split; reflexivity).
  destruct Ha as (sta & Hsa & Hpa). destruct Hb as (stb & Hsb & Hpb).
  split.
  - rewrite (@enterTarget_on_foot 0%nat Scenario.server_ab
               (Scenario.client_a PhysicsServer.OPEN) Scenario.player_a sta
               eq_refl eq_refl eq_refl Hsa).
    rewrite Hpa.
    destruct (@findNearestVehicle_single
                (mkVec3 0 (1 + CONFIG.playerHeight / 2) 0) 5
                (PhysicsServer.vehicleManager Scenario.server_ab)
                (PhysicsServer.physicsWorld Scenario.server_ab)
                "vehicle_1" _ stc eq_refl Hcar (Hnear 0 ltac:(lra)))
      as (n & Hn & Hid & Hocc).
    exists n. split; [exact Hn|]. split; [exact Hid|exact Hocc].
  - rewrite (@enterTarget_on_foot 1%nat Scenario.server_ab
               (Scenario.client_b PhysicsServer.OPEN) Scenario.player_b stb
               eq_refl eq_refl eq_refl Hsb).
    rewrite Hpb.
    destruct (@findNearestVehicle_single
                (mkVec3 1 (1 + CONFIG.playerHeight / 2) 0) 5
                (PhysicsServer.vehicleManager Scenario.server_ab)
                (PhysicsServer.physicsWorld Scenario.server_ab)
                "vehicle_1" _ stc eq_refl Hcar (Hnear 1 ltac:(lra)))
      as (n & Hn & Hid & Hocc).
    exists n. split; [exact Hn|]. split; [exact Hid|exact Hocc].
Qed.

(** C6.  [enterVehicle] succeeds exactly when the vehicle exists and its
    driver slot is empty, and then the slot holds the requester; a
    refused request returns [false] and leaves the vehicle manager and
    the physics world as they were.  So of two [vehicle_enter] requests
    of different clients whose nearest vehicle is the same free vehicle,
    handled one after the other, the first seats its player (the
    vehicle has that client as its driver, the player is recorded in
    the vehicle, every client with an open socket is told) and the
    second, which still finds that vehicle nearest, finds it occupied
    and leaves the whole server as the first left it. *)
Theorem C6_single_driver :
  forall (entityId p1 p2 : string) (st : VehiclePhysicsManager.State),
    let r1 := VehiclePhysicsManager.enterVehicle entityId p1 st in
    (fst r1 = true <->
     exists v,
       JsMap.get entityId (VehiclePhysicsManager.vehicles (fst st)) = Some v
       /\ VehiclePhysicsManager.driverId v = None)
    /\ (fst r1 = false -> snd r1 = st)
    /\ (fst r1 = true ->
        (exists v',
           JsMap.get entityId
             (VehiclePhysicsManager.vehicles (fst (snd r1))) = Some v'
           /\ VehiclePhysicsManager.driverId v' = Some p1)
        /\ VehiclePhysicsManager.enterVehicle entityId p2 (snd r1)
           = (false, snd r1))
    /\ (forall (ws1 ws2 : nat) (s : PhysicsServer.t)
               (c1 c2 : PhysicsServer.ClientData)
               (n1 n2 : VehiclePhysicsManager.Nearest),
          NoDup (JsMap.keys
                   (VehiclePhysicsManager.vehicles
                      (PhysicsServer.vehicleManager s))) ->
          JsMap.get ws1 (PhysicsServer.clients s) = Some c1 ->
          JsMap.get ws2 (PhysicsServer.clients s) = Some c2 ->
          PhysicsServer.clientId c1 <> PhysicsServer.clientId c2 ->
          enterTarget ws1 s = Some n1 ->
          enterTarget ws2 s = Some n2 ->
          VehiclePhysicsManager.n_entityId n1 = entityId ->
          VehiclePhysicsManager.n_entityId n2 = entityId ->
          VehiclePhysicsManager.n_occupied n1 = false ->
          let s1 := PhysicsServer.handleVehicleEnter ws1 s in
          (exists v',
              JsMap.get entityId
                (VehiclePhysicsManager.vehicles
                   (PhysicsServer.vehicleManager s1)) = Some v'
              /\ VehiclePhysicsManager.driverId v'
                 = Some (PhysicsServer.clientId c1))
          /\ (exists p',
                 PlayerPhysicsManager.getPlayer (PhysicsServer.clientId c1)
                   (PhysicsServer.playerManager s1) = Some p'
                 /\ PlayerPhysicsManager.vehicleId p' = Some entityId)
          /\ PhysicsServer.clients s1 = PhysicsServer.clients s
          /\ PhysicsServer.sent s1
             = PhysicsServer.sent s
               ++ flat_map
                    (fun e : nat * PhysicsServer.ClientData =>
                       if openIn (PhysicsServer.clients s) (fst e)
                       then [(fst e,
                              PhysicsServer.VEHICLE_ENTER entityId
                                (PhysicsServer.clientId c1))]
                       else [])
                    (PhysicsServer.clients s)
          /\ (exists n2',
                 enterTarget ws2 s1 = Some n2'
                 /\ VehiclePhysicsManager.n_entityId n2' = entityId
                 /\ VehiclePhysicsManager.n_occupied n2' = true)
          /\ PhysicsServer.handleVehicleEnter ws2 s1 = s1).
Proof.
  intros entityId p1 p2 st r1.
  split; [|split; [|split]].
  - split.
    + intros Hr. destruct r1 as [b st'] eqn:E. simpl in Hr. subst b.
      destruct (enterVehicle_true_inv _ _ _ E) as (v & Hv & Hd & _). eauto.
    + intros (v & Hv & Hd). subst r1. destruct st as [vm pw].
      unfold VehiclePhysicsManager.enterVehicle. simpl in Hv.
      rewrite Hv, Hd. reflexivity.
  - intros Hr. subst r1.
    now rewrite (enterVehicle_false_inv _ _ _ Hr).
  - intros Hr. destruct r1 as [b st'] eqn:E. simpl in Hr. subst b.
    destruct (enterVehicle_true_inv _ _ _ E) as (v & _ & _ & Hv').
    split.
    + simpl. eexists; split; [exact Hv'|reflexivity].
    + simpl. eapply enterVehicle_occupied; [exact Hv'|reflexivity].
  - intros ws1 ws2 s c1 c2 n1 n2 Hnd Hc1 Hc2 Hne Ht1 Ht2 Hid1 Hid2 Hfree.
    assert (Hsame : VehiclePhysicsManager.n_entityId n2
                    = VehiclePhysicsManager.n_entityId n1) by congruence.
    pose proof (@handleVehicleEnter_two_requests ws1 ws2 s c1 c2 n1 n2
                  Hnd Hc1 Hc2 Hne Ht1 Ht2 Hsame Hfree) as H.
    cbv zeta in H. rewrite Hid1 in H. exact H.
Qed.

Lemma C6_witness :
  fst (VehiclePhysicsManager.enterVehicle "vehicle_1" "a" Scenario.st_ab_car)
  = true
  /\ (exists v',
         JsMap.get "vehicle_1"
           (VehiclePhysicsManager.vehicles
              (PhysicsServer.vehicleManager
                 (PhysicsServer.handleVehicleEnter 0 Scenario.server_ab)))
         = Some v'
         /\ VehiclePhysicsManager.driverId v' = Some "a")
  /\ PhysicsServer.handleVehicleEnter 1
       (PhysicsServer.handleVehicleEnter 0 Scenario.server_ab)
     = PhysicsServer.handleVehicleEnter 0 Scenario.server_ab.
Proof.
  destruct (C6_single_driver "vehicle_1" "a" "b" Scenario.st_ab_car)
    as (Hiff & _ & _ & Hreq).
  destruct scenario_targets as ((n1 & Ht1 & Hid1 & Hfree) & n2 & Ht2 & Hid2 & _).
  split.
  { apply Hiff. eexists. split; reflexivity. }
  assert (Hnd : NoDup (JsMap.keys
                         (VehiclePhysicsManager.vehicles
                            (PhysicsServer.vehicleManager
                               Scenario.server_ab)))).
  { cbn. constructor; [simpl; tauto|constructor]. }
  destruct (Hreq 0%nat 1%nat Scenario.server_ab
              (Scenario.client_a PhysicsServer.OPEN)
              (Scenario.client_b PhysicsServer.OPEN) n1 n2
              Hnd eq_refl eq_refl ltac:(discriminate) Ht1 Ht2 Hid1 Hid2 Hfree)
    as (Hdrv & _ & _ & _ & _ & Hsecond).
  split; [exact Hdrv|exact Hsecond].
Defined.


(** ** The stored input across ticks *)

Section StoredInputFacts.
Variable env : Env.
Import PlayerPhysicsManager.

Lemma body_setVelocity_other pw e e' v :
  e <> e' -> NoDup (ownedBodies pw) ->
  PhysicsWorld.body (PhysicsWorld.setVelocity e v pw) e'
  = PhysicsWorld.body pw e'.
Proof.
  intros Hne Hnd. rewrite body_setVelocity.
  destruct (PhysicsWorld.body pw e') as [[h' b']|] eqn:Hb; [|reflexivity].
  cbn [option_map fst snd]. destruct (body_parts _ _ Hb) as [Hh' _].
  rewrite eqb_neq; [reflexivity|].
  intros E. apply Hne. symmetry in E.
  exact (values_injective _ _ _ Hnd E Hh').
Qed.

Lemma body_setPosition_other pw e e' p :
  e <> e' -> NoDup (ownedBodies pw) ->
  PhysicsWorld.body (PhysicsWorld.setPosition e p pw) e'
  = PhysicsWorld.body pw e'.
Proof.
  intros Hne Hnd. rewrite body_setPosition.
  destruct (PhysicsWorld.body pw e') as [[h' b']|] eqn:Hb; [|reflexivity].
  cbn [option_map fst snd]. destruct (body_parts _ _ Hb) as [Hh' _].
  rewrite eqb_neq; [reflexivity|].
  intros E. apply Hne. symmetry in E.
  exact (values_injective _ _ _ Hnd E Hh').
Qed.

Lemma bodies_updatePlayerMovement entityId player input deltaTime pw :
  PhysicsWorld.bodies
    (snd (updatePlayerMovement env entityId player input deltaTime pw))
  = PhysicsWorld.bodies pw.
Proof.
  unfold updatePlayerMovement.
  destruct (PhysicsWorld.body pw entityId) as [[h b]|]; [|reflexivity].
  destruct (JsMap.get entityId (PhysicsWorld.entityData pw));
    [|reflexivity].
  cbv zeta. cbn [snd].
  match goal with
  | |- context [if ?c then PhysicsWorld.setVelocity _ _
                             (PhysicsWorld.setPosition _ _ _) else _] =>
      destruct c
  end;
    rewrite ?bodies_setVelocity, ?bodies_setPosition, ?bodies_setVelocity;
    apply bodies_updatePlayerGrounded.
Qed.

Lemma body_updatePlayerMovement_other e0 player input deltaTime pw e :
  e0 <> e -> NoDup (ownedBodies pw) ->
  PhysicsWorld.body
    (snd (updatePlayerMovement env e0 player input deltaTime pw)) e
  = PhysicsWorld.body pw e.
Proof.
  intros Hne Hnd. unfold updatePlayerMovement.
  destruct (PhysicsWorld.body pw e0) as [[h b]|]; [|reflexivity].
  destruct (JsMap.get e0 (PhysicsWorld.entityData pw)); [|reflexivity].
  cbv zeta. cbn [snd].
  match goal with
  | |- context [if ?c then PhysicsWorld.setVelocity _ _
                             (PhysicsWorld.setPosition _ _ _) else _] =>
      destruct c
  end.
  - rewrite body_setVelocity_other, body_setPosition_other,
      body_setVelocity_other, body_updatePlayerGrounded;
      try assumption; try reflexivity;
      unfold ownedBodies;
      rewrite ?bodies_setPosition, ?bodies_setVelocity,
        ?bodies_updatePlayerGrounded; exact Hnd.
  - rewrite body_setVelocity_other, body_updatePlayerGrounded;
      try assumption; try reflexivity;
      unfold ownedBodies;
      rewrite ?bodies_updatePlayerGrounded; exact Hnd.
Qed.

Lemma bodies_update_loop inputs deltaTime :
  forall entries pw,
    PhysicsWorld.bodies (snd (update_loop env inputs deltaTime entries pw))
    = PhysicsWorld.bodies pw.
Proof.
  induction entries as [|[e0 p0] rest IH]; intros pw; cbn [update_loop];
    [reflexivity|].
  destruct (match vehicleId p0 with
            | Some _ => (p0, pw)
            | None =>
                match JsMap.get e0 inputs with
                | Some input =>
                    updatePlayerMovement env e0 p0 input deltaTime pw
                | None => (p0, pw)
                end
            end) as [p' pw'] eqn:E.
  assert (Hb : PhysicsWorld.bodies pw' = PhysicsWorld.bodies pw).
  { destruct (vehicleId p0); [now inversion E|].
    destruct (JsMap.get e0 inputs) as [i|]; [|now inversion E].
    pose proof (bodies_updatePlayerMovement e0 p0 i deltaTime pw) as F.
    rewrite E in F. exact F. }
  specialize (IH pw').
  destruct (update_loop env inputs deltaTime rest pw') as [rest' pw''].
  cbn [snd] in *. congruence.
Qed.

(** The players that the loop updates after or before [e] leave the
    body of [e] alone. *)
Lemma body_update_loop_other inputs deltaTime e :
  forall entries pw,
    ~ In e (JsMap.keys entries) -> NoDup (ownedBodies pw) ->
    PhysicsWorld.body (snd (update_loop env inputs deltaTime entries pw)) e
    = PhysicsWorld.body pw e.
Proof.
  induction entries as [|[e0 p0] rest IH]; intros pw Hnot Hnd;
    cbn [update_loop]; [reflexivity|].
  destruct (match vehicleId p0 with
            | Some _ => (p0, pw)
            | None =>
                match JsMap.get e0 inputs with
                | Some input =>
                    updatePlayerMovement env e0 p0 input deltaTime pw
                | None => (p0, pw)
                end
            end) as [p' pw'] eqn:E.
  assert (Hne : e0 <> e).
  { intros ->. apply Hnot. unfold JsMap.keys. cbn [map fst]. now left. }
  assert (Hb : PhysicsWorld.body pw' e = PhysicsWorld.body pw e
               /\ PhysicsWorld.bodies pw' = PhysicsWorld.bodies pw).
  { destruct (vehicleId p0); [now inversion E|].
    destruct (JsMap.get e0 inputs) as [i|]; [|now inversion E].
    pose proof (@body_updatePlayerMovement_other e0 p0 i deltaTime pw e
                  Hne Hnd) as F.
    pose proof (bodies_updatePlayerMovement e0 p0 i deltaTime pw) as G.
    rewrite E in F, G. now split. }
  destruct Hb as [Hb Hbs].
  specialize (IH pw').
  destruct (update_loop env inputs deltaTime rest pw') as [rest' pw''].
  cbn [snd] in *. rewrite IH; [exact Hb| |].
  - intros Hin. apply Hnot. unfold JsMap.keys in *. cbn [map]. now right.
  - unfold ownedBodies. rewrite Hbs. exact Hnd.
Qed.

(** The loop applies the stored input of a player on foot to that
    player, in the world [pwk] that the loop has reached when it comes
    to the player; what the call leaves on the player's body is what
    the loop leaves on it. *)
Lemma update_loop_applies inputs deltaTime e i :
  forall entries pw p,
    NoDup (JsMap.keys entries) -> NoDup (ownedBodies pw) ->
    JsMap.get e entries = Some p -> vehicleId p = None ->
    JsMap.get e inputs = Some i ->
    exists pwk,
      PhysicsWorld.body pwk e = PhysicsWorld.body pw e
      /\ (forall e', present pwk e' = present pw e')
      /\ JsMap.get e (fst (update_loop env inputs deltaTime entries pw))
         = Some (fst (updatePlayerMovement env e p i deltaTime pwk))
      /\ PhysicsWorld.body
           (snd (update_loop env inputs deltaTime entries pw)) e
         = PhysicsWorld.body
             (snd (updatePlayerMovement env e p i deltaTime pwk)) e.
Proof.
  induction entries as [|[e0 p0] rest IH]; intros pw p Hk Hnd Hg Hv Hi;
    [discriminate Hg|].
  unfold JsMap.keys in Hk. cbn [map fst] in Hk.
  inversion Hk as [|? ? Hnot Hk']; subst.
  cbn [update_loop].
  destruct (match vehicleId p0 with
            | Some _ => (p0, pw)
            | None =>
                match JsMap.get e0 inputs with
                | Some input =>
                    updatePlayerMovement env e0 p0 input deltaTime pw
                | None => (p0, pw)
                end
            end) as [p' pw'] eqn:E.
  destruct (update_loop env inputs deltaTime rest pw') as [rest' pw'']
    eqn:R.
  cbn [fst snd JsMap.get] in *.
  destruct (eq_dec e e0) as [->|Hne].
  - injection Hg as ->. rewrite Hv, Hi in E.
    exists pw. split; [reflexivity|]. split; [reflexivity|].
    rewrite E. cbn [fst snd]. split; [reflexivity|].
    pose proof (@body_update_loop_other inputs deltaTime e0 rest pw' Hnot)
      as Hrest.
    rewrite R in Hrest. cbn [snd] in Hrest. apply Hrest.
    pose proof (bodies_updatePlayerMovement e0 p i deltaTime pw) as G.
    rewrite E in G. unfold ownedBodies. cbn [snd] in G. rewrite G.
    exact Hnd.
  - assert (Hb : PhysicsWorld.body pw' e = PhysicsWorld.body pw e
                 /\ PhysicsWorld.bodies pw' = PhysicsWorld.bodies pw
                 /\ forall e', present pw' e' = present pw e').
    { destruct (vehicleId p0); [inversion E; subst; auto|].
      destruct (JsMap.get e0 inputs) as [i0|]; [|inversion E; subst; auto].
      assert (Hne' : e0 <> e) by congruence.
      pose proof (@body_updatePlayerMovement_other e0 p0 i0 deltaTime pw e
                    Hne' Hnd) as F.
      pose proof (bodies_updatePlayerMovement e0 p0 i0 deltaTime pw) as G.
      pose proof (updatePlayerMovement_frame env e0 p0 i0 deltaTime pw) as Fr.
      rewrite E in F, G, Fr. cbn [snd] in *.
      split; [exact F|]. split; [exact G|]. apply Fr. }
    destruct Hb as (Hb & Hbs & Hpr).
    assert (Hnd' : NoDup (ownedBodies pw'))
      by (unfold ownedBodies; rewrite Hbs; exact Hnd).
    destruct (IH pw' p Hk' Hnd' Hg Hv Hi) as (pwk & K1 & K2 & K3 & K4).
    rewrite R in K3, K4. cbn [fst snd] in K3, K4.
    exists pwk. split; [congruence|].
    split; [intros e'; rewrite K2; apply Hpr|].
    split; [exact K3|exact K4].
Qed.

(** The same for one call of [update]: the stored input is still stored
    afterwards, the maps are maps as before, and the player is still on
    foot. *)
Lemma update_applies_stored_input deltaTime pm pw e p i :
  NoDup (JsMap.keys (players pm)) -> NoDup (ownedBodies pw) ->
  JsMap.get e (players pm) = Some p -> vehicleId p = None ->
  JsMap.get e (playerInputs pm) = Some i ->
  let r := update env deltaTime pm pw in
  JsMap.get e (playerInputs (fst r)) = Some i
  /\ NoDup (JsMap.keys (players (fst r)))
  /\ NoDup (ownedBodies (snd r))
  /\ exists pwk,
       PhysicsWorld.body pwk e = PhysicsWorld.body pw e
       /\ (forall e', present pwk e' = present pw e')
       /\ JsMap.get e (players (fst r))
          = Some (fst (updatePlayerMovement env e p i deltaTime pwk))
       /\ vehicleId (fst (updatePlayerMovement env e p i deltaTime pwk))
          = None
       /\ PhysicsWorld.body (snd r) e
          = PhysicsWorld.body
              (snd (updatePlayerMovement env e p i deltaTime pwk)) e.
Proof.
  intros Hk Hnd Hg Hv Hi. cbv zeta.
  destruct (update_inputs env deltaTime pm pw) as (U1 & _ & U3 & U4).
  rewrite U1, U3, U4.
  destruct (update_loop_frame env (playerInputs pm) deltaTime (players pm) pw)
    as [_ Hkeys].
  split; [exact Hi|]. split; [rewrite Hkeys; exact Hk|].
  split.
  { unfold ownedBodies. rewrite bodies_update_loop. exact Hnd. }
  destruct (@update_loop_applies (playerInputs pm) deltaTime e i
              (players pm) pw p Hk Hnd Hg Hv Hi)
    as (pwk & K1 & K2 & K3 & K4).
  exists pwk. split; [exact K1|]. split; [exact K2|].
  split; [exact K3|]. split; [|exact K4].
  destruct (updatePlayerMovement_frame env e p i deltaTime pwk)
    as (_ & _ & Hveh & _).
  rewrite Hveh. exact Hv.
Qed.
End StoredInputFacts.


Section JumpFacts.
Variable env : Env.
Import PlayerPhysicsManager.

Lemma Rleb_true a b : a <= b -> Rleb a b = true.
Proof. intros H. unfold Rleb. destruct (Rle_dec a b); [reflexivity|tauto]. Qed.

(** [update] on a manager with one player on foot. *)
Lemma update_single deltaTime pm pw e p i :
  players pm = [(e, p)] -> vehicleId p = None ->
  JsMap.get e (playerInputs pm) = Some i ->
  update env deltaTime pm pw
  = ({| players := [(e, fst (updatePlayerMovement env e p i deltaTime pw))];
        playerInputs := playerInputs pm;
        inputHistory := inputHistory pm |},
     snd (updatePlayerMovement env e p i deltaTime pw)).
Proof.
  intros Hp Hv Hi. unfold update. rewrite Hp. cbn [update_loop].
  rewrite Hv, Hi.
  destruct (updatePlayerMovement env e p i deltaTime pw) as [p' pw'].
  reflexivity.
Qed.

Lemma entityData_updatePlayerMovement entityId player input deltaTime pw :
  present pw entityId = true ->
  PhysicsWorld.entityData
    (snd (updatePlayerMovement env entityId player input deltaTime pw))
  = PhysicsWorld.entityData
      (PhysicsWorld.updatePlayerGrounded env entityId pw).
Proof.
  unfold present, updatePlayerMovement.
  destruct (PhysicsWorld.body pw entityId) as [[h b]|]; [|discriminate].
  destruct (JsMap.get entityId (PhysicsWorld.entityData pw));
    [|discriminate].
  intros _. cbv zeta. cbn [snd].
  match goal with
  | |- context [if ?c then PhysicsWorld.setVelocity _ _
                             (PhysicsWorld.setPosition _ _ _) else _] =>
      destruct c
  end;
    rewrite ?entityData_setVelocity, ?entityData_setPosition,
      ?entityData_setVelocity; reflexivity.
Qed.

(** What [updatePlayerGrounded] records for a player with a body. *)
Lemma groundedOf_updatePlayerGrounded pw e h b owner g n :
  PhysicsWorld.body pw e = Some (h, b) ->
  JsMap.get e (PhysicsWorld.entityData pw)
  = Some (PhysicsWorld.PlayerData owner g n) ->
  groundedOf e (PhysicsWorld.updatePlayerGrounded env e pw)
  = match PhysicsWorld.raycast env (RAPIER.translation b) (mkVec3 0 (-1) 0)
            (CONFIG.playerHeight / 2 + 2 / 10)
            (Z.lor PhysicsWorld.GROUPS.TERRAIN PhysicsWorld.GROUPS.BUILDING)
            pw with
    | Some r =>
        Rltb (PhysicsWorld.rh_distance r) (CONFIG.playerHeight / 2 + 1 / 10)
    | None => false
    end
  /\ exists g' n',
       JsMap.get e
         (PhysicsWorld.entityData
            (PhysicsWorld.updatePlayerGrounded env e pw))
       = Some (PhysicsWorld.PlayerData owner g' n').
Proof.
  intros Hb Hd. unfold PhysicsWorld.updatePlayerGrounded, groundedOf.
  rewrite Hb, Hd. cbv zeta.
  cbn [PhysicsWorld.withEntityData PhysicsWorld.entityData].
  rewrite get_set_eq. split; [reflexivity|eauto].
Qed.

(** The safety clamp puts the body at standing height, at rest
    vertically. *)
Lemma updatePlayerMovement_clamped entityId player input deltaTime pw h b :
  PhysicsWorld.body pw entityId = Some (h, b) ->
  present pw entityId = true ->
  clamps env b = true ->
  exists b',
    PhysicsWorld.body
      (snd (updatePlayerMovement env entityId player input deltaTime pw))
      entityId = Some (h, b')
    /\ RAPIER.translation b'
       = mkVec3 (vx (RAPIER.translation b))
                (TerrainPhysicsManager.getHeightAt env
                   (vx (RAPIER.translation b)) (vz (RAPIER.translation b))
                 + CONFIG.playerHeight / 2)
                (vz (RAPIER.translation b))
    /\ vy (RAPIER.linvel b') = 0.
Proof.
  intros Hb Hp Hc. unfold present in Hp. rewrite Hb in Hp.
  destruct (JsMap.get entityId (PhysicsWorld.entityData pw)) as [d|] eqn:Hd;
    [|discriminate].
  destruct (body_parts _ _ Hb) as [Hh _].
  unfold updatePlayerMovement. rewrite Hb, Hd.
  cbv zeta. cbn [snd].
  unfold clamps, TerrainPhysicsManager.getHeightAt in Hc.
  match goal with
  | |- context [if Rltb ?a ?c then PhysicsWorld.setVelocity _ _
                                      (PhysicsWorld.setPosition _ _ _)
                else _] =>
      replace (Rltb a c) with true
        by (symmetry; etransitivity; [|exact Hc]; reflexivity)
  end.
  rewrite body_setVelocity, body_setPosition, body_setVelocity,
    body_updatePlayerGrounded, Hb.
  rewrite bodies_setPosition, !bodies_setVelocity,
    bodies_updatePlayerGrounded, Hh.
  cbn [option_map fst snd]. rewrite !eqb_refl.
  eexists. split; [reflexivity|]. split; reflexivity.
Qed.
End JumpFacts.

(** C5, as the code has it.  An input that asks for a jump while the
    player is airborne or crouching is acknowledged, and the update
    that rejects it leaves the body's vertical velocity as it was,
    unless the safety clamp fires, which resets it to zero.  The
    rejected jump is not dropped, though: [update] keeps the input as
    the player's stored input and applies it to the player again at
    every tick, as long as the player is on foot and no newer input
    replaces it; and an update with that input that finds the player
    grounded and not crouching writes the jump speed (unless the clamp
    fires).  So the jump fires at the first later tick at which the
    player is grounded. *)
Theorem C5_rejected_jump_stays_stored :
  forall (env : Env) (entityId : string)
         (input : PlayerPhysicsManager.PlayerInput),
    PlayerPhysicsManager.jump input = true ->
    (* the update that rejects the jump *)
    (forall (player : PlayerPhysicsManager.Player) (deltaTime : R)
            (pw : PhysicsWorld.t) (h : nat) (b : RAPIER.RigidBody),
        PhysicsWorld.body pw entityId = Some (h, b) ->
        present pw entityId = true ->
        PlayerPhysicsManager.groundedOf entityId
          (PhysicsWorld.updatePlayerGrounded env entityId pw) = false
        \/ PlayerPhysicsManager.crouch input = true ->
        let r :=
          PlayerPhysicsManager.updatePlayerMovement env entityId player input
                                                    deltaTime pw in
        PlayerPhysicsManager.lastInputSeq (fst r)
        = PlayerPhysicsManager.seq input
        /\ exists b',
             PhysicsWorld.body (snd r) entityId = Some (h, b')
             /\ vy (RAPIER.linvel b')
                = if clamps env b then 0 else vy (RAPIER.linvel b))
    (* an update with the same input once the player is grounded *)
    /\ (forall (player : PlayerPhysicsManager.Player) (deltaTime : R)
               (pw : PhysicsWorld.t) (h : nat) (b : RAPIER.RigidBody),
           PhysicsWorld.body pw entityId = Some (h, b) ->
           present pw entityId = true ->
           PlayerPhysicsManager.groundedOf entityId
             (PhysicsWorld.updatePlayerGrounded env entityId pw) = true ->
           PlayerPhysicsManager.crouch input = false ->
           let r :=
             PlayerPhysicsManager.updatePlayerMovement env entityId player
               input deltaTime pw in
           PlayerPhysicsManager.lastInputSeq (fst r)
           = PlayerPhysicsManager.seq input
           /\ exists b',
                PhysicsWorld.body (snd r) entityId = Some (h, b')
                /\ vy (RAPIER.linvel b')
                   = if clamps env b then 0 else CONFIG.jumpForce)
    (* every tick applies the stored input again and keeps it stored *)
    /\ (forall (deltaTime : R) (pm : PlayerPhysicsManager.t)
               (pw : PhysicsWorld.t) (p : PlayerPhysicsManager.Player),
           NoDup (JsMap.keys (PlayerPhysicsManager.players pm)) ->
           NoDup (ownedBodies pw) ->
           JsMap.get entityId (PlayerPhysicsManager.players pm) = Some p ->
           PlayerPhysicsManager.vehicleId p = None ->
           JsMap.get entityId (PlayerPhysicsManager.playerInputs pm)
           = Some input ->
           let r := PlayerPhysicsManager.update env deltaTime pm pw in
           JsMap.get entityId (PlayerPhysicsManager.playerInputs (fst r))
           = Some input
           /\ NoDup (JsMap.keys (PlayerPhysicsManager.players (fst r)))
           /\ NoDup (ownedBodies (snd r))
           /\ exists pwk,
                PhysicsWorld.body pwk entityId = PhysicsWorld.body pw entityId
                /\ (forall e', present pwk e' = present pw e')
                /\ JsMap.get entityId (PlayerPhysicsManager.players (fst r))
                   = Some (fst (PlayerPhysicsManager.updatePlayerMovement env
                                  entityId p input deltaTime pwk))
                /\ PlayerPhysicsManager.vehicleId
                     (fst (PlayerPhysicsManager.updatePlayerMovement env
                             entityId p input deltaTime pwk))
                   = None
                /\ PhysicsWorld.body (snd r) entityId
                   = PhysicsWorld.body
                       (snd (PlayerPhysicsManager.updatePlayerMovement env
                               entityId p input deltaTime pwk))
                       entityId).
Proof.
  intros env entityId input Hj.
  split; [|split].
  - intros player deltaTime pw h b Hb Hp Hrej r.
    destruct (updatePlayerMovement_present env entityId player input
                deltaTime pw Hb Hp)
      as (Hseq & _ & _ & _ & _ & _ & b' & Hb' & Hvy).
    split; [exact Hseq|]. exists b'. split; [exact Hb'|].
    rewrite Hvy. unfold newVelY. rewrite Hj.
    destruct Hrej as [-> | ->].
    + reflexivity.
    + rewrite andb_false_r. reflexivity.
  - intros player deltaTime pw h b Hb Hp Hg Hcr r.
    destruct (updatePlayerMovement_present env entityId player input
                deltaTime pw Hb Hp)
      as (Hseq & _ & _ & _ & _ & _ & b' & Hb' & Hvy).
    split; [exact Hseq|]. exists b'. split; [exact Hb'|].
    rewrite Hvy. unfold newVelY. rewrite Hj, Hg, Hcr. reflexivity.
  - intros deltaTime pm pw p Hk Hnd Hg Hv Hi.
    exact (@update_applies_stored_input env deltaTime pm pw entityId p input
             Hk Hnd Hg Hv Hi).
Qed.

Lemma C5_witness :
  PlayerPhysicsManager.lastInputSeq
    (fst (PlayerPhysicsManager.updatePlayerMovement Scenario.env0 "player_a"
            Scenario.player_a (Scenario.idle 1 true) (1 / 30) Scenario.pw_a))
  = 1%Z
  /\ (exists b',
         PhysicsWorld.body
           (snd (PlayerPhysicsManager.updatePlayerMovement Scenario.env0
                   "player_a" Scenario.player_a (Scenario.idle 1 true)
                   (1 / 30) Scenario.pw_a)) "player_a"
         = Some (0%nat, b')
         /\ vy (RAPIER.linvel b') = 0)
  /\ JsMap.get "player_a"
       (PlayerPhysicsManager.playerInputs
          (fst (PlayerPhysicsManager.update Scenario.env0 (1 / 30)
                  Scenario.pm_jump Scenario.pw_a)))
     = Some (Scenario.idle 1 true).
Proof.
  destruct (@C5_rejected_jump_stays_stored Scenario.env0 "player_a"
              (Scenario.idle 1 true) eq_refl)
    as (Hrej & _ & Hstored).
  destruct (Hrej Scenario.player_a (1 / 30) Scenario.pw_a 0%nat
              (RAPIER.dynamic (mkVec3 0 (1 + CONFIG.playerHeight / 2) 0)
                              quatId)
              eq_refl eq_refl (or_introl eq_refl))
    as (Hseq & b' & Hb' & Hvy).
  split; [exact Hseq|]. split.
  { exists b'. split; [exact Hb'|].
    rewrite Hvy. simpl. destruct (clamps _ _); reflexivity. }
  assert (Hk : NoDup (JsMap.keys
                        (PlayerPhysicsManager.players Scenario.pm_jump)))
    by (constructor; [simpl; tauto|constructor]).
  assert (Hnd : NoDup (ownedBodies Scenario.pw_a))
    by (constructor; [simpl; tauto|constructor]).
  exact (proj1 (Hstored (1 / 30) Scenario.pm_jump Scenario.pw_a
                  Scenario.player_a Hk Hnd eq_refl eq_refl eq_refl)).
Defined.

(** The claim fails twice on a player that has fallen through the
    ground with vertical velocity -3 and whose stored input asks for a
    jump.  At the first tick the player is airborne and the jump is
    rejected, yet the vertical velocity left on the body is 0, not -3:
    the safety clamp has put the player back on the ground.  At the
    second tick, with no new input, the player is grounded and the
    same stored input makes it jump. *)
Lemma C5_counterexample :
  let r1 :=
    PlayerPhysicsManager.update Scenario.envGround (1 / 30) Scenario.pm_jump
                                Scenario.pw_fallen in
  let r2 :=
    PlayerPhysicsManager.update Scenario.envGround (1 / 30) (fst r1)
                                (snd r1) in
  JsMap.get "player_a" (PlayerPhysicsManager.playerInputs Scenario.pm_jump)
  = Some (Scenario.idle 1 true)
  /\ PlayerPhysicsManager.groundedOf "player_a"
       (PhysicsWorld.updatePlayerGrounded Scenario.envGround "player_a"
                                          Scenario.pw_fallen) = false
  /\ (exists b,
         PhysicsWorld.body Scenario.pw_fallen "player_a" = Some (0%nat, b)
         /\ vy (RAPIER.linvel b) = -3)
  /\ (exists b1,
         PhysicsWorld.body (snd r1) "player_a" = Some (0%nat, b1)
         /\ vy (RAPIER.linvel b1) = 0)
  /\ PlayerPhysicsManager.playerInputs (fst r1)
     = PlayerPhysicsManager.playerInputs Scenario.pm_jump
  /\ (exists b2,
         PhysicsWorld.body (snd r2) "player_a" = Some (0%nat, b2)
         /\ vy (RAPIER.linvel b2) = CONFIG.jumpForce).
Proof.
  intros r1 r2.
  set (env := Scenario.envGround) in *.
  set (i := Scenario.idle 1 true).
  set (b0 := RAPIER.setLinvel (mkVec3 0 (-3) 0)
               (RAPIER.dynamic (mkVec3 0 (-10 + CONFIG.playerHeight / 2) 0)
                               quatId)).
  assert (Hb0 : PhysicsWorld.body Scenario.pw_fallen "player_a"
                = Some (0%nat, b0)) by reflexivity.
  assert (Hd0 : exists g n,
             JsMap.get "player_a" (PhysicsWorld.entityData Scenario.pw_fallen)
             = Some (PhysicsWorld.PlayerData "a" g n))
    by (eexists _, _; reflexivity).
  destruct Hd0 as (g0 & n0 & Hd0).
  assert (Hp0 : present Scenario.pw_fallen "player_a" = true).
  { unfold present. now rewrite Hb0, Hd0. }
  destruct (groundedOf_updatePlayerGrounded env _ _ Hb0 Hd0)
    as (Hg0 & g1 & n1 & Hd1).
  assert (Hair : PlayerPhysicsManager.groundedOf "player_a"
                   (PhysicsWorld.updatePlayerGrounded env "player_a"
                      Scenario.pw_fallen) = false).
  { rewrite Hg0. unfold PhysicsWorld.raycast, env, Scenario.envGround, b0.
    cbn [castRay RAPIER.translation RAPIER.setLinvel RAPIER.dynamic vy].
    rewrite Rltb_true by (unfold CONFIG.playerHeight; lra). reflexivity. }
  assert (Hc0 : clamps env b0 = true).
  { unfold clamps, TerrainPhysicsManager.getHeightAt, b0.
    apply Rltb_true. unfold CONFIG.playerHeight. simpl. lra. }
  assert (E1 : r1
               = ({| PlayerPhysicsManager.players :=
                       [("player_a",
                         fst (PlayerPhysicsManager.updatePlayerMovement env
                                "player_a" Scenario.player_a i (1 / 30)
                                Scenario.pw_fallen))];
                     PlayerPhysicsManager.playerInputs :=
                       PlayerPhysicsManager.playerInputs Scenario.pm_jump;
                     PlayerPhysicsManager.inputHistory :=
                       PlayerPhysicsManager.inputHistory Scenario.pm_jump |},
                  snd (PlayerPhysicsManager.updatePlayerMovement env
                         "player_a" Scenario.player_a i (1 / 30)
                         Scenario.pw_fallen))).
  { unfold r1. apply update_single; reflexivity. }
  set (p1 := fst (PlayerPhysicsManager.updatePlayerMovement env "player_a"
                    Scenario.player_a i (1 / 30) Scenario.pw_fallen)) in *.
  set (pw1 := snd (PlayerPhysicsManager.updatePlayerMovement env "player_a"
                     Scenario.player_a i (1 / 30) Scenario.pw_fallen)) in *.
  destruct (@updatePlayerMovement_clamped env "player_a" Scenario.player_a i
              (1 / 30) Scenario.pw_fallen 0%nat b0 Hb0 Hp0 Hc0)
    as (b1 & Hb1 & Htr1 & Hvy1).
  fold pw1 in Hb1.
  assert (Hd1' : JsMap.get "player_a" (PhysicsWorld.entityData pw1)
                 = Some (PhysicsWorld.PlayerData "a" g1 n1)).
  { unfold pw1. rewrite entityData_updatePlayerMovement by exact Hp0.
    exact Hd1. }
  assert (Hp1 : present pw1 "player_a" = true).
  { unfold present. now rewrite Hb1, Hd1'. }
  assert (Hv1 : PlayerPhysicsManager.vehicleId p1 = None).
  { destruct (updatePlayerMovement_frame env "player_a" Scenario.player_a i
                (1 / 30) Scenario.pw_fallen) as (_ & _ & Hveh & _).
    exact Hveh. }
  assert (Hy1 : vy (RAPIER.translation b1) = CONFIG.playerHeight / 2).
  { rewrite Htr1. unfold TerrainPhysicsManager.getHeightAt, env.
    cbn [vy getTerrainHeight Scenario.envGround]. lra. }
  destruct (groundedOf_updatePlayerGrounded env _ _ Hb1 Hd1')
    as (Hg1 & _).
  assert (Hground : PlayerPhysicsManager.groundedOf "player_a"
                      (PhysicsWorld.updatePlayerGrounded env "player_a" pw1)
                    = true).
  { rewrite Hg1. unfold PhysicsWorld.raycast, env, Scenario.envGround.
    cbn [castRay]. rewrite Hy1.
    rewrite Rltb_false by (unfold CONFIG.playerHeight; lra).
    rewrite Rleb_true by (unfold CONFIG.playerHeight; lra).
    cbn [PhysicsWorld.rh_distance RAPIER.toi].
    apply Rltb_true. unfold CONFIG.playerHeight. lra. }
  assert (Hc1 : clamps env b1 = false).
  { unfold clamps. rewrite Hy1. apply Rltb_false.
    unfold TerrainPhysicsManager.getHeightAt, env.
    cbn [getTerrainHeight Scenario.envGround]. lra. }
  assert (E2 : r2
               = ({| PlayerPhysicsManager.players :=
                       [("player_a",
                         fst (PlayerPhysicsManager.updatePlayerMovement env
                                "player_a" p1 i (1 / 30) pw1))];
                     PlayerPhysicsManager.playerInputs :=
                       PlayerPhysicsManager.playerInputs Scenario.pm_jump;
                     PlayerPhysicsManager.inputHistory :=
                       PlayerPhysicsManager.inputHistory Scenario.pm_jump |},
                  snd (PlayerPhysicsManager.updatePlayerMovement env
                         "player_a" p1 i (1 / 30) pw1))).
  { unfold r2. rewrite E1. cbn [fst snd].
    rewrite (@update_single env (1 / 30)
               {| PlayerPhysicsManager.players := [("player_a", p1)];
                  PlayerPhysicsManager.playerInputs :=
                    PlayerPhysicsManager.playerInputs Scenario.pm_jump;
                  PlayerPhysicsManager.inputHistory :=
                    PlayerPhysicsManager.inputHistory Scenario.pm_jump |}
               pw1 "player_a" p1 i eq_refl Hv1 eq_refl).
    reflexivity. }
  destruct (updatePlayerMovement_present env "player_a" p1 i (1 / 30) pw1
              Hb1 Hp1)
    as (_ & _ & _ & _ & _ & _ & b2 & Hb2 & Hvy2).
  rewrite Hc1, Hground in Hvy2. unfold newVelY in Hvy2.
  cbn [PlayerPhysicsManager.jump PlayerPhysicsManager.crouch i Scenario.idle
       andb negb] in Hvy2.
  split; [reflexivity|]. split; [exact Hair|].
  split; [exists b0; split; [exact Hb0|reflexivity]|].
  split; [exists b1; rewrite E1; split; [exact Hb1|exact Hvy1]|].
  split; [rewrite E1; reflexivity|].
  exists b2. rewrite E2. split; [exact Hb2|exact Hvy2].
Qed.
